(* ===== verification/_CoqProject ===== *)
-Q . S2P
Prelude.v
Utils.v
Addr.v
Checksum.v
Ipv4.v
Arp.v
Udp.v
Dhcp.v
Ethernet.v
Interfaces.v
Icmp.v
Handler.v
HandlerSpec.v
HandlerStep.v
HandlerTheorems.v
Ppa.v
Streams.v
NetTask.v
Pci.v
Probe.v
Rng.v
RngTheorems.v
Executor.v
Timers.v
Vga.v
Serial.v
Mutex.v
Exceptions.v
Apic.v
Calibration.v
Acpi.v
Device.v
Hal.v
Interrupts.v
Tasks.v
Processor.v
Board.v
Boot.v
System.v
EndToEnd.v
Startup.v
Machine.v
TestLink.v
TestTransport.v
