(* ===== verification/Prelude.v ===== *)
(** * conc_os, verified

    A development about [conc_os], a small x86_64 kernel in Rust with a network stack: the
    crate [net] (parsers and serializers) and the crate [kernel] (memory, interrupts, an
    executor of asynchronous tasks, drivers and the network interface).  Every definition
    is translated from the source named beside it; the theorems are about those
    definitions.

    ** How Rust is modelled

    A function that can panic returns an [outcome]: a value, [Panic] (a failed index,
    [unwrap], [expect] or [assert!], or an arithmetic overflow, which the [dev] profile
    checks), or [OutOfFuel] for a loop whose recursion is not structural.  [Result] is
    [result], [?] is the notation [x ←? m; k].  An integer is a [Z]; its width is a range
    ([urange 8], written [u8]) and every wrap ([as u8], [wrapping_add]) or check ([+], [*])
    is written out ([wrap], [add_w], [mul_w]).  Bytes are [list Z].  Code that mutates
    state is a [prog S A], a function from states to outcomes.  An [async fn] is the state
    machine of its program points ([Tasks]).  Interrupts that fall between two actions are
    steps of a relation ([Streams], [Executor.Sleep], [Mutex], [System]).

    Code that is not in the repository is a class, and what the kernel relies on of it a
    second class of laws, named with [Ok]: the card ([NetDriver], [NetReceiver]), queues and
    wakers ([ArrayQueue], [AtomicWaker]), futures ([Future]), ports, memory-mapped registers
    and memory ([PortIo], [Mmio], [Ram]), configuration space ([PciHost]), VirtIO drivers
    ([VirtioDriver]; at start-up [HalDriver], a program over the kernel's [Hal]), entropy
    hardware and the cipher ([EntropyHw], [ChaCha]), the I/O APIC ([IoApicHw]), the PIT and
    the local APIC's timer ([TimerHwOk]: what the manuals say an access does to the two
    clocks, and that it takes some time), the terminal and the UART ([Tty], [Uart]), the
    processor's tables, addresses and control registers ([X86]: physical addresses have 52
    bits, virtual ones are canonical).  Each has a concrete instance, in a module
    [Example...], on which the theorems are applied.

    ** The parts

    The crate [net]:
    - [Utils]: reading integers from slices ([utils.rs]).
    - [Addr], [Ethernet]: addresses and frames ([ethernet.rs]).
    - [Checksum], [Ipv4]: the Internet checksum and IPv4 packets ([ipv4.rs]).
    - [Arp]: the cache with its parked frames, and ARP packets ([arp.rs]).
    - [Udp], [Dhcp]: datagrams, and the client's messages ([udp.rs], [dhcp.rs]).
    - [TestLink], [TestTransport]: the crate's 124 unit tests, run on the definitions.

    The network interface, [kernel/src/network/handler.rs]:
    - [Interfaces]: what it needs of the card and of the random numbers.
    - [Icmp], [Handler]: its operations, from [init_network_interface] to [handle_packet].
    - [HandlerSpec], [HandlerStep], [HandlerTheorems]: its invariant, what one received packet
      does, and the theorems.
    - [Streams], [NetTask]: the interrupt's events and the task that receives
      ([task/network.rs], [task/serial.rs]).

    Memory: [Ppa] ([allocation/ppa.rs]), [Hal] ([virtio.rs], [allocation/allocator.rs], and
    the programs a driver runs over them), [Board] (a machine with the processor and the
    memory statics beside it, on which such a program is a driver).

    Devices and randomness: [Pci] ([pci.rs]), [Probe] (the scans of [rng.rs] and
    [network/device.rs]), [Rng] and [RngTheorems] ([rng.rs]), [Device] ([network/device.rs]),
    [Vga] ([vga.rs]), [Serial] ([serial.rs] and the terminal task).

    Interrupts, time and tasks: [Apic] ([apic.rs], the tables of [acpi_handling.rs], the
    calibration of [time.rs]), [Calibration] (the clocks it is about, and its theorem),
    [Acpi] (the handler of [acpi_handling.rs]), [Interrupts] ([interrupts.rs]), [Mutex]
    ([mutex.rs]), [Timers] ([time.rs], [task/time.rs], the clock task), [Executor]
    ([task/executor.rs], [task/mod.rs]).

    The processor: [Processor] ([gdt.rs], the IDT of [interrupts.rs], [memory.rs]) and
    [Exceptions] (the exception handlers, the panic handler, [println!]).

    The whole kernel: [Tasks] has the three tasks of [main.rs] and [task/network.rs] as
    futures; [Boot] composes the components in the order of [main.rs]; [System] is
    [executor.run()] over the tasks with the interrupts falling where they may; [EndToEnd]
    and [Startup] follow an input, and the start, through all of it; [Machine] is a
    concrete machine the theorems of the last three are applied to.

    ** What is shown

    - The stack survives the network ([NetTask.network_task_safe]): whatever bytes arrive,
      no index, conversion or arithmetic of the whole receive path fails, and every frame
      sent is well formed.  Below it, each parser is total and equal to a reference on every
      branch ([Ipv4.from_packet_total], [Dhcp.parse_options_spec], [Udp.udp_from_packet_spec],
      [Ethernet.ethernet_new_spec]), and parsing and serializing are inverse
      ([Ipv4.parse_then_serialize], [Ipv4.serialize_then_parse], [Udp.udp_roundtrip]).
    - The interface's behaviour: who can configure it ([configured_only_by_ack]), the whole
      exchange that does ([dhcp_exchange]), echo, routing and ARP ([echo_replied],
      [send_ipv4_spec], [handle_arp_spec]); the cache loses no frame and stays within its
      bounds ([Arp.cache_conserves], [Arp.cache_bounded]).
    - The kernel starts on a machine that can be started ([boot_ok], a condition on the
      memory map, the mapping and the hardware as it is found), with its tables loaded, its
      heap and its drivers' memory allocated and its tasks spawned ([Boot.kernel_starts]); every exception and device vector finds its
      handler, a double fault on a stack of its own ([Processor.vectors_delivered]); and
      the first run of the executor reaches [hlt] with the prompt printed and the streams
      in place, whatever interrupts fell before it ([Startup.kernel_comes_up]).
    - The running kernel: from any state it gets into, under any interleaving of
      interrupts, the only panic while the clock runs is the overflow of the queue of tasks
      ([System.only_overflow_panics]); when it halts, every task waits for something that
      has not come ([System.halted_kernel_idle]); left alone, it comes to halt
      ([System.kernel_settles]); and between interrupts it is the executor of [Executor]
      over the futures of [Tasks] ([System.run_loop_refines]).
    - From the wire to the wire: a ping that arrives while the kernel sleeps is answered
      ([EndToEnd.ping_answered]), a line typed is repeated ([EndToEnd.line_answered]), and
      the clock prints the time when its second is over ([EndToEnd.clock_strikes]).
    - A fault is reported on the screen and the serial line ([Exceptions.faults_reported]).
    - Memory is given to one owner at a time ([Ppa.history_spec]), the allocator made from
      the boot loader's map hands out usable memory only ([Ppa.new_ppa_spec]), and DMA
      buffers are zeroed and private ([Hal.dma_alloc_spec], [Hal.heap_dma_disjoint]).
    - Interrupts: no event and no wake-up is lost between a handler and a task
      ([Streams.stream_spec]); a handler never spins on a lock its victim holds
      as long as guards are dropped innermost first ([Mutex.interrupt_mutex_spec], which
      also shows what a drop in another order leads to); the processor never sleeps with work queued
      ([Executor.Sleep.halted_idle]); every handler ends its interrupt once
      ([Interrupts.interrupt_handlers_spec]); sleepers are woken on time
      ([Timers.sleeper_woken]).  Wake-ups of one task are not merged, and
      [Executor.wakeups_overflow] shows the panic this can lead to.  The timer is set to
      1 kHz by the PIT's clock ([Calibration.init_timer_spec]).
    - Randomness: the generator refines fast key erasure ([csprng_fill_spec]), the seed has
      every source that delivered ([gather_seed_spec]), and the kernel does not claim more
      than it has ([entropy_honest]); scanning for a device touches no other
      ([init_virtio_rng_spec], [Device.init_virtio_net_spec]).

    ** Fuel

    [Checksum.fold_carry] has 3 rounds, enough to fold any 32-bit sum; the options loop of
    [Dhcp] one more than there are bytes, since every round advances.  Both are proved to
    suffice.  Loops that wait for something outside take their fuel as an argument, and
    the theorems hold for any fuel above a bound of the environment: the packets a card
    can deliver ([backlog]), the wake-ups the futures can still cause ([work]), the
    window the PIT is polled for ([window], in the unit of time of which every access takes
    one at least), the bytes in the UART.  Loops that never end (the
    tasks, the executor) are modelled by their steps.  A poll of a task is at most
    [POLL_ROUNDS] + 3 * packets of them: 609 cover what a full queue causes, and three
    go to each packet the card can still deliver.

    ** Not modelled

    Module declarations and re-exports.  What the crates do behind their interfaces: the
    encoding of descriptors and gates, the page-table walk, the heap allocator, the
    drivers' rings, and the buffers a driver shares once it has come up.  Formatting, beyond the hardware address; what is printed is kept as
    data where a theorem speaks of it, and the texts of a fault's report are arguments.
    [zeroize]: the buffers it overwrites are never read again.  The random source of the
    running network interface has a state of its own: no other task draws from it. *)

From stdpp Require Export base list numbers option gmap.
Local Open Scope Z_scope.

(** ** Outcomes and results

    [outcome A] is what running a Rust function gives: a value, a panic (a
    failed index, [unwrap], [expect], [assert!] or an arithmetic overflow under
    the [dev] profile's checks), or, for the loops that are modelled with fuel,
    not having finished within it.  [result A E] is Rust's [Result]. *)

Inductive outcome (A : Type) : Type :=
| Ret (a : A)
| Panic
| OutOfFuel.
Arguments Ret {A} a.
Arguments Panic {A}.
Arguments OutOfFuel {A}.

Inductive result (A E : Type) : Type :=
| Ok (a : A)
| Err (e : E).
Arguments Ok {A E} a.
Arguments Err {A E} e.

#[export] Instance outcome_ret : MRet outcome := @Ret.
#[export] Instance outcome_bind : MBind outcome := λ A B f m,
  match m with Ret a => f a | Panic => Panic | OutOfFuel => OutOfFuel end.

(** The [?] operator: an [Err] is returned from the enclosing function. *)
Definition try_bind {A B E} (f : A → outcome (result B E)) (m : outcome (result A E)) :
    outcome (result B E) :=
  m ≫= λ r, match r with Ok a => f a | Err e => Ret (Err e) end.

Declare Scope rust_scope.
Delimit Scope rust_scope with rust.
Notation "x ←? y ; z" := (try_bind (λ x, z) y)
  (at level 20, y at level 100, z at level 200, only parsing) : rust_scope.
Notation "' x ←? y ; z" := (try_bind (λ x, z) y)
  (at level 20, x pattern, y at level 100, z at level 200, only parsing) : rust_scope.
#[global] Open Scope rust_scope.

Definition expect {A} (o : option A) : outcome A :=
  match o with Some a => Ret a | None => Panic end.

(** [Once::call_once]: the first value stays. *)
Definition call_once {A} (o : option A) (a : A) : option A :=
  match o with Some b => Some b | None => Some a end.

Definition returns {A} (m : outcome A) : Prop := ∃ a, m = Ret a.

#[export] Instance outcome_eq_dec `{EqDecision A} : EqDecision (outcome A).
Proof. solve_decision. Defined.
#[export] Instance result_eq_dec `{EqDecision A, EqDecision E} : EqDecision (result A E).
Proof. solve_decision. Defined.

Lemma bind_Ret {A B} (f : A → outcome B) (a : A) : Ret a ≫= f = f a.
Proof. reflexivity. Qed.

Lemma try_Ok {A B E} (f : A → outcome (result B E)) (a : A) : try_bind f (Ret (Ok a)) = f a.
Proof. reflexivity. Qed.

Lemma try_Err {A B E} (f : A → outcome (result B E)) (e : E) :
  try_bind f (Ret (Err e)) = Ret (Err e).
Proof. reflexivity. Qed.

Lemma bind_returns {A B} (f : A → outcome B) (m : outcome A) (b : B) :
  m ≫= f = Ret b ↔ ∃ a, m = Ret a ∧ f a = Ret b.
Proof. destruct m; naive_solver. Qed.

Lemma returns_Ret {A} (a : A) : returns (Ret a).
Proof. by exists a. Qed.

(** ** Machine integers *)

(** [z] fits in an unsigned [w]-bit integer. *)
Definition urange (w z : Z) : Prop := 0 ≤ z < 2 ^ w.
#[export] Instance urange_dec w z : Decision (urange w z).
Proof. unfold urange. apply _. Defined.
Abbreviation u8 := (urange 8).
Abbreviation u16 := (urange 16).
Abbreviation u32 := (urange 32).
Abbreviation u64 := (urange 64).

(** A byte string: [&[u8]]. *)
Abbreviation bytes := (Forall u8).

Definition wrap (w z : Z) : Z := z mod 2 ^ w.

(** [a + b], [a - b] and [a * b] at width [w], checked as under the [dev]
    profile. *)
Definition checked (w z : Z) : outcome Z :=
  if (0 <=? z) && (z <? 2 ^ w) then Ret z else Panic.
Definition add_w (w a b : Z) : outcome Z := checked w (a + b).
Definition sub_w (w a b : Z) : outcome Z := checked w (a - b).
Definition mul_w (w a b : Z) : outcome Z := checked w (a * b).

(** [!a] at width [w]. *)
Definition not_w (w a : Z) : Z := Z.land (Z.lnot a) (Z.ones w).

(** [u16::try_from] of a [usize]. *)
Definition try_from_usize (w z : Z) : option Z :=
  if (0 <=? z) && (z <? 2 ^ w) then Some z else None.

Lemma checked_ok w z : urange w z → checked w z = Ret z.
Proof.
  intros [??]. unfold checked. rewrite (proj2 (Z.leb_le _ _)) by lia.
  by rewrite (proj2 (Z.ltb_lt _ _)) by lia.
Qed.

Lemma checked_inv w z r : checked w z = Ret r → r = z ∧ urange w z.
Proof.
  unfold checked, urange. destruct (Z.leb_spec 0 z), (Z.ltb_spec z (2 ^ w)); naive_solver.
Qed.

Lemma try_from_usize_ok w z : urange w z → try_from_usize w z = Some z.
Proof.
  intros [??]. unfold try_from_usize. rewrite (proj2 (Z.leb_le _ _)) by lia.
  by rewrite (proj2 (Z.ltb_lt _ _)) by lia.
Qed.

Lemma try_from_usize_none w z : 2 ^ w ≤ z → try_from_usize w z = None.
Proof.
  intros ?. unfold try_from_usize. rewrite (proj2 (Z.ltb_ge z _)) by lia.
  by rewrite andb_false_r.
Qed.

Lemma wrap_id w z : urange w z → wrap w z = z.
Proof. apply Z.mod_small. Qed.

Lemma wrap_range w z : 0 ≤ w → urange w (wrap w z).
Proof. intros. apply Z.mod_pos_bound. lia. Qed.

Lemma not_w_eq w a : 0 ≤ w → urange w a → not_w w a = 2 ^ w - 1 - a.
Proof.
  intros Hw Ha. unfold not_w. rewrite Z.land_ones by done.
  unfold Z.lnot. rewrite <- (Z.mod_add _ 1) by lia. unfold urange in Ha.
  rewrite Z.mod_small; lia.
Qed.

Lemma land_ones_mod w z : 0 ≤ w → Z.land z (2 ^ w - 1) = z mod 2 ^ w.
Proof.
  intros. rewrite <- Z.land_ones by done. by rewrite Z.ones_equiv, <- Z.sub_1_r.
Qed.

Lemma land_pow2 x k : 0 ≤ k → Z.land x (2 ^ k) = if Z.testbit x k then 2 ^ k else 0.
Proof.
  intros Hk. apply Z.bits_inj'. intros n Hn. rewrite Z.land_spec, Z.pow2_bits_eqb by done.
  destruct (Z.eqb_spec k n) as [<-|Hne].
  - rewrite andb_true_r. destruct (Z.testbit x k) eqn:E.
    + by rewrite Z.pow2_bits_true.
    + by rewrite Z.testbit_0_l.
  - rewrite andb_false_r. destruct (Z.testbit x k); [|by rewrite Z.testbit_0_l].
    by rewrite Z.pow2_bits_false.
Qed.

(** [x & (1 << k) != 0] *)
Lemma land_pow2_test x k : 0 ≤ k → negb (Z.land x (2 ^ k) =? 0) = Z.testbit x k.
Proof.
  intros Hk. rewrite land_pow2 by done. destruct (Z.testbit x k); [|done].
  rewrite (proj2 (Z.eqb_neq _ _)); [done|]. apply Z.pow_nonzero; lia.
Qed.

(** [a | b] of disjoint fields is their sum. *)
Lemma lor_add a b n : 0 ≤ n → 0 ≤ b < 2 ^ n → a mod 2 ^ n = 0 → Z.lor a b = a + b.
Proof.
  intros Hn Hb Ha.
  assert (Z.land a b = 0) as Hz.
  { apply Z.bits_inj'. intros k Hk. rewrite Z.land_spec, Z.testbit_0_l.
    destruct (decide (k < n)) as [Hkn|Hkn].
    - apply andb_false_intro1. rewrite <- (Z.mod_pow2_bits_low a n k) by lia.
      by rewrite Ha, Z.testbit_0_l.
    - apply andb_false_intro2. rewrite <- (Z.mod_small b (2 ^ n)) by done.
      apply Z.mod_pow2_bits_high. lia. }
  rewrite Z.add_nocarry_lxor by done. symmetry. by apply Z.lxor_lor.
Qed.

(** ** Slices, arrays and vectors

    Indices are [usize] values, kept in [Z]. *)

Definition len {A} (l : list A) : Z := Z.of_nat (length l).

(** [l[a..b]] when in range. *)
Definition sub {A} (l : list A) (a b : Z) : list A :=
  take (Z.to_nat (b - a)) (drop (Z.to_nat a) l).

(** [l.get(a..b)] *)
Definition get_range {A} (l : list A) (a b : Z) : option (list A) :=
  if (0 <=? a) && (a <=? b) && (b <=? len l) then Some (sub l a b) else None.

(** [l.get(i)] *)
Definition get {A} (l : list A) (i : Z) : option A :=
  if 0 <=? i then l !! Z.to_nat i else None.

(** [&l[a..b]], [&l[a..]], [&l[..b]] and [l[i]]: a panic out of range. *)
Definition slice {A} (l : list A) (a b : Z) : outcome (list A) := expect (get_range l a b).
Definition slice_from {A} (l : list A) (a : Z) : outcome (list A) := slice l a (len l).
Definition slice_to {A} (l : list A) (b : Z) : outcome (list A) := slice l 0 b.
Definition index {A} (l : list A) (i : Z) : outcome A := expect (get l i).

(** [l[i] = v] *)
Definition set_index {A} (l : list A) (i : Z) (v : A) : outcome (list A) :=
  if (0 <=? i) && (i <? len l) then Ret (<[Z.to_nat i := v]> l) else Panic.

(** [l[a..b].copy_from_slice(src)]: the lengths must agree. *)
Definition copy_range {A} (l : list A) (a b : Z) (src : list A) : outcome (list A) :=
  if (0 <=? a) && (a <=? b) && (b <=? len l) && (len src =? b - a)
  then Ret (take (Z.to_nat a) l ++ src ++ drop (Z.to_nat b) l) else Panic.

(** [[x; n]] *)
Definition array {A} (x : A) (n : Z) : list A := replicate (Z.to_nat n) x.

(** [l.chunks(n)]: pieces of [n] elements, the last one possibly shorter.  Every
    piece consumes an element, so [length l] rounds are enough. *)
Fixpoint chunks_go {A} (fuel n : nat) (l : list A) : list (list A) :=
  match fuel, l with
  | _, [] => []
  | O, _ => []
  | S fuel, _ => take n l :: chunks_go fuel n (drop n l)
  end.
Definition chunks {A} (n : nat) (l : list A) : list (list A) := chunks_go (length l) n l.

Create Rewrite HintDb len.
Create HintDb rust discriminated.

Lemma len_nonneg {A} (l : list A) : 0 ≤ len l.
Proof. unfold len. lia. Qed.
Lemma len_nil {A} : len (@nil A) = 0.
Proof. reflexivity. Qed.
Lemma len_cons {A} (x : A) l : len (x :: l) = 1 + len l.
Proof. unfold len. cbn [length]. lia. Qed.
Lemma len_app {A} (l k : list A) : len (l ++ k) = len l + len k.
Proof. unfold len. rewrite length_app. lia. Qed.
Lemma len_array {A} (x : A) n : 0 ≤ n → len (array x n) = n.
Proof. intros. unfold len, array. rewrite length_replicate. lia. Qed.
Lemma len_sub {A} (l : list A) a b : 0 ≤ a ≤ b → b ≤ len l → len (sub l a b) = b - a.
Proof. unfold len, sub. rewrite length_take, length_drop. lia. Qed.
Lemma len_take {A} (l : list A) n : (n ≤ length l)%nat → len (take n l) = Z.of_nat n.
Proof. unfold len. rewrite length_take. lia. Qed.
Lemma len_drop {A} (l : list A) n : len (drop n l) = Z.max 0 (len l - Z.of_nat n).
Proof. unfold len. rewrite length_drop. lia. Qed.
Lemma len_insert {A} (l : list A) i v : len (<[i := v]> l) = len l.
Proof. unfold len. by rewrite length_insert. Qed.
#[export] Hint Rewrite @len_nil @len_cons @len_app @len_drop @len_insert : len.
#[export] Hint Rewrite @len_array @len_sub using lia : len.

(** Bounds on lengths: [len_lia] normalises every [len] and calls [lia]. *)
Ltac len_nonnegs :=
  repeat match goal with
  | |- context [len ?l] =>
      lazymatch goal with H : 0 ≤ len l |- _ => fail | _ => pose proof (len_nonneg l) end
  | H : context [len ?l] |- _ =>
      lazymatch goal with H : 0 ≤ len l |- _ => fail | _ => pose proof (len_nonneg l) end
  end.
Ltac len_lia := autorewrite with len in *; len_nonnegs; lia.

Lemma get_range_ok {A} (l : list A) a b :
  0 ≤ a ≤ b → b ≤ len l → get_range l a b = Some (sub l a b).
Proof.
  intros. unfold get_range.
  rewrite !(proj2 (Z.leb_le _ _)) by lia. done.
Qed.

Lemma get_range_none {A} (l : list A) a b : len l < b → get_range l a b = None.
Proof.
  intros. unfold get_range. rewrite (proj2 (Z.leb_gt b _)) by lia. by rewrite andb_false_r.
Qed.

Lemma get_range_some {A} (l : list A) a b s :
  get_range l a b = Some s → 0 ≤ a ≤ b ∧ b ≤ len l ∧ s = sub l a b.
Proof.
  unfold get_range.
  destruct (Z.leb_spec 0 a), (Z.leb_spec a b), (Z.leb_spec b (len l)); naive_solver.
Qed.

Lemma slice_ok {A} (l : list A) a b : 0 ≤ a ≤ b → b ≤ len l → slice l a b = Ret (sub l a b).
Proof. intros. unfold slice. by rewrite get_range_ok. Qed.

Lemma slice_from_ok {A} (l : list A) a :
  0 ≤ a ≤ len l → slice_from l a = Ret (drop (Z.to_nat a) l).
Proof.
  intros. unfold slice_from. rewrite slice_ok by lia. f_equal. unfold sub.
  apply take_ge. rewrite length_drop. unfold len in *. lia.
Qed.

Lemma slice_to_ok {A} (l : list A) b :
  0 ≤ b ≤ len l → slice_to l b = Ret (take (Z.to_nat b) l).
Proof.
  intros. unfold slice_to. rewrite slice_ok by lia. f_equal. unfold sub.
  by rewrite Z.sub_0_r.
Qed.

Lemma get_lookup {A} (l : list A) i : 0 ≤ i → get l i = l !! Z.to_nat i.
Proof. intros. unfold get. by rewrite (proj2 (Z.leb_le _ _)) by lia. Qed.

Lemma get_some {A} (l : list A) i x : get l i = Some x → 0 ≤ i < len l.
Proof.
  unfold get. destruct (Z.leb_spec 0 i); [|done].
  intros ?%lookup_lt_Some. unfold len. lia.
Qed.

Lemma get_is_some {A} (l : list A) i : 0 ≤ i < len l → ∃ x, get l i = Some x.
Proof.
  intros. rewrite get_lookup by lia. apply lookup_lt_is_Some. unfold len in *. lia.
Qed.

Lemma get_none {A} (l : list A) i : len l ≤ i → get l i = None.
Proof.
  intros. pose proof (len_nonneg l). rewrite get_lookup by lia. apply lookup_ge_None.
  unfold len in *. lia.
Qed.

Lemma index_get {A} (l : list A) i x : get l i = Some x → index l i = Ret x.
Proof. intros H. unfold index. by rewrite H. Qed.

Lemma index_inv {A} (l : list A) i x : index l i = Ret x → get l i = Some x.
Proof. unfold index, expect. destruct (get l i); congruence. Qed.

Lemma index_returns {A} (l : list A) i : 0 ≤ i < len l → returns (index l i).
Proof. intros [x Hx]%get_is_some. exists x. by apply index_get. Qed.

Lemma set_index_ok {A} (l : list A) i v :
  0 ≤ i < len l → set_index l i v = Ret (<[Z.to_nat i := v]> l).
Proof.
  intros. unfold set_index. rewrite (proj2 (Z.leb_le _ _)), (proj2 (Z.ltb_lt _ _)) by lia.
  done.
Qed.

Lemma set_index_inv {A} (l l' : list A) i v :
  set_index l i v = Ret l' → 0 ≤ i < len l ∧ l' = <[Z.to_nat i := v]> l.
Proof.
  unfold set_index. destruct (Z.leb_spec 0 i), (Z.ltb_spec i (len l)); naive_solver.
Qed.

Lemma copy_range_ok {A} (l : list A) a b src :
  0 ≤ a ≤ b → b ≤ len l → len src = b - a →
  copy_range l a b src = Ret (take (Z.to_nat a) l ++ src ++ drop (Z.to_nat b) l).
Proof.
  intros. unfold copy_range.
  rewrite !(proj2 (Z.leb_le _ _)), (proj2 (Z.eqb_eq _ _)) by lia. done.
Qed.

(** Overwriting a middle piece. *)
Lemma copy_range_app {A} (l m r src : list A) a b :
  a = len l → b = len l + len m → len src = len m →
  copy_range (l ++ m ++ r) a b src = Ret (l ++ src ++ r).
Proof.
  intros -> -> Hs. pose proof (len_nonneg l). pose proof (len_nonneg m). pose proof (len_nonneg r).
  rewrite copy_range_ok by (rewrite ?len_app; lia). f_equal.
  replace (Z.to_nat (len l + len m)) with (length l + length m)%nat by (unfold len; lia).
  unfold len. rewrite Nat2Z.id, take_app_length, <- drop_drop, drop_app_length.
  by rewrite drop_app_length.
Qed.

(** Overwriting all of it. *)
Lemma copy_range_all {A} (l src : list A) b :
  b = len l → len src = len l → copy_range l 0 b src = Ret src.
Proof.
  intros -> Hs. rewrite <- (app_nil_r l) at 1. rewrite (copy_range_app [] l []) by done.
  by rewrite app_nil_r.
Qed.

(** *** Where a slice of a concatenation falls *)

Lemma sub_app_l {A} (l k : list A) a b : 0 ≤ a ≤ b → b ≤ len l → sub (l ++ k) a b = sub l a b.
Proof.
  intros. unfold sub, len in *. rewrite drop_app_le by lia.
  apply take_app_le. rewrite length_drop. lia.
Qed.

Lemma sub_app_r {A} (l k : list A) a b :
  len l ≤ a ≤ b → sub (l ++ k) a b = sub k (a - len l) (b - len l).
Proof.
  intros. unfold sub, len in *. rewrite drop_app_ge by lia. f_equal; [lia|]. f_equal. lia.
Qed.

Lemma sub_all {A} (l : list A) a n : a = 0 → n = len l → sub l a n = l.
Proof. intros -> ->. unfold sub, len. rewrite drop_0. apply take_ge. lia. Qed.

Lemma sub_Forall {A} (P : A → Prop) (l : list A) a b : Forall P l → Forall P (sub l a b).
Proof. intros. by apply Forall_take, Forall_drop. Qed.

Lemma take_drop_sub {A} (l : list A) a b :
  0 ≤ a ≤ b → take (Z.to_nat a) l ++ sub l a b ++ drop (Z.to_nat b) l = l.
Proof.
  intros. unfold sub.
  replace (drop (Z.to_nat b) l) with (drop (Z.to_nat (b - a)) (drop (Z.to_nat a) l)).
  2: { rewrite drop_drop. f_equal. lia. }
  by rewrite take_drop, take_drop.
Qed.

Lemma take_len {A} (l : list A) n : take (Z.to_nat n) l = sub l 0 n.
Proof. unfold sub. by rewrite Z.sub_0_r. Qed.

Lemma sub_take {A} (l : list A) n a b :
  0 ≤ a ≤ b → b ≤ n → sub (take (Z.to_nat n) l) a b = sub l a b.
Proof.
  intros. unfold sub. rewrite skipn_firstn_comm, take_take. f_equal. lia.
Qed.

Lemma drop_take_sub {A} (l : list A) n a :
  0 ≤ a ≤ n → drop (Z.to_nat a) (take (Z.to_nat n) l) = sub l a n.
Proof. intros. unfold sub. rewrite skipn_firstn_comm. f_equal. lia. Qed.

Lemma sub_sub {A} (l : list A) n a b :
  0 ≤ a ≤ b → b ≤ n → sub (sub l 0 n) a b = sub l a b.
Proof. intros. rewrite <- take_len. by apply sub_take. Qed.

(** Two adjacent pieces. *)
Lemma sub_split {A} (l : list A) a b c :
  0 ≤ a ≤ b → b ≤ c → sub l a c = sub l a b ++ sub l b c.
Proof.
  intros. unfold sub.
  replace (Z.to_nat (c - a)) with (Z.to_nat (b - a) + Z.to_nat (c - b))%nat by lia.
  rewrite <- take_take_drop, drop_drop. do 3 f_equal. lia.
Qed.

(** A list of a known length, written out element by element. *)
Lemma len_S_inv {A} (l : list A) n : len l = n → 0 < n → ∃ x k, l = x :: k ∧ len k = n - 1.
Proof.
  intros Hl Hn. destruct l as [|x k]; [rewrite len_nil in Hl; lia|].
  exists x, k. rewrite len_cons in Hl. split; [done|lia].
Qed.

Lemma len_0_inv {A} (l : list A) : len l = 0 → l = [].
Proof. destruct l; [done|]. rewrite len_cons. pose proof (len_nonneg l). lia. Qed.

(** *** Chunks *)

Lemma chunks_go_fuel {A} n (l : list A) fuel fuel' :
  (0 < n)%nat → (length l ≤ fuel)%nat → (length l ≤ fuel')%nat →
  chunks_go fuel n l = chunks_go fuel' n l.
Proof.
  intros Hn. revert l fuel'. induction fuel as [|fuel IH]; intros [|x l] fuel' H H';
    destruct fuel'; simpl in H, H'; try lia; try done.
  cbn [chunks_go]. f_equal. apply IH; rewrite length_drop; simpl; lia.
Qed.

Lemma chunks_nil {A} n : chunks n (@nil A) = [].
Proof. reflexivity. Qed.

Lemma chunks_step {A} n (l : list A) :
  (0 < n)%nat → l ≠ [] → chunks n l = take n l :: chunks n (drop n l).
Proof.
  intros Hn Hl. unfold chunks. destruct l as [|x l]; [done|].
  cbn [length chunks_go]. f_equal. apply chunks_go_fuel; rewrite ?length_drop; simpl; lia.
Qed.

(** ** Byte order *)

(** [to_le_bytes] / [to_be_bytes] of an [8 * n]-bit integer. *)
Fixpoint to_le_bytes (n : nat) (z : Z) : list Z :=
  match n with
  | O => []
  | S n => z mod 256 :: to_le_bytes n (z / 256)
  end.
Definition to_be_bytes (n : nat) (z : Z) : list Z := rev (to_le_bytes n z).

Fixpoint from_le_bytes (l : list Z) : Z :=
  match l with
  | [] => 0
  | b :: l => b + 256 * from_le_bytes l
  end.
Definition from_be_bytes (l : list Z) : Z := from_le_bytes (rev l).

Lemma length_to_le n z : length (to_le_bytes n z) = n.
Proof. revert z. induction n; intros; simpl; auto. Qed.

Lemma length_to_be n z : length (to_be_bytes n z) = n.
Proof. unfold to_be_bytes. by rewrite length_rev, length_to_le. Qed.

Lemma len_to_be n z : len (to_be_bytes n z) = Z.of_nat n.
Proof. unfold len. by rewrite length_to_be. Qed.
#[export] Hint Rewrite len_to_be : len.

Lemma bytes_to_le n z : bytes (to_le_bytes n z).
Proof.
  revert z. induction n; intros; simpl; constructor; auto.
  apply (Z.mod_pos_bound z 256). lia.
Qed.

Lemma bytes_to_be n z : bytes (to_be_bytes n z).
Proof. apply Forall_rev, bytes_to_le. Qed.

Lemma from_le_range l : bytes l → urange (8 * len l) (from_le_bytes l).
Proof.
  unfold urange. induction 1 as [|b l [Hb1 Hb2] Hl IH]; [done|].
  rewrite len_cons. cbn [from_le_bytes].
  rewrite Z.mul_add_distr_l, Z.pow_add_r by (pose proof (len_nonneg l); lia).
  change (2 ^ (8 * 1)) with 256. generalize dependent (2 ^ (8 * len l)).
  change (2 ^ 8) with 256 in Hb2. lia.
Qed.

Lemma from_be_range l n : bytes l → n = 8 * len l → urange n (from_be_bytes l).
Proof.
  intros Hl ->. unfold from_be_bytes.
  replace (len l) with (len (rev l)) by (unfold len; by rewrite length_rev).
  by apply from_le_range, Forall_rev.
Qed.

Lemma from_to_le n z : urange (8 * Z.of_nat n) z → from_le_bytes (to_le_bytes n z) = z.
Proof.
  unfold urange. revert z. induction n as [|n IH]; intros z Hz.
  - simpl in *. lia.
  - cbn [to_le_bytes from_le_bytes]. rewrite IH.
    + pose proof (Z.div_mod z 256). lia.
    + replace (8 * Z.of_nat (S n)) with (8 + 8 * Z.of_nat n) in Hz by lia.
      rewrite Z.pow_add_r in Hz by lia.
      split; [apply Z.div_pos; lia | apply Z.div_lt_upper_bound; lia].
Qed.

Lemma from_to_be n z : urange (8 * Z.of_nat n) z → from_be_bytes (to_be_bytes n z) = z.
Proof.
  intros. unfold from_be_bytes, to_be_bytes. rewrite rev_involutive. by apply from_to_le.
Qed.

Lemma to_from_le l : bytes l → to_le_bytes (length l) (from_le_bytes l) = l.
Proof.
  induction 1 as [|b l [Hb1 Hb2] Hl IH]; [done|]. cbn [length to_le_bytes from_le_bytes].
  rewrite (Z.mul_comm 256), Z.mod_add, Z.div_add, Z.mod_small, Z.div_small by lia.
  by rewrite Z.add_0_l, IH.
Qed.

Lemma to_from_be n l : bytes l → length l = n → to_be_bytes n (from_be_bytes l) = l.
Proof.
  intros Hl <-. unfold from_be_bytes, to_be_bytes.
  rewrite <- length_rev, to_from_le by by apply Forall_rev. apply rev_involutive.
Qed.

Lemma to_be_2 z : to_be_bytes 2 z = [z / 256 mod 256; z mod 256].
Proof. reflexivity. Qed.

Lemma from_be_2 a b : from_be_bytes [a; b] = a * 256 + b.
Proof. unfold from_be_bytes. simpl. lia. Qed.

Lemma from_be_1 a : from_be_bytes [a] = a.
Proof. unfold from_be_bytes. simpl. lia. Qed.

#[export] Hint Resolve bytes_to_be bytes_to_le returns_Ret : rust.

(** Splits every [bytes (x :: l)] in the context into its components, with the
    ranges unfolded for [lia]. *)
Ltac bytes_inv :=
  repeat match goal with
  | H : Forall _ (_ :: _) |- _ => apply Forall_cons in H; destruct H
  | H : Forall _ [] |- _ => clear H
  | H : Forall _ (_ ++ _) |- _ => apply Forall_app in H; destruct H
  | H : urange _ _ |- _ => unfold urange in H
  end.

(** Proves [bytes l] for a list built from parts, leaving the side goals that
    are not hypotheses. *)
Ltac bytes_solve :=
  repeat lazymatch goal with
  | |- Forall _ [] => apply Forall_nil_2
  | |- Forall _ (_ :: _) => apply Forall_cons_2
  | |- Forall _ (_ ++ _) => apply Forall_app_2
  | |- Forall _ (to_be_bytes _ _) => apply bytes_to_be
  | |- Forall _ (sub _ _ _) => apply sub_Forall
  | |- Forall _ (take _ _) => apply Forall_take
  | |- Forall _ (drop _ _) => apply Forall_drop
  | |- Forall _ (replicate _ _) => apply Forall_replicate
  | |- Forall _ (array _ _) => apply Forall_replicate
  end; try assumption; try (unfold urange; lia).

Lemma to_be_inj n x y :
  urange (8 * Z.of_nat n) x → urange (8 * Z.of_nat n) y →
  to_be_bytes n x = to_be_bytes n y → x = y.
Proof. intros Hx Hy H. by rewrite <- (from_to_be n x), H, from_to_be. Qed.

(** ** State-passing programs

    [prog S A] runs on a state [S] and may panic: a method that mutates shared
    state through [&mut self] or a lock. *)

Definition prog (S A : Type) : Type := S → outcome (A * S).

#[export] Instance prog_ret {S} : MRet (prog S) := λ A a s, Ret (a, s).
#[export] Instance prog_bind {S} : MBind (prog S) := λ A B f m s,
  match m s with Ret (a, s') => f a s' | Panic => Panic | OutOfFuel => OutOfFuel end.

(** A pure computation that may panic. *)
Definition lift {S A} (m : outcome A) : prog S A := λ s,
  match m with Ret a => Ret (a, s) | Panic => Panic | OutOfFuel => OutOfFuel end.

Lemma prog_bind_Ret {S A B} (f : A → prog S B) (m : prog S A) s a s' :
  m s = Ret (a, s') → (m ≫= f) s = f a s'.
Proof. intros H. unfold mbind, prog_bind. by rewrite H. Qed.

Lemma lift_bind {S A B} (f : A → prog S B) (m : outcome A) a s :
  m = Ret a → (lift m ≫= f) s = f a s.
Proof. by intros ->. Qed.

Lemma prog_bind_assoc {S A B C} (f : A → prog S B) (g : B → prog S C) (m : prog S A) s :
  ((m ≫= f) ≫= g) s = (m ≫= λ a, f a ≫= g) s.
Proof. unfold mbind, prog_bind. destruct (m s) as [[]| |]; done. Qed.

(** Total correctness of a program from a state: it returns, in a state and with a
    value that satisfy [Q]. *)
Definition wp {S A} (m : prog S A) (Q : A → S → Prop) (s : S) : Prop :=
  ∃ a s', m s = Ret (a, s') ∧ Q a s'.

Lemma wp_ret {S A} (a : A) (Q : A → S → Prop) s : Q a s → wp (mret a) Q s.
Proof. intros. by exists a, s. Qed.

Lemma wp_bind {S A B} (f : A → prog S B) (m : prog S A) Q s :
  wp m (λ a s', wp (f a) Q s') s → wp (m ≫= f) Q s.
Proof.
  intros (a & s' & Hm & b & s'' & Hf & HQ). exists b, s''. split; [|done].
  by rewrite (prog_bind_Ret _ _ _ _ _ Hm).
Qed.

Lemma wp_lift {S A} (m : outcome A) a (Q : A → S → Prop) s : m = Ret a → Q a s → wp (lift m) Q s.
Proof. intros -> HQ. by exists a, s. Qed.

Lemma wp_mono {S A} (m : prog S A) (Q Q' : A → S → Prop) s :
  wp m Q s → (∀ a s', Q a s' → Q' a s') → wp m Q' s.
Proof. intros (a & s' & ? & ?) HQ. exists a, s'. auto. Qed.

Lemma wp_run {S A} (m : prog S A) Q s a s' : m s = Ret (a, s') → wp m Q s → Q a s'.
Proof. intros Hm (b & s'' & Hm' & HQ). rewrite Hm in Hm'. by injection Hm' as <- <-. Qed.
