(* ===== verification/Utils.v ===== *)
(** * Reading integers out of slices: [net/src/utils.rs]

    The trait [FromSlice] is implemented by one macro for eight integer types;
    [int_ty] lists them, and the three methods are functions indexed by it. *)

From S2P Require Import Prelude.
Local Open Scope Z_scope.

Inductive int_ty := U8 | U16 | U32 | U64 | I8 | I16 | I32 | I64.

Definition size_of (t : int_ty) : nat :=
  match t with
  | U8 | I8 => 1
  | U16 | I16 => 2
  | U32 | I32 => 4
  | U64 | I64 => 8
  end%nat.

Definition is_signed (t : int_ty) : bool :=
  match t with I8 | I16 | I32 | I64 => true | _ => false end.

Definition bits (t : int_ty) : Z := 8 * Z.of_nat (size_of t).

(** Two's complement reading of a [bits t]-bit pattern, and its inverse. *)
Definition of_pattern (t : int_ty) (p : Z) : Z :=
  if is_signed t && (2 ^ (bits t - 1) <=? p) then p - 2 ^ bits t else p.
Definition to_pattern (t : int_ty) (v : Z) : Z := v mod 2 ^ bits t.

Definition in_range (t : int_ty) (v : Z) : Prop :=
  if is_signed t then - 2 ^ (bits t - 1) ≤ v < 2 ^ (bits t - 1) else 0 ≤ v < 2 ^ bits t.

(** [slice.try_into().expect("Incorrect length")] into [[u8; n]]. *)
Definition to_array (n : nat) (slice : list Z) : outcome (list Z) :=
  if decide (length slice = n) then Ret slice else Panic.

Definition from_le_slice (t : int_ty) (slice : list Z) : outcome Z :=
  a ← to_array (size_of t) slice; Ret (of_pattern t (from_le_bytes a)).

Definition from_be_slice (t : int_ty) (slice : list Z) : outcome Z :=
  a ← to_array (size_of t) slice; Ret (of_pattern t (from_be_bytes a)).

(** Both targets of the workspace (x86_64) are little endian. *)
Definition from_ne_slice (t : int_ty) (slice : list Z) : outcome Z :=
  a ← to_array (size_of t) slice; Ret (of_pattern t (from_le_bytes a)).

(** [T::from_be_slice(&l[a..b])], as the parsers call it. *)
Definition read (t : int_ty) (l : list Z) (a b : Z) : outcome Z :=
  s ← slice l a b; from_be_slice t s.

Definition value_to_le_bytes (t : int_ty) (v : Z) : list Z := to_le_bytes (size_of t) (to_pattern t v).
Definition value_to_be_bytes (t : int_ty) (v : Z) : list Z := to_be_bytes (size_of t) (to_pattern t v).

Lemma to_array_ok n l : length l = n → to_array n l = Ret l.
Proof. intros. unfold to_array. by rewrite decide_True. Qed.

Lemma to_array_panic n l : length l ≠ n → to_array n l = Panic.
Proof. intros. unfold to_array. by rewrite decide_False. Qed.

Lemma from_be_slice_u t l :
  is_signed t = false → length l = size_of t → from_be_slice t l = Ret (from_be_bytes l).
Proof.
  intros Ht Hl. unfold from_be_slice, of_pattern. by rewrite to_array_ok, bind_Ret, Ht.
Qed.

Lemma read_ok t l a b :
  is_signed t = false → 0 ≤ a → b = a + Z.of_nat (size_of t) → b ≤ len l →
  read t l a b = Ret (from_be_bytes (sub l a b)).
Proof.
  intros Ht Ha -> Hb. unfold read. rewrite slice_ok, bind_Ret by lia.
  apply from_be_slice_u; [done|]. apply Nat2Z.inj. fold (len (sub l a (a + Z.of_nat (size_of t)))).
  rewrite len_sub; lia.
Qed.

Lemma read_u_range t l a b :
  bytes l → 0 ≤ a → b = a + Z.of_nat (size_of t) → b ≤ len l →
  urange (bits t) (from_be_bytes (sub l a b)).
Proof.
  intros Hl Ha -> Hb. apply from_be_range; [by apply sub_Forall|].
  rewrite len_sub by lia. unfold bits. lia.
Qed.

Lemma to_be_read t l a b :
  bytes l → 0 ≤ a → b = a + Z.of_nat (size_of t) → b ≤ len l →
  to_be_bytes (size_of t) (from_be_bytes (sub l a b)) = sub l a b.
Proof.
  intros Hl Ha -> Hb. apply to_from_be; [by apply sub_Forall|].
  apply Nat2Z.inj. fold (len (sub l a (a + Z.of_nat (size_of t)))). rewrite len_sub; lia.
Qed.

Lemma of_to_pattern t v : in_range t v → of_pattern t (to_pattern t v) = v.
Proof.
  unfold in_range, of_pattern, to_pattern. intros Hv.
  destruct t; simpl in *; unfold bits in *; simpl in *;
    repeat match goal with |- context [(?a <=? ?b)] => destruct (Z.leb_spec a b) end;
    Z.div_mod_to_equations; lia.
Qed.

Lemma to_pattern_range t v : urange (bits t) (to_pattern t v).
Proof. apply Z.mod_pos_bound. unfold bits. destruct t; simpl; lia. Qed.

(** Reading back, in any byte order, the bytes of a value of any of the
    eight integer types gives the value; a slice of any other length than the
    type's size panics. *)
Theorem from_slice_roundtrip (t : int_ty) (v : Z) (Hv : in_range t v) :
  from_be_slice t (value_to_be_bytes t v) = Ret v ∧
  from_le_slice t (value_to_le_bytes t v) = Ret v ∧
  from_ne_slice t (value_to_le_bytes t v) = Ret v ∧
  (∀ l, length l ≠ size_of t →
     from_be_slice t l = Panic ∧ from_le_slice t l = Panic ∧ from_ne_slice t l = Panic).
Proof.
  unfold from_be_slice, from_le_slice, from_ne_slice, value_to_be_bytes, value_to_le_bytes.
  rewrite !to_array_ok by (by rewrite ?length_to_be, ?length_to_le). rewrite !bind_Ret.
  rewrite from_to_be, from_to_le by apply to_pattern_range.
  rewrite of_to_pattern by done. split_and!; try done.
  intros l Hl. by rewrite to_array_panic by done.
Qed.

Lemma from_slice_roundtrip_witness :
  in_range I32 (-305419896) ∧
  from_be_slice I32 (value_to_be_bytes I32 (-305419896)) = Ret (-305419896).
Proof.
  split; [vm_compute; split; congruence|].
  apply (from_slice_roundtrip I32 (-305419896)). vm_compute; split; congruence.
Defined.

(** The tests of [utils.rs]. *)
Example reads_le : from_ne_slice U32 [0x12; 0x34; 0x56; 0x78] = Ret 0x78563412.
Proof. reflexivity. Qed.
Example reads_minus_one : from_ne_slice I16 [0xff; 0xff] = Ret (-1).
Proof. reflexivity. Qed.
Example panics_on_short : from_ne_slice U32 [1; 2] = Panic.
Proof. reflexivity. Qed.
