(* ===== verification/Addr.v ===== *)
(** * Addresses

    [MacAddress] of [net/src/ethernet.rs] and [core::net::Ipv4Addr] as the code
    uses it.  The arrays [[u8; 6]] and [[u8; 4]] inside them are written out
    field by field, so that their length is part of the type. *)

From S2P Require Import Prelude Utils.
Local Open Scope Z_scope.

(** ** MAC addresses *)

Record MacAddress := Mac { m0 : Z; m1 : Z; m2 : Z; m3 : Z; m4 : Z; m5 : Z }.

(** The field [addr]. *)
Definition mac_addr (m : MacAddress) : list Z :=
  [m0 m; m1 m; m2 m; m3 m; m4 m; m5 m].

(** [MacAddress::new(slice.try_into().expect("invalid length"))] *)
Definition MacAddress_new (addr : list Z) : outcome MacAddress :=
  match addr with
  | [a; b; c; d; e; f] => Ret (Mac a b c d e f)
  | _ => Panic
  end.

Definition broadcast : MacAddress := Mac 255 255 255 255 255 255.

Definition mac_ok (m : MacAddress) : Prop := bytes (mac_addr m).

#[export] Instance MacAddress_eq_dec : EqDecision MacAddress.
Proof. solve_decision. Defined.

(** [Display for MacAddress]: two lower-case hexadecimal digits per byte, as
    character codes, separated by colons. *)
Definition hex_digit (d : Z) : Z := if d <? 10 then 48 + d else 87 + d.
Definition hex2 (b : Z) : list Z := [hex_digit (b / 16); hex_digit (b mod 16)].
Definition mac_display (m : MacAddress) : list Z :=
  hex2 (m0 m) ++ [58] ++ hex2 (m1 m) ++ [58] ++ hex2 (m2 m) ++ [58] ++
  hex2 (m3 m) ++ [58] ++ hex2 (m4 m) ++ [58] ++ hex2 (m5 m).

Lemma MacAddress_new_addr m : MacAddress_new (mac_addr m) = Ret m.
Proof. by destruct m. Qed.

Lemma MacAddress_new_ok l :
  len l = 6 → ∃ m, MacAddress_new l = Ret m ∧ mac_addr m = l.
Proof.
  intros H. unfold len in H. do 6 (destruct l as [|? l]; [simpl in H; lia|]).
  destruct l; [|simpl in H; lia]. eexists. split; reflexivity.
Qed.

Lemma mac_addr_inj m m' : mac_addr m = mac_addr m' → m = m'.
Proof. destruct m, m'. unfold mac_addr. simpl. congruence. Qed.

Lemma len_mac_addr m : len (mac_addr m) = 6.
Proof. reflexivity. Qed.
#[export] Hint Rewrite len_mac_addr : len.

Lemma hex_digit_inj a b :
  0 ≤ a < 16 → 0 ≤ b < 16 → hex_digit a = hex_digit b → a = b.
Proof.
  unfold hex_digit. intros. destruct (Z.ltb_spec a 10), (Z.ltb_spec b 10); lia.
Qed.

Lemma hex2_inj a b : u8 a → u8 b → hex2 a = hex2 b → a = b.
Proof.
  unfold urange. intros Ha Hb [= H1 H2].
  apply hex_digit_inj in H1; [|split; [apply Z.div_pos|apply Z.div_lt_upper_bound]; lia..].
  apply hex_digit_inj in H2; [|apply Z.mod_pos_bound; lia..].
  pose proof (Z.div_mod a 16). pose proof (Z.div_mod b 16). lia.
Qed.

(** ** IPv4 addresses *)

Record Ipv4Addr := Ip { o0 : Z; o1 : Z; o2 : Z; o3 : Z }.

Definition octets (i : Ipv4Addr) : list Z := [o0 i; o1 i; o2 i; o3 i].

(** [Ipv4Addr::from_octets] of a slice read with [as_array().expect(..)]. *)
Definition from_octets (l : list Z) : outcome Ipv4Addr :=
  match l with
  | [a; b; c; d] => Ret (Ip a b c d)
  | _ => Panic
  end.

Definition UNSPECIFIED : Ipv4Addr := Ip 0 0 0 0.
Definition BROADCAST : Ipv4Addr := Ip 255 255 255 255.

#[export] Instance Ipv4Addr_eq_dec : EqDecision Ipv4Addr.
Proof. solve_decision. Defined.
#[export] Program Instance Ipv4Addr_countable : Countable Ipv4Addr :=
  inj_countable' (λ i, (o0 i, o1 i, o2 i, o3 i)) (λ '(a, b, c, d), Ip a b c d) _.
Next Obligation. by intros []. Qed.

Definition is_unspecified (i : Ipv4Addr) : bool := bool_decide (i = UNSPECIFIED).

(** [u32::from(addr)] and [Ipv4Addr::from(u32)]. *)
Definition ip_to_u32 (i : Ipv4Addr) : Z := from_be_bytes (octets i).
Definition ip_of_u32 (z : Z) : Ipv4Addr :=
  Ip (z / 2 ^ 24 mod 256) (z / 2 ^ 16 mod 256) (z / 2 ^ 8 mod 256) (z mod 256).

Definition ip_ok (i : Ipv4Addr) : Prop := bytes (octets i).

Lemma from_octets_octets i : from_octets (octets i) = Ret i.
Proof. by destruct i. Qed.

Lemma from_octets_ok l : len l = 4 → ∃ i, from_octets l = Ret i ∧ octets i = l.
Proof.
  intros H. unfold len in H. do 4 (destruct l as [|? l]; [simpl in H; lia|]).
  destruct l; [|simpl in H; lia]. eexists. split; reflexivity.
Qed.

Lemma octets_inj i j : octets i = octets j → i = j.
Proof. destruct i, j. unfold octets. simpl. congruence. Qed.

Lemma len_octets i : len (octets i) = 4.
Proof. reflexivity. Qed.
#[export] Hint Rewrite len_octets : len.

Lemma ip_to_u32_range i : ip_ok i → u32 (ip_to_u32 i).
Proof. intros. by apply from_be_range. Qed.

Lemma ip_of_u32_ok z : ip_ok (ip_of_u32 z).
Proof. repeat constructor; try (apply Z.mod_pos_bound; lia). Qed.

Lemma ip_of_to_u32 i : ip_ok i → ip_of_u32 (ip_to_u32 i) = i.
Proof.
  destruct i as [a b c d]. intros H. unfold ip_ok, octets in H. simpl in H.
  repeat (apply Forall_cons in H as [? H]). unfold urange in *.
  unfold ip_of_u32, ip_to_u32, from_be_bytes. simpl. f_equal; Z.div_mod_to_equations; lia.
Qed.

Lemma ip_to_of_u32 z : u32 z → ip_to_u32 (ip_of_u32 z) = z.
Proof.
  unfold urange, ip_of_u32, ip_to_u32, from_be_bytes. simpl. intros.
  Z.div_mod_to_equations. lia.
Qed.

#[export] Hint Resolve ip_of_u32_ok : rust.
