(* ===== verification/Checksum.v ===== *)
(** * The internet checksum: [internet_checksum] of [net/src/ipv4.rs]

    [internet_checksum] follows the code: a checked [u32] sum of the big-endian
    words of each part, the carry-folding loop, and the complement.  [ones] is
    the reference: the ones'-complement value of a sum, computed in one step. *)

From S2P Require Import Prelude.
Local Open Scope Z_scope.

(** ** The code *)

Definition word_of_chunk (chunk : list Z) : outcome Z :=
  if len chunk =? 2 then
    a ← index chunk 0; b ← index chunk 1; Ret (from_be_bytes [a; b])
  else
    a ← index chunk 0; Ret (from_be_bytes [a; 0]).

Fixpoint sum_chunks (cs : list (list Z)) (sum : Z) : outcome Z :=
  match cs with
  | [] => Ret sum
  | chunk :: cs =>
      word ← word_of_chunk chunk;
      sum ← add_w 32 sum word;
      sum_chunks cs sum
  end.

Fixpoint sum_parts (packet_parts : list (list Z)) (sum : Z) : outcome Z :=
  match packet_parts with
  | [] => Ret sum
  | part :: parts => sum ← sum_chunks (chunks 2 part) sum; sum_parts parts sum
  end.

(** [while (sum >> 16) > 0 { .. }] *)
Fixpoint fold_carry (fuel : nat) (sum : Z) : outcome Z :=
  match fuel with
  | O => OutOfFuel
  | S fuel =>
      if 0 <? Z.shiftr sum 16 then
        sum ← add_w 32 (Z.land sum 0xFFFF) (Z.shiftr sum 16);
        fold_carry fuel sum
      else Ret sum
  end.

(** The loop body runs at most twice on a [u32], and the test a third time. *)
Definition internet_checksum (packet_parts : list (list Z)) : outcome Z :=
  sum ← sum_parts packet_parts 0;
  sum ← fold_carry 3 sum;
  Ret (not_w 16 (wrap 16 sum)).

(** ** The reference *)

Fixpoint word_sum (l : list Z) : Z :=
  match l with
  | [] => 0
  | [a] => a * 256
  | a :: b :: l => a * 256 + b + word_sum l
  end.

Definition parts_sum (parts : list (list Z)) : Z := foldr (λ p s, word_sum p + s) 0 parts.

Definition ones (s : Z) : Z := if s =? 0 then 0 else (s - 1) mod 65535 + 1.

(** ** Sums of words *)

Lemma list_pair_ind (P : list Z → Prop) :
  P [] → (∀ a, P [a]) → (∀ a b l, P l → P (a :: b :: l)) → ∀ l, P l.
Proof.
  intros H0 H1 H2. fix IH 1. intros [|a [|b l]]; [done..|]. apply H2, IH.
Qed.

Lemma word_sum_nonneg l : bytes l → 0 ≤ word_sum l.
Proof.
  induction l as [|a|a b l IH] using list_pair_ind; intros H; simpl; [done|..].
  - bytes_inv. lia.
  - bytes_inv. specialize (IH ltac:(done)). lia.
Qed.

Lemma word_sum_bound l : bytes l → 2 * word_sum l ≤ 65535 * (len l + 1).
Proof.
  induction l as [|a|a b l IH] using list_pair_ind; intros H; simpl; [done|..].
  - bytes_inv. rewrite len_cons, len_nil. lia.
  - bytes_inv. specialize (IH ltac:(done)). rewrite !len_cons. lia.
Qed.

Lemma word_sum_app l k :
  Z.Even (len l) → word_sum (l ++ k) = word_sum l + word_sum k.
Proof.
  induction l as [|a|a b l IH] using list_pair_ind; intros [n Hn]; simpl; [done|..].
  - rewrite len_cons, len_nil in Hn. lia.
  - rewrite IH; [lia|]. rewrite !len_cons in Hn. exists (n - 1). lia.
Qed.

Lemma parts_sum_nonneg ps : Forall bytes ps → 0 ≤ parts_sum ps.
Proof.
  induction 1 as [|p ps Hp _ IH]; [done|]. simpl. pose proof (word_sum_nonneg _ Hp). lia.
Qed.

Lemma sum_chunks_words l s :
  bytes l → 0 ≤ s → s + word_sum l < 2 ^ 32 →
  sum_chunks (chunks 2 l) s = Ret (s + word_sum l).
Proof.
  revert s. induction l as [|a|a b l IH] using list_pair_ind; intros s Hl Hs Hb.
  - simpl. f_equal. lia.
  - bytes_inv. simpl in Hb.
    rewrite chunks_step by (done || lia). cbn [sum_chunks take drop]. rewrite chunks_nil.
    change (word_of_chunk [a]) with (Ret (from_be_bytes [a; 0])). rewrite bind_Ret.
    unfold add_w. rewrite from_be_2, checked_ok by (unfold urange; lia).
    cbn -[Z.mul Z.add]. f_equal. lia.
  - bytes_inv. match goal with H : Forall _ l |- _ => pose proof (word_sum_nonneg _ H) end.
    cbn [word_sum] in *.
    rewrite chunks_step by (done || lia). cbn [sum_chunks take drop]. rewrite take_0, drop_0.
    change (word_of_chunk [a; b]) with (Ret (from_be_bytes [a; b])). rewrite bind_Ret.
    unfold add_w. rewrite from_be_2, checked_ok by (unfold urange; lia). rewrite bind_Ret.
    rewrite IH by (done || lia). f_equal. lia.
Qed.

Lemma sum_parts_words ps s :
  Forall bytes ps → 0 ≤ s → s + parts_sum ps < 2 ^ 32 →
  sum_parts ps s = Ret (s + parts_sum ps).
Proof.
  intros Hps. revert s. induction Hps as [|p ps Hp Hps IH]; intros s Hs Hb; simpl in *.
  - f_equal. lia.
  - pose proof (word_sum_nonneg _ Hp). pose proof (parts_sum_nonneg _ Hps).
    rewrite sum_chunks_words by (done || lia). rewrite bind_Ret, IH by lia. f_equal. lia.
Qed.

(** ** Folding the carries *)

Lemma ones_range s : 0 ≤ s → 0 ≤ ones s ≤ 65535.
Proof.
  intros. unfold ones. destruct (Z.eqb_spec s 0); [lia|].
  pose proof (Z.mod_pos_bound (s - 1) 65535). lia.
Qed.

Lemma ones_small s : 0 ≤ s ≤ 65535 → ones s = s.
Proof.
  intros. unfold ones. destruct (Z.eqb_spec s 0); [lia|]. rewrite Z.mod_small; lia.
Qed.

Lemma ones_fold s : 0 ≤ s → ones (s mod 65536 + s / 65536) = ones s.
Proof.
  intros Hs. pose proof (Z.div_mod s 65536). pose proof (Z.mod_pos_bound s 65536).
  pose proof (Z.div_pos s 65536). unfold ones.
  destruct (Z.eqb_spec s 0) as [->|]; [done|].
  destruct (Z.eqb_spec (s mod 65536 + s / 65536) 0); [lia|]. f_equal.
  replace (s - 1) with (s mod 65536 + s / 65536 - 1 + s / 65536 * 65535) by lia.
  by rewrite Z.mod_add.
Qed.

Lemma ones_full s : 0 ≤ s → ones s = 65535 ↔ 0 < s ∧ s mod 65535 = 0.
Proof.
  intros. unfold ones. destruct (Z.eqb_spec s 0) as [->|]; [naive_solver lia|].
  split; intros; [split; [lia|]|]; Z.div_mod_to_equations; lia.
Qed.

Lemma fold_carry_step fuel s :
  u32 s →
  fold_carry (S fuel) s =
    if 65536 <=? s then fold_carry fuel (s mod 65536 + s / 65536) else Ret s.
Proof.
  unfold urange. intros Hs. cbn [fold_carry].
  rewrite Z.shiftr_div_pow2, (land_ones_mod 16) by lia. change (2 ^ 16) with 65536.
  pose proof (Z.mod_pos_bound s 65536). pose proof (Z.div_pos s 65536).
  destruct (Z.leb_spec 65536 s).
  - assert (1 ≤ s / 65536) by (apply Z.div_le_lower_bound; lia).
    assert (s / 65536 < 65536) by (apply Z.div_lt_upper_bound; lia).
    rewrite (proj2 (Z.ltb_lt _ _)) by lia. unfold add_w.
    rewrite checked_ok by (unfold urange; lia). done.
  - by rewrite (Z.div_small s) by lia.
Qed.

Lemma fold_carry_ones s : u32 s → fold_carry 3 s = Ret (ones s).
Proof.
  unfold urange. intros Hs. rewrite fold_carry_step by done.
  destruct (Z.leb_spec 65536 s); [|by rewrite ones_small by lia].
  rewrite <- (ones_fold s) by lia.
  set (s' := s mod 65536 + s / 65536).
  assert (0 ≤ s' ≤ 131070). { subst s'. Z.div_mod_to_equations. lia. }
  rewrite fold_carry_step by (unfold urange; lia).
  destruct (Z.leb_spec 65536 s'); [|by rewrite ones_small by lia].
  rewrite <- (ones_fold s') by lia.
  assert (0 ≤ s' mod 65536 + s' / 65536 ≤ 65535). { Z.div_mod_to_equations. lia. }
  rewrite fold_carry_step by (unfold urange; lia).
  rewrite (proj2 (Z.leb_gt _ _)) by lia. by rewrite ones_small by lia.
Qed.

(** ** The checksum is the complement of the ones'-complement sum *)

Lemma internet_checksum_ones ps :
  Forall bytes ps → parts_sum ps < 2 ^ 32 →
  internet_checksum ps = Ret (65535 - ones (parts_sum ps)).
Proof.
  intros Hps Hb. pose proof (parts_sum_nonneg _ Hps) as Hn. unfold internet_checksum.
  rewrite sum_parts_words, bind_Ret, Z.add_0_l by (done || lia).
  rewrite fold_carry_ones, bind_Ret by (unfold urange; lia).
  pose proof (ones_range _ Hn). rewrite wrap_id by (unfold urange; lia).
  rewrite not_w_eq by (unfold urange; lia). done.
Qed.

(** A part list of at most 131072 bytes in all cannot overflow the [u32] sum. *)
Lemma parts_sum_bound ps :
  Forall bytes ps →
  2 * parts_sum ps ≤ 65535 * (len ps + foldr (λ p n, len p + n) 0 ps).
Proof.
  induction 1 as [|p ps Hp _ IH]; [done|]. simpl. rewrite len_cons.
  pose proof (word_sum_bound _ Hp). lia.
Qed.

Lemma parts_sum_small ps :
  Forall bytes ps → len ps + foldr (λ p n, len p + n) 0 ps ≤ 131068 → parts_sum ps < 2 ^ 32.
Proof. intros Hps Hl. pose proof (parts_sum_bound _ Hps). lia. Qed.

Lemma checksum_single d :
  bytes d → len d ≤ 131067 → internet_checksum [d] = Ret (65535 - ones (word_sum d)).
Proof.
  intros Hd Hl. assert (Forall bytes [d]) by by repeat constructor.
  rewrite internet_checksum_ones; [by rewrite <- (Z.add_0_r (word_sum d))|done|].
  apply parts_sum_small; [done|]. simpl. autorewrite with len. lia.
Qed.

Lemma internet_checksum_range ps c :
  Forall bytes ps → parts_sum ps < 2 ^ 32 → internet_checksum ps = Ret c → u16 c.
Proof.
  intros Hps Hb. rewrite internet_checksum_ones by done. intros [= <-].
  pose proof (ones_range _ (parts_sum_nonneg _ Hps)). unfold urange. lia.
Qed.

(** The sum verifies, that is the checksum is zero, exactly when it is a
    positive multiple of 65535. *)
Lemma verify_iff ps :
  Forall bytes ps → parts_sum ps < 2 ^ 32 →
  internet_checksum ps = Ret 0 ↔ 0 < parts_sum ps ∧ parts_sum ps mod 65535 = 0.
Proof.
  intros Hps Hb. pose proof (parts_sum_nonneg _ Hps).
  rewrite internet_checksum_ones, <- ones_full by done.
  split; [intros [=]; lia | intros ->; f_equal].
Qed.

(** What a checksum field has to hold for the whole to verify. *)
Lemma ones_complement_verifies s c :
  0 ≤ s → c = 65535 - ones s → 0 < s + c ∧ (s + c) mod 65535 = 0.
Proof.
  intros Hs ->. unfold ones. destruct (Z.eqb_spec s 0) as [->|]; [done|].
  pose proof (Z.mod_pos_bound (s - 1) 65535). split; Z.div_mod_to_equations; lia.
Qed.

(** The checksum field is determined by the rest, all ones apart. *)
Lemma ones_complement_unique s c :
  0 < s → 0 ≤ c < 65535 → (s + c) mod 65535 = 0 → 65535 - ones s = c.
Proof.
  intros Hs Hc H. unfold ones. destruct (Z.eqb_spec s 0); [lia|].
  Z.div_mod_to_equations. lia.
Qed.

(** ** Theorems *)

(** C37.  On any list of byte strings whose number and total length add up to at
    most 131,068, [internet_checksum] returns (no overflow, no failed index, the folding
    loop ends) the complement of the ones'-complement sum of the parts'
    big-endian words, an odd last byte being padded with zero. *)
Theorem internet_checksum_spec (ps : list (list Z))
    (Hps : Forall bytes ps)
    (Hlen : len ps + foldr (λ p n, len p + n) 0 ps ≤ 131068) :
  internet_checksum ps = Ret (65535 - ones (parts_sum ps)).
Proof.
  by apply internet_checksum_ones, parts_sum_small.
Qed.

Lemma internet_checksum_spec_witness :
  Forall bytes [[0x00; 0x01; 0xf2; 0x03; 0xf4; 0xf5; 0xf6]] ∧
  internet_checksum [[0x00; 0x01; 0xf2; 0x03; 0xf4; 0xf5; 0xf6]] = Ret 0x2304.
Proof.
  assert (Forall bytes [[0x00; 0x01; 0xf2; 0x03; 0xf4; 0xf5; 0xf6]]) as H
    by (repeat constructor; done).
  split; [exact H|]. rewrite (internet_checksum_spec _ H); [reflexivity|].
  vm_compute. congruence.
Defined.

(** C36.  The checksum detects any corruption of a single byte: of two byte
    strings of at most 131001 bytes that differ in one byte, at most one verifies.
    (The 32-bit sum of strings longer than 131074 bytes can overflow.) *)
Theorem checksum_detects_byte (pre post : list Z) (b b' : Z)
    (Hpre : bytes pre) (Hpost : bytes post) (Hb : u8 b) (Hb' : u8 b')
    (Hlen : len pre + len post ≤ 131000)
    (H : internet_checksum [pre ++ b :: post] = Ret 0)
    (H' : internet_checksum [pre ++ b' :: post] = Ret 0) : b = b'.
Proof.
  assert (∃ k, 0 < k < 65535 ∧ ∀ c, word_sum (pre ++ c :: post)
    = word_sum (pre ++ 0 :: post) + k * c ∧ k * 255 < 65535) as (k & Hk & Hsum).
  { clear -pre. induction pre as [|x|x y pre (k & Hk & IH)] using list_pair_ind.
    - exists 256. split; [lia|]. intros c. destruct post; simpl; lia.
    - exists 1. split; [lia|]. intros c. simpl. lia.
    - exists k. split; [done|]. intros c. cbn [app word_sum].
      destruct (IH c) as [-> ?]. lia. }
  assert (∀ c, u8 c → bytes (pre ++ c :: post)) as Hbytes.
  { intros. by apply Forall_app_2; [|constructor]. }
  assert (∀ c, u8 c → internet_checksum [pre ++ c :: post] = Ret 0 →
    word_sum (pre ++ c :: post) mod 65535 = 0) as Hmod.
  { intros c Hc Hv. apply verify_iff in Hv as [_ Hv].
    - simpl in Hv. by rewrite Z.add_0_r in Hv.
    - by repeat constructor; auto.
    - pose proof (word_sum_bound _ (Hbytes c Hc)). simpl.
      rewrite len_app, len_cons in *. lia. }
  apply Hmod in H, H'; [|done..]. destruct (Hsum b) as [Eb ?], (Hsum b') as [Eb' _].
  rewrite Eb in H. rewrite Eb' in H'. unfold urange in *.
  apply Z.mod_divide in H as [n Hn], H' as [n' Hn']; [|done..].
  assert (k * (b - b') = 65535 * (n - n')) by lia.
  assert (n - n' = 0) by nia. nia.
Qed.

Lemma checksum_detects_byte_witness :
  internet_checksum [[0x22] ++ 0x0d :: [0xdd; 0xf2]] = Ret 0 ∧ (0x0d = 0x0d).
Proof.
  split; [vm_compute; reflexivity|].
  apply (checksum_detects_byte [0x22] [0xdd; 0xf2] 0x0d 0x0d);
    first [vm_compute; reflexivity | vm_compute; congruence | repeat constructor; done].
Defined.

(** The examples of [test_internet_checksum]. *)
Example checksum_1 :
  internet_checksum [[0x00; 0x01; 0xf2; 0x03; 0xf4; 0xf5; 0xf6; 0xf7]] = Ret 0x220d.
Proof. reflexivity. Qed.
Example checksum_2 :
  internet_checksum [[0xe3; 0x4f; 0x23; 0x96; 0x44; 0x27; 0x99; 0xf3]] = Ret 0x1aff.
Proof. reflexivity. Qed.
Example checksum_3 : internet_checksum [[]] = Ret 0xffff.
Proof. reflexivity. Qed.
