(* ===== verification/Ipv4.v ===== *)
(** * IPv4 packets: [net/src/ipv4.rs]

    One module per Rust type.  Borrowed slices ([options], [data]) are the byte
    lists they denote. *)

From S2P Require Import Prelude Utils Addr Checksum.
Local Open Scope Z_scope.

Module IPProtocol.

Inductive t := ICMP | TCP | UDP | Unknown (proto : Z).

#[global] Instance t_eq_dec : EqDecision t.
Proof. solve_decision. Defined.

(** [impl From<u8> for IPProtocol] *)
Definition from_u8 (value : Z) : t :=
  if value =? 1 then ICMP
  else if value =? 6 then TCP
  else if value =? 17 then UDP
  else Unknown value.

(** [impl From<IPProtocol> for u8] *)
Definition into_u8 (val : t) : Z :=
  match val with ICMP => 1 | TCP => 6 | UDP => 17 | Unknown proto => proto end.

End IPProtocol.

Module Ipv4Error.

Inductive t :=
| VersionMismatch | LengthOutOfRange | IHLMismatch | HeaderLengthMismatch
| TotalLengthMismatch | EvilBitSet | IncorrectChecksum.

#[global] Instance t_eq_dec : EqDecision t.
Proof. solve_decision. Defined.

End Ipv4Error.

Module Ipv4Packet.

Record t := {
  version_ihl : Z;
  dscp_ecn : Z;
  total_length : Z;
  id : Z;
  frag_offset : Z;
  dont_fragment : bool;
  more_fragments : bool;
  ttl : Z;
  protocol : IPProtocol.t;
  checksum : Z;
  source : Ipv4Addr;
  dest : Ipv4Addr;
  options : list Z;
  data : list Z;
}.

#[global] Instance t_eq_dec : EqDecision t.
Proof. solve_decision. Defined.

(** ** Operations *)

Definition new (data : list Z) (source dest : Ipv4Addr) (id : Z)
    (protocol : IPProtocol.t) : result t Ipv4Error.t :=
  match try_from_usize 16 (len data + 20) with
  | None => Err Ipv4Error.LengthOutOfRange
  | Some total_len => Ok {|
      version_ihl := 0x45;
      dscp_ecn := 0;
      total_length := total_len;
      id := id;
      frag_offset := 0;
      dont_fragment := false;
      more_fragments := false;
      ttl := 64;
      protocol := protocol;
      checksum := 0;
      source := source;
      dest := dest;
      options := [];
      data := data |}
  end.

Definition from_packet (packet : list Z) : outcome (result t Ipv4Error.t) :=
  if len packet <? 20 then Ret (Err Ipv4Error.LengthOutOfRange) else
  version_ihl ← read U8 packet 0 1;
  let version := Z.land (Z.shiftr version_ihl 4) 0xf in
  if negb (version =? 4) then Ret (Err Ipv4Error.VersionMismatch) else
  let ihl := Z.land version_ihl 0xf in
  if ihl <? 5 then Ret (Err Ipv4Error.IHLMismatch) else
  header_len ← mul_w 8 ihl 4;
  if len packet <? header_len then Ret (Err Ipv4Error.HeaderLengthMismatch) else
  dscp_ecn ← read U8 packet 1 2;
  total_length ← read U16 packet 2 4;
  if (len packet <? total_length) || (total_length <? header_len)
  then Ret (Err Ipv4Error.TotalLengthMismatch) else
  packet ← slice_to packet total_length;
  id ← read U16 packet 4 6;
  flags_frag_offset ← read U16 packet 6 8;
  let frag_offset := Z.land flags_frag_offset 0x1fff in
  let flags := Z.shiftr flags_frag_offset 13 in
  let evil_bit := negb (Z.land flags 4 =? 0) in
  let dont_fragment := negb (Z.land flags 2 =? 0) in
  let more_fragments := negb (Z.land flags 1 =? 0) in
  if (evil_bit : bool) then Ret (Err Ipv4Error.EvilBitSet) else
  ttl ← read U8 packet 8 9;
  proto ← read U8 packet 9 10;
  let protocol := IPProtocol.from_u8 proto in
  checksum ← read U16 packet 10 12;
  header ← slice_to packet header_len;
  sum ← internet_checksum [header];
  if negb (sum =? 0) then Ret (Err Ipv4Error.IncorrectChecksum) else
  src ← slice packet 12 16;
  src_addr ← from_octets src;
  dst ← slice packet 16 20;
  dst_addr ← from_octets dst;
  options ← slice packet 20 header_len;
  data ← slice_from packet header_len;
  Ret (Ok {|
    version_ihl := version_ihl;
    dscp_ecn := dscp_ecn;
    total_length := wrap 16 total_length;
    id := id;
    frag_offset := frag_offset;
    dont_fragment := dont_fragment;
    more_fragments := more_fragments;
    ttl := ttl;
    protocol := protocol;
    checksum := checksum;
    source := src_addr;
    dest := dst_addr;
    options := options;
    data := data |}).

Definition serialize (p : t) : outcome (list Z) :=
  let result := [version_ihl p] in
  let result := result ++ [dscp_ecn p] in
  let result := result ++ to_be_bytes 2 (total_length p) in
  let result := result ++ to_be_bytes 2 (id p) in
  let flags := (if dont_fragment p then 2 else 0) + (if more_fragments p then 1 else 0) in
  flags_frag_offset ← add_w 16 (Z.land (frag_offset p) 0x1fff) (wrap 16 (Z.shiftl flags 13));
  let result := result ++ to_be_bytes 2 flags_frag_offset in
  let result := result ++ to_be_bytes 1 (ttl p) in
  let result := result ++ [IPProtocol.into_u8 (protocol p)] in
  let result := result ++ array 0 2 in
  let result := result ++ octets (source p) in
  let result := result ++ octets (dest p) in
  let result := result ++ options p in
  let result := result ++ data p in
  header ← slice_to result (20 + len (options p));
  sum ← internet_checksum [header];
  copy_range result 10 12 (to_be_bytes 2 sum).

(** ** Invariants *)

(** The ranges of the fields' types. *)
Definition packet_ok (p : t) : Prop :=
  u8 (version_ihl p) ∧ u8 (dscp_ecn p) ∧ u16 (total_length p) ∧ u16 (id p) ∧
  u16 (frag_offset p) ∧ u8 (ttl p) ∧ u8 (IPProtocol.into_u8 (protocol p)) ∧ u16 (checksum p) ∧
  ip_ok (source p) ∧ ip_ok (dest p) ∧ bytes (options p) ∧ bytes (data p).

(** A packet whose length fields describe it, and which holds nothing that its
    wire format cannot carry. *)
Definition packet_valid (p : t) : Prop :=
  packet_ok p ∧
  len (options p) mod 4 = 0 ∧ len (options p) ≤ 40 ∧
  version_ihl p = 0x40 + (20 + len (options p)) / 4 ∧
  total_length p = 20 + len (options p) + len (data p) ∧
  frag_offset p < 2 ^ 13 ∧
  IPProtocol.from_u8 (IPProtocol.into_u8 (protocol p)) = protocol p.

Definition with_checksum (c : Z) (p : t) : t := {|
  version_ihl := version_ihl p; dscp_ecn := dscp_ecn p; total_length := total_length p;
  id := id p; frag_offset := frag_offset p; dont_fragment := dont_fragment p;
  more_fragments := more_fragments p; ttl := ttl p; protocol := protocol p;
  checksum := c; source := source p; dest := dest p; options := options p; data := data p |}.

End Ipv4Packet.

Import Ipv4Packet.

(** ** What serialization writes *)

(** The flags and fragment offset field of a packet. *)
Definition flags_word (p : Ipv4Packet.t) : Z :=
  Z.land (frag_offset p) 0x1fff +
  ((if dont_fragment p then 2 else 0) + (if more_fragments p then 1 else 0)) * 8192.

(** The twenty fixed bytes of the header, around a checksum [c]. *)
Definition fixed_header (p : Ipv4Packet.t) (c : Z) : list Z :=
  [version_ihl p; dscp_ecn p] ++ to_be_bytes 2 (total_length p) ++ to_be_bytes 2 (id p) ++
  to_be_bytes 2 (flags_word p) ++ to_be_bytes 1 (ttl p) ++
  [IPProtocol.into_u8 (protocol p)] ++ to_be_bytes 2 c ++ octets (source p) ++ octets (dest p).

Lemma flags_word_range p : packet_ok p → u16 (flags_word p) ∧ flags_word p / 8192 < 4.
Proof.
  intros Hp. unfold flags_word. rewrite (land_ones_mod 13) by done.
  pose proof (Z.mod_pos_bound (frag_offset p) (2 ^ 13)). unfold urange.
  destruct (dont_fragment p), (more_fragments p);
    (split; [lia | apply Z.div_lt_upper_bound; lia]).
Qed.

Lemma fixed_header_bytes p c : packet_ok p → bytes (fixed_header p c).
Proof.
  intros (? & ? & ? & ? & ? & ? & ? & ? & ? & ? & ? & ?). unfold fixed_header.
  bytes_solve.
Qed.

Lemma len_fixed_header p c : len (fixed_header p c) = 20.
Proof. reflexivity. Qed.

Lemma fixed_header_sum p c k :
  u16 c → word_sum (fixed_header p c ++ k) = word_sum (fixed_header p 0 ++ k) + c.
Proof.
  unfold urange. intros Hc.
  rewrite !word_sum_app by (exists 10; reflexivity).
  unfold fixed_header. change (to_be_bytes 2 0) with [0; 0]. rewrite (to_be_2 c).
  cbn -[Z.mul Z.add Z.div Z.modulo flags_word]. Z.div_mod_to_equations. lia.
Qed.

Lemma header_sum_small p c k :
  packet_ok p → bytes k → len k ≤ 100000 → word_sum (fixed_header p c ++ k) < 2 ^ 32.
Proof.
  intros Hp Hk Hl.
  pose proof (word_sum_bound (fixed_header p c ++ k)) as Hs.
  rewrite len_app, len_fixed_header in Hs.
  specialize (Hs ltac:(bytes_solve; by apply fixed_header_bytes)). lia.
Qed.

(** The checksum [serialize] computes. *)
Definition header_checksum (p : Ipv4Packet.t) : Z :=
  65535 - ones (word_sum (fixed_header p 0 ++ options p)).

Lemma header_checksum_range p : packet_ok p → u16 (header_checksum p).
Proof.
  intros Hp. unfold header_checksum. destruct (Hp) as (_&_&_&_&_&_&_&_&_&_&Ho&_).
  pose proof (ones_range (word_sum (fixed_header p 0 ++ options p))) as H.
  unfold urange.
  assert (0 ≤ word_sum (fixed_header p 0 ++ options p)); [|lia].
  apply word_sum_nonneg. bytes_solve. by apply fixed_header_bytes.
Qed.

Lemma serialize_eq p :
  packet_ok p → len (options p) ≤ 100000 →
  serialize p = Ret (fixed_header p (header_checksum p) ++ options p ++ data p).
Proof.
  intros Hp Hl. destruct (Hp) as (_&_&_&_&_&_&_&_&_&_&Ho&Hd).
  assert (Hff : add_w 16 (Z.land (frag_offset p) 0x1fff)
      (wrap 16 (Z.shiftl ((if dont_fragment p then 2 else 0) +
        (if more_fragments p then 1 else 0)) 13)) = Ret (flags_word p)).
  { unfold add_w, flags_word.
    replace (wrap 16 _) with (((if dont_fragment p then 2 else 0) +
        (if more_fragments p then 1 else 0)) * 8192)
      by (by destruct (dont_fragment p), (more_fragments p)).
    apply checked_ok. apply (flags_word_range p Hp). }
  unfold serialize. rewrite Hff, bind_Ret. cbv zeta.
  replace (_ ++ data p) with (fixed_header p 0 ++ options p ++ data p)
    by (unfold fixed_header; rewrite <- !app_assoc; reflexivity).
  rewrite slice_to_ok, bind_Ret by (rewrite !len_app, len_fixed_header; len_lia).
  rewrite take_len, app_assoc, sub_app_l, sub_all
    by (rewrite ?len_app, ?len_fixed_header; len_lia).
  rewrite internet_checksum_ones, bind_Ret.
  2: { bytes_solve. by apply fixed_header_bytes. }
  2: { simpl. rewrite Z.add_0_r. by apply header_sum_small. }
  simpl parts_sum. rewrite Z.add_0_r. fold (header_checksum p).
  rewrite copy_range_ok by (rewrite ?len_to_be, ?len_app, ?len_fixed_header; len_lia).
  unfold fixed_header. rewrite <- !app_assoc. reflexivity.
Qed.

(** ** What parsing reads *)

(** The reference parser: the same checks in the same order, on the bytes of the
    buffer directly, as a total function. *)
Definition from_packet_ref (bs : list Z) : result Ipv4Packet.t Ipv4Error.t :=
  let vi := from_be_bytes (sub bs 0 1) in
  let hl := vi mod 16 * 4 in
  let tl := from_be_bytes (sub bs 2 4) in
  let ff := from_be_bytes (sub bs 6 8) in
  if len bs <? 20 then Err Ipv4Error.LengthOutOfRange
  else if negb (vi / 16 =? 4) then Err Ipv4Error.VersionMismatch
  else if vi mod 16 <? 5 then Err Ipv4Error.IHLMismatch
  else if len bs <? hl then Err Ipv4Error.HeaderLengthMismatch
  else if (len bs <? tl) || (tl <? hl) then Err Ipv4Error.TotalLengthMismatch
  else if Z.testbit ff 15 then Err Ipv4Error.EvilBitSet
  else if negb (ones (word_sum (sub bs 0 hl)) =? 65535) then Err Ipv4Error.IncorrectChecksum
  else match from_octets (sub bs 12 16), from_octets (sub bs 16 20) with
  | Ret src, Ret dst => Ok {|
      version_ihl := vi; dscp_ecn := from_be_bytes (sub bs 1 2); total_length := tl;
      id := from_be_bytes (sub bs 4 6); frag_offset := ff mod 2 ^ 13;
      dont_fragment := Z.testbit ff 14; more_fragments := Z.testbit ff 13;
      ttl := from_be_bytes (sub bs 8 9);
      protocol := IPProtocol.from_u8 (from_be_bytes (sub bs 9 10));
      checksum := from_be_bytes (sub bs 10 12); source := src; dest := dst;
      options := sub bs 20 hl; data := sub bs hl tl |}
  | _, _ => Err Ipv4Error.LengthOutOfRange
  end.

Lemma flag_bits ff :
  negb (Z.land (Z.shiftr ff 13) 4 =? 0) = Z.testbit ff 15 ∧
  negb (Z.land (Z.shiftr ff 13) 2 =? 0) = Z.testbit ff 14 ∧
  negb (Z.land (Z.shiftr ff 13) 1 =? 0) = Z.testbit ff 13.
Proof.
  pose proof (land_pow2_test (Z.shiftr ff 13)) as H.
  pose proof (H 2) as H2. pose proof (H 1) as H1. pose proof (H 0) as H0.
  rewrite Z.shiftr_spec in H2, H1, H0 by done. split_and!; [apply H2|apply H1|apply H0]; done.
Qed.

Lemma header_len_u8 vi :
  u8 vi → vi mod 16 < 5 ∨ mul_w 8 (vi mod 16) 4 = Ret (vi mod 16 * 4).
Proof.
  intros. pose proof (Z.mod_pos_bound vi 16 ltac:(lia)).
  destruct (Z.ltb_spec (vi mod 16) 5); [by left|right].
  unfold mul_w. apply checked_ok. unfold urange. lia.
Qed.

Lemma from_packet_eq bs : bytes bs → from_packet bs = Ret (from_packet_ref bs).
Proof.
  intros Hbs. unfold from_packet, from_packet_ref. cbv zeta.
  destruct (Z.ltb_spec (len bs) 20); [done|].
  rewrite (read_ok U8 bs 0), bind_Ret by (done || simpl; lia).
  pose proof (read_u_range U8 bs 0 1 Hbs ltac:(lia) ltac:(done) ltac:(lia)) as Hvi.
  set (vi := from_be_bytes (sub bs 0 1)) in *. unfold bits in Hvi. simpl in Hvi.
  rewrite Z.shiftr_div_pow2, !(land_ones_mod 4) by done.
  change (2 ^ 4) with 16. rewrite (Z.mod_small (vi / 16))
    by (unfold urange in Hvi; split; [apply Z.div_pos | apply Z.div_lt_upper_bound]; lia).
  destruct (vi / 16 =? 4); [|done]. cbn [negb].
  pose proof (Z.mod_pos_bound vi 16 ltac:(lia)).
  destruct (Z.ltb_spec (vi mod 16) 5); [done|].
  destruct (header_len_u8 vi) as [?| ->]; [done|lia|]. rewrite bind_Ret.
  set (hl := vi mod 16 * 4) in *. destruct (Z.ltb_spec (len bs) hl); [done|].
  rewrite (read_ok U8 bs 1), (read_ok U16 bs 2), !bind_Ret by (done || simpl; lia).
  pose proof (read_u_range U16 bs 2 4 Hbs ltac:(lia) ltac:(done) ltac:(lia)) as Htl.
  set (tl := from_be_bytes (sub bs 2 4)) in *. unfold bits in Htl. simpl in Htl.
  destruct (Z.ltb_spec (len bs) tl), (Z.ltb_spec tl hl); try done. cbn [orb].
  rewrite slice_to_ok, bind_Ret by lia.
  assert (Hpk : len (take (Z.to_nat tl) bs) = tl) by (rewrite len_take; unfold len in *; lia).
  rewrite !read_ok, !bind_Ret by (done || simpl; lia). rewrite !sub_take by lia.
  set (ff := from_be_bytes (sub bs 6 8)) in *. destruct (flag_bits ff) as (-> & -> & ->).
  rewrite (land_ones_mod 13) by done. destruct (Z.testbit ff 15); [done|].
  rewrite slice_to_ok, bind_Ret by lia.
  rewrite (take_len _ hl), sub_take by lia.
  rewrite internet_checksum_ones, bind_Ret.
  2: { bytes_solve. }
  2: { apply parts_sum_small; [bytes_solve|]. simpl. rewrite len_cons, len_nil, len_sub by lia. lia. }
  replace (65535 - ones _ =? 0) with (ones (word_sum (sub bs 0 hl)) =? 65535).
  2: { simpl parts_sum. rewrite Z.add_0_r. set (o := ones _).
       destruct (Z.eqb_spec o 65535), (Z.eqb_spec (65535 - o) 0); lia. }
  destruct (ones _ =? 65535); [|done]. cbn [negb].
  rewrite !slice_ok, !bind_Ret, !sub_take by lia.
  destruct (from_octets_ok (sub bs 12 16)) as (src & -> & _); [rewrite len_sub; lia|].
  destruct (from_octets_ok (sub bs 16 20)) as (dst & Hdst & _); [rewrite len_sub; lia|].
  rewrite !bind_Ret, Hdst, !bind_Ret, slice_from_ok, bind_Ret, drop_take_sub by lia.
  by rewrite wrap_id.
Qed.

(** ** The fields of a serialized packet, where the parser looks for them *)

Section Wire.
Context (p : Ipv4Packet.t) (c : Z) (k : list Z).

Lemma wire_fields :
  sub (fixed_header p c ++ k) 0 1 = [version_ihl p] ∧
  sub (fixed_header p c ++ k) 1 2 = [dscp_ecn p] ∧
  sub (fixed_header p c ++ k) 2 4 = to_be_bytes 2 (total_length p) ∧
  sub (fixed_header p c ++ k) 4 6 = to_be_bytes 2 (id p) ∧
  sub (fixed_header p c ++ k) 6 8 = to_be_bytes 2 (flags_word p) ∧
  sub (fixed_header p c ++ k) 8 9 = to_be_bytes 1 (ttl p) ∧
  sub (fixed_header p c ++ k) 9 10 = [IPProtocol.into_u8 (protocol p)] ∧
  sub (fixed_header p c ++ k) 10 12 = to_be_bytes 2 c ∧
  sub (fixed_header p c ++ k) 12 16 = octets (source p) ∧
  sub (fixed_header p c ++ k) 16 20 = octets (dest p).
Proof. split_and!; reflexivity. Qed.
End Wire.

(** The flags and the fragment offset survive the trip. *)
Lemma flags_word_fields p :
  packet_ok p → frag_offset p < 2 ^ 13 →
  flags_word p mod 2 ^ 13 = frag_offset p ∧ Z.testbit (flags_word p) 15 = false ∧
  Z.testbit (flags_word p) 14 = dont_fragment p ∧
  Z.testbit (flags_word p) 13 = more_fragments p.
Proof.
  intros (_&_&_&_&[Hf _]&_) Hlt. unfold flags_word.
  rewrite (land_ones_mod 13), (Z.mod_small (frag_offset p)) by lia.
  split.
  { change 8192 with (2 ^ 13). rewrite Z.mod_add by done. apply Z.mod_small. lia. }
  pose proof (Z.testbit_spec' (frag_offset p + ((if dont_fragment p then 2 else 0) +
    (if more_fragments p then 1 else 0)) * 8192)) as Hb.
  pose proof (Hb 15 ltac:(lia)) as H15. pose proof (Hb 14 ltac:(lia)) as H14.
  pose proof (Hb 13 ltac:(lia)) as H13. clear Hb.
  destruct (dont_fragment p), (more_fragments p);
    repeat match goal with |- context [Z.testbit ?a ?n] => destruct (Z.testbit a n) end;
    cbn [Z.b2z] in *; split_and!; try done; exfalso;
    Z.div_mod_to_equations; lia.
Qed.

Lemma flags_word_inv p ff :
  u16 ff → Z.testbit ff 15 = false → frag_offset p = ff mod 2 ^ 13 →
  dont_fragment p = Z.testbit ff 14 → more_fragments p = Z.testbit ff 13 →
  flags_word p = ff.
Proof.
  intros [H0 H1] H15 Hf Hd Hm. unfold flags_word.
  rewrite (land_ones_mod 13), Hf, Hd, Hm, Z.mod_mod by done.
  pose proof (Z.testbit_spec' ff) as Hb.
  pose proof (Hb 15 ltac:(lia)) as H15'. pose proof (Hb 14 ltac:(lia)) as H14.
  pose proof (Hb 13 ltac:(lia)) as H13. rewrite H15 in H15'. clear Hb Hd Hm Hf.
  destruct (Z.testbit ff 14), (Z.testbit ff 13); cbn [Z.b2z] in *;
    Z.div_mod_to_equations; lia.
Qed.

Lemma from_u8_into v : u8 v → IPProtocol.into_u8 (IPProtocol.from_u8 v) = v.
Proof.
  unfold IPProtocol.from_u8. intros.
  destruct (Z.eqb_spec v 1), (Z.eqb_spec v 6), (Z.eqb_spec v 17); simpl; lia.
Qed.

Lemma from_u8_canonical v :
  IPProtocol.from_u8 (IPProtocol.into_u8 (IPProtocol.from_u8 v)) = IPProtocol.from_u8 v.
Proof.
  unfold IPProtocol.from_u8.
  destruct (Z.eqb_spec v 1), (Z.eqb_spec v 6), (Z.eqb_spec v 17); simpl; try done.
  destruct (Z.eqb_spec v 1), (Z.eqb_spec v 6), (Z.eqb_spec v 17); done.
Qed.

(** The header of a serialized packet verifies. *)
Lemma serialized_verifies p :
  packet_ok p → ones (word_sum (fixed_header p (header_checksum p) ++ options p)) = 65535.
Proof.
  intros Hp. destruct (Hp) as (_&_&_&_&_&_&_&_&_&_&Ho&_).
  assert (0 ≤ word_sum (fixed_header p 0 ++ options p)).
  { apply word_sum_nonneg. bytes_solve. by apply fixed_header_bytes. }
  rewrite fixed_header_sum by by apply header_checksum_range.
  pose proof (header_checksum_range p Hp) as Hc. unfold urange in Hc.
  apply ones_full; [lia|]. by apply ones_complement_verifies.
Qed.

Lemma parse_serialized p pad :
  packet_valid p → bytes pad →
  from_packet_ref (fixed_header p (header_checksum p) ++ options p ++ data p ++ pad)
  = Ok (with_checksum (header_checksum p) p).
Proof.
  intros (Hp & Ho4 & Ho & Hvi & Htl & Hfo & Hproto) Hpad.
  pose proof (header_checksum_range p Hp) as Hc. pose proof (flags_word_range p Hp) as [Hff _].
  destruct (flags_word_fields p Hp Hfo) as (Ef & E15 & E14 & E13).
  pose proof (serialized_verifies p Hp) as Hver.
  destruct (Hp) as (?&?&?&?&?&?&?&?&?&?&?&?).
  unfold from_packet_ref. set (c := header_checksum p) in *. cbv zeta.
  destruct (wire_fields p c (options p ++ data p ++ pad))
    as (-> & -> & -> & -> & -> & -> & -> & -> & -> & ->).
  rewrite !from_be_1, !from_to_be by done. rewrite E15, E14, E13, Ef.
  pose proof (len_nonneg (options p)). pose proof (len_nonneg (data p)).
  pose proof (len_nonneg pad).
  assert (version_ihl p / 16 = 4 ∧ version_ihl p mod 16 * 4 = 20 + len (options p)) as [-> Hhl].
  { rewrite Hvi. Z.div_mod_to_equations. lia. }
  rewrite Hhl, !len_app, len_fixed_header.
  rewrite (proj2 (Z.ltb_ge _ 20)), (proj2 (Z.ltb_ge _ 5)), (proj2 (Z.ltb_ge _ (20 + _))) by lia.
  rewrite (proj2 (Z.ltb_ge _ (total_length p))), (proj2 (Z.ltb_ge (total_length p) _)) by lia.
  cbn [negb orb Z.eqb].
  rewrite (app_assoc _ (options p)), (sub_app_l _ _ 0), sub_all
    by (rewrite ?len_app, ?len_fixed_header; lia).
  rewrite Hver, !from_octets_octets. cbn [negb Z.eqb Pos.eqb].
  rewrite <- app_assoc, !(sub_app_r (fixed_header p c)), !len_fixed_header
    by (rewrite ?len_fixed_header; lia).
  rewrite (sub_app_l (options p)), sub_all by lia.
  rewrite (sub_app_r (options p)), (sub_app_l (data p)), sub_all by lia.
  rewrite Hproto. unfold with_checksum. by destruct p.
Qed.

(** ** The bytes of a parsed packet *)

Lemma sub_byte l a b :
  bytes l → 0 ≤ a < len l → b = a + 1 → [from_be_bytes (sub l a b)] = sub l a b.
Proof.
  intros Hl Ha ->. pose proof (len_sub l a (a + 1) ltac:(lia) ltac:(lia)) as Hs.
  apply len_S_inv in Hs as (x & k & -> & Hk); [|lia].
  rewrite (len_0_inv k) by lia. by rewrite from_be_1.
Qed.

(** The fixed header of a packet whose fields were read from [bs]. *)
Lemma fixed_header_read bs p :
  bytes bs → 20 ≤ len bs →
  version_ihl p = from_be_bytes (sub bs 0 1) → dscp_ecn p = from_be_bytes (sub bs 1 2) →
  total_length p = from_be_bytes (sub bs 2 4) → id p = from_be_bytes (sub bs 4 6) →
  flags_word p = from_be_bytes (sub bs 6 8) → ttl p = from_be_bytes (sub bs 8 9) →
  IPProtocol.into_u8 (protocol p) = from_be_bytes (sub bs 9 10) →
  checksum p = from_be_bytes (sub bs 10 12) →
  octets (source p) = sub bs 12 16 → octets (dest p) = sub bs 16 20 →
  fixed_header p (checksum p) = sub bs 0 20.
Proof.
  intros Hbs Hl H0 H1 H2 H4 H6 H8 H9 H10 H12 H16. unfold fixed_header.
  rewrite H0, H1, H2, H4, H6, H8, H9, H10, H12, H16.
  change [?x; ?y] with ([x] ++ [y]).
  rewrite (to_be_read U16 bs 2), (to_be_read U16 bs 4), (to_be_read U16 bs 6),
    (to_be_read U16 bs 10), (to_be_read U8 bs 8) by (done || simpl; lia).
  rewrite (sub_byte bs 0), (sub_byte bs 1), (sub_byte bs 9), <- app_assoc by (done || lia).
  rewrite <- !sub_split by lia. done.
Qed.

(** The recomputed checksum is the one that was read, or zero where that was all ones:
    the two representations of zero. *)
Lemma header_checksum_read p :
  packet_valid p →
  ones (word_sum (fixed_header p (checksum p) ++ options p)) = 65535 →
  header_checksum p = checksum p mod 65535.
Proof.
  intros (Hp & _ & _ & Hvi & _) Hver.
  destruct (Hp) as (_&_&_&_&_&_&_&[? ?]&_&_&Ho&_). unfold header_checksum.
  rewrite fixed_header_sum in Hver by done.
  assert (bytes (drop 1 (fixed_header p 0) ++ options p)) as Hb.
  { apply Forall_app_2; [apply Forall_drop; by apply fixed_header_bytes|done]. }
  assert (0 < word_sum (fixed_header p 0 ++ options p)).
  { change (0 < version_ihl p * 256 + dscp_ecn p +
      word_sum (drop 2 (fixed_header p 0) ++ options p)).
    pose proof (word_sum_nonneg (drop 2 (fixed_header p 0) ++ options p)
      ltac:(apply Forall_app_2; [apply Forall_drop; by apply fixed_header_bytes|done])).
    pose proof (len_nonneg (options p)). destruct Hp as (?&[??]&_).
    Z.div_mod_to_equations. lia. }
  apply ones_full in Hver as [_ Hver]; [|lia]. apply ones_complement_unique; [done| |].
  - by apply Z.mod_pos_bound.
  - by rewrite Z.add_mod_idemp_r.
Qed.

(** What is serialized differs from what was read in the checksum field only. *)
Lemma serialize_read bs p c :
  packet_valid p → sub bs 0 (total_length p) = fixed_header p (checksum p) ++ options p ++ data p →
  fixed_header p c ++ options p ++ data p =
  sub bs 0 10 ++ to_be_bytes 2 c ++ sub bs 12 (total_length p).
Proof.
  intros (_ & _ & _ & _ & Htl & _) Hw. pose proof (len_nonneg (options p)). pose proof (len_nonneg (data p)).
  rewrite <- (sub_sub bs (total_length p) 0 10), <- (sub_sub bs (total_length p) 12 (total_length p)) by lia.
  rewrite Hw, (sub_split _ 12 20 (total_length p)) by lia.
  rewrite !(sub_app_l (fixed_header p (checksum p))), sub_app_r by (rewrite ?len_fixed_header; lia).
  rewrite len_fixed_header, (sub_all (options p ++ data p)) by (rewrite ?len_app; lia).
  rewrite !app_assoc. do 2 f_equal.
Qed.

Lemma header_ranges bs :
  bytes bs → 20 ≤ len bs →
  u8 (from_be_bytes (sub bs 0 1)) ∧ u8 (from_be_bytes (sub bs 1 2)) ∧
  u16 (from_be_bytes (sub bs 2 4)) ∧ u16 (from_be_bytes (sub bs 4 6)) ∧
  u16 (from_be_bytes (sub bs 6 8)) ∧ u8 (from_be_bytes (sub bs 8 9)) ∧
  u8 (from_be_bytes (sub bs 9 10)) ∧ u16 (from_be_bytes (sub bs 10 12)).
Proof.
  intros Hbs Hl.
  split_and!; (apply (read_u_range U8 bs) || apply (read_u_range U16 bs)); done || simpl; lia.
Qed.

Lemma from_packet_ref_inv bs p :
  bytes bs → from_packet_ref bs = Ok p →
  packet_valid p ∧ total_length p ≤ len bs ∧
  ones (word_sum (fixed_header p (checksum p) ++ options p)) = 65535 ∧
  sub bs 0 (total_length p) = fixed_header p (checksum p) ++ options p ++ data p.
Proof.
  intros Hbs. unfold from_packet_ref. cbv zeta.
  destruct (Z.ltb_spec (len bs) 20); [done|].
  destruct (header_ranges bs) as (Hvi & Hds & Htl & Hid & Hff & Httl & Hpr & Hck); [done..|].
  destruct (Z.eqb_spec (from_be_bytes (sub bs 0 1) / 16) 4); [|done].
  destruct (Z.ltb_spec (from_be_bytes (sub bs 0 1) mod 16) 5); [done|].
  set (hl := from_be_bytes (sub bs 0 1) mod 16 * 4) in *.
  destruct (Z.ltb_spec (len bs) hl); [done|].
  set (tl := from_be_bytes (sub bs 2 4)) in *.
  destruct (Z.ltb_spec (len bs) tl), (Z.ltb_spec tl hl); try done. cbn [orb negb].
  destruct (Z.testbit _ 15) eqn:E15; [done|].
  destruct (Z.eqb_spec (ones (word_sum (sub bs 0 hl))) 65535) as [Hver|]; [|done].
  destruct (from_octets_ok (sub bs 12 16)) as (src & -> & Hsrc); [rewrite len_sub; lia|].
  destruct (from_octets_ok (sub bs 16 20)) as (dst & -> & Hdst); [rewrite len_sub; lia|].
  cbn [negb]. intros [= <-].
  pose proof (Z.mod_pos_bound (from_be_bytes (sub bs 0 1)) 16 ltac:(lia)).
  pose proof (Z.mod_pos_bound (from_be_bytes (sub bs 6 8)) (2 ^ 13) ltac:(lia)).
  match goal with |- packet_valid ?q ∧ _ => set (p := q) end.
  assert (Hw : flags_word p = from_be_bytes (sub bs 6 8)) by by apply flags_word_inv.
  assert (Hhdr : fixed_header p (checksum p) = sub bs 0 20).
  { apply fixed_header_read; try done. simpl. by apply from_u8_into. }
  rewrite Hhdr. change (options p) with (sub bs 20 hl). change (data p) with (sub bs hl tl).
  change (total_length p) with tl. rewrite <- !sub_split by lia.
  split_and!; [|lia|done|done].
  assert (ip_ok src ∧ ip_ok dst) as [??].
  { unfold ip_ok. rewrite Hsrc, Hdst. split; by apply sub_Forall. }
  split_and!; cbn -[Z.add Z.div Z.modulo Z.pow hl tl]; try done; try by apply sub_Forall.
  - unfold packet_ok. cbn -[Z.modulo Z.pow hl tl].
    rewrite from_u8_into by done. split_and!; try done; try by apply sub_Forall.
    unfold urange. lia.
  - rewrite len_sub by lia. subst hl. Z.div_mod_to_equations. lia.
  - rewrite len_sub by lia. lia.
  - rewrite len_sub by lia. subst hl. Z.div_mod_to_equations. lia.
  - rewrite !len_sub by lia. lia.
  - lia.
  - apply from_u8_canonical.
Qed.

(** ** Theorems *)

(** C31.  On every byte string [Ipv4Packet::from_packet] returns, without a panic,
    what the reference parser gives: each malformed input is reported with the
    error of the first check it fails, and no out-of-range index, [expect] or
    overflow is ever reached. *)
Theorem from_packet_total (bs : list Z) (Hbs : bytes bs) :
  from_packet bs = Ret (from_packet_ref bs).
Proof. by apply from_packet_eq. Qed.

Definition example_wire : list Z :=
  [0x45; 0x00; 0x00; 0x18; 0x12; 0x34; 0x40; 0x00; 0x40; 0x11; 0x5c; 0xf7;
   0xc0; 0xa8; 0x01; 0x01; 0x0a; 0x00; 0x00; 0x01; 0xde; 0xad; 0xbe; 0xef].

Definition example_packet : Ipv4Packet.t := {|
  version_ihl := 0x45; dscp_ecn := 0; total_length := 24; id := 0x1234; frag_offset := 0;
  dont_fragment := true; more_fragments := false; ttl := 64; protocol := IPProtocol.UDP;
  checksum := 0x5cf7; source := Ip 192 168 1 1; dest := Ip 10 0 0 1;
  options := []; data := [0xde; 0xad; 0xbe; 0xef] |}.

Lemma from_packet_total_witness :
  bytes example_wire ∧ from_packet example_wire = Ret (Ok example_packet).
Proof.
  assert (bytes example_wire) as H by (apply (bool_decide_unpack _); vm_compute; exact I).
  split; [exact H|]. rewrite (from_packet_total _ H). vm_compute. reflexivity.
Defined.

(** C30.  Round trip: a packet whose length fields describe it, whose fragment offset
    fits its 13 bits and whose protocol number is named if it has a name serializes,
    without a panic, to [total_length] bytes, and parsing those bytes, whatever padding
    the Ethernet frame appends to them, gives the packet back with the checksum
    filled in. *)
Theorem serialize_then_parse (p : Ipv4Packet.t) (pad : list Z)
    (Hp : packet_valid p) (Hpad : bytes pad) :
  ∃ bs, serialize p = Ret bs ∧ bytes bs ∧ len bs = total_length p ∧
    from_packet (bs ++ pad) = Ret (Ok (with_checksum (header_checksum p) p)).
Proof.
  destruct (Hp) as (Hok & _ & Ho & _ & Htl & _).
  destruct (Hok) as (_&_&_&_&_&_&_&_&_&_&Hopt&Hdat).
  pose proof (fixed_header_bytes p (header_checksum p) Hok).
  exists (fixed_header p (header_checksum p) ++ options p ++ data p).
  split_and!.
  - apply serialize_eq; [done|lia].
  - bytes_solve.
  - rewrite !len_app, len_fixed_header. lia.
  - rewrite <- !app_assoc, from_packet_eq by bytes_solve. by rewrite parse_serialized.
Qed.

Lemma example_packet_valid : packet_valid example_packet.
Proof. apply (bool_decide_unpack _). vm_compute. exact I. Qed.

Lemma serialize_then_parse_witness :
  packet_valid example_packet ∧ ∃ bs, serialize example_packet = Ret bs ∧
    from_packet (bs ++ [0; 0; 0]) = Ret (Ok example_packet).
Proof.
  split; [exact example_packet_valid|].
  destruct (serialize_then_parse example_packet [0; 0; 0]) as (bs & H1 & _ & _ & H2);
    [exact example_packet_valid | apply (bool_decide_unpack _); vm_compute; exact I |].
  exists bs. split; [exact H1|]. exact H2.
Defined.

(** C29.  Whatever [from_packet] accepts satisfies the packet invariant (length
    fields, ranges, a canonical protocol), and serializing it reproduces the bytes
    that were read, padding cut off.  The one exception is a checksum field that
    held 0xFFFF, the other representation of zero: there the same bytes come with
    0x0000 in that field. *)
Theorem parse_then_serialize (bs : list Z) (p : Ipv4Packet.t)
    (Hbs : bytes bs) (Hp : from_packet bs = Ret (Ok p)) :
  packet_valid p ∧ total_length p ≤ len bs ∧
  serialize p = Ret (if decide (checksum p = 65535)
    then sub bs 0 10 ++ [0; 0] ++ sub bs 12 (total_length p)
    else sub bs 0 (total_length p)).
Proof.
  rewrite from_packet_eq in Hp by done. injection Hp as Hp.
  apply from_packet_ref_inv in Hp as (Hv & Hl & Hver & Hw); [|done].
  split_and!; [done..|]. destruct (Hv) as (Hok & _ & Ho & _).
  rewrite serialize_eq, header_checksum_read by (done || lia). f_equal.
  destruct (decide _) as [Hff|Hne].
  - rewrite Hff. by rewrite (serialize_read bs) by done.
  - destruct Hok as (_&_&_&_&_&_&_&Hc&_). unfold urange in Hc. by rewrite Z.mod_small by lia.
Qed.

Lemma parse_then_serialize_witness :
  from_packet example_wire = Ret (Ok example_packet) ∧
  serialize example_packet = Ret (sub example_wire 0 24).
Proof.
  assert (bytes example_wire) as Hb by (apply (bool_decide_unpack _); vm_compute; exact I).
  assert (from_packet example_wire = Ret (Ok example_packet)) as H by (vm_compute; reflexivity).
  split; [exact H|]. exact (proj2 (proj2 (parse_then_serialize _ _ Hb H))).
Defined.

(** What [new] builds around a payload that fits. *)
Definition fresh_packet (dat : list Z) (src dst : Ipv4Addr) (ident : Z)
    (proto : IPProtocol.t) : Ipv4Packet.t := {|
  version_ihl := 0x45; dscp_ecn := 0; total_length := len dat + 20; id := ident;
  frag_offset := 0; dont_fragment := false; more_fragments := false; ttl := 64;
  protocol := proto; checksum := 0; source := src; dest := dst; options := []; data := dat |}.

Lemma new_ok dat src dst ident proto :
  len dat ≤ 65515 → new dat src dst ident proto = Ok (fresh_packet dat src dst ident proto).
Proof.
  intros. pose proof (len_nonneg dat). unfold new.
  by rewrite try_from_usize_ok by (unfold urange; lia).
Qed.

Lemma fresh_packet_valid dat src dst ident proto :
  bytes dat → ip_ok src → ip_ok dst → u16 ident → u8 (IPProtocol.into_u8 proto) →
  IPProtocol.from_u8 (IPProtocol.into_u8 proto) = proto → len dat ≤ 65515 →
  packet_valid (fresh_packet dat src dst ident proto).
Proof.
  intros. pose proof (len_nonneg dat). unfold packet_valid, packet_ok. simpl.
  split_and!; first [done | by apply Forall_nil_2 | unfold urange; len_lia].
Qed.

(** [Ipv4Packet::new] fails exactly on a payload of more than 65515 bytes;
    otherwise what it builds satisfies the packet invariant, so that it survives
    the trip over the wire. *)
Theorem new_spec (dat : list Z) (src dst : Ipv4Addr) (ident : Z) (proto : IPProtocol.t)
    (Hdat : bytes dat) (Hsrc : ip_ok src) (Hdst : ip_ok dst) (Hid : u16 ident)
    (Hproto : u8 (IPProtocol.into_u8 proto) ∧
              IPProtocol.from_u8 (IPProtocol.into_u8 proto) = proto) :
  match new dat src dst ident proto with
  | Ok p => len dat ≤ 65515 ∧ packet_valid p ∧ data p = dat ∧ options p = [] ∧
      source p = src ∧ dest p = dst ∧ id p = ident ∧ protocol p = proto
  | Err e => 65515 < len dat ∧ e = Ipv4Error.LengthOutOfRange
  end.
Proof.
  destruct (Z.ltb_spec 65515 (len dat)).
  - unfold new. by rewrite try_from_usize_none by lia.
  - rewrite new_ok by lia. destruct Hproto. split_and!; try done. by apply fresh_packet_valid.
Qed.

Lemma new_spec_witness :
  match new [1; 2; 3] (Ip 10 0 0 1) (Ip 10 0 0 2) 7 IPProtocol.ICMP with
  | Ok p => packet_valid p | Err _ => False end.
Proof.
  pose proof (new_spec [1; 2; 3] (Ip 10 0 0 1) (Ip 10 0 0 2) 7 IPProtocol.ICMP) as H.
  simpl in H. apply H; apply (bool_decide_unpack _); vm_compute; exact I.
Defined.
