(* ===== verification/Arp.v ===== *)
(** * ARP: [net/src/arp.rs]

    The cache of resolved and pending addresses ([ArpCache]) and the wire format
    ([ArpPacket]).  The cache's [BTreeMap] is a [gmap]: only [values().count()]
    iterates over it, and a count does not depend on the order. *)

From S2P Require Import Prelude Utils Addr.
From stdpp Require Import fin_maps.
Local Open Scope Z_scope.

Definition MAX_PENDING_PER_ADDRESS : Z := 4.
Definition MAX_PENDING_ADDRESSES : Z := 16.

(** ** The cache *)

Module ArpEntry.
Inductive t :=
| Resolved (mac : MacAddress)
| Pending (queue : list (list Z)).

Definition is_pending (e : t) : bool := match e with Pending _ => true | Resolved _ => false end.
End ArpEntry.

Module Queued.
Inductive t := RequestNeeded | AlreadyPending | Dropped.
#[global] Instance t_eq_dec : EqDecision t.
Proof. solve_decision. Defined.
End Queued.

Module ArpCache.

Record t := { entries : gmap Ipv4Addr ArpEntry.t }.

Definition new : t := {| entries := ∅ |}.

Definition lookup (c : t) (ip : Ipv4Addr) : option MacAddress :=
  match entries c !! ip with
  | Some (ArpEntry.Resolved mac) => Some mac
  | Some (ArpEntry.Pending _) | None => None
  end.

(** Returns the cache and the frames that were parked on [ip]. *)
Definition insert (c : t) (ip : Ipv4Addr) (mac : MacAddress) : t * list (list Z) :=
  ({| entries := <[ip := ArpEntry.Resolved mac]> (entries c) |},
   match entries c !! ip with
   | Some (ArpEntry.Pending queue) => queue
   | Some (ArpEntry.Resolved _) | None => []
   end).

Definition pending_len (c : t) (ip : Ipv4Addr) : Z :=
  match entries c !! ip with
  | Some (ArpEntry.Pending queue) => len queue
  | Some (ArpEntry.Resolved _) | None => 0
  end.

Definition pending_addresses (c : t) : Z :=
  len (filter (λ e, ArpEntry.is_pending e = true) (map_to_list (entries c)).*2).

Definition queue_pending (c : t) (ip : Ipv4Addr) (frame : list Z) : t * Queued.t :=
  match entries c !! ip with
  | Some (ArpEntry.Pending queue) =>
      if len queue <? MAX_PENDING_PER_ADDRESS
      then ({| entries := <[ip := ArpEntry.Pending (queue ++ [frame])]> (entries c) |},
            Queued.AlreadyPending)
      else (c, Queued.Dropped)
  | Some (ArpEntry.Resolved _) => (c, Queued.Dropped)
  | None =>
      if MAX_PENDING_ADDRESSES <=? pending_addresses c then (c, Queued.Dropped)
      else ({| entries := <[ip := ArpEntry.Pending [frame]]> (entries c) |},
            Queued.RequestNeeded)
  end.

Definition remove (c : t) (ip : Ipv4Addr) : t := {| entries := delete ip (entries c) |}.

Definition contains (c : t) (ip : Ipv4Addr) : bool :=
  match lookup c ip with Some _ => true | None => false end.

End ArpCache.

(** *** What the cache promises *)

(** The frames parked on [ip], oldest first. *)
Definition parked (c : ArpCache.t) (ip : Ipv4Addr) : list (list Z) :=
  match ArpCache.entries c !! ip with Some (ArpEntry.Pending q) => q | _ => [] end.

(** No queue is empty or longer than its bound, and no more than
    [MAX_PENDING_ADDRESSES] addresses are pending. *)
Definition cache_ok (c : ArpCache.t) : Prop :=
  (∀ ip q, ArpCache.entries c !! ip = Some (ArpEntry.Pending q) →
     1 ≤ len q ≤ MAX_PENDING_PER_ADDRESS) ∧
  ArpCache.pending_addresses c ≤ MAX_PENDING_ADDRESSES.

(** Histories: the operations that change a cache, what each reported. *)
Inductive cache_op :=
| OpInsert (ip : Ipv4Addr) (mac : MacAddress)
| OpQueue (ip : Ipv4Addr) (frame : list Z)
| OpRemove (ip : Ipv4Addr).

Inductive cache_event :=
| Flushed (ip : Ipv4Addr) (frames : list (list Z))
| QueuedAs (ip : Ipv4Addr) (frame : list Z) (q : Queued.t)
| Removed (ip : Ipv4Addr).

Definition run_op (c : ArpCache.t) (op : cache_op) : ArpCache.t * cache_event :=
  match op with
  | OpInsert ip mac => let '(c, fs) := ArpCache.insert c ip mac in (c, Flushed ip fs)
  | OpQueue ip f => let '(c, q) := ArpCache.queue_pending c ip f in (c, QueuedAs ip f q)
  | OpRemove ip => (ArpCache.remove c ip, Removed ip)
  end.

Fixpoint run_ops (c : ArpCache.t) (ops : list cache_op) : ArpCache.t * list cache_event :=
  match ops with
  | [] => (c, [])
  | op :: ops =>
      let '(c, ev) := run_op c op in
      let '(c, evs) := run_ops c ops in (c, ev :: evs)
  end.

(** The frames accepted for [ip], and the ones handed back for it, in a history. *)
Definition accepted (ip : Ipv4Addr) (evs : list cache_event) : list (list Z) :=
  evs ≫= λ ev, match ev with
    | QueuedAs i f (Queued.RequestNeeded | Queued.AlreadyPending) =>
        if decide (i = ip) then [f] else []
    | _ => [] end.
Definition flushed (ip : Ipv4Addr) (evs : list cache_event) : list (list Z) :=
  evs ≫= λ ev, match ev with
    | Flushed i fs => if decide (i = ip) then fs else []
    | _ => [] end.

(** *** Counting pending addresses *)

Definition pending_map (c : ArpCache.t) : gmap Ipv4Addr ArpEntry.t :=
  filter (λ kv, ArpEntry.is_pending kv.2 = true) (ArpCache.entries c).

Lemma pending_addresses_size c : ArpCache.pending_addresses c = Z.of_nat (size (pending_map c)).
Proof.
  unfold ArpCache.pending_addresses, pending_map, len. f_equal.
  destruct c as [m]. simpl. induction m as [|i x m Hi IH] using map_ind.
  { rewrite map_to_list_empty, map_filter_empty, map_size_empty. done. }
  rewrite (map_to_list_insert m i x Hi). cbn [fmap list_fmap]. rewrite filter_cons.
  rewrite map_filter_insert. simpl. case_decide as Hx.
  - rewrite map_size_insert_None by by apply map_lookup_filter_None_2; left.
    simpl. by rewrite IH.
  - by rewrite IH, delete_id.
Qed.

Lemma pending_insert_new c ip x :
  ArpCache.entries c !! ip = None → ArpEntry.is_pending x = true →
  ArpCache.pending_addresses {| ArpCache.entries := <[ip := x]> (ArpCache.entries c) |}
  = ArpCache.pending_addresses c + 1.
Proof.
  intros Hi Hx. rewrite !pending_addresses_size. unfold pending_map. simpl.
  rewrite map_filter_insert_True by done.
  rewrite map_size_insert_None by by apply map_lookup_filter_None_2; left. lia.
Qed.

Lemma pending_insert_same c ip x y :
  ArpCache.entries c !! ip = Some y → ArpEntry.is_pending x = ArpEntry.is_pending y →
  ArpCache.pending_addresses {| ArpCache.entries := <[ip := x]> (ArpCache.entries c) |}
  = ArpCache.pending_addresses c.
Proof.
  intros Hi Hxy. rewrite !pending_addresses_size. f_equal. unfold pending_map. simpl.
  rewrite map_filter_insert. simpl. case_decide as Hx.
  - rewrite Hxy in Hx.
    rewrite map_size_insert_Some; [done|]. exists y. by apply map_lookup_filter_Some.
  - rewrite Hxy in Hx. rewrite map_filter_delete, delete_id; [done|].
    apply map_lookup_filter_None. right. intros z Hz. by simplify_eq.
Qed.

Lemma pending_resolve_le c ip mac :
  ArpCache.pending_addresses
    {| ArpCache.entries := <[ip := ArpEntry.Resolved mac]> (ArpCache.entries c) |}
  ≤ ArpCache.pending_addresses c.
Proof.
  rewrite !pending_addresses_size. unfold pending_map. simpl.
  rewrite map_filter_insert_False by done. rewrite map_filter_delete, map_size_delete.
  case_match; simpl; lia.
Qed.

Lemma pending_remove_le c ip :
  ArpCache.pending_addresses (ArpCache.remove c ip) ≤ ArpCache.pending_addresses c.
Proof.
  rewrite !pending_addresses_size. unfold pending_map. simpl.
  rewrite map_filter_delete, map_size_delete. case_match; simpl; lia.
Qed.

(** *** The invariant is preserved *)

Lemma run_op_ok c op : cache_ok c → cache_ok (run_op c op).1.
Proof.
  intros [Hq Hn]. destruct op as [ip mac|ip f|ip]; simpl.
  - split; [|pose proof (pending_resolve_le c ip mac); simpl in *; lia].
    intros i q Hi. simpl in Hi. apply lookup_insert_Some in Hi as [[_ ?]|[_ Hi]]; [done|].
    by apply (Hq i).
  - unfold ArpCache.queue_pending. destruct (ArpCache.entries c !! ip) as [[mac|q]|] eqn:E;
      [by split| |].
    + destruct (Z.ltb_spec (len q) MAX_PENDING_PER_ADDRESS); [|by split].
      split; cbn [fst]; [|by rewrite (pending_insert_same c ip _ (ArpEntry.Pending q))].
      intros i q' Hi. simpl in Hi. apply lookup_insert_Some in Hi as [[_ [= <-]]|[_ Hi]].
      * apply Hq in E. len_lia.
      * by apply (Hq i).
    + destruct (Z.leb_spec MAX_PENDING_ADDRESSES (ArpCache.pending_addresses c)); [by split|].
      split; cbn [fst]; [|rewrite pending_insert_new by done; lia].
      intros i q' Hi. simpl in Hi. apply lookup_insert_Some in Hi as [[_ [= <-]]|[_ Hi]].
      * done.
      * by apply (Hq i).
  - split; [|pose proof (pending_remove_le c ip); lia].
    intros i q Hi. simpl in Hi. apply lookup_delete_Some in Hi as [_ Hi]. by apply (Hq i).
Qed.

Lemma cache_ok_new : cache_ok ArpCache.new.
Proof. split; [|done]. intros ip q H. simpl in H. by rewrite lookup_empty in H. Qed.

(** C33.  Every cache that any sequence of inserts, queueings and removals can
    reach keeps its bounds: at most 16 addresses are pending, each with between
    one and four parked frames. *)
Theorem cache_bounded (ops : list cache_op) : cache_ok (run_ops ArpCache.new ops).1.
Proof.
  generalize cache_ok_new. generalize ArpCache.new.
  induction ops as [|op ops IH]; intros c Hc; [done|]. simpl.
  pose proof (run_op_ok c op Hc) as Hc'. destruct (run_op c op) as [c' ev].
  specialize (IH c' Hc'). by destruct (run_ops c' ops).
Qed.

(** *** Nothing is lost, duplicated or reordered *)

Lemma run_op_parked c op ip :
  op ≠ OpRemove ip →
  parked c ip ++ accepted ip [(run_op c op).2]
  = flushed ip [(run_op c op).2] ++ parked (run_op c op).1 ip.
Proof.
  intros Hne. destruct op as [i mac|i f|i]; unfold parked, accepted, flushed; simpl.
  - rewrite !app_nil_r. destruct (decide (i = ip)) as [->|Hi].
    + rewrite lookup_insert_eq, app_nil_r. by destruct (ArpCache.entries c !! ip) as [[]|].
    + by rewrite lookup_insert_ne.
  - unfold ArpCache.queue_pending.
    destruct (ArpCache.entries c !! i) as [[mac|q]|] eqn:E; [by rewrite app_nil_r|..].
    + destruct (len q <? MAX_PENDING_PER_ADDRESS); cbn -[decide]; [|by rewrite app_nil_r].
      destruct (decide (i = ip)) as [->|Hi];
        [by rewrite lookup_insert_eq, E | by rewrite lookup_insert_ne, app_nil_r].
    + destruct (MAX_PENDING_ADDRESSES <=? _); cbn -[decide]; [by rewrite app_nil_r|].
      destruct (decide (i = ip)) as [->|Hi];
        [by rewrite lookup_insert_eq, E | by rewrite lookup_insert_ne, app_nil_r].
  - rewrite app_nil_r, lookup_delete_ne by congruence. done.
Qed.

Lemma accepted_app ip e1 e2 : accepted ip (e1 ++ e2) = accepted ip e1 ++ accepted ip e2.
Proof. apply bind_app. Qed.

Lemma flushed_app ip e1 e2 : flushed ip (e1 ++ e2) = flushed ip e1 ++ flushed ip e2.
Proof. apply bind_app. Qed.

(** C32.  The frames accepted for an address that is not removed are exactly the
    ones handed back by inserts for it, in the order they were accepted, followed
    by the ones still parked: none is lost, sent twice or reordered, and no frame
    parked on another address is handed back. *)
Theorem cache_conserves (ops : list cache_op) (ip : Ipv4Addr)
    (Hrm : OpRemove ip ∉ ops) :
  let '(c, evs) := run_ops ArpCache.new ops in
  accepted ip evs = flushed ip evs ++ parked c ip.
Proof.
  enough (∀ c0, let '(c, evs) := run_ops c0 ops in
    parked c0 ip ++ accepted ip evs = flushed ip evs ++ parked c ip) as H
    by apply (H ArpCache.new).
  induction ops as [|op ops IH]; intros c0; simpl; [by rewrite app_nil_r|].
  apply not_elem_of_cons in Hrm as [Hop Hrm].
  pose proof (run_op_parked c0 op ip ltac:(congruence)) as Hs.
  destruct (run_op c0 op) as [c1 ev]. specialize (IH Hrm c1).
  destruct (run_ops c1 ops) as [c2 evs]. cbn [fst snd] in Hs.
  change (ev :: evs) with ([ev] ++ evs).
  rewrite accepted_app, flushed_app, app_assoc, Hs, <- !app_assoc. by f_equal.
Qed.

Lemma cache_conserves_witness :
  let ip := Ip 192 168 1 1 in
  let ops := [OpQueue ip [0xaa]; OpQueue ip [0xbb]; OpInsert ip (Mac 2 0 0 0 0 1)] in
  let '(c, evs) := run_ops ArpCache.new ops in
  flushed ip evs = [[0xaa]; [0xbb]] ∧ accepted ip evs = flushed ip evs ++ parked c ip.
Proof.
  split; [vm_compute; reflexivity|].
  apply (cache_conserves [OpQueue (Ip 192 168 1 1) [0xaa]; OpQueue (Ip 192 168 1 1) [0xbb];
    OpInsert (Ip 192 168 1 1) (Mac 2 0 0 0 0 1)] (Ip 192 168 1 1)).
  rewrite !not_elem_of_cons. split_and!; try congruence. apply not_elem_of_nil.
Defined.

(** What queueing reports and does, on every branch. *)
Definition queue_outcome (c : ArpCache.t) (ip : Ipv4Addr) (frame : list Z)
    (res : ArpCache.t * Queued.t) : Prop :=
  let '(c', r) := res in
  (∀ j, ArpCache.lookup c' j = ArpCache.lookup c j) ∧
  (∀ j, j ≠ ip → parked c' j = parked c j) ∧
  match r with
  | Queued.RequestNeeded =>
      ArpCache.lookup c ip = None ∧ parked c ip = [] ∧ parked c' ip = [frame] ∧
      ArpCache.pending_addresses c' = ArpCache.pending_addresses c + 1
  | Queued.AlreadyPending =>
      ArpCache.lookup c ip = None ∧ parked c ip ≠ [] ∧ parked c' ip = parked c ip ++ [frame]
  | Queued.Dropped =>
      c' = c ∧ (ArpCache.contains c ip = true ∨
                len (parked c ip) = MAX_PENDING_PER_ADDRESS ∨
                parked c ip = [] ∧ ArpCache.pending_addresses c = MAX_PENDING_ADDRESSES)
  end.

Lemma queue_pending_facts c ip frame :
  cache_ok c → queue_outcome c ip frame (ArpCache.queue_pending c ip frame).
Proof.
  intros [Hq Hn]. unfold queue_outcome, ArpCache.queue_pending, ArpCache.contains, ArpCache.lookup, parked.
  destruct (ArpCache.entries c !! ip) as [[mac|q]|] eqn:E.
  - split_and!; try done. by left.
  - pose proof (Hq _ _ E). destruct (Z.ltb_spec (len q) MAX_PENDING_PER_ADDRESS); simpl.
    + rewrite lookup_insert_eq. split_and!; try done.
      * intros j. destruct (decide (ip = j)) as [->|]; [|by rewrite lookup_insert_ne].
        by rewrite lookup_insert_eq, E.
      * intros j Hj. by rewrite lookup_insert_ne.
      * intros ->. rewrite len_nil in *. lia.
    + split_and!; try done. right; left. lia.
  - destruct (Z.leb_spec MAX_PENDING_ADDRESSES (ArpCache.pending_addresses c)); simpl.
    + split_and!; try done. right; right. split; [done|lia].
    + rewrite lookup_insert_eq. split_and!; try done.
      * intros j. destruct (decide (ip = j)) as [->|]; [|by rewrite lookup_insert_ne].
        by rewrite lookup_insert_eq, E.
      * intros j Hj. by rewrite lookup_insert_ne.
      * by apply pending_insert_new.
Qed.

(** Queueing on every branch, in a cache within its bounds: it never
    changes what is resolved, nor another address's queue; it asks for a request
    exactly when the address is unknown and nothing waits on it (one request per
    burst); it drops, leaving the cache untouched, only on a resolved address, a
    full queue or a full table. *)
Theorem queue_pending_spec (c : ArpCache.t) (ip : Ipv4Addr) (frame : list Z)
    (Hc : cache_ok c) :
  queue_outcome c ip frame (ArpCache.queue_pending c ip frame).
Proof. by apply queue_pending_facts. Qed.

Lemma queue_pending_spec_witness :
  (ArpCache.queue_pending ArpCache.new (Ip 10 0 0 1) [1]).2 = Queued.RequestNeeded ∧
  parked (ArpCache.queue_pending ArpCache.new (Ip 10 0 0 1) [1]).1 (Ip 10 0 0 1) = [[1]].
Proof.
  pose proof (queue_pending_spec ArpCache.new (Ip 10 0 0 1) [1] cache_ok_new) as H.
  split; [vm_compute; reflexivity|].
  destruct (ArpCache.queue_pending ArpCache.new (Ip 10 0 0 1) [1]) as [c r] eqn:E.
  assert (r = Queued.RequestNeeded) as -> by (injection E as _ <-; vm_compute; reflexivity).
  apply H.
Defined.

(** ** The packet *)

Module ArpOperation.
Inductive t := Request | Reply.
#[global] Instance t_eq_dec : EqDecision t.
Proof. solve_decision. Defined.

(** [operation as u16] *)
Definition as_u16 (op : t) : Z := match op with Request => 1 | Reply => 2 end.

(** [TryFrom<u16>] *)
Definition try_from (value : Z) : result t unit :=
  if value =? 1 then Ok Request else if value =? 2 then Ok Reply else Err tt.
End ArpOperation.

Module ArpError.
Inductive t := LengthOutOfRange | IncorrectFormat | BadOperation.
#[global] Instance t_eq_dec : EqDecision t.
Proof. solve_decision. Defined.
End ArpError.

Module ArpPacket.

Record t := {
  hardware_type : Z;
  protocol_type : Z;
  hardware_len : Z;
  proto_len : Z;
  operation : ArpOperation.t;
  sender_mac : MacAddress;
  sender_addr : Ipv4Addr;
  target_mac : MacAddress;
  target_addr : Ipv4Addr;
}.

#[global] Instance t_eq_dec : EqDecision t.
Proof. solve_decision. Defined.

Definition serialize (p : t) : outcome (list Z) :=
  let pkt := array 0 28 in
  pkt ← copy_range pkt 0 2 (to_be_bytes 2 (hardware_type p));
  pkt ← copy_range pkt 2 4 (to_be_bytes 2 (protocol_type p));
  pkt ← copy_range pkt 4 5 (to_be_bytes 1 (hardware_len p));
  pkt ← copy_range pkt 5 6 (to_be_bytes 1 (proto_len p));
  pkt ← copy_range pkt 6 8 (to_be_bytes 2 (ArpOperation.as_u16 (operation p)));
  pkt ← copy_range pkt 8 14 (mac_addr (sender_mac p));
  pkt ← copy_range pkt 14 18 (octets (sender_addr p));
  pkt ← copy_range pkt 18 24 (mac_addr (target_mac p));
  copy_range pkt 24 28 (octets (target_addr p)).

Definition from_slice (packet_data : list Z) : outcome (result t ArpError.t) :=
  if len packet_data <? 28 then Ret (Err ArpError.LengthOutOfRange) else
  hardware_type ← read U16 packet_data 0 2;
  protocol_type ← read U16 packet_data 2 4;
  hardware_len ← read U8 packet_data 4 5;
  proto_len ← read U8 packet_data 5 6;
  op ← read U16 packet_data 6 8;
  match ArpOperation.try_from op with
  | Err _ => Ret (Err ArpError.BadOperation)
  | Ok operation =>
      if negb (hardware_type =? 1) || negb (protocol_type =? 0x0800) ||
         negb (hardware_len =? 6) || negb (proto_len =? 4)
      then Ret (Err ArpError.IncorrectFormat) else
      s ← slice packet_data 8 14; sender_mac ← MacAddress_new s;
      s ← slice packet_data 14 18; sender_addr ← from_octets s;
      s ← slice packet_data 18 24; target_mac ← MacAddress_new s;
      s ← slice packet_data 24 28; target_addr ← from_octets s;
      Ret (Ok {|
        hardware_type := hardware_type;
        protocol_type := protocol_type;
        hardware_len := hardware_len;
        proto_len := proto_len;
        operation := operation;
        sender_mac := sender_mac;
        sender_addr := sender_addr;
        target_mac := target_mac;
        target_addr := target_addr |})
  end.

End ArpPacket.

(** An Ethernet/IPv4 ARP packet: the only kind the parser accepts. *)
Definition arp_valid (p : ArpPacket.t) : Prop :=
  ArpPacket.hardware_type p = 1 ∧ ArpPacket.protocol_type p = 0x0800 ∧
  ArpPacket.hardware_len p = 6 ∧ ArpPacket.proto_len p = 4 ∧
  mac_ok (ArpPacket.sender_mac p) ∧ ip_ok (ArpPacket.sender_addr p) ∧
  mac_ok (ArpPacket.target_mac p) ∧ ip_ok (ArpPacket.target_addr p).

(** The 28 bytes of a valid packet. *)
Definition arp_wire (p : ArpPacket.t) : list Z :=
  [0x00; 0x01; 0x08; 0x00; 0x06; 0x04; 0x00; ArpOperation.as_u16 (ArpPacket.operation p)] ++
  mac_addr (ArpPacket.sender_mac p) ++ octets (ArpPacket.sender_addr p) ++
  mac_addr (ArpPacket.target_mac p) ++ octets (ArpPacket.target_addr p).

Lemma arp_serialize_eq p : arp_valid p → ArpPacket.serialize p = Ret (arp_wire p).
Proof.
  destruct p as [ht pt hl pl op smac saddr tmac taddr].
  intros (H1 & H2 & H3 & H4 & _). simpl in *. subst. destruct smac, saddr, tmac, taddr, op; reflexivity.
Qed.

Section ArpParse.
Context (bs : list Z) (Hbs : bytes bs) (Hlen : 28 ≤ len bs).

Definition arp_fields_ok : bool :=
  (from_be_bytes (sub bs 0 2) =? 1) && (from_be_bytes (sub bs 2 4) =? 0x0800) &&
  (from_be_bytes (sub bs 4 5) =? 6) && (from_be_bytes (sub bs 5 6) =? 4).

(** What the parser does on a buffer that is long enough. *)
Lemma from_slice_long :
  match ArpOperation.try_from (from_be_bytes (sub bs 6 8)) with
  | Err _ => ArpPacket.from_slice bs = Ret (Err ArpError.BadOperation)
  | Ok op =>
      if arp_fields_ok then ∃ smac saddr tmac taddr,
        ArpPacket.from_slice bs = Ret (Ok (ArpPacket.Build_t 1 0x0800 6 4 op smac saddr tmac taddr)) ∧
        mac_addr smac = sub bs 8 14 ∧ octets saddr = sub bs 14 18 ∧
        mac_addr tmac = sub bs 18 24 ∧ octets taddr = sub bs 24 28
      else ArpPacket.from_slice bs = Ret (Err ArpError.IncorrectFormat)
  end.
Proof using Hlen.
  unfold ArpPacket.from_slice, arp_fields_ok.
  rewrite (proj2 (Z.ltb_ge _ 28)), !read_ok, !bind_Ret by (done || simpl; lia).
  destruct (ArpOperation.try_from _) as [op|]; [|done].
  destruct (Z.eqb_spec (from_be_bytes (sub bs 0 2)) 1) as [->|]; [|done].
  destruct (Z.eqb_spec (from_be_bytes (sub bs 2 4)) 0x0800) as [->|]; [|done].
  destruct (Z.eqb_spec (from_be_bytes (sub bs 4 5)) 6) as [->|]; [|done].
  destruct (Z.eqb_spec (from_be_bytes (sub bs 5 6)) 4) as [->|]; [|done].
  cbn [negb orb andb].
  destruct (MacAddress_new_ok (sub bs 8 14)) as (smac & E1 & ?); [rewrite len_sub; lia|].
  destruct (from_octets_ok (sub bs 14 18)) as (saddr & E2 & ?); [rewrite len_sub; lia|].
  destruct (MacAddress_new_ok (sub bs 18 24)) as (tmac & E3 & ?); [rewrite len_sub; lia|].
  destruct (from_octets_ok (sub bs 24 28)) as (taddr & E4 & ?); [rewrite len_sub; lia|].
  exists smac, saddr, tmac, taddr. split; [|done].
  rewrite !slice_ok by lia. by rewrite bind_Ret, E1, !bind_Ret, E2, !bind_Ret, E3, !bind_Ret, E4.
Qed.

(** The first eight bytes of an accepted packet. *)
Lemma arp_header_bytes op :
  ArpOperation.try_from (from_be_bytes (sub bs 6 8)) = Ok op → arp_fields_ok = true →
  sub bs 0 8 = [0x00; 0x01; 0x08; 0x00; 0x06; 0x04; 0x00; ArpOperation.as_u16 op].
Proof using Hbs Hlen.
  unfold arp_fields_ok. rewrite !andb_true_iff, !Z.eqb_eq. intros Hop [[[H0 H2] H4] H5].
  rewrite (sub_split bs 0 2 8), (sub_split bs 2 4 8), (sub_split bs 4 5 8),
    (sub_split bs 5 6 8) by lia.
  rewrite <- (to_be_read U16 bs 0 2), <- (to_be_read U16 bs 2 4), <- (to_be_read U8 bs 4 5),
    <- (to_be_read U8 bs 5 6), <- (to_be_read U16 bs 6 8) by (done || simpl; lia).
  rewrite H0, H2, H4, H5. unfold ArpOperation.try_from in Hop.
  destruct (Z.eqb_spec (from_be_bytes (sub bs 6 8)) 1) as [->|]; [by injection Hop as <-|].
  destruct (Z.eqb_spec (from_be_bytes (sub bs 6 8)) 2) as [->|]; [by injection Hop as <-|done].
Qed.
End ArpParse.

(** The answer of the parser, as a predicate on the input and the result. *)
Definition arp_classify (bs : list Z) (r : result ArpPacket.t ArpError.t) : Prop :=
  match r with
  | Ok p => arp_valid p ∧ 28 ≤ len bs ∧ sub bs 0 28 = arp_wire p
  | Err ArpError.LengthOutOfRange => len bs < 28
  | Err ArpError.BadOperation =>
      28 ≤ len bs ∧ from_be_bytes (sub bs 6 8) ≠ 1 ∧ from_be_bytes (sub bs 6 8) ≠ 2
  | Err ArpError.IncorrectFormat => 28 ≤ len bs ∧ arp_fields_ok bs = false
  end.

Lemma arp_from_slice_classified bs :
  bytes bs → ∃ r, ArpPacket.from_slice bs = Ret r ∧ arp_classify bs r.
Proof.
  intros Hbs. unfold arp_classify.
  destruct (Z.ltb_spec (len bs) 28) as [Hl|Hl].
  { exists (Err ArpError.LengthOutOfRange). split; [|done].
    unfold ArpPacket.from_slice. by rewrite (proj2 (Z.ltb_lt _ _)). }
  pose proof (from_slice_long bs Hl) as H. pose proof (arp_header_bytes bs Hbs Hl) as Hh.
  destruct (ArpOperation.try_from _) as [op|] eqn:Eop.
  - destruct (arp_fields_ok bs) eqn:Ef.
    + destruct H as (smac & saddr & tmac & taddr & -> & H8 & H14 & H18 & H24).
      eexists. split; [done|]. unfold arp_valid, mac_ok, ip_ok, arp_wire.
      cbn [ArpPacket.hardware_type ArpPacket.protocol_type ArpPacket.hardware_len
        ArpPacket.proto_len ArpPacket.operation ArpPacket.sender_mac ArpPacket.sender_addr
        ArpPacket.target_mac ArpPacket.target_addr].
      rewrite H8, H14, H18, H24. split_and!; try done; try by apply sub_Forall.
      rewrite (sub_split bs 0 8 28), (Hh op), (sub_split bs 8 14 28), (sub_split bs 14 18 28),
        (sub_split bs 18 24 28) by (done || lia).
      done.
    + eexists. split; [exact H|done].
  - eexists. split; [exact H|]. unfold ArpOperation.try_from in Eop.
    destruct (Z.eqb_spec (from_be_bytes (sub bs 6 8)) 1); [done|].
    destruct (Z.eqb_spec (from_be_bytes (sub bs 6 8)) 2); done.
Qed.

Lemma arp_parse_wire p pad :
  arp_valid p → ArpPacket.from_slice (arp_wire p ++ pad) = Ret (Ok p).
Proof.
  intros Hp.
  assert (28 ≤ len (arp_wire p ++ pad)) as Hl.
  { rewrite len_app. change (len (arp_wire p)) with 28. pose proof (len_nonneg pad). lia. }
  pose proof (from_slice_long _ Hl) as H.
  change (sub (arp_wire p ++ pad) 6 8) with [0; ArpOperation.as_u16 (ArpPacket.operation p)] in H.
  replace (ArpOperation.try_from _) with (@Ok _ unit (ArpPacket.operation p)) in H
    by (by destruct (ArpPacket.operation p)).
  change (arp_fields_ok (arp_wire p ++ pad)) with true in H. cbv iota beta in H.
  destruct H as (smac & saddr & tmac & taddr & -> & H8 & H14 & H18 & H24).
  apply mac_addr_inj in H8, H18. apply octets_inj in H14, H24. subst.
  destruct Hp as (H1 & H2 & H3 & H4 & _). destruct p. simpl in *. by subst.
Qed.

(** On every byte string [ArpPacket::from_slice] returns, and its answer
    classifies the input: it accepts exactly the buffers that start with the 28
    bytes of a valid packet, and names the defect of any other. *)
Theorem arp_from_slice_spec (bs : list Z) (Hbs : bytes bs) :
  ∃ r, ArpPacket.from_slice bs = Ret r ∧ arp_classify bs r.
Proof. by apply arp_from_slice_classified. Qed.

Definition example_arp : ArpPacket.t := {|
  ArpPacket.hardware_type := 1; ArpPacket.protocol_type := 0x0800;
  ArpPacket.hardware_len := 6; ArpPacket.proto_len := 4;
  ArpPacket.operation := ArpOperation.Request;
  ArpPacket.sender_mac := Mac 0x11 0x22 0x33 0x44 0x55 0x66;
  ArpPacket.sender_addr := Ip 192 168 1 10;
  ArpPacket.target_mac := Mac 0 0 0 0 0 0;
  ArpPacket.target_addr := Ip 192 168 1 20 |}.

Lemma arp_from_slice_spec_witness :
  bytes (arp_wire example_arp) ∧ ∃ r, ArpPacket.from_slice (arp_wire example_arp) = Ret r.
Proof.
  assert (bytes (arp_wire example_arp)) as H by (apply (bool_decide_unpack _); vm_compute; exact I).
  split; [exact H|]. destruct (arp_from_slice_spec _ H) as (r & Hr & _). exists r. exact Hr.
Defined.

(** Round trip: a valid packet serializes to its 28 bytes, and those bytes,
    with any padding after them, parse back to it. *)
Theorem arp_roundtrip (p : ArpPacket.t) (pad : list Z)
    (Hp : arp_valid p) :
  ∃ bs, ArpPacket.serialize p = Ret bs ∧ len bs = 28 ∧
    ArpPacket.from_slice (bs ++ pad) = Ret (Ok p).
Proof.
  exists (arp_wire p). split_and!; [by apply arp_serialize_eq|reflexivity|by apply arp_parse_wire].
Qed.

Lemma arp_roundtrip_witness :
  arp_valid example_arp ∧ ∃ bs, ArpPacket.serialize example_arp = Ret bs ∧
    ArpPacket.from_slice (bs ++ [0; 0]) = Ret (Ok example_arp).
Proof.
  assert (arp_valid example_arp) as H by (apply (bool_decide_unpack _); vm_compute; exact I).
  split; [exact H|].
  destruct (arp_roundtrip example_arp [0; 0] H) as (bs & H1 & _ & H2).
  exists bs. split; [exact H1|exact H2].
Defined.
