(* ===== verification/Udp.v ===== *)
(** * UDP datagrams: [net/src/udp.rs] *)

From S2P Require Import Prelude Utils Addr Checksum Ipv4.
Local Open Scope Z_scope.

Definition MAX_UDP_PAYLOAD : Z := 65527.

Module UDPError.
Inductive t := LengthOutOfRange | LengthMismatch | IncorrectChecksum.
#[global] Instance t_eq_dec : EqDecision t.
Proof. solve_decision. Defined.
End UDPError.

Module UDPPacket.

Record t := {
  source_port : Z;
  dest_port : Z;
  datagram_length : Z;
  checksum : Z;
  data : list Z;
}.

#[global] Instance t_eq_dec : EqDecision t.
Proof. solve_decision. Defined.

Definition new (source_port dest_port : Z) (data : list Z) : result t UDPError.t :=
  match try_from_usize 16 (len data + 8) with
  | None => Err UDPError.LengthOutOfRange
  | Some datagram_length => Ok {|
      source_port := source_port;
      dest_port := dest_port;
      datagram_length := datagram_length;
      checksum := 0;
      data := data |}
  end.

(** [fn len(&self)] *)
Definition payload_len (p : t) : Z := len (data p).

Definition from_packet (ip_packet : Ipv4Packet.t) : outcome (result t UDPError.t) :=
  let ip_data := Ipv4Packet.data ip_packet in
  if (Ipv4Packet.total_length ip_packet <? 28) || (len ip_data <? 8) || (65535 <? len ip_data)
  then Ret (Err UDPError.LengthOutOfRange) else
  source_port ← read U16 ip_data 0 2;
  dest_port ← read U16 ip_data 2 4;
  datagram_len ← read U16 ip_data 4 6;
  if negb (datagram_len =? wrap 16 (len ip_data))
  then Ret (Err UDPError.LengthMismatch) else
  checksum ← read U16 ip_data 6 8;
  sum ← internet_checksum [octets (Ipv4Packet.source ip_packet);
                           octets (Ipv4Packet.dest ip_packet);
                           [0x0; 0x11];
                           to_be_bytes 2 datagram_len;
                           ip_data];
  if negb (sum =? 0) && negb (checksum =? 0)
  then Ret (Err UDPError.IncorrectChecksum) else
  payload ← slice_from ip_data 8;
  Ret (Ok {|
    source_port := source_port;
    dest_port := dest_port;
    datagram_length := datagram_len;
    checksum := checksum;
    data := payload |}).

Definition serialize_ipv4 (p : t) (source_addr dest_addr : Ipv4Addr) :
    outcome (result (list Z) UDPError.t) :=
  match try_from_usize 16 (len (data p)) with
  | None => Ret (Err UDPError.LengthOutOfRange)
  | Some udp_len =>
      if wrap 16 MAX_UDP_PAYLOAD <? udp_len then Ret (Err UDPError.LengthOutOfRange) else
      total_datagram_len ← add_w 16 8 udp_len;
      let result := [] in
      let result := result ++ to_be_bytes 2 (source_port p) in
      let result := result ++ to_be_bytes 2 (dest_port p) in
      let result := result ++ to_be_bytes 2 total_datagram_len in
      checksum ← internet_checksum [octets source_addr;
                                    octets dest_addr;
                                    [0x0; 0x11];
                                    to_be_bytes 2 total_datagram_len;
                                    result;
                                    data p];
      let checksum := if checksum =? 0x0000 then 0xFFFF else checksum in
      let result := result ++ to_be_bytes 2 checksum in
      let result := result ++ data p in
      Ret (Ok result)
  end.

End UDPPacket.
Import UDPPacket.

(** ** The wire format *)

Definition udp_ok (p : UDPPacket.t) : Prop :=
  u16 (source_port p) ∧ u16 (dest_port p) ∧ u16 (datagram_length p) ∧ u16 (checksum p) ∧
  bytes (data p).

(** The datagram with length field [l] and checksum field [c]. *)
Definition udp_wire (p : UDPPacket.t) (l c : Z) : list Z :=
  (to_be_bytes 2 (source_port p) ++ to_be_bytes 2 (dest_port p) ++ to_be_bytes 2 l ++
   to_be_bytes 2 c) ++ data p.

(** The sum a receiver takes over the pseudo header and the datagram. *)
Definition datagram_sum (src dst : Ipv4Addr) (d : list Z) : Z :=
  word_sum (octets src) + word_sum (octets dst) + 17 + len d + word_sum d.

Lemma len_udp_wire p l c : len (udp_wire p l c) = 8 + len (data p).
Proof. unfold udp_wire. len_lia. Qed.

Lemma udp_wire_bytes p l c : udp_ok p → bytes (udp_wire p l c).
Proof. intros (?&?&?&?&?). unfold udp_wire. bytes_solve. Qed.

Lemma word_sum_be2 z : u16 z → word_sum (to_be_bytes 2 z) = z.
Proof. rewrite to_be_2. unfold urange. simpl word_sum. intros. Z.div_mod_to_equations. lia. Qed.

Lemma udp_wire_sum p l c :
  u16 c → udp_ok p → u16 l →
  word_sum (udp_wire p l c) = source_port p + dest_port p + l + c + word_sum (data p).
Proof.
  intros Hc (?&?&?&?&?) Hl. unfold udp_wire.
  rewrite !word_sum_app by (first [by exists 4 | by exists 1]).
  rewrite !word_sum_be2 by done. lia.
Qed.

Lemma datagram_parts_sum src dst d :
  u16 (len d) →
  parts_sum [octets src; octets dst; [0x0; 0x11]; to_be_bytes 2 (len d); d] = datagram_sum src dst d.
Proof.
  intros Hd. unfold datagram_sum. cbn [parts_sum foldr]. rewrite word_sum_be2 by done.
  change (word_sum [0; 17]) with 17. lia.
Qed.

Lemma datagram_sum_nonneg src dst d :
  ip_ok src → ip_ok dst → bytes d → 0 < datagram_sum src dst d.
Proof.
  intros Hs Hd Hb. unfold datagram_sum. pose proof (len_nonneg d).
  pose proof (word_sum_nonneg _ Hs). pose proof (word_sum_nonneg _ Hd).
  pose proof (word_sum_nonneg _ Hb). lia.
Qed.

(** Verifying a datagram: [internet_checksum(..) != 0] in [from_packet]. *)
Lemma datagram_checksum src dst d :
  ip_ok src → ip_ok dst → bytes d → len d ≤ 65535 →
  internet_checksum [octets src; octets dst; [0x0; 0x11]; to_be_bytes 2 (len d); d]
  = Ret (65535 - ones (datagram_sum src dst d)).
Proof.
  intros Hs Hd Hb Hl. pose proof (len_nonneg d).
  assert (Forall bytes [octets src; octets dst; [0x0; 0x11]; to_be_bytes 2 (len d); d])
    by bytes_solve.
  rewrite internet_checksum_ones, datagram_parts_sum; try done; [unfold urange; lia|].
  apply parts_sum_small; [done|]. simpl. autorewrite with len. lia.
Qed.

(** ** Parsing *)

(** What a datagram has to be, and which error names which defect. *)
Definition udp_classify (ip : Ipv4Packet.t) (r : result UDPPacket.t UDPError.t) : Prop :=
  let d := Ipv4Packet.data ip in
  let long_enough := 28 ≤ Ipv4Packet.total_length ip ∧ 8 ≤ len d ≤ 65535 in
  let length_agrees := from_be_bytes (sub d 4 6) = len d in
  let sum_ok := from_be_bytes (sub d 6 8) = 0 ∨
    datagram_sum (Ipv4Packet.source ip) (Ipv4Packet.dest ip) d mod 65535 = 0 in
  match r with
  | Ok u => long_enough ∧ length_agrees ∧ sum_ok ∧ udp_ok u ∧
      datagram_length u = len d ∧ d = udp_wire u (len d) (checksum u)
  | Err UDPError.LengthOutOfRange => ¬ long_enough
  | Err UDPError.LengthMismatch => long_enough ∧ ¬ length_agrees
  | Err UDPError.IncorrectChecksum => long_enough ∧ length_agrees ∧ ¬ sum_ok
  end.

(** The header fields of a datagram of at least eight bytes. *)
Lemma udp_header_read d :
  bytes d → 8 ≤ len d →
  d = (to_be_bytes 2 (from_be_bytes (sub d 0 2)) ++ to_be_bytes 2 (from_be_bytes (sub d 2 4)) ++
       to_be_bytes 2 (from_be_bytes (sub d 4 6)) ++ to_be_bytes 2 (from_be_bytes (sub d 6 8))) ++
      drop (Z.to_nat 8) d.
Proof.
  intros Hb Hl.
  rewrite (to_be_read U16 d 0), (to_be_read U16 d 2), (to_be_read U16 d 4),
    (to_be_read U16 d 6), <- !sub_split by (done || simpl; lia).
  rewrite <- take_len. by rewrite take_drop.
Qed.

Lemma sum_test s c :
  0 < s → negb (65535 - ones s =? 0) && negb (c =? 0) = false ↔ c = 0 ∨ s mod 65535 = 0.
Proof.
  intros Hs. pose proof (ones_full s ltac:(lia)) as [H1 H2].
  destruct (Z.eqb_spec (65535 - ones s) 0), (Z.eqb_spec c 0); simpl;
    (split; [intros ?|intros [?|?]]); try done; auto.
  - right. apply H1. lia.
  - exfalso. rewrite H2 in *; lia.
Qed.

Lemma udp_from_packet_classified ip :
  bytes (Ipv4Packet.data ip) → ip_ok (Ipv4Packet.source ip) → ip_ok (Ipv4Packet.dest ip) →
  ∃ r, from_packet ip = Ret r ∧ udp_classify ip r.
Proof.
  intros Hb Hs Hd. unfold from_packet, udp_classify. cbv zeta.
  set (d := Ipv4Packet.data ip) in *. pose proof (len_nonneg d).
  destruct (Z.ltb_spec (Ipv4Packet.total_length ip) 28); [eexists; split; [done|simpl; lia]|].
  destruct (Z.ltb_spec (len d) 8); [eexists; split; [done|simpl; lia]|].
  destruct (Z.ltb_spec 65535 (len d)); [eexists; split; [done|simpl; lia]|]. cbn [orb].
  rewrite !read_ok, !bind_Ret, wrap_id by (done || (unfold urange; simpl; lia)).
  destruct (Z.eqb_spec (from_be_bytes (sub d 4 6)) (len d)) as [El|];
    [|eexists; split; [done|simpl; lia]].
  cbn [negb]. rewrite El, datagram_checksum, bind_Ret by (done || lia).
  pose proof (datagram_sum_nonneg _ _ _ Hs Hd Hb) as Hpos.
  pose proof (sum_test (datagram_sum (Ipv4Packet.source ip) (Ipv4Packet.dest ip) d)
    (from_be_bytes (sub d 6 8)) Hpos) as Htest.
  destruct (negb _ && _).
  { eexists. split; [done|]. split_and!; [done|lia..|]. intros ?%Htest. done. }
  rewrite slice_from_ok, bind_Ret by lia. eexists. split; [done|].
  split_and!; [done|lia..|by apply Htest| |done|].
  - unfold udp_ok. cbn -[Z.to_nat]. split_and!;
      first [by apply (read_u_range U16 d); [..|simpl; lia|simpl; lia]
            | by apply Forall_drop | unfold urange; lia].
  - unfold udp_wire. cbn -[Z.to_nat]. rewrite <- El. by apply udp_header_read.
Qed.

(** ** Serializing *)

Section Serialize.
Context (p : UDPPacket.t) (src dst : Ipv4Addr).
Context (Hp : udp_ok p) (Hs : ip_ok src) (Hd : ip_ok dst).
Context (Hl : len (data p) ≤ MAX_UDP_PAYLOAD).

Local Definition total_len : Z := 8 + len (data p).

(** What is summed: the pseudo header, the six header bytes, the payload. *)
Local Definition sent_sum : Z :=
  word_sum (octets src) + word_sum (octets dst) + 17 + total_len +
  (source_port p + dest_port p + total_len) + word_sum (data p).

(** The checksum field: all ones in place of zero. *)
Local Definition sent_checksum : Z :=
  let c := 65535 - ones sent_sum in if c =? 0 then 0xFFFF else c.

Local Lemma total_len_range : u16 total_len.
Proof using Hl.
  pose proof (len_nonneg (data p)). unfold urange, total_len, MAX_UDP_PAYLOAD in *. lia.
Qed.

Local Lemma sent_sum_pos : 0 < sent_sum.
Proof using Hp Hs Hd.
  destruct Hp as ([??]&[??]&_&_&Hb). unfold sent_sum, total_len.
  pose proof (word_sum_nonneg _ Hs). pose proof (word_sum_nonneg _ Hd).
  pose proof (word_sum_nonneg _ Hb). pose proof (len_nonneg (data p)). lia.
Qed.

Lemma sent_checksum_spec :
  u16 sent_checksum ∧ sent_checksum ≠ 0 ∧ (sent_sum + sent_checksum) mod 65535 = 0.
Proof using Hp Hs Hd.
  pose proof sent_sum_pos. pose proof (ones_range sent_sum ltac:(lia)).
  pose proof (ones_complement_verifies sent_sum _ ltac:(lia) eq_refl) as [_ Hm].
  unfold sent_checksum. cbv zeta. destruct (Z.eqb_spec (65535 - ones sent_sum) 0) as [E|].
  - rewrite E in Hm. split_and!; [done..|]. rewrite Z.add_0_r in Hm.
    rewrite Z.add_mod, Hm by done. done.
  - split_and!; [unfold urange; lia|done|done].
Qed.

Lemma serialize_ipv4_eq :
  serialize_ipv4 p src dst = Ret (Ok (udp_wire p total_len sent_checksum)).
Proof using Hp Hs Hd Hl.
  pose proof total_len_range as HL. pose proof (len_nonneg (data p)).
  destruct Hp as (?&?&?&?&Hb). unfold serialize_ipv4.
  unfold total_len, MAX_UDP_PAYLOAD in *. change (wrap 16 65527) with 65527.
  rewrite try_from_usize_ok, (proj2 (Z.ltb_ge _ _)) by (unfold urange; lia).
  unfold add_w. rewrite checked_ok, bind_Ret by done. cbv zeta. cbn [app].
  set (L := 8 + len (data p)) in *.
  assert (Forall bytes [octets src; octets dst; [0; 17]; to_be_bytes 2 L;
    (to_be_bytes 2 (source_port p) ++ to_be_bytes 2 (dest_port p)) ++ to_be_bytes 2 L; data p])
    by bytes_solve.
  rewrite internet_checksum_ones, bind_Ret; [|done|].
  2: { apply parts_sum_small; [done|]. simpl. autorewrite with len. lia. }
  replace (parts_sum _) with sent_sum.
  2: { unfold sent_sum, parts_sum. cbn [foldr].
       rewrite !word_sum_app by (first [by exists 2 | by exists 1]).
       rewrite !word_sum_be2 by done. fold L. change (word_sum [0; 17]) with 17.
       unfold total_len. fold L. lia. }
  unfold udp_wire, sent_checksum. by rewrite <- !app_assoc.
Qed.

Lemma sent_datagram_sum :
  datagram_sum src dst (udp_wire p total_len sent_checksum) = sent_sum + sent_checksum.
Proof using Hp Hs Hd Hl.
  pose proof sent_checksum_spec as [Hc _]. unfold datagram_sum.
  rewrite udp_wire_sum, len_udp_wire by (done || apply total_len_range).
  unfold sent_sum. fold total_len. lia.
Qed.
End Serialize.

Lemma udp_wire_inj p q l l' c c' :
  udp_ok p → udp_ok q → u16 l → u16 l' → u16 c → u16 c' →
  udp_wire p l c = udp_wire q l' c' →
  source_port p = source_port q ∧ dest_port p = dest_port q ∧ l = l' ∧ c = c' ∧ data p = data q.
Proof.
  intros (?&?&?&?&?) (?&?&?&?&?) ???? Hw. unfold udp_wire in Hw. rewrite <- !app_assoc in Hw.
  apply app_inj_1 in Hw as [E1 Hw]; [|by rewrite !length_to_be].
  apply app_inj_1 in Hw as [E2 Hw]; [|by rewrite !length_to_be].
  apply app_inj_1 in Hw as [E3 Hw]; [|by rewrite !length_to_be].
  apply app_inj_1 in Hw as [E4 Hw]; [|by rewrite !length_to_be].
  apply to_be_inj in E1, E2, E3, E4; done.
Qed.

(** ** Theorems *)

(** On every IPv4 packet of bytes [UDPPacket::from_packet] returns, and its
    answer classifies the datagram: accepted exactly when it is long enough, its
    length field is its length, and its checksum is zero or verifies over the
    pseudo header; what is accepted is what the bytes spell. *)
Theorem udp_from_packet_spec (ip : Ipv4Packet.t)
    (Hb : bytes (Ipv4Packet.data ip)) (Hs : ip_ok (Ipv4Packet.source ip))
    (Hd : ip_ok (Ipv4Packet.dest ip)) :
  ∃ r, from_packet ip = Ret r ∧ udp_classify ip r.
Proof. by apply udp_from_packet_classified. Qed.

(** C35.  Round trip: a datagram of at most 65527 bytes of payload serializes, and
    in any IPv4 packet that carries the bytes between the same addresses it
    parses back to the same ports and payload, the length field set and a checksum
    that is never zero (zero means that the sender computed none). *)
Theorem udp_roundtrip (p : UDPPacket.t) (src dst : Ipv4Addr)
    (Hp : udp_ok p) (Hs : ip_ok src) (Hd : ip_ok dst)
    (Hl : len (data p) ≤ MAX_UDP_PAYLOAD) :
  ∃ bs c, serialize_ipv4 p src dst = Ret (Ok bs) ∧ bytes bs ∧ len bs = 8 + len (data p) ∧
    c ≠ 0 ∧
    ∀ ip, Ipv4Packet.data ip = bs → Ipv4Packet.source ip = src → Ipv4Packet.dest ip = dst →
      28 ≤ Ipv4Packet.total_length ip →
      from_packet ip = Ret (Ok {| source_port := source_port p; dest_port := dest_port p;
        datagram_length := len bs; checksum := c; data := data p |}).
Proof.
  pose proof (sent_checksum_spec p src dst Hp Hs Hd) as (Hc & Hc0 & Hm).
  pose proof (total_len_range p Hl) as HL.
  pose proof (udp_wire_bytes p (total_len p) (sent_checksum p src dst) Hp) as Hw.
  exists (udp_wire p (total_len p) (sent_checksum p src dst)), (sent_checksum p src dst).
  split_and!; [by apply serialize_ipv4_eq|done|apply len_udp_wire|done|].
  intros ip Hdata <- <- Htl.
  destruct (udp_from_packet_classified ip) as (r & -> & Hr); [by rewrite Hdata|done..|].
  unfold udp_classify in Hr. rewrite Hdata, sent_datagram_sum, len_udp_wire in Hr by done.
  fold (total_len p) in Hr. rewrite len_udp_wire. fold (total_len p).
  assert (8 ≤ total_len p ≤ 65535).
  { pose proof (len_nonneg (data p)). unfold total_len, MAX_UDP_PAYLOAD in *. lia. }
  assert (from_be_bytes (sub (udp_wire p (total_len p) (sent_checksum p (Ipv4Packet.source ip)
    (Ipv4Packet.dest ip))) 4 6) = total_len p) as Hlen.
  { change (from_be_bytes (to_be_bytes 2 (total_len p)) = total_len p). by apply from_to_be. }
  destruct r as [u|[]]; try naive_solver lia.
  destruct Hr as (_ & _ & _ & Hu & Hdl & Hw'). destruct (Hu) as (_&_&_&?&_).
  apply udp_wire_inj in Hw' as (E1 & E2 & _ & E4 & E5); [|done..].
  destruct u. simpl in *. by subst.
Qed.

(** The constructor and the serializer refuse exactly the payloads whose
    datagram length does not fit the 16-bit length field, and never wrap it. *)
Theorem udp_length_limits (sp dp : Z) (dat : list Z) (src dst : Ipv4Addr)
    (Hsp : u16 sp) (Hdp : u16 dp) (Hb : bytes dat) (Hs : ip_ok src) (Hd : ip_ok dst) :
  match new sp dp dat with
  | Ok p => len dat ≤ MAX_UDP_PAYLOAD ∧ datagram_length p = len dat + 8 ∧
      ∃ bs, serialize_ipv4 p src dst = Ret (Ok bs)
  | Err e => MAX_UDP_PAYLOAD < len dat ∧ e = UDPError.LengthOutOfRange ∧
      ∀ p, data p = dat → serialize_ipv4 p src dst = Ret (Err UDPError.LengthOutOfRange)
  end.
Proof.
  unfold new. pose proof (len_nonneg dat). destruct (Z.ltb_spec MAX_UDP_PAYLOAD (len dat)) as [Hlt|].
  - unfold MAX_UDP_PAYLOAD in *. rewrite try_from_usize_none by lia. split_and!; [done..|].
    intros p Hdata. unfold serialize_ipv4, MAX_UDP_PAYLOAD. rewrite Hdata.
    change (wrap 16 65527) with 65527.
    destruct (Z.ltb_spec (len dat) (2 ^ 16)).
    + by rewrite try_from_usize_ok, (proj2 (Z.ltb_lt _ _)) by (unfold urange; lia).
    + by rewrite try_from_usize_none.
  - unfold MAX_UDP_PAYLOAD in *. rewrite try_from_usize_ok by (unfold urange; lia).
    split_and!; [done..|]. eexists. apply serialize_ipv4_eq; try done.
    unfold udp_ok; simpl. split_and!; try done; unfold urange; lia.
Qed.

(** *** Witnesses: the datagrams of the crate's tests *)

Definition valid_udp : list Z :=
  [0x12; 0x34; 0x56; 0x78; 0x00; 0x0c; 0x2d; 0xe2; 0xde; 0xad; 0xbe; 0xef].

Definition test_ip_packet (d : list Z) : Ipv4Packet.t := {|
  Ipv4Packet.version_ihl := 0x45; Ipv4Packet.dscp_ecn := 0;
  Ipv4Packet.total_length := 20 + len d; Ipv4Packet.id := 0x1234;
  Ipv4Packet.frag_offset := 0; Ipv4Packet.dont_fragment := true;
  Ipv4Packet.more_fragments := false; Ipv4Packet.ttl := 64;
  Ipv4Packet.protocol := IPProtocol.UDP; Ipv4Packet.checksum := 0;
  Ipv4Packet.source := Ip 192 168 1 1; Ipv4Packet.dest := Ip 10 0 0 1;
  Ipv4Packet.options := []; Ipv4Packet.data := d |}.

Definition test_datagram : UDPPacket.t := {|
  source_port := 0x1234; dest_port := 0x5678; datagram_length := 12; checksum := 0;
  data := [0xde; 0xad; 0xbe; 0xef] |}.

Lemma udp_from_packet_spec_witness :
  ∃ r, from_packet (test_ip_packet valid_udp) = Ret r ∧ udp_classify (test_ip_packet valid_udp) r.
Proof.
  apply (udp_from_packet_spec (test_ip_packet valid_udp));
    apply (bool_decide_unpack _); vm_compute; exact I.
Defined.

Lemma udp_roundtrip_witness :
  ∃ bs c, serialize_ipv4 test_datagram (Ip 192 168 1 1) (Ip 10 0 0 1) = Ret (Ok bs) ∧ c ≠ 0.
Proof.
  destruct (udp_roundtrip test_datagram (Ip 192 168 1 1) (Ip 10 0 0 1))
    as (bs & c & H & _ & _ & Hc & _);
    [apply (bool_decide_unpack _); vm_compute; exact I ..|].
  exists bs, c. split; [exact H|exact Hc].
Defined.

Lemma udp_length_limits_witness :
  match new 1 2 [3] with Ok p => datagram_length p = 9 | Err _ => False end.
Proof.
  pose proof (udp_length_limits 1 2 [3] (Ip 10 0 0 1) (Ip 10 0 0 2)) as H.
  simpl in H. apply H; apply (bool_decide_unpack _); vm_compute; exact I.
Defined.

Example udp_serializes_to_capture :
  serialize_ipv4 test_datagram (Ip 192 168 1 1) (Ip 10 0 0 1) = Ret (Ok valid_udp).
Proof. vm_compute. reflexivity. Qed.

Example udp_zero_checksum_sent_as_ones :
  (r ← serialize_ipv4 {| source_port := 0x1234; dest_port := 0x5678; datagram_length := 10;
         checksum := 0; data := [0xcb; 0x83] |} (Ip 192 168 1 1) (Ip 10 0 0 1);
   match r with Ok bs => slice bs 6 8 | Err _ => Panic end) = Ret [0xff; 0xff].
Proof. vm_compute. reflexivity. Qed.
