(* ===== verification/Dhcp.v ===== *)
(** * DHCP messages: [net/src/dhcp.rs]

    Building the two messages a client sends and reading a server's reply.  The
    options field is specified by a grammar: a run of [dhcp_option]s closed by an
    End tag, with [apply_options] as its meaning. *)

From S2P Require Import Prelude Utils Addr.
Local Open Scope Z_scope.

(** ** Constants *)

Definition CLIENT_PORT : Z := 68.
Definition SERVER_PORT : Z := 67.
Definition FIXED_LEN : Z := 240.
Definition MESSAGE_LEN : Z := 300.
Definition MAGIC_COOKIE : list Z := [0x63; 0x82; 0x53; 0x63].
Definition OP_BOOT_REQUEST : Z := 1.
Definition OP_BOOT_REPLY : Z := 2.
Definition HTYPE_ETHERNET : Z := 1.
Definition HLEN_ETHERNET : Z := 6.
Definition FLAG_BROADCAST : Z := 0x8000.
(** The ranges, as their two ends. *)
Definition XID : Z * Z := (4, 8).
Definition FLAGS : Z * Z := (10, 12).
Definition YIADDR : Z * Z := (16, 20).
Definition CHADDR : Z * Z := (28, 44).
Definition CHADDR_LEN : Z := 16.
Definition COOKIE : Z * Z := (236, 240).
Definition OPT_PAD : Z := 0.
Definition OPT_SUBNET_MASK : Z := 1.
Definition OPT_ROUTER : Z := 3.
Definition OPT_REQUESTED_ADDR : Z := 50.
Definition OPT_MESSAGE_TYPE : Z := 53.
Definition OPT_SERVER_ID : Z := 54.
Definition OPT_PARAMETER_REQUEST_LIST : Z := 55.
Definition OPT_END : Z := 255.
Definition PARAMETER_REQUEST : list Z :=
  [OPT_PARAMETER_REQUEST_LIST; 2; OPT_SUBNET_MASK; OPT_ROUTER].

Module DHCPError.
Inductive t :=
| TooShort | NotAReply | BadMagicCookie | XidMismatch | ClientMacMismatch
| InvalidTLV | WrongMessageType | MissingData.
#[global] Instance t_eq_dec : EqDecision t.
Proof. solve_decision. Defined.
End DHCPError.

Module DHCPMessageType.
Inductive t := Discover | Offer | Request | Decline | Ack | Nak | Release | Inform.
#[global] Instance t_eq_dec : EqDecision t.
Proof. solve_decision. Defined.

(** [ty as u8] *)
Definition as_u8 (ty : t) : Z :=
  match ty with
  | Discover => 1 | Offer => 2 | Request => 3 | Decline => 4
  | Ack => 5 | Nak => 6 | Release => 7 | Inform => 8
  end.

(** [TryFrom<u8>] *)
Definition try_from (value : Z) : result t unit :=
  if value =? 1 then Ok Discover
  else if value =? 2 then Ok Offer
  else if value =? 3 then Ok Request
  else if value =? 4 then Ok Decline
  else if value =? 5 then Ok Ack
  else if value =? 6 then Ok Nak
  else if value =? 7 then Ok Release
  else if value =? 8 then Ok Inform
  else Err tt.
End DHCPMessageType.

Module DHCPBinding.
Record t := {
  client_addr : Ipv4Addr;
  subnet_mask : Ipv4Addr;
  gateway : Ipv4Addr;
  server_id : Ipv4Addr;
}.
#[global] Instance t_eq_dec : EqDecision t.
Proof. solve_decision. Defined.
End DHCPBinding.

(** ** Building messages *)

Definition build_message (client_mac : MacAddress) (xid : Z) (options : list Z) :
    outcome (list Z) :=
  let msg := array 0 MESSAGE_LEN in
  msg ← set_index msg 0 OP_BOOT_REQUEST;
  msg ← set_index msg 1 HTYPE_ETHERNET;
  msg ← set_index msg 2 HLEN_ETHERNET;
  msg ← copy_range msg XID.1 XID.2 (to_be_bytes 4 xid);
  msg ← copy_range msg FLAGS.1 FLAGS.2 (to_be_bytes 2 FLAG_BROADCAST);
  msg ← copy_range msg CHADDR.1 (CHADDR.1 + 6) (mac_addr client_mac);
  msg ← copy_range msg COOKIE.1 COOKIE.2 MAGIC_COOKIE;
  copy_range msg FIXED_LEN (FIXED_LEN + len options) options.

Definition build_discover (client_mac : MacAddress) (xid : Z) : outcome (list Z) :=
  let n := len PARAMETER_REQUEST in
  let options := array 0 (3 + n + 1) in
  options ← copy_range options 0 3
    [OPT_MESSAGE_TYPE; 1; DHCPMessageType.as_u8 DHCPMessageType.Discover];
  options ← copy_range options 3 (3 + n) PARAMETER_REQUEST;
  options ← set_index options (3 + n) OPT_END;
  build_message client_mac xid options.

Definition build_request (client_mac : MacAddress) (xid : Z) (offer : DHCPBinding.t) :
    outcome (list Z) :=
  let n := len PARAMETER_REQUEST in
  let options := array 0 (3 + 6 + 6 + n + 1) in
  options ← copy_range options 0 3
    [OPT_MESSAGE_TYPE; 1; DHCPMessageType.as_u8 DHCPMessageType.Request];
  options ← copy_range options 3 5 [OPT_REQUESTED_ADDR; 4];
  options ← copy_range options 5 9 (octets (DHCPBinding.client_addr offer));
  options ← copy_range options 9 11 [OPT_SERVER_ID; 4];
  options ← copy_range options 11 15 (octets (DHCPBinding.server_id offer));
  options ← copy_range options 15 (15 + n) PARAMETER_REQUEST;
  options ← set_index options (15 + n) OPT_END;
  build_message client_mac xid options.

(** ** Reading the options *)

Module Options.
Record t := {
  message_type : option DHCPMessageType.t;
  subnet_mask : option Ipv4Addr;
  router : option Ipv4Addr;
  server_id : option Ipv4Addr;
}.
#[global] Instance t_eq_dec : EqDecision t.
Proof. solve_decision. Defined.

Definition default : t :=
  {| message_type := None; subnet_mask := None; router := None; server_id := None |}.
Definition set_message_type (ty : DHCPMessageType.t) (o : t) : t :=
  {| message_type := Some ty; subnet_mask := subnet_mask o; router := router o;
     server_id := server_id o |}.
Definition set_subnet_mask (a : Ipv4Addr) (o : t) : t :=
  {| message_type := message_type o; subnet_mask := Some a; router := router o;
     server_id := server_id o |}.
Definition set_router (a : Ipv4Addr) (o : t) : t :=
  {| message_type := message_type o; subnet_mask := subnet_mask o; router := Some a;
     server_id := server_id o |}.
Definition set_server_id (a : Ipv4Addr) (o : t) : t :=
  {| message_type := message_type o; subnet_mask := subnet_mask o; router := router o;
     server_id := Some a |}.
End Options.

Definition parse_addr (value : list Z) : result Ipv4Addr DHCPError.t :=
  match value with
  | [a; b; c; d] => Ok (Ip a b c d)
  | _ => Err DHCPError.InvalidTLV
  end.

(** The body of [match tag { .. }]. *)
Definition parse_option (tag : Z) (value : list Z) (parsed : Options.t) :
    outcome (result Options.t DHCPError.t) :=
  if tag =? OPT_SUBNET_MASK then
    a ←? Ret (parse_addr value); Ret (Ok (Options.set_subnet_mask a parsed))
  else if tag =? OPT_ROUTER then
    if (len value =? 0) || negb (len value mod 4 =? 0)
    then Ret (Err DHCPError.InvalidTLV)
    else first ← slice_to value 4;
         a ←? Ret (parse_addr first); Ret (Ok (Options.set_router a parsed))
  else if tag =? OPT_SERVER_ID then
    a ←? Ret (parse_addr value); Ret (Ok (Options.set_server_id a parsed))
  else if tag =? OPT_MESSAGE_TYPE then
    match get value 0 with
    | Some ty =>
        if len value =? 1 then
          match DHCPMessageType.try_from ty with
          | Ok ty => Ret (Ok (Options.set_message_type ty parsed))
          | Err _ => Ret (Err DHCPError.InvalidTLV)
          end
        else Ret (Err DHCPError.InvalidTLV)
    | None => Ret (Err DHCPError.InvalidTLV)
    end
  else Ret (Ok parsed).

(** The [while] loop, [cur] being its cursor. *)
Fixpoint parse_options_loop (fuel : nat) (options : list Z) (cur : Z) (parsed : Options.t) :
    outcome (result Options.t DHCPError.t) :=
  match fuel with
  | O => OutOfFuel
  | S fuel =>
      if cur <? len options then
        tag ← index options cur;
        if tag =? OPT_PAD then parse_options_loop fuel options (cur + 1) parsed
        else if tag =? OPT_END then Ret (Ok parsed)
        else match get options (cur + 1) with
        | None => Ret (Err DHCPError.InvalidTLV)
        | Some n =>
            match get_range options (cur + 2) (cur + 2 + n) with
            | None => Ret (Err DHCPError.InvalidTLV)
            | Some value =>
                parsed ←? parse_option tag value parsed;
                parse_options_loop fuel options (cur + (2 + n)) parsed
            end
        end
      else Ret (Err DHCPError.InvalidTLV)
  end.

(** Every round moves the cursor forward, so one more round than there are bytes
    is enough. *)
Definition parse_options (options : list Z) : outcome (result Options.t DHCPError.t) :=
  parse_options_loop (S (length options)) options 0 Options.default.

(** ** Reading a reply *)

(** [from_message] from the message type test on: the header has been accepted. *)
Definition from_options (msg : list Z) (expected : DHCPMessageType.t) (o : Options.t) :
    outcome (result DHCPBinding.t DHCPError.t) :=
  if negb (bool_decide (Options.message_type o = Some expected))
  then Ret (Err DHCPError.WrongMessageType) else
  match Options.subnet_mask o, Options.router o, Options.server_id o with
  | Some subnet_mask, Some gateway, Some server_id =>
      yiaddr ← slice msg YIADDR.1 YIADDR.2;
      client_addr ← from_octets yiaddr;
      if is_unspecified client_addr then Ret (Err DHCPError.MissingData) else
      Ret (Ok {| DHCPBinding.client_addr := client_addr;
                 DHCPBinding.subnet_mask := subnet_mask;
                 DHCPBinding.gateway := gateway;
                 DHCPBinding.server_id := server_id |})
  | _, _, _ => Ret (Err DHCPError.MissingData)
  end.

Definition from_message (msg : list Z) (xid : Z) (client_mac : MacAddress)
    (expected : DHCPMessageType.t) : outcome (result DHCPBinding.t DHCPError.t) :=
  if len msg <? FIXED_LEN then Ret (Err DHCPError.TooShort) else
  op ← index msg 0; htype ← index msg 1; hlen ← index msg 2;
  if negb (op =? OP_BOOT_REPLY) || negb (htype =? HTYPE_ETHERNET) || negb (hlen =? HLEN_ETHERNET)
  then Ret (Err DHCPError.NotAReply) else
  cookie ← slice msg COOKIE.1 COOKIE.2;
  if negb (bool_decide (cookie = MAGIC_COOKIE)) then Ret (Err DHCPError.BadMagicCookie) else
  msg_xid ← read U32 msg XID.1 XID.2;
  if negb (msg_xid =? xid) then Ret (Err DHCPError.XidMismatch) else
  let chaddr := array 0 CHADDR_LEN in
  chaddr ← copy_range chaddr 0 6 (mac_addr client_mac);
  msg_chaddr ← slice msg CHADDR.1 CHADDR.2;
  if negb (bool_decide (msg_chaddr = chaddr)) then Ret (Err DHCPError.ClientMacMismatch) else
  rest ← slice_from msg FIXED_LEN;
  options ←? parse_options rest;
  from_options msg expected options.

Definition from_offer (msg : list Z) (xid : Z) (client_mac : MacAddress) :
    outcome (result DHCPBinding.t DHCPError.t) :=
  from_message msg xid client_mac DHCPMessageType.Offer.

Definition from_ack (msg : list Z) (xid : Z) (client_mac : MacAddress) :
    outcome (result DHCPBinding.t DHCPError.t) :=
  from_message msg xid client_mac DHCPMessageType.Ack.

(** ** The options grammar *)

Inductive dhcp_option :=
| Pad
| Tlv (tag : Z) (value : list Z).

Definition option_ok (o : dhcp_option) : Prop :=
  match o with
  | Pad => True
  | Tlv tag value => tag ≠ OPT_PAD ∧ tag ≠ OPT_END ∧ u8 (len value)
  end.

Definition encode_option (o : dhcp_option) : list Z :=
  match o with
  | Pad => [OPT_PAD]
  | Tlv tag value => tag :: len value :: value
  end.

Definition encode_options (os : list dhcp_option) : list Z :=
  concat (map encode_option os).

(** What an option means: the address options hold one address, the router
    option a non-empty list of addresses of which the first counts, the message
    type one known code; a tag without a meaning here changes nothing. *)
Definition apply_option (o : dhcp_option) (parsed : Options.t) : option Options.t :=
  match o with
  | Pad => Some parsed
  | Tlv tag value =>
      if decide (tag = OPT_SUBNET_MASK) then
        match value with
        | [a; b; c; d] => Some (Options.set_subnet_mask (Ip a b c d) parsed)
        | _ => None
        end
      else if decide (tag = OPT_ROUTER) then
        match value with
        | a :: b :: c :: d :: more =>
            if decide (len more mod 4 = 0)
            then Some (Options.set_router (Ip a b c d) parsed) else None
        | _ => None
        end
      else if decide (tag = OPT_SERVER_ID) then
        match value with
        | [a; b; c; d] => Some (Options.set_server_id (Ip a b c d) parsed)
        | _ => None
        end
      else if decide (tag = OPT_MESSAGE_TYPE) then
        match value with
        | [ty] =>
            match DHCPMessageType.try_from ty with
            | Ok ty => Some (Options.set_message_type ty parsed)
            | Err _ => None
            end
        | _ => None
        end
      else Some parsed
  end.

Fixpoint apply_options (os : list dhcp_option) (parsed : Options.t) : option Options.t :=
  match os with
  | [] => Some parsed
  | o :: os => apply_option o parsed ≫= apply_options os
  end.

(** The error of an option without a meaning. *)
Definition or_invalid (r : option Options.t) : result Options.t DHCPError.t :=
  match r with Some p => Ok p | None => Err DHCPError.InvalidTLV end.

Lemma parse_option_apply tag value parsed :
  parse_option tag value parsed = Ret (or_invalid (apply_option (Tlv tag value) parsed)).
Proof.
  unfold parse_option, apply_option.
  repeat match goal with
  | |- context [decide (tag = ?k)] =>
      destruct (decide (tag = k)) as [->|?];
      [|rewrite (proj2 (Z.eqb_neq tag k)) by assumption]
  end; try done; cbn -[Z.modulo len DHCPMessageType.try_from].
  - by destruct value as [|? [|? [|? [|? [|]]]]].
  - destruct value as [|a [|b [|c [|d more]]]]; try done.
    replace (len (a :: b :: c :: d :: more)) with (len more + 1 * 4) by len_lia.
    rewrite Z.mod_add by lia. rewrite (proj2 (Z.eqb_neq _ 0)) by len_lia. simpl orb.
    destruct (decide (len more mod 4 = 0)) as [->|Hm]; [|by rewrite (proj2 (Z.eqb_neq _ 0))].
    simpl negb. cbn iota.
    rewrite slice_to_ok by len_lia. done.
  - by destruct value as [|? [|? [|? [|? [|]]]]].
  - destruct value as [|ty [|]]; try done; cbn -[len DHCPMessageType.try_from].
    + change (len [ty] =? 1) with true. change ([ty] !! Z.to_nat 0) with (Some ty). cbn iota.
      by destruct (DHCPMessageType.try_from ty).
    + rewrite (proj2 (Z.eqb_neq _ 1)) by len_lia. done.
Qed.

(** ** The loop against the grammar *)

(** One round of the loop, in terms of the bytes from the cursor on. *)
Definition loop_round (next : Z → Options.t → outcome (result Options.t DHCPError.t))
    (rest : list Z) (cur : Z) (parsed : Options.t) : outcome (result Options.t DHCPError.t) :=
  match rest with
  | [] => Ret (Err DHCPError.InvalidTLV)
  | tag :: rest =>
      if decide (tag = OPT_PAD) then next (cur + 1) parsed
      else if decide (tag = OPT_END) then Ret (Ok parsed)
      else match rest with
      | [] => Ret (Err DHCPError.InvalidTLV)
      | n :: rest =>
          if decide (n ≤ len rest) then
            match apply_option (Tlv tag (sub rest 0 n)) parsed with
            | Some parsed => next (cur + (2 + n)) parsed
            | None => Ret (Err DHCPError.InvalidTLV)
            end
          else Ret (Err DHCPError.InvalidTLV)
      end
  end.

Lemma drop_S_index {A} (l : list A) cur x :
  0 ≤ cur → get l cur = Some x →
  drop (Z.to_nat cur) l = x :: drop (Z.to_nat (cur + 1)) l.
Proof.
  intros Hc. rewrite get_lookup by done. intros Hx. rewrite (drop_S _ x) by done.
  by replace (Z.to_nat (cur + 1)) with (S (Z.to_nat cur)) by lia.
Qed.

Lemma drop_out {A} (l : list A) cur : len l ≤ cur → drop (Z.to_nat cur) l = [].
Proof. intros. apply drop_ge. unfold len in *. lia. Qed.

Lemma sub_drop {A} (l : list A) cur k n :
  0 ≤ cur → 0 ≤ k ≤ n →
  sub l (cur + k) (cur + n) = sub (drop (Z.to_nat cur) l) k n.
Proof.
  intros. unfold sub. rewrite drop_drop. f_equal; [lia|]. f_equal. lia.
Qed.

Lemma parse_loop_round fuel options cur parsed :
  bytes options → 0 ≤ cur →
  parse_options_loop (S fuel) options cur parsed =
  loop_round (parse_options_loop fuel options) (drop (Z.to_nat cur) options) cur parsed.
Proof.
  intros Hb Hc. cbn [parse_options_loop].
  destruct (Z.ltb_spec cur (len options)) as [Hlt|Hge]; [|by rewrite drop_out].
  destruct (get_is_some options cur) as [tag Htag]; [lia|].
  rewrite (index_get _ _ _ Htag), bind_Ret, (drop_S_index _ _ tag) by done.
  cbn [loop_round].
  destruct (decide (tag = OPT_PAD)) as [->|Hpad]; [done|]. rewrite (proj2 (Z.eqb_neq tag OPT_PAD)) by done.
  destruct (decide (tag = OPT_END)) as [->|Hend]; [done|]. rewrite (proj2 (Z.eqb_neq tag OPT_END)) by done.
  destruct (decide (len options ≤ cur + 1)) as [Hlast|Hmore].
  { by rewrite get_none, drop_out by done. }
  destruct (get_is_some options (cur + 1)) as [n Hn]; [lia|].
  rewrite Hn, (drop_S_index _ _ n) by (done || lia).
  assert (u8 n) as Hu8.
  { rewrite get_lookup in Hn by lia. by eapply Forall_lookup_1 in Hn. }
  replace (cur + 1 + 1) with (cur + 2) by lia. unfold urange in Hu8.
  assert (len (drop (Z.to_nat (cur + 2)) options) = len options - (cur + 2)) as Hrest by len_lia.
  rewrite Hrest. destruct (decide _) as [Hle|Hgt].
  - rewrite get_range_ok by lia. rewrite parse_option_apply.
    replace (sub options (cur + 2) (cur + 2 + n))
      with (sub (drop (Z.to_nat (cur + 2)) options) 0 n)
      by (rewrite <- sub_drop by lia; f_equal; lia).
    by destruct (apply_option _ _).
  - by rewrite get_range_none by lia.
Qed.

(** Enough rounds for the bytes left always give an answer. *)
Lemma parse_loop_returns options : bytes options → ∀ fuel cur parsed,
  0 ≤ cur ≤ len options → len options - cur < Z.of_nat fuel →
  returns (parse_options_loop fuel options cur parsed).
Proof.
  intros Hb. induction fuel as [|fuel IH]; intros cur parsed Hc Hf; [lia|].
  rewrite parse_loop_round by (done || lia). unfold loop_round.
  assert (len (drop (Z.to_nat cur) options) = len options - cur) as Hlen by len_lia.
  pose proof (Forall_drop _ (Z.to_nat cur) _ Hb) as Hbd.
  destruct (drop _ options) as [|tag rest]; [apply returns_Ret|].
  destruct (decide _) as [_|_]; [apply IH; len_lia|].
  destruct (decide _) as [_|_]; [apply returns_Ret|].
  destruct rest as [|n rest]; [apply returns_Ret|].
  destruct (decide _) as [Hn|_]; [|apply returns_Ret].
  destruct (apply_option _ _); [|apply returns_Ret].
  bytes_inv. apply IH; len_lia.
Qed.

(** Everything the loop accepts is a run of options closed by an End tag, and the
    result is what those options mean. *)
Lemma parse_loop_sound options : bytes options → ∀ fuel cur parsed p,
  0 ≤ cur ≤ len options →
  parse_options_loop fuel options cur parsed = Ret (Ok p) →
  ∃ os junk, Forall option_ok os ∧
    drop (Z.to_nat cur) options = encode_options os ++ OPT_END :: junk ∧
    apply_options os parsed = Some p.
Proof.
  intros Hb. induction fuel as [|fuel IH]; intros cur parsed p Hc; [done|].
  rewrite parse_loop_round by (done || lia). unfold loop_round.
  assert (len (drop (Z.to_nat cur) options) = len options - cur) as Hlen by len_lia.
  pose proof (Forall_drop _ (Z.to_nat cur) _ Hb) as Hbd.
  destruct (drop _ options) as [|tag rest] eqn:Hd; [done|].
  assert (∀ k, 0 ≤ k → drop (Z.to_nat (cur + k)) options = drop (Z.to_nat k) (tag :: rest)) as Hdk.
  { intros k Hk. rewrite <- Hd, drop_drop. f_equal. lia. }
  destruct (decide (tag = OPT_PAD)) as [->|Hpad].
  { intros (os & junk & Hos & He & Ha)%IH; [|len_lia].
    rewrite Hdk in He by lia. change (Z.to_nat 1) with 1%nat in He. cbn [drop] in He.
    exists (Pad :: os), junk. split; [by constructor|]. rewrite drop_0 in He. by rewrite He. }
  destruct (decide (tag = OPT_END)) as [->|Hend].
  { intros [= ->]. by exists [], rest. }
  destruct rest as [|n rest]; [done|].
  destruct (decide (n ≤ len rest)) as [Hn|]; [|done].
  destruct (apply_option _ _) as [p'|] eqn:Hap; [|done].
  bytes_inv. intros (os & junk & Hos & He & Ha)%IH; [|len_lia].
  exists (Tlv tag (sub rest 0 n) :: os), junk.
  assert (len (sub rest 0 n) = n) as Hls by (rewrite len_sub; lia).
  split; [constructor; [|done]; simpl; rewrite Hls; done|].
  split; [|by cbn [apply_options]; rewrite Hap].
  rewrite Hdk in He by lia. replace (Z.to_nat (2 + n)) with (S (S (Z.to_nat n))) in He by lia.
  cbn [drop] in He.
  unfold encode_options. cbn [map concat encode_option]. rewrite Hls. cbn [app].
  do 2 f_equal. rewrite <- app_assoc. fold (encode_options os). rewrite <- He.
  rewrite <- take_len. by rewrite take_drop.
Qed.

(** Every run of options closed by an End tag is read to what it means. *)
Lemma parse_loop_complete os : Forall option_ok os → ∀ fuel options cur parsed junk,
  bytes options → 0 ≤ cur →
  drop (Z.to_nat cur) options = encode_options os ++ OPT_END :: junk →
  len (encode_options os) < Z.of_nat fuel →
  parse_options_loop fuel options cur parsed = Ret (or_invalid (apply_options os parsed)).
Proof.
  induction 1 as [|o os Ho Hos IH]; intros [|fuel] options cur parsed junk Hb Hc Hd Hf;
    try (unfold encode_options in Hf; len_lia).
  { rewrite parse_loop_round by done. by rewrite Hd. }
  rewrite parse_loop_round by done. rewrite Hd.
  unfold encode_options in *. cbn [map concat] in *. fold (encode_options os) in *.
  assert (drop (Z.to_nat (cur + len (encode_option o))) options =
          encode_options os ++ OPT_END :: junk) as Hd'.
  { replace (Z.to_nat (cur + len (encode_option o)))
      with (Z.to_nat cur + length (encode_option o))%nat by (unfold len; lia).
    rewrite <- drop_drop, Hd, <- app_assoc. by rewrite drop_app_length. }
  destruct o as [|tag value]; cbn [encode_option app apply_options loop_round].
  { rewrite decide_True by done. cbn [encode_option] in *.
    apply (IH _ _ _ _ junk); try done; len_lia. }
  destruct Ho as (Hpad & Hend & Hu). rewrite 2!decide_False by done.
  rewrite decide_True by len_lia. rewrite <- app_assoc, sub_app_l, sub_all by len_lia.
  cbn [encode_option] in *. unfold mbind, option_bind.
  destruct (apply_option (Tlv tag value) parsed) as [p|]; [|done].
  apply (IH _ _ _ _ junk); try done; try len_lia. rewrite <- Hd'. f_equal. len_lia.
Qed.

Lemma parse_options_returns options : bytes options → returns (parse_options options).
Proof. intros Hb. apply parse_loop_returns; [done|len_lia|unfold len; lia]. Qed.

(** ** A reply, field by field *)

(** The configuration an accepted reply binds, as the options it was read from. *)
Definition binding_options (expected : DHCPMessageType.t) (b : DHCPBinding.t) : Options.t :=
  {| Options.message_type := Some expected;
     Options.subnet_mask := Some (DHCPBinding.subnet_mask b);
     Options.router := Some (DHCPBinding.gateway b);
     Options.server_id := Some (DHCPBinding.server_id b) |}.

(** The fixed header of a reply to the client [mac] in the exchange [xid]. *)
Definition reply_header (msg : list Z) (xid : Z) (mac : MacAddress) : Prop :=
  FIXED_LEN ≤ len msg ∧
  sub msg 0 3 = [OP_BOOT_REPLY; HTYPE_ETHERNET; HLEN_ETHERNET] ∧
  sub msg 236 240 = MAGIC_COOKIE ∧
  sub msg 4 8 = to_be_bytes 4 xid ∧
  sub msg 28 44 = mac_addr mac ++ replicate 10 0.
#[global] Instance reply_header_dec msg xid mac : Decision (reply_header msg xid mac).
Proof. unfold reply_header. apply _. Defined.

Lemma from_options_returns msg expected o :
  FIXED_LEN ≤ len msg → returns (from_options msg expected o).
Proof.
  unfold FIXED_LEN. intros Hl. unfold from_options. case_bool_decide; [|apply returns_Ret].
  simpl negb. cbn iota. destruct (Options.subnet_mask o) as [a1|], (Options.router o) as [a2|],
    (Options.server_id o) as [a3|]; try apply returns_Ret.
  simpl fst; simpl snd. rewrite slice_ok by lia. rewrite bind_Ret.
  destruct (from_octets_ok (sub msg 16 20)) as (i & -> & _); [rewrite len_sub; lia|].
  rewrite bind_Ret. destruct (is_unspecified i); apply returns_Ret.
Qed.

Lemma from_options_accepts msg expected o b :
  FIXED_LEN ≤ len msg →
  from_options msg expected o = Ret (Ok b) ↔
  o = binding_options expected b ∧ sub msg 16 20 = octets (DHCPBinding.client_addr b) ∧
  DHCPBinding.client_addr b ≠ UNSPECIFIED.
Proof.
  unfold FIXED_LEN. intros Hl. unfold from_options, binding_options.
  destruct o as [mt sm rt si], b as [ca bs bg bi].
  cbn [Options.message_type Options.subnet_mask Options.router Options.server_id
       DHCPBinding.client_addr DHCPBinding.subnet_mask DHCPBinding.gateway DHCPBinding.server_id].
  case_bool_decide as Hmt; cbn [negb]; [|naive_solver].
  destruct sm as [a1|], rt as [a2|], si as [a3|]; try naive_solver.
  rewrite slice_ok by (simpl; lia). simpl fst; simpl snd. rewrite bind_Ret.
  destruct (from_octets_ok (sub msg 16 20)) as (i & -> & Hi); [rewrite len_sub; lia|].
  rewrite bind_Ret, <- Hi. unfold is_unspecified.
  case_bool_decide; split.
  - done.
  - intros (_ & ->%octets_inj & ?). done.
  - naive_solver.
  - intros (? & ->%octets_inj & ?). naive_solver.
Qed.

Lemma sub_0_3 (l : list Z) a b c :
  index l 0 = Ret a → index l 1 = Ret b → index l 2 = Ret c → sub l 0 3 = [a; b; c].
Proof.
  intros H0%index_inv H1%index_inv H2%index_inv.
  destruct l as [|x [|y [|z l]]]; try done. cbv in H0, H1, H2 |- *. congruence.
Qed.

Definition header_errors : list DHCPError.t :=
  [DHCPError.TooShort; DHCPError.NotAReply; DHCPError.BadMagicCookie; DHCPError.XidMismatch;
   DHCPError.ClientMacMismatch].

(** A field of the header that differs gives one of its errors. *)
Ltac header_refuses :=
  try rewrite decide_False by (intros (_ & ? & ? & ? & ?); congruence);
  eexists; split; [|done]; set_solver.

(** The header decides first: a message that is not a reply to this client and
    exchange is refused before its options are looked at. *)
Lemma from_message_header msg xid mac expected :
  bytes msg → u32 xid →
  if decide (reply_header msg xid mac)
  then from_message msg xid mac expected =
       try_bind (from_options msg expected) (parse_options (drop 240 msg))
  else ∃ e, e ∈ header_errors ∧ from_message msg xid mac expected = Ret (Err e).
Proof.
  intros Hb Hx. unfold from_message, FIXED_LEN, header_errors.
  destruct (Z.ltb_spec (len msg) 240) as [Hs|Hl].
  { rewrite decide_False by (intros [? _]; unfold FIXED_LEN in *; lia). header_refuses. }
  destruct (index_returns msg 0) as [a Ha]; [lia|]. destruct (index_returns msg 1) as [b Hb1]; [lia|].
  destruct (index_returns msg 2) as [c Hc]; [lia|].
  pose proof (sub_0_3 _ _ _ _ Ha Hb1 Hc) as H3. rewrite Ha, Hb1, Hc, !bind_Ret.
  destruct (Z.eqb_spec a OP_BOOT_REPLY) as [->|], (Z.eqb_spec b HTYPE_ETHERNET) as [->|],
    (Z.eqb_spec c HLEN_ETHERNET) as [->|]; cbn [negb orb]; try header_refuses.
  simpl fst; simpl snd. rewrite !slice_ok, !bind_Ret by lia.
  case_bool_decide as Hck; cbn [negb]; [|header_refuses].
  rewrite read_ok, bind_Ret by (done || lia).
  destruct (Z.eqb_spec (from_be_bytes (sub msg 4 8)) xid) as [Hxid|Hxid]; cbn [negb].
  2:{ rewrite decide_False; [header_refuses|].
      intros (_ & _ & _ & He & _). apply Hxid. rewrite He. by apply from_to_be. }
  rewrite copy_range_ok by (rewrite ?len_mac_addr; done). rewrite !bind_Ret.
  change (take _ _ ++ mac_addr mac ++ _) with (mac_addr mac ++ replicate 10 0).
  case_bool_decide as Hch; cbn [negb]; [|header_refuses].
  rewrite decide_True.
  - by rewrite slice_from_ok, bind_Ret by lia.
  - split_and!; try done. subst xid. symmetry. apply (to_be_read U32); done || lia.
Qed.

(** ** What is built *)

(** The fixed header of the messages a client sends. *)
Definition request_header (mac : MacAddress) (xid : Z) : list Z :=
  [OP_BOOT_REQUEST; HTYPE_ETHERNET; HLEN_ETHERNET; 0] ++ to_be_bytes 4 xid ++
  [0; 0] ++ to_be_bytes 2 FLAG_BROADCAST ++ replicate 16 0 ++
  mac_addr mac ++ replicate 10 0 ++ replicate 192 0 ++ MAGIC_COOKIE.

Lemma build_message_eq mac xid options :
  build_message mac xid options =
  if len options <=? 60
  then Ret (request_header mac xid ++ options ++ replicate (60 - length options) 0)
  else Panic.
Proof.
  unfold build_message, request_header.
  pose proof (length_to_be 4 xid) as Hx. destruct mac as [m0 m1 m2 m3 m4 m5].
  destruct (to_be_bytes 4 xid) as [|x0 [|x1 [|x2 [|x3 [|]]]]]; try done. clear Hx.
  do 3 (rewrite set_index_ok by done; rewrite bind_Ret).
  do 4 (rewrite copy_range_ok by done; rewrite bind_Ret).
  match goal with |- copy_range ?m _ _ _ = if _ then Ret (?h ++ _) else _ =>
    replace m with (h ++ array 0 60) by reflexivity;
    generalize (eq_refl : len h = 240); generalize h end.
  intros h Hh. unfold FIXED_LEN. destruct (Z.leb_spec (len options) 60) as [Hle|Hgt].
  - rewrite copy_range_ok by len_lia. rewrite take_len, sub_app_l, sub_all by len_lia.
    do 3 f_equal. rewrite drop_app, drop_ge by (unfold len in *; lia).
    unfold array. rewrite drop_replicate. cbn [app]. f_equal. unfold len in *. lia.
  - unfold copy_range. rewrite (proj2 (Z.leb_gt (240 + len options) _)) by len_lia.
    by rewrite andb_false_r.
Qed.

(** The options of the two messages. *)
Definition discover_options : list dhcp_option :=
  [Tlv OPT_MESSAGE_TYPE [1]; Tlv OPT_PARAMETER_REQUEST_LIST [OPT_SUBNET_MASK; OPT_ROUTER]].

Definition request_options (offer : DHCPBinding.t) : list dhcp_option :=
  [Tlv OPT_MESSAGE_TYPE [3];
   Tlv OPT_REQUESTED_ADDR (octets (DHCPBinding.client_addr offer));
   Tlv OPT_SERVER_ID (octets (DHCPBinding.server_id offer));
   Tlv OPT_PARAMETER_REQUEST_LIST [OPT_SUBNET_MASK; OPT_ROUTER]].

Definition client_message (mac : MacAddress) (xid : Z) (os : list dhcp_option) : list Z :=
  request_header mac xid ++ encode_options os ++
  OPT_END :: replicate (59 - length (encode_options os)) 0.

Lemma build_discover_eq mac xid :
  build_discover mac xid = Ret (client_message mac xid discover_options).
Proof.
  unfold build_discover. rewrite copy_range_ok, bind_Ret by done.
  rewrite copy_range_ok, bind_Ret by done. rewrite set_index_ok, bind_Ret by done.
  by rewrite build_message_eq.
Qed.

Lemma build_request_eq mac xid offer :
  build_request mac xid offer = Ret (client_message mac xid (request_options offer)).
Proof.
  unfold build_request. destruct offer as [[a0 a1 a2 a3] ? ? [s0 s1 s2 s3]].
  do 6 (rewrite copy_range_ok, bind_Ret by done). rewrite set_index_ok, bind_Ret by done.
  by rewrite build_message_eq.
Qed.

Lemma len_request_header mac xid : len (request_header mac xid) = 240.
Proof. unfold request_header. by rewrite !len_app, len_to_be. Qed.

Lemma request_header_bytes mac xid : mac_ok mac → bytes (request_header mac xid).
Proof.
  intros. unfold request_header.
  assert (∀ n, bytes (replicate n 0)) as Hz by (intros; by apply Forall_replicate).
  rewrite !Forall_app. split_and!; first [apply bytes_to_be|assumption|apply Hz|idtac];
    apply (bool_decide_unpack _); vm_compute; exact I.
Qed.

(** A message of our own is not taken for a reply. *)
Lemma client_message_refused mac xid os xid' mac' expected :
  from_message (client_message mac xid os) xid' mac' expected = Ret (Err DHCPError.NotAReply).
Proof.
  unfold from_message, client_message, FIXED_LEN.
  pose proof (len_request_header mac xid) as Hl.
  rewrite (proj2 (Z.ltb_ge _ _)) by len_lia. done.
Qed.

(** The loop has one error. *)
Lemma parse_loop_error options : bytes options → ∀ fuel cur parsed e,
  0 ≤ cur → parse_options_loop fuel options cur parsed = Ret (Err e) → e = DHCPError.InvalidTLV.
Proof.
  intros Hb. induction fuel as [|fuel IH]; intros cur parsed e Hc; [done|].
  rewrite parse_loop_round by done. unfold loop_round.
  pose proof (Forall_drop _ (Z.to_nat cur) _ Hb) as Hbd.
  destruct (drop _ options) as [|tag rest]; [congruence|].
  destruct (decide _) as [_|_]; [apply IH; lia|].
  destruct (decide _) as [_|_]; [done|].
  destruct rest as [|n rest]; [congruence|].
  destruct (decide _) as [Hn|_]; [|congruence].
  destruct (apply_option _ _); [|congruence].
  bytes_inv. apply IH. lia.
Qed.

Lemma parse_options_accepts options p :
  bytes options →
  parse_options options = Ret (Ok p) ↔
  ∃ os junk, Forall option_ok os ∧ options = encode_options os ++ OPT_END :: junk ∧
    apply_options os Options.default = Some p.
Proof.
  intros Hb. split.
  - intros (os & junk & ? & Hd & ?)%parse_loop_sound; [|done|len_lia].
    exists os, junk. change (Z.to_nat 0) with 0%nat in Hd. by rewrite drop_0 in Hd.
  - intros (os & junk & Hos & Hd & Ha). unfold parse_options.
    rewrite (parse_loop_complete os) with (junk := junk); try done; [by rewrite Ha|].
    subst options. rewrite length_app. unfold len. lia.
Qed.

(** C22.  Reading the options field, on every byte string: it returns within its
    rounds and never indexes out of range; it accepts exactly the runs of
    well-formed options closed by an End tag whose options all have a meaning, and
    gives that meaning, whatever bytes follow the End tag; its only error is
    [InvalidTLV]. *)
Theorem parse_options_spec (options : list Z) (Hb : bytes options) :
  returns (parse_options options) ∧
  (∀ p, parse_options options = Ret (Ok p) ↔
     ∃ os junk, Forall option_ok os ∧ options = encode_options os ++ OPT_END :: junk ∧
       apply_options os Options.default = Some p) ∧
  (∀ e, parse_options options = Ret (Err e) → e = DHCPError.InvalidTLV).
Proof.
  split_and!; [by apply parse_options_returns|intros p; by apply parse_options_accepts|].
  intros e. apply parse_loop_error; done || lia.
Qed.

(** What it takes for a reply to bind [b]. *)
Definition reply_binds (msg : list Z) (xid : Z) (mac : MacAddress)
    (expected : DHCPMessageType.t) (b : DHCPBinding.t) : Prop :=
  reply_header msg xid mac ∧
  sub msg 16 20 = octets (DHCPBinding.client_addr b) ∧
  DHCPBinding.client_addr b ≠ UNSPECIFIED ∧
  ∃ os junk, Forall option_ok os ∧
    drop 240 msg = encode_options os ++ OPT_END :: junk ∧
    apply_options os Options.default = Some (binding_options expected b).

Lemma from_message_facts msg xid mac expected :
  bytes msg → u32 xid →
  returns (from_message msg xid mac expected) ∧
  (∀ b, from_message msg xid mac expected = Ret (Ok b) ↔ reply_binds msg xid mac expected b) ∧
  (¬ reply_header msg xid mac →
     ∃ e, e ∈ header_errors ∧ from_message msg xid mac expected = Ret (Err e)).
Proof.
  intros Hb Hx. unfold reply_binds.
  pose proof (from_message_header msg xid mac expected Hb Hx) as Hh.
  assert (bytes (drop 240 msg)) as Hbd by by apply Forall_drop.
  destruct (decide (reply_header msg xid mac)) as [Hr|Hr].
  - pose proof Hr as [Hl _]. rewrite Hh.
    destruct (parse_options_returns _ Hbd) as [[o|e] Ho]; rewrite Ho.
    + rewrite try_Ok. split_and!; [by apply from_options_returns| |done].
      intros b. rewrite from_options_accepts by done. split.
      * intros (-> & ? & ?). split_and!; try done. by apply parse_options_accepts.
      * intros (_ & ? & ? & Hos). apply parse_options_accepts in Hos; [|done].
        split_and!; congruence.
    + rewrite try_Err. split_and!; [apply returns_Ret| |done].
      intros b. split; [done|]. intros (_ & _ & _ & Hos).
      apply parse_options_accepts in Hos; [|done]. congruence.
  - destruct Hh as (e & He & ->). split_and!; [apply returns_Ret| |by exists e].
    intros b. split; [done|by intros [? _]].
Qed.

(** The addresses of a binding are made of the message's bytes. *)
Definition options_ok (o : Options.t) : Prop :=
  (∀ a, Options.subnet_mask o = Some a → ip_ok a) ∧
  (∀ a, Options.router o = Some a → ip_ok a) ∧
  (∀ a, Options.server_id o = Some a → ip_ok a).

Lemma apply_option_ok o p p' :
  bytes (encode_option o) → options_ok p → apply_option o p = Some p' → options_ok p'.
Proof.
  intros Hb (Hm & Hr & Hs). destruct o as [|tag value]; [intros [= <-]; done|].
  cbn [encode_option apply_option] in *. unfold options_ok.
  apply Forall_cons in Hb as [_ Hb]. apply Forall_cons in Hb as [_ Hb].
  assert (∀ a b c d l, value = a :: b :: c :: d :: l → ip_ok (Ip a b c d)) as Hip.
  { intros a b c d l ->. unfold ip_ok, octets. simpl. by apply (Forall_take _ 4) in Hb. }
  repeat (destruct (decide _); [|]); [..|by intros [= <-]].
  - destruct value as [|? [|? [|? [|? [|]]]]]; naive_solver.
  - destruct value as [|? [|? [|? [|? l]]]]; try done. destruct (decide _); naive_solver.
  - destruct value as [|? [|? [|? [|? [|]]]]]; naive_solver.
  - destruct value as [|ty [|]]; try done. destruct (DHCPMessageType.try_from ty); naive_solver.
Qed.

Lemma apply_options_ok os p p' :
  bytes (encode_options os) → options_ok p → apply_options os p = Some p' → options_ok p'.
Proof.
  revert p. induction os as [|o os IH]; intros p Hb Hp; [by intros [= <-]|].
  unfold encode_options in Hb. cbn [map concat] in Hb. apply Forall_app in Hb as [Ho Hos].
  cbn [apply_options]. destruct (apply_option o p) as [q|] eqn:E; [|done].
  apply IH; [done|]. by eapply apply_option_ok.
Qed.

Lemma reply_binds_ok msg xid mac expected b :
  bytes msg → reply_binds msg xid mac expected b →
  ip_ok (DHCPBinding.client_addr b) ∧ ip_ok (DHCPBinding.subnet_mask b) ∧
  ip_ok (DHCPBinding.gateway b) ∧ ip_ok (DHCPBinding.server_id b).
Proof.
  intros Hb (_ & Hc & _ & os & junk & _ & Hd & Ha).
  assert (bytes (encode_options os)) as Ho.
  { apply (Forall_drop _ 240) in Hb. rewrite Hd in Hb. by apply Forall_app in Hb as [? _]. }
  apply apply_options_ok in Ha as (Hm & Hr & Hs); [|done|done].
  split_and!; [|by apply Hm|by apply Hr|by apply Hs].
  unfold ip_ok. rewrite <- Hc. by apply sub_Forall.
Qed.

(** C23.  Reading a server's reply, on every message of bytes: it returns, and it
    accepts exactly a BOOTP reply with the magic cookie, this exchange's id and
    this client's hardware address over the whole field, whose options carry the
    expected message type, a mask, a router and a server identifier, and whose
    offered address is not 0.0.0.0; the binding holds just those values.  Any
    other header is refused with a header error, before the options are read. *)
Theorem from_message_spec (msg : list Z) (xid : Z) (mac : MacAddress)
    (expected : DHCPMessageType.t) (Hb : bytes msg) (Hx : u32 xid) :
  returns (from_message msg xid mac expected) ∧
  (∀ b, from_message msg xid mac expected = Ret (Ok b) ↔ reply_binds msg xid mac expected b) ∧
  (¬ reply_header msg xid mac →
     ∃ e, e ∈ header_errors ∧ from_message msg xid mac expected = Ret (Err e)).
Proof. by apply from_message_facts. Qed.

(** The messages a client sends are 300 bytes: a BOOTP request header with
    the exchange id, the broadcast flag and the client's hardware address, then
    the options of a discover, or of a request that names the offered address and
    the server that offered it, then an End tag and zeros.  Neither is ever taken
    for a server's reply. *)
Theorem build_spec (mac : MacAddress) (xid : Z) (offer : DHCPBinding.t) (Hm : mac_ok mac)
    (Hc : ip_ok (DHCPBinding.client_addr offer)) (Hs : ip_ok (DHCPBinding.server_id offer)) :
  build_discover mac xid = Ret (client_message mac xid discover_options) ∧
  build_request mac xid offer = Ret (client_message mac xid (request_options offer)) ∧
  (∀ os, os = discover_options ∨ os = request_options offer →
     let msg := client_message mac xid os in
     len msg = MESSAGE_LEN ∧ bytes msg ∧
     sub msg 28 44 = mac_addr mac ++ replicate 10 0 ∧ sub msg 4 8 = to_be_bytes 4 xid ∧
     sub msg 12 16 = [0; 0; 0; 0] ∧
     (∃ junk, drop 240 msg = encode_options os ++ OPT_END :: junk) ∧
     ∀ xid' mac' expected,
       from_message msg xid' mac' expected = Ret (Err DHCPError.NotAReply)).
Proof.
  split_and!; [apply build_discover_eq|apply build_request_eq|].
  intros os Hos msg.
  assert (len msg = MESSAGE_LEN) as Hl.
  { subst msg. unfold client_message. rewrite !len_app, len_request_header.
    destruct Hos as [-> | ->]; done. }
  assert (bytes msg) as Hbm.
  { subst msg. unfold client_message.
    apply Forall_app; split; [by apply request_header_bytes|].
    destruct Hos as [-> | ->]; unfold ip_ok, octets in *; bytes_inv; cbn;
      repeat first [apply Forall_nil_2|
        apply Forall_cons_2; [unfold urange; first [lia|by vm_compute]|]]. }
  subst msg. split_and!; try done; try (apply client_message_refused).
  eexists. unfold client_message.
  replace 240%nat with (length (request_header mac xid)); [by rewrite drop_app_length|].
  pose proof (len_request_header mac xid). unfold len in *. lia.
Qed.

(** ** The captured exchange of the tests *)

Definition CLIENT_MAC : MacAddress := Mac 0x52 0x54 0x00 0x12 0x34 0x56.
Definition CAPTURE_XID : Z := 0xbcb0ed7d.
Definition CAPTURE_BINDING : DHCPBinding.t :=
  {| DHCPBinding.client_addr := Ip 10 0 2 15; DHCPBinding.subnet_mask := Ip 255 255 255 0;
     DHCPBinding.gateway := Ip 10 0 2 2; DHCPBinding.server_id := Ip 10 0 2 2 |}.
Definition OFFER_OPTIONS : list dhcp_option :=
  [Tlv 53 [2]; Tlv 54 [10; 0; 2; 2]; Tlv 1 [255; 255; 255; 0]; Tlv 3 [10; 0; 2; 2];
   Tlv 6 [10; 0; 2; 3]; Tlv 51 [0; 1; 0x51; 0x80]].
Definition OFFER : list Z :=
  [0x02; 0x01; 0x06; 0x00; 0xbc; 0xb0; 0xed; 0x7d] ++ replicate 8 0 ++
  [0x0a; 0x00; 0x02; 0x0f; 0x0a; 0x00; 0x02; 0x02] ++ replicate 4 0 ++
  mac_addr CLIENT_MAC ++ replicate 202 0 ++ MAGIC_COOKIE ++
  encode_options OFFER_OPTIONS ++ [OPT_END].

Lemma OFFER_bytes : bytes OFFER.
Proof. apply (bool_decide_unpack _). vm_compute. exact I. Defined.

Example capture_offer_accepted :
  from_offer OFFER CAPTURE_XID CLIENT_MAC = Ret (Ok CAPTURE_BINDING) ∧
  from_ack OFFER CAPTURE_XID CLIENT_MAC = Ret (Err DHCPError.WrongMessageType) ∧
  from_offer OFFER (CAPTURE_XID + 1) CLIENT_MAC = Ret (Err DHCPError.XidMismatch) ∧
  from_offer OFFER CAPTURE_XID broadcast = Ret (Err DHCPError.ClientMacMismatch).
Proof. split_and!; vm_compute; reflexivity. Qed.

Lemma parse_options_spec_witness :
  bytes (encode_options OFFER_OPTIONS ++ [OPT_END]) ∧
  parse_options (encode_options OFFER_OPTIONS ++ [OPT_END]) =
    Ret (Ok (binding_options DHCPMessageType.Offer CAPTURE_BINDING)).
Proof.
  assert (bytes (encode_options OFFER_OPTIONS ++ [OPT_END])) as Hb.
  { apply (bool_decide_unpack _). vm_compute. exact I. }
  split; [exact Hb|]. apply (parse_options_spec _ Hb). exists OFFER_OPTIONS, [].
  split_and!; [|reflexivity|reflexivity].
  repeat constructor; try discriminate; vm_compute; congruence.
Defined.

Lemma from_message_spec_witness :
  bytes OFFER ∧ u32 CAPTURE_XID ∧
  from_message OFFER CAPTURE_XID CLIENT_MAC DHCPMessageType.Offer = Ret (Ok CAPTURE_BINDING).
Proof.
  assert (u32 CAPTURE_XID) as Hx by (split; vm_compute; congruence).
  split_and!; [exact OFFER_bytes|exact Hx|].
  apply (from_message_spec OFFER CAPTURE_XID CLIENT_MAC DHCPMessageType.Offer OFFER_bytes Hx).
  split; [apply (bool_decide_unpack _); vm_compute; exact I|].
  split; [reflexivity|]. split; [discriminate|]. exists OFFER_OPTIONS, [].
  split_and!; try reflexivity.
  repeat constructor; try discriminate; vm_compute; congruence.
Defined.

Lemma build_spec_witness :
  mac_ok CLIENT_MAC ∧ len (client_message CLIENT_MAC CAPTURE_XID discover_options) = 300.
Proof.
  assert (mac_ok CLIENT_MAC) as Hm by (unfold mac_ok; apply (bool_decide_unpack _); vm_compute; exact I).
  split; [exact Hm|].
  apply (build_spec CLIENT_MAC CAPTURE_XID CAPTURE_BINDING Hm); [| |by left];
    unfold ip_ok; apply (bool_decide_unpack _); vm_compute; exact I.
Defined.
