(* ===== verification/Ethernet.v ===== *)
(** * Ethernet frames: [net/src/ethernet.rs]

    The dispatch of a received frame on its ethertype.  The address type of the
    same source file is in [Addr.v]. *)

From S2P Require Import Prelude Utils Addr Checksum Ipv4 Arp.
Local Open Scope Z_scope.

Module EtherType.
Inductive t := IPV4 | ARP.
(** [ethertype as u16] *)
Definition as_u16 (e : t) : Z := match e with IPV4 => 0x0800 | ARP => 0x0806 end.
End EtherType.

Module EthernetError.
Inductive t :=
| Ipv4Err (e : Ipv4Error.t)
| ArpError (e : ArpError.t)
| TooShort.
#[global] Instance t_eq_dec : EqDecision t.
Proof. solve_decision. Defined.
End EthernetError.

Module EthernetFrame.
Inductive t :=
| Arp (p : ArpPacket.t)
| Ipv4 (p : Ipv4Packet.t)
| Unknown (ethertype : Z) (items : list Z).
#[global] Instance t_eq_dec : EqDecision t.
Proof. solve_decision. Defined.

Definition new (packet : list Z) : outcome (result t EthernetError.t) :=
  if len packet <? 14 then Ret (Err EthernetError.TooShort) else
  b12 ← index packet 12; b13 ← index packet 13;
  let ethertype := from_be_bytes [b12; b13] in
  if ethertype =? 0x0806 then
    arp ← slice_from packet 14;
    r ← ArpPacket.from_slice arp;
    match r with
    | Ok p => Ret (Ok (Arp p))
    | Err e => Ret (Err (EthernetError.ArpError e))
    end
  else if ethertype =? 0x0800 then
    ip ← slice_from packet 14;
    r ← Ipv4Packet.from_packet ip;
    match r with
    | Ok p => Ret (Ok (Ipv4 p))
    | Err e => Ret (Err (EthernetError.Ipv4Err e))
    end
  else Ret (Ok (Unknown ethertype packet)).
End EthernetFrame.

(** ** What an accepted frame is *)

(** Every frame the parser hands on. *)
Definition frame_ok (f : EthernetFrame.t) : Prop :=
  match f with
  | EthernetFrame.Arp p => arp_valid p
  | EthernetFrame.Ipv4 p => Ipv4Packet.packet_valid p
  | EthernetFrame.Unknown ty items => u16 ty ∧ bytes items
  end.

(** A frame on the wire, before padding. *)
Definition eth_wire (dst src : MacAddress) (ty : Z) (payload : list Z) : list Z :=
  mac_addr dst ++ mac_addr src ++ to_be_bytes 2 ty ++ payload.

Lemma len_eth_wire dst src ty payload : len (eth_wire dst src ty payload) = 14 + len payload.
Proof. unfold eth_wire. rewrite !len_app, !len_mac_addr, len_to_be. lia. Qed.

Lemma index_pair (l : list Z) a :
  0 ≤ a → a + 2 ≤ len l → ∃ x y, index l a = Ret x ∧ index l (a + 1) = Ret y ∧ sub l a (a + 2) = [x; y].
Proof.
  intros Ha Hl.
  destruct (get_is_some l a) as [x Hx]; [lia|]. destruct (get_is_some l (a + 1)) as [y Hy]; [lia|].
  exists x, y. split_and!; try by apply index_get.
  rewrite get_lookup in Hx, Hy by lia. unfold sub.
  replace (Z.to_nat (a + 2 - a)) with 2%nat by lia.
  rewrite (drop_S _ x) by done. replace (S (Z.to_nat a)) with (Z.to_nat (a + 1)) by lia.
  by rewrite (drop_S _ y) by done.
Qed.

(** The dispatch, in terms of what follows the header. *)
Definition ethernet_ref (packet : list Z) : outcome (result EthernetFrame.t EthernetError.t) :=
  let ty := from_be_bytes (sub packet 12 14) in
  let body := drop 14 packet in
  if decide (len packet < 14) then Ret (Err EthernetError.TooShort)
  else if decide (ty = 0x0806) then
    r ← ArpPacket.from_slice body;
    Ret (match r with Ok p => Ok (EthernetFrame.Arp p) | Err e => Err (EthernetError.ArpError e) end)
  else if decide (ty = 0x0800) then
    Ret (match from_packet_ref body with
         | Ok p => Ok (EthernetFrame.Ipv4 p) | Err e => Err (EthernetError.Ipv4Err e) end)
  else Ret (Ok (EthernetFrame.Unknown ty packet)).

Lemma ethernet_new_eq packet : bytes packet → EthernetFrame.new packet = ethernet_ref packet.
Proof.
  intros Hb. unfold EthernetFrame.new, ethernet_ref.
  destruct (Z.ltb_spec (len packet) 14) as [?|Hl]; [by rewrite decide_True|].
  rewrite decide_False by lia.
  destruct (index_pair packet 12) as (x & y & H12 & H13 & Hs); [lia|lia|].
  change (12 + 1) with 13 in H13. change (12 + 2) with 14 in Hs.
  rewrite H12, H13, !bind_Ret, Hs. set (ty := from_be_bytes [x; y]).
  assert (bytes (drop 14 packet)) by by apply Forall_drop.
  destruct (decide (ty = 0x0806)) as [->|?].
  { rewrite slice_from_ok, bind_Ret by lia.
    destruct (ArpPacket.from_slice _) as [[]| |]; done. }
  rewrite (proj2 (Z.eqb_neq ty 0x0806)) by done.
  destruct (decide (ty = 0x0800)) as [->|?].
  { rewrite slice_from_ok, bind_Ret by lia.
    rewrite from_packet_eq, bind_Ret by done. by destruct (from_packet_ref _). }
  by rewrite (proj2 (Z.eqb_neq ty 0x0800)) by done.
Qed.

Lemma ethernet_new_classified packet :
  bytes packet →
  ∃ r, EthernetFrame.new packet = Ret r ∧
  match r with
  | Ok f => frame_ok f ∧ 14 ≤ len packet
  | Err EthernetError.TooShort => len packet < 14
  | Err _ => 14 ≤ len packet
  end.
Proof.
  intros Hb. rewrite ethernet_new_eq by done. unfold ethernet_ref.
  destruct (decide (len packet < 14)); [by eexists|].
  assert (bytes (drop 14 packet)) as Hd by by apply Forall_drop.
  destruct (decide _) as [_|_].
  { destruct (arp_from_slice_classified _ Hd) as ([p|e] & -> & Hc); eexists; (split; [done|]).
    - destruct Hc as [? _]. split; [done|lia].
    - simpl. lia. }
  destruct (decide _) as [_|_].
  { eexists; split; [done|]. destruct (from_packet_ref _) as [p|e] eqn:E; [|simpl; lia].
    apply from_packet_ref_inv in E as [? _]; [|done]. split; [done|lia]. }
  eexists; split; [done|]. split; [|lia]. split; [|done].
  apply (read_u_range U16); simpl; done || lia.
Qed.

(** What was framed is found again: the header is taken off, and padding after an
    ARP or IPv4 packet does not matter. *)
Lemma eth_wire_fields dst src ty payload :
  u16 ty →
  sub (eth_wire dst src ty payload) 0 6 = mac_addr dst ∧
  sub (eth_wire dst src ty payload) 6 12 = mac_addr src ∧
  from_be_bytes (sub (eth_wire dst src ty payload) 12 14) = ty ∧
  drop 14 (eth_wire dst src ty payload) = payload.
Proof.
  intros Hty. unfold eth_wire. pose proof (length_to_be 2 ty) as Hl.
  pose proof (from_to_be 2 ty Hty) as Hf.
  by destruct (to_be_bytes 2 ty) as [|x [|y [|]]].
Qed.

Lemma parse_arp_frame dst src p pad :
  mac_ok dst → mac_ok src → arp_valid p → bytes pad →
  EthernetFrame.new (eth_wire dst src 0x0806 (arp_wire p) ++ pad) = Ret (Ok (EthernetFrame.Arp p)).
Proof.
  intros Hd Hs Hp Hpad.
  replace (eth_wire dst src 0x0806 (arp_wire p) ++ pad)
    with (eth_wire dst src 0x0806 (arp_wire p ++ pad))
    by (unfold eth_wire; by rewrite <- !app_assoc).
  rewrite ethernet_new_eq.
  - unfold ethernet_ref. rewrite len_eth_wire, decide_False by len_lia.
    destruct (eth_wire_fields dst src 0x0806 (arp_wire p ++ pad)) as (_ & _ & -> & ->); [done|].
    by rewrite arp_parse_wire.
  - unfold eth_wire, arp_wire. destruct Hp as (_ & _ & _ & _ & ? & ? & ? & ?).
    unfold mac_ok, ip_ok in *. bytes_solve. destruct (ArpPacket.operation p); by vm_compute.
Qed.

Lemma parse_ipv4_frame dst src p pad :
  mac_ok dst → mac_ok src → Ipv4Packet.packet_valid p → bytes pad →
  EthernetFrame.new
    (eth_wire dst src 0x0800
       (fixed_header p (header_checksum p) ++ Ipv4Packet.options p ++ Ipv4Packet.data p) ++ pad)
  = Ret (Ok (EthernetFrame.Ipv4 (Ipv4Packet.with_checksum (header_checksum p) p))).
Proof.
  intros Hd Hs Hp Hpad.
  match goal with |- EthernetFrame.new (eth_wire _ _ _ ?b ++ _) = _ =>
    replace (eth_wire dst src 0x0800 b ++ pad) with (eth_wire dst src 0x0800 (b ++ pad))
      by (unfold eth_wire; by rewrite <- !app_assoc) end.
  rewrite ethernet_new_eq.
  - unfold ethernet_ref. rewrite len_eth_wire, decide_False by len_lia.
    match goal with |- context [eth_wire _ _ _ ?b] =>
      destruct (eth_wire_fields dst src 0x0800 b) as (_ & _ & -> & ->); [done|] end.
    rewrite decide_False, decide_True by done. rewrite <- !app_assoc.
    by rewrite parse_serialized.
  - destruct Hp as [Hok _]. pose proof (fixed_header_bytes p (header_checksum p) Hok).
    destruct Hok as (_&_&_&_&_&_&_&_&_&_&?&?).
    unfold eth_wire, mac_ok in *. bytes_solve.
Qed.

(** On every byte string [EthernetFrame::new] returns: it refuses as too short
    exactly the strings without a whole header, dispatches the rest on the
    big-endian ethertype at offset 12, wraps the error of the parser it calls, and
    every packet it hands on satisfies the invariant of its type. *)
Theorem ethernet_new_spec (packet : list Z) (Hb : bytes packet) :
  EthernetFrame.new packet = ethernet_ref packet ∧
  ∃ r, EthernetFrame.new packet = Ret r ∧
    (r = Err EthernetError.TooShort ↔ len packet < 14) ∧
    ∀ f, r = Ok f → frame_ok f.
Proof.
  split; [by apply ethernet_new_eq|].
  destruct (ethernet_new_classified _ Hb) as (r & Hr & Hc). exists r. split; [done|].
  destruct r as [f|[| |]]; split; try naive_solver lia.
Qed.

(** A valid ARP or IPv4 packet put in a frame, with any padding after it, is
    read back by the parser as that packet (with the checksum the serializer
    filled in), whatever the two hardware addresses are. *)
Theorem ethernet_roundtrip (dst src : MacAddress) (pad : list Z)
    (Hd : mac_ok dst) (Hs : mac_ok src) (Hpad : bytes pad) :
  (∀ p, arp_valid p → ∃ body, ArpPacket.serialize p = Ret body ∧
     EthernetFrame.new (eth_wire dst src (EtherType.as_u16 EtherType.ARP) body ++ pad) =
       Ret (Ok (EthernetFrame.Arp p))) ∧
  (∀ p, Ipv4Packet.packet_valid p → ∃ body, Ipv4Packet.serialize p = Ret body ∧
     EthernetFrame.new (eth_wire dst src (EtherType.as_u16 EtherType.IPV4) body ++ pad) =
       Ret (Ok (EthernetFrame.Ipv4 (Ipv4Packet.with_checksum (header_checksum p) p)))).
Proof.
  split; intros p Hp.
  - exists (arp_wire p). split; [by apply arp_serialize_eq|by apply parse_arp_frame].
  - exists (fixed_header p (header_checksum p) ++ Ipv4Packet.options p ++ Ipv4Packet.data p).
    destruct (Hp) as (Hok & _ & Ho & _).
    split; [by apply serialize_eq; [|lia]|by apply parse_ipv4_frame].
Qed.

Definition example_frame : list Z :=
  eth_wire broadcast (Mac 2 0 0 0 0 1) 0x0806 (arp_wire example_arp).

Lemma ethernet_new_spec_witness :
  bytes example_frame ∧ ∃ r, EthernetFrame.new example_frame = Ret r ∧ r ≠ Err EthernetError.TooShort.
Proof.
  assert (bytes example_frame) as Hb by (apply (bool_decide_unpack _); vm_compute; exact I).
  split; [exact Hb|].
  destruct (ethernet_new_spec _ Hb) as [_ (r & Hr & Ht & _)]. exists r. split; [exact Hr|].
  intros H%Ht. vm_compute in H. discriminate H.
Defined.

Lemma ethernet_roundtrip_witness :
  mac_ok broadcast ∧ ∃ body, ArpPacket.serialize example_arp = Ret body ∧
  EthernetFrame.new (eth_wire broadcast broadcast 0x0806 body ++ [0; 0]) =
    Ret (Ok (EthernetFrame.Arp example_arp)).
Proof.
  assert (mac_ok broadcast) as Hm by (apply (bool_decide_unpack _); vm_compute; exact I).
  split; [exact Hm|].
  apply (ethernet_roundtrip broadcast broadcast [0; 0] Hm Hm);
    apply (bool_decide_unpack _); vm_compute; exact I.
Defined.
