(* ===== verification/Interfaces.v ===== *)
(** * Interfaces between components

    What one component promises another, as classes: the client's theorems are
    proved against the class, and the component that implements it gives the
    instance. *)

From S2P Require Import Prelude Utils.
Local Open Scope Z_scope.

(** The network card, as the interface uses it: [VirtIONet::send] of the
    [virtio_drivers] crate, and the address it reports. *)
Class NetDriver (D : Type) := {
  VirtioError : Type;
  driver_mac : D → list Z;
  driver_send : list Z → D → result D VirtioError;
}.

(** The card takes every frame, and has a hardware address. *)
Class NetDriverOk (D : Type) `{NetDriver D} := {
  driver_send_ok : ∀ frame d, ∃ d', driver_send frame d = Ok d';
  driver_mac_len : ∀ d, len (driver_mac d) = 6 ∧ bytes (driver_mac d);
}.

(** Random integers: the [FromRand] trait of [rng.rs]. *)
Class RandomSource (R : Type) := {
  RandomError : Type;
  from_rand : int_ty → R → outcome (result Z RandomError * R);
}.

(** Every draw gives a value of its type. *)
Class RandomSourceOk (R : Type) `{RandomSource R} := {
  random_ok : R → Prop;
  from_rand_ok : ∀ t r, random_ok r →
    ∃ v r', from_rand t r = Ret (Ok v, r') ∧ in_range t v ∧ random_ok r';
}.
