(* ===== verification/Icmp.v ===== *)
(** * Echo requests and replies

    The bytes of an ICMP echo message, as [handle_icmp] of
    [kernel/src/network/handler.rs] reads and rewrites them. *)

From S2P Require Import Prelude Addr Checksum Ipv4.
Local Open Scope Z_scope.

(** A message whose checksum verifies. *)
Definition icmp_verifies (d : list Z) : Prop := ones (word_sum d) = 65535.
#[global] Instance icmp_verifies_dec d : Decision (icmp_verifies d).
Proof. unfold icmp_verifies. apply _. Defined.

(** An echo request: type 8, code 0. *)
Definition is_echo (d : list Z) : Prop := take 2 d = [8; 0].
#[global] Instance is_echo_dec d : Decision (is_echo d).
Proof. unfold is_echo. apply _. Defined.

(** The reply's bytes around a checksum field [c]. *)
Definition echo_with (d : list Z) (c : Z) : list Z := [0; 0] ++ to_be_bytes 2 c ++ drop 4 d.
Definition echo_checksum (d : list Z) : Z := 65535 - ones (word_sum (echo_with d 0)).
Definition echo_data (d : list Z) : list Z := echo_with d (echo_checksum d).

(** A verifying message has a type byte, and a verifying echo request has its
    whole header: shorter ones cannot have the checksum they would need. *)
Lemma verifies_nonempty d : icmp_verifies d → 0 < len d.
Proof. destruct d; [done|]. intros _. len_lia. Qed.

Lemma verifies_type d t : bytes d → icmp_verifies d → d !! 0%nat = Some t → t = 8 → 1 < len d.
Proof.
  intros Hb Hv Ht ->. destruct d as [|x [|y d]]; try done; [|len_lia].
  injection Ht as ->. done.
Qed.

Lemma verifies_echo_long d : bytes d → icmp_verifies d → is_echo d → 4 ≤ len d.
Proof.
  unfold icmp_verifies, is_echo. intros Hb Hv He.
  destruct d as [|x [|y [|z [|t d]]]]; try done; [..|len_lia];
    cbn [take] in He; rewrite ?firstn_O in He; injection He as -> ->.
  - done.
  - bytes_inv. apply ones_full in Hv as [_ Hm]; [|simpl; lia].
    simpl in Hm. exfalso. Z.div_mod_to_equations. lia.
Qed.

Lemma len_echo_with d c : 4 ≤ len d → len (echo_with d c) = len d.
Proof. intros. unfold echo_with. rewrite !len_app, len_to_be. len_lia. Qed.

Lemma echo_with_bytes d c : bytes d → bytes (echo_with d c).
Proof. intros. unfold echo_with. bytes_solve. Qed.

Lemma echo_with_sum d c : u16 c → word_sum (echo_with d c) = word_sum (echo_with d 0) + c.
Proof.
  unfold urange. intros. unfold echo_with. rewrite (to_be_2 c).
  cbn -[Z.mul Z.add Z.div Z.modulo]. Z.div_mod_to_equations. lia.
Qed.

Lemma echo_checksum_range d : bytes d → u16 (echo_checksum d).
Proof.
  intros Hd. unfold echo_checksum, urange.
  pose proof (ones_range _ (word_sum_nonneg _ (echo_with_bytes d 0 Hd))). lia.
Qed.

(** The reply verifies in its turn. *)
Lemma echo_data_verifies d : bytes d → icmp_verifies (echo_data d).
Proof.
  intros Hd. unfold icmp_verifies, echo_data.
  pose proof (word_sum_nonneg _ (echo_with_bytes d 0 Hd)).
  pose proof (word_sum_nonneg _ (echo_with_bytes d (echo_checksum d) Hd)).
  apply ones_full; [done|]. rewrite echo_with_sum by by apply echo_checksum_range.
  by apply ones_complement_verifies.
Qed.

Lemma is_echo_inv d : is_echo d → 4 ≤ len d → ∃ z t rest, d = 8 :: 0 :: z :: t :: rest.
Proof.
  unfold is_echo. intros He Hl.
  destruct d as [|x [|y [|z [|t d]]]]; try (unfold len in Hl; simpl in Hl; lia).
  injection He as -> ->. by eexists _, _, _.
Qed.

(** The code's way to the reply: clear the type and the checksum field, sum, and
    write the sum back. *)
Lemma echo_clear d :
  is_echo d → 4 ≤ len d → ∃ d1 d2,
  set_index d 0 0 = Ret d1 ∧ set_index d1 2 0 = Ret d2 ∧ set_index d2 3 0 = Ret (echo_with d 0).
Proof.
  intros He Hl. destruct (is_echo_inv d He Hl) as (z & t & rest & ->).
  pose proof (len_nonneg rest). exists (0 :: 0 :: z :: t :: rest), (0 :: 0 :: 0 :: t :: rest).
  split_and!; rewrite set_index_ok by len_lia; done.
Qed.

Lemma echo_fill d c : copy_range (echo_with d 0) 2 4 (to_be_bytes 2 c) = Ret (echo_with d c).
Proof. unfold echo_with. apply copy_range_app; by rewrite ?len_to_be. Qed.

(** The test for an echo request, with its short circuit. *)
Definition echo_test (d : list Z) : outcome bool :=
  d0 ← index d 0; if d0 =? 8 then d1 ← index d 1; Ret (d1 =? 0) else Ret false.

Lemma echo_test_eq d : bytes d → icmp_verifies d → echo_test d = Ret (bool_decide (is_echo d)).
Proof.
  intros Hb Hv. unfold echo_test, is_echo. pose proof (verifies_nonempty d Hv) as H0.
  destruct d as [|x d]; [by vm_compute in H0|]. rewrite (index_get _ 0 x), bind_Ret by done.
  destruct (Z.eqb_spec x 8) as [->|Hx]; [|by rewrite bool_decide_false by naive_solver].
  pose proof (verifies_type _ _ Hb Hv eq_refl eq_refl) as H1.
  destruct d as [|y d]; [by vm_compute in H1|].
  rewrite (index_get _ 1 y), bind_Ret by done. f_equal.
  destruct (Z.eqb_spec y 0) as [->|Hy];
    [by rewrite bool_decide_true|by rewrite bool_decide_false by naive_solver].
Qed.
