(* ===== verification/Handler.v ===== *)
(** * The network interface: [kernel/src/network/handler.rs]

    The state of the interface is a record; a method runs as a [prog] over the
    interface and the world outside it, in which the card, the random source, the
    frames the card took and the console live.  [sent] and [console] record what
    the code does to the outside: every frame handed to the card and every
    [println!], in order. *)

From S2P Require Import Prelude Utils Addr Checksum Ipv4 Arp Udp Dhcp Ethernet Interfaces.
Local Open Scope Z_scope.

Module DHCPState.
Inductive t :=
| Idle
| Selecting (xid : Z)
| Requesting (xid : Z) (offer : DHCPBinding.t).
#[global] Instance t_eq_dec : EqDecision t.
Proof. solve_decision. Defined.

Definition xid (s : t) : option Z :=
  match s with Idle => None | Selecting x | Requesting x _ => Some x end.
End DHCPState.

(** The interface's own [DHCPError], over the error of the random source. *)
Module StartError.
Inductive t (E : Type) :=
| RNGError (e : E)
| UDPError (e : UDPError.t)
| IPv4Error (e : Ipv4Error.t)
| AlreadyStarted.
Arguments RNGError {E} e.
Arguments UDPError {E} e.
Arguments IPv4Error {E} e.
Arguments AlreadyStarted {E}.
End StartError.

Module NetworkInterface.
Record t := {
  mac : MacAddress;
  ipv4 : option Ipv4Addr;
  gateway : option Ipv4Addr;
  subnet_mask : option Ipv4Addr;
  arp : ArpCache.t;
  dhcp : DHCPState.t;
}.

Definition set_arp (c : ArpCache.t) (self : t) : t := {|
  mac := mac self; ipv4 := ipv4 self; gateway := gateway self;
  subnet_mask := subnet_mask self; arp := c; dhcp := dhcp self |}.
Definition set_dhcp (s : DHCPState.t) (self : t) : t := {|
  mac := mac self; ipv4 := ipv4 self; gateway := gateway self;
  subnet_mask := subnet_mask self; arp := arp self; dhcp := s |}.
(** The four assignments of an acknowledgement. *)
Definition bind_config (ack : DHCPBinding.t) (self : t) : t := {|
  mac := mac self; ipv4 := Some (DHCPBinding.client_addr ack);
  gateway := Some (DHCPBinding.gateway ack);
  subnet_mask := Some (DHCPBinding.subnet_mask ack); arp := arp self;
  dhcp := DHCPState.Idle |}.
End NetworkInterface.
Import NetworkInterface.

(** The [println!]s of the file, and of [kernel/src/task/network.rs]. *)
Inductive line (E : Type) :=
| DroppedPacket (next_hop : Ipv4Addr)
| ArpSeen (p : ArpPacket.t)
| UdpRejected (e : UDPError.t)
| UnknownIpProto
| MalformedIcmp
| InvalidIcmpBuilt
| UnknownIcmpType
| DhcpSendFailed (e : StartError.t E)
| AckIgnored (from selected : Ipv4Addr)
| GotAddress (addr mask gw : Ipv4Addr)
| ReplyIgnored (e : DHCPError.t)
| ShortFrame (n : Z)
| Received (n : Z) (dst src : MacAddress) (ethertype : Z)
| RejectedPacket
| ConfigChanged.
Arguments DroppedPacket {E}. Arguments ArpSeen {E}. Arguments UdpRejected {E}.
Arguments UnknownIpProto {E}. Arguments MalformedIcmp {E}. Arguments InvalidIcmpBuilt {E}.
Arguments UnknownIcmpType {E}. Arguments DhcpSendFailed {E}. Arguments AckIgnored {E}.
Arguments GotAddress {E}. Arguments ReplyIgnored {E}. Arguments ShortFrame {E}.
Arguments Received {E}. Arguments RejectedPacket {E}. Arguments ConfigChanged {E}.

(** What is outside the interface. *)
Record world (D R : Type) `{RandomSource R} := World {
  driver : D;
  rng : R;
  sent : list (list Z);
  console : list (line (RandomError (R := R)));
}.
Arguments World {D R _}. Arguments driver {D R _}. Arguments rng {D R _}.
Arguments sent {D R _}. Arguments console {D R _}.

Section Handler.
Context {D R : Type} `{HD : NetDriver D} `{HR : RandomSource R}.

Abbreviation W := (world D R).
Abbreviation M := (prog (NetworkInterface.t * W)).
Abbreviation StartErr := (StartError.t (RandomError (R := R))).

(** Access to [self] and to the world. *)
Definition this : M NetworkInterface.t := λ s, Ret (s.1, s).
Definition modify (f : NetworkInterface.t → NetworkInterface.t) : M unit :=
  λ s, Ret (tt, (f s.1, s.2)).
Definition println (l : line (RandomError (R := R))) : M unit := λ s,
  let w := s.2 in Ret (tt, (s.1, World (driver w) (rng w) (sent w) (console w ++ [l]))).
Definition random (t : int_ty) : M (result Z (RandomError (R := R))) := λ s,
  let w := s.2 in
  '(v, r) ← from_rand t (rng w); Ret (v, (s.1, World (driver w) r (sent w) (console w))).
(** [driver.send(..).unwrap()] *)
Definition transmit (frame : list Z) : M unit := λ s,
  let w := s.2 in
  match driver_send frame (driver w) with
  | Ok d => Ret (tt, (s.1, World d (rng w) (sent w ++ [frame]) (console w)))
  | Err _ => Panic
  end.

Definition send_frame (dst : MacAddress) (ethertype : EtherType.t) (payload : list Z) : M unit :=
  self ← this;
  let frame := array 0 (len payload + 14) in
  frame ← lift (copy_range frame 0 6 (mac_addr dst));
  frame ← lift (copy_range frame 6 12 (mac_addr (mac self)));
  frame ← lift (copy_range frame 12 14 (to_be_bytes 2 (EtherType.as_u16 ethertype)));
  frame ← lift (copy_range frame 14 (len frame) payload);
  let frame := resize (Z.to_nat (Z.max (len frame) 60)) 0 frame in
  transmit frame.

Definition send_arp_request (target_addr : Ipv4Addr) : M unit :=
  self ← this;
  sender_addr ← lift (expect (ipv4 self));
  target_mac ← lift (MacAddress_new [0; 0; 0; 0; 0; 0]);
  let request := {|
    ArpPacket.hardware_type := 1;
    ArpPacket.protocol_type := 0x0800;
    ArpPacket.hardware_len := 6;
    ArpPacket.proto_len := 4;
    ArpPacket.operation := ArpOperation.Request;
    ArpPacket.sender_mac := mac self;
    ArpPacket.sender_addr := sender_addr;
    ArpPacket.target_mac := target_mac;
    ArpPacket.target_addr := target_addr |} in
  bytes ← lift (ArpPacket.serialize request);
  send_frame broadcast EtherType.ARP bytes.

(** [u32::from(a) & u32::from(mask)] as an address. *)
Definition network_of (a mask : Ipv4Addr) : Ipv4Addr :=
  ip_of_u32 (Z.land (ip_to_u32 a) (ip_to_u32 mask)).

Definition send_ipv4 (dst : Ipv4Addr) (packet : Ipv4Packet.t) : M unit :=
  self ← this;
  match ipv4 self with
  | None => mret tt
  | Some my_ip =>
  match subnet_mask self with
  | None => mret tt
  | Some mask =>
  let dst_net := network_of dst mask in
  let my_net := network_of my_ip mask in
  match (if decide (dst_net = my_net) then Some dst else gateway self) with
  | None => mret tt
  | Some next_hop =>
      frame ← lift (Ipv4Packet.serialize packet);
      match ArpCache.lookup (arp self) next_hop with
      | Some arp_addr => send_frame arp_addr EtherType.IPV4 frame
      | None =>
          let '(cache, queued) := ArpCache.queue_pending (arp self) next_hop frame in
          modify (set_arp cache);;
          match queued with
          | Queued.RequestNeeded => send_arp_request next_hop
          | Queued.AlreadyPending => mret tt
          | Queued.Dropped => println (DroppedPacket next_hop)
          end
      end
  end end end.

(** The [for] loop of [handle_arp]. *)
Fixpoint send_all (dst : MacAddress) (frames : list (list Z)) : M unit :=
  match frames with
  | [] => mret tt
  | frame :: frames => send_frame dst EtherType.IPV4 frame;; send_all dst frames
  end.

Definition handle_arp (arp_packet : ArpPacket.t) : M unit :=
  self ← this;
  (if decide (ArpPacket.sender_mac arp_packet ≠ mac self) then
     let '(cache, frames) := ArpCache.insert (arp self) (ArpPacket.sender_addr arp_packet)
                               (ArpPacket.sender_mac arp_packet) in
     modify (set_arp cache);;
     send_all (ArpPacket.sender_mac arp_packet) frames
   else mret tt);;
  self ← this;
  (if bool_decide (ArpPacket.operation arp_packet = ArpOperation.Request) &&
      bool_decide (ipv4 self = Some (ArpPacket.target_addr arp_packet)) then
     sender_addr ← lift (expect (ipv4 self));
     let reply := {|
       ArpPacket.hardware_type := 1;
       ArpPacket.protocol_type := 0x0800;
       ArpPacket.hardware_len := 6;
       ArpPacket.proto_len := 4;
       ArpPacket.operation := ArpOperation.Reply;
       ArpPacket.sender_mac := mac self;
       ArpPacket.sender_addr := sender_addr;
       ArpPacket.target_mac := ArpPacket.sender_mac arp_packet;
       ArpPacket.target_addr := ArpPacket.sender_addr arp_packet |} in
     bytes ← lift (ArpPacket.serialize reply);
     send_frame (ArpPacket.sender_mac arp_packet) EtherType.ARP bytes
   else mret tt);;
  println (ArpSeen arp_packet).

Definition handle_icmp (packet : Ipv4Packet.t) : M unit :=
  let data := Ipv4Packet.data packet in
  sum ← lift (internet_checksum [data]);
  if negb (sum =? 0) then println MalformedIcmp else
  echo ← lift (d0 ← index data 0;
               if d0 =? 8 then d1 ← index data 1; Ret (d1 =? 0) else Ret false);
  if (echo : bool) then
    self ← this;
    match ipv4 self with
    | None => mret tt
    | Some src =>
        new_data ← lift (set_index data 0 0);
        new_data ← lift (set_index new_data 2 0);
        new_data ← lift (set_index new_data 3 0);
        checksum ← lift (internet_checksum [new_data]);
        new_data ← lift (copy_range new_data 2 4 (to_be_bytes 2 checksum));
        match Ipv4Packet.new new_data src (Ipv4Packet.source packet) (Ipv4Packet.id packet)
                IPProtocol.ICMP with
        | Err _ => println InvalidIcmpBuilt
        | Ok reply => send_ipv4 (Ipv4Packet.dest reply) reply
        end
    end
  else println UnknownIcmpType.

(** Broadcasts a DHCP message from the unspecified address. *)
Definition send_dhcp (msg : list Z) : M (result unit StartErr) :=
  id ← random U16;
  match id with
  | Err e => mret (Err (StartError.RNGError e))
  | Ok id =>
  match UDPPacket.new CLIENT_PORT SERVER_PORT msg with
  | Err e => mret (Err (StartError.UDPError e))
  | Ok datagram =>
  let source := UNSPECIFIED in
  let dest := BROADCAST in
  ip_data ← lift (UDPPacket.serialize_ipv4 datagram source dest);
  match ip_data with
  | Err e => mret (Err (StartError.UDPError e))
  | Ok ip_data =>
  match Ipv4Packet.new ip_data source dest id IPProtocol.UDP with
  | Err e => mret (Err (StartError.IPv4Error e))
  | Ok pkt =>
      bytes ← lift (Ipv4Packet.serialize pkt);
      send_frame broadcast EtherType.IPV4 bytes;;
      mret (Ok tt)
  end end end end.

Definition init_dhcp : M (result unit StartErr) :=
  self ← this;
  if decide (dhcp self ≠ DHCPState.Idle) then mret (Err StartError.AlreadyStarted) else
  xid ← random U32;
  match xid with
  | Err e => mret (Err (StartError.RNGError e))
  | Ok xid =>
      msg ← lift (build_discover (mac self) xid);
      r ← send_dhcp msg;
      match r with
      | Err e => mret (Err e)
      | Ok _ => modify (set_dhcp (DHCPState.Selecting xid));; mret (Ok tt)
      end
  end.

(** Reports what a reply could not be read as, unless it was simply not ours. *)
Definition read_reply (r : result DHCPBinding.t DHCPError.t) : M (option DHCPBinding.t) :=
  match r with
  | Ok binding => mret (Some binding)
  | Err (DHCPError.XidMismatch | DHCPError.ClientMacMismatch) => mret None
  | Err e => println (ReplyIgnored e);; mret None
  end.

Definition handle_dhcp (packet : UDPPacket.t) : M unit :=
  self ← this;
  match dhcp self with
  | DHCPState.Idle => mret tt
  | DHCPState.Selecting xid =>
      r ← lift (from_offer (UDPPacket.data packet) xid (mac self));
      offer ← read_reply r;
      match offer with
      | None => mret tt
      | Some offer =>
          msg ← lift (build_request (mac self) xid offer);
          r ← send_dhcp msg;
          match r with
          | Err e => println (DhcpSendFailed e)
          | Ok _ => modify (set_dhcp (DHCPState.Requesting xid offer))
          end
      end
  | DHCPState.Requesting xid offer =>
      r ← lift (from_ack (UDPPacket.data packet) xid (mac self));
      ack ← read_reply r;
      match ack with
      | None => mret tt
      | Some ack =>
          if decide (DHCPBinding.server_id ack ≠ DHCPBinding.server_id offer) then
            println (AckIgnored (DHCPBinding.server_id ack) (DHCPBinding.server_id offer))
          else
            modify (bind_config ack);;
            println (GotAddress (DHCPBinding.client_addr ack) (DHCPBinding.subnet_mask ack)
                       (DHCPBinding.gateway ack))
      end
  end.

Definition handle_udp (datagram : UDPPacket.t) : M unit :=
  if (UDPPacket.dest_port datagram =? CLIENT_PORT) &&
     (UDPPacket.source_port datagram =? SERVER_PORT)
  then handle_dhcp datagram else mret tt.

(** The allow-list of [handle_ipv4]. *)
Definition for_us (self : NetworkInterface.t) (dest : Ipv4Addr) : bool :=
  bool_decide (dest = BROADCAST) ||
  bool_decide (ipv4 self = Some dest) ||
  (bool_decide (ipv4 self = None) && bool_decide (DHCPState.xid (dhcp self) ≠ None)).

Definition handle_ipv4 (ipv4_packet : Ipv4Packet.t) : M unit :=
  if Ipv4Packet.more_fragments ipv4_packet || negb (Ipv4Packet.frag_offset ipv4_packet =? 0)
  then mret tt else
  self ← this;
  if negb (for_us self (Ipv4Packet.dest ipv4_packet)) then mret tt else
  match Ipv4Packet.protocol ipv4_packet with
  | IPProtocol.ICMP => handle_icmp ipv4_packet
  | IPProtocol.TCP => mret tt
  | IPProtocol.UDP =>
      r ← lift (UDPPacket.from_packet ipv4_packet);
      match r with
      | Ok datagram => handle_udp datagram
      | Err e => println (UdpRejected e)
      end
  | IPProtocol.Unknown _ => println UnknownIpProto
  end.

Definition handle_packet (frame : EthernetFrame.t) (dst : MacAddress) : M unit :=
  self ← this;
  if decide (dst ≠ mac self ∧ dst ≠ broadcast) then mret tt else
  match frame with
  | EthernetFrame.Arp arp_packet => handle_arp arp_packet
  | EthernetFrame.Ipv4 ipv4_packet => handle_ipv4 ipv4_packet
  | EthernetFrame.Unknown _ _ => mret tt
  end.

(** [init_network_interface], up to the lock it stores the interface in. *)
Definition init_network_interface (w : W) : outcome (NetworkInterface.t * W) :=
  addr ← MacAddress_new (driver_mac (driver w));
  let interface := {|
    mac := addr;
    ipv4 := None;
    gateway := None;
    subnet_mask := None;
    arp := ArpCache.new;
    dhcp := DHCPState.Idle |} in
  '(r, s) ← init_dhcp (interface, w);
  match r with Ok _ => Ret s | Err _ => Panic end.

End Handler.
