(* ===== verification/HandlerSpec.v ===== *)
(** * Correctness of the network interface

    Proved for any card that takes its frames and any random source that gives
    values of the type asked for. *)

From S2P Require Import Prelude Utils Addr Checksum Ipv4 Arp Udp Dhcp Ethernet Interfaces Icmp.
From S2P Require Import Handler.
Import NetworkInterface.
Local Open Scope Z_scope.

(** ** Frames as they leave *)

(** A frame padded to the Ethernet minimum. *)
Definition pad60 (l : list Z) : list Z := l ++ replicate (60 - length l) 0.

Definition arp_frame (dst src : MacAddress) (p : ArpPacket.t) : list Z :=
  pad60 (eth_wire dst src 0x0806 (arp_wire p)).

(** The bytes of a valid IPv4 packet. *)
Definition ipv4_wire (p : Ipv4Packet.t) : list Z :=
  fixed_header p (header_checksum p) ++ Ipv4Packet.options p ++ Ipv4Packet.data p.

Definition ipv4_frame (dst src : MacAddress) (body : list Z) : list Z :=
  pad60 (eth_wire dst src 0x0800 body).

Lemma bytes_zeros n : bytes (replicate n 0).
Proof. by apply Forall_replicate. Qed.

Lemma parse_arp_sent dst src p :
  mac_ok dst → mac_ok src → arp_valid p →
  EthernetFrame.new (arp_frame dst src p) = Ret (Ok (EthernetFrame.Arp p)).
Proof. intros. apply parse_arp_frame; try done. apply bytes_zeros. Qed.

Lemma parse_ipv4_sent dst src p :
  mac_ok dst → mac_ok src → Ipv4Packet.packet_valid p →
  EthernetFrame.new (ipv4_frame dst src (ipv4_wire p)) =
  Ret (Ok (EthernetFrame.Ipv4 (Ipv4Packet.with_checksum (header_checksum p) p))).
Proof. intros. apply parse_ipv4_frame; try done. apply bytes_zeros. Qed.

Lemma ipv4_serialize_wire p :
  Ipv4Packet.packet_valid p → Ipv4Packet.serialize p = Ret (ipv4_wire p).
Proof. intros (Hok & _ & Ho & _). apply serialize_eq; [done|lia]. Qed.

(** What the interface may put on the wire: a frame of at least sixty bytes, from
    its own address, whose content parses as a valid ARP or IPv4 packet. *)
Definition sound_frame (src : MacAddress) (f : list Z) : Prop :=
  60 ≤ len f ∧ sub f 6 12 = mac_addr src ∧
  ∃ fr, EthernetFrame.new f = Ret (Ok fr) ∧ frame_ok fr ∧
    match fr with EthernetFrame.Unknown _ _ => False | _ => True end.

Lemma pad60_shape dst src ty payload :
  u16 ty → 60 ≤ len (pad60 (eth_wire dst src ty payload)) ∧
  sub (pad60 (eth_wire dst src ty payload)) 6 12 = mac_addr src.
Proof.
  intros Hty. pose proof (len_nonneg payload). unfold pad60. split.
  - unfold len. rewrite length_app, length_replicate. lia.
  - rewrite sub_app_l by (rewrite ?len_eth_wire; lia).
    by destruct (eth_wire_fields dst src ty payload) as (_ & ? & _).
Qed.

Lemma sound_arp_frame dst src p :
  mac_ok dst → mac_ok src → arp_valid p → sound_frame src (arp_frame dst src p).
Proof.
  intros. split_and!; [by apply pad60_shape..|].
  exists (EthernetFrame.Arp p). split_and!; try done. by apply parse_arp_sent.
Qed.

Lemma with_checksum_valid p c :
  Ipv4Packet.packet_valid p → u16 c → Ipv4Packet.packet_valid (Ipv4Packet.with_checksum c p).
Proof. destruct p. unfold Ipv4Packet.packet_valid, Ipv4Packet.packet_ok. simpl. naive_solver. Qed.

Lemma sound_ipv4_frame dst src p :
  mac_ok dst → mac_ok src → Ipv4Packet.packet_valid p →
  sound_frame src (ipv4_frame dst src (ipv4_wire p)).
Proof.
  intros ? ? Hp. split_and!; [by apply pad60_shape..|].
  eexists. split_and!; [by apply parse_ipv4_sent| |done].
  apply with_checksum_valid; [done|]. apply header_checksum_range, Hp.
Qed.

(** ** The invariant of the interface *)

(** A frame waiting for an address: the bytes of a valid packet. *)
Definition parked_ok (f : list Z) : Prop := ∃ p, Ipv4Packet.packet_valid p ∧ f = ipv4_wire p.

Definition binding_ok (b : DHCPBinding.t) : Prop :=
  ip_ok (DHCPBinding.client_addr b) ∧ ip_ok (DHCPBinding.subnet_mask b) ∧
  ip_ok (DHCPBinding.gateway b) ∧ ip_ok (DHCPBinding.server_id b).

Definition dhcp_ok (s : DHCPState.t) : Prop :=
  match s with
  | DHCPState.Idle => True
  | DHCPState.Selecting xid => u32 xid
  | DHCPState.Requesting xid offer => u32 xid ∧ binding_ok offer
  end.

(** The three parts of the configuration come together. *)
Definition config_ok (self : NetworkInterface.t) : Prop :=
  match ipv4 self, subnet_mask self, gateway self with
  | None, None, None => True
  | Some a, Some m, Some g => ip_ok a ∧ ip_ok m ∧ ip_ok g
  | _, _, _ => False
  end.

Definition arp_ok (c : ArpCache.t) : Prop :=
  cache_ok c ∧ (∀ ip m, ArpCache.lookup c ip = Some m → mac_ok m) ∧
  (∀ ip, Forall parked_ok (parked c ip)).

Definition iface_ok (self : NetworkInterface.t) : Prop :=
  mac_ok (mac self) ∧ config_ok self ∧ arp_ok (arp self) ∧ dhcp_ok (dhcp self).

(** ** Rules for the methods' effects *)

Section Spec.
Context {D R : Type} `{HD : NetDriver D} `{HDok : !NetDriverOk D}.
Context `{HR : RandomSource R} `{HRok : !RandomSourceOk R}.

Abbreviation W := (world D R).
Abbreviation M := (prog (NetworkInterface.t * W)).
Implicit Types (self : NetworkInterface.t) (w : W).

(** The world after the card has taken a frame. *)
Definition emit (f : list Z) (w : W) : W :=
  match driver_send f (driver w) with
  | Ok d => World d (rng w) (sent w ++ [f]) (console w)
  | Err _ => w
  end.
Definition say (l : line RandomError) (w : W) : W :=
  World (driver w) (rng w) (sent w) (console w ++ [l]).

Lemma sent_emit f w : sent (emit f w) = sent w ++ [f].
Proof. unfold emit. by destruct (driver_send_ok f (driver w)) as [d ->]. Qed.
Lemma rng_emit f w : rng (emit f w) = rng w.
Proof. unfold emit. by destruct (driver_send_ok f (driver w)) as [d ->]. Qed.
Lemma console_emit f w : console (emit f w) = console w.
Proof. unfold emit. by destruct (driver_send_ok f (driver w)) as [d ->]. Qed.

Lemma transmit_eq f self w : transmit f (self, w) = Ret (tt, (self, emit f w)).
Proof. unfold transmit, emit. simpl. by destruct (driver_send_ok f (driver w)) as [d ->]. Qed.

Lemma send_frame_eq dst ty payload self w :
  send_frame dst ty payload (self, w) =
  Ret (tt, (self, emit (pad60 (eth_wire dst (mac self) (EtherType.as_u16 ty) payload)) w)).
Proof.
  unfold send_frame. erewrite prog_bind_Ret by done. cbn [fst].
  pose proof (len_nonneg payload) as Hn. set (t := to_be_bytes 2 (EtherType.as_u16 ty)).
  assert (len t = 2) as Ht by apply len_to_be.
  replace (array 0 (len payload + 14))
    with (array 0 6 ++ array 0 6 ++ array 0 2 ++ array 0 (len payload)).
  2:{ unfold array. rewrite <- !replicate_add. f_equal. lia. }
  erewrite lift_bind by (apply (copy_range_app []); done). rewrite app_nil_l.
  erewrite lift_bind by (apply copy_range_app; done).
  erewrite lift_bind by (rewrite (app_assoc (mac_addr dst)); apply copy_range_app; done).
  match goal with |- context [copy_range ?f 14 _ payload] =>
    replace f with (((mac_addr dst ++ mac_addr (mac self)) ++ t) ++ array 0 (len payload) ++ [])
      by (by rewrite app_nil_r, <- app_assoc) end.
  erewrite lift_bind by (apply copy_range_app; len_lia).
  replace (((mac_addr dst ++ mac_addr (mac self)) ++ t) ++ payload ++ [])
    with (eth_wire dst (mac self) (EtherType.as_u16 ty) payload)
    by (unfold eth_wire; by rewrite app_nil_r, <- !app_assoc).
  rewrite transmit_eq. do 4 f_equal. unfold pad60.
  set (f := eth_wire _ _ _ _). unfold len.
  replace (Z.to_nat (Z.of_nat (length f) `max` 60)) with (length f + (60 - length f))%nat by lia.
  rewrite resize_ge by lia. do 2 f_equal. lia.
Qed.
(** *** Address resolution *)

Definition arp_request (m : MacAddress) (me target : Ipv4Addr) : ArpPacket.t := {|
  ArpPacket.hardware_type := 1; ArpPacket.protocol_type := 0x0800;
  ArpPacket.hardware_len := 6; ArpPacket.proto_len := 4;
  ArpPacket.operation := ArpOperation.Request;
  ArpPacket.sender_mac := m; ArpPacket.sender_addr := me;
  ArpPacket.target_mac := Mac 0 0 0 0 0 0; ArpPacket.target_addr := target |}.

Definition arp_reply (m : MacAddress) (me : Ipv4Addr) (req : ArpPacket.t) : ArpPacket.t := {|
  ArpPacket.hardware_type := 1; ArpPacket.protocol_type := 0x0800;
  ArpPacket.hardware_len := 6; ArpPacket.proto_len := 4;
  ArpPacket.operation := ArpOperation.Reply;
  ArpPacket.sender_mac := m; ArpPacket.sender_addr := me;
  ArpPacket.target_mac := ArpPacket.sender_mac req;
  ArpPacket.target_addr := ArpPacket.sender_addr req |}.

Lemma zero_mac_ok : mac_ok (Mac 0 0 0 0 0 0).
Proof. unfold mac_ok. apply (bool_decide_unpack _). vm_compute. exact I. Qed.
Lemma broadcast_ok : mac_ok broadcast.
Proof. unfold mac_ok. apply (bool_decide_unpack _). vm_compute. exact I. Qed.

Lemma arp_request_valid m me target :
  mac_ok m → ip_ok me → ip_ok target → arp_valid (arp_request m me target).
Proof. intros. unfold arp_valid. simpl. split_and!; try done. apply zero_mac_ok. Qed.

Lemma arp_reply_valid m me req :
  mac_ok m → ip_ok me → arp_valid req → arp_valid (arp_reply m me req).
Proof. intros ? ? (_&_&_&_&?&?&_). unfold arp_valid. simpl. split_and!; done. Qed.

Lemma send_arp_request_eq target me self w :
  ipv4 self = Some me → mac_ok (mac self) → ip_ok me → ip_ok target →
  send_arp_request target (self, w) =
  Ret (tt, (self, emit (arp_frame broadcast (mac self) (arp_request (mac self) me target)) w)).
Proof.
  intros Hme Hm ? ?. unfold send_arp_request. erewrite prog_bind_Ret by done. cbn [fst].
  erewrite lift_bind by (by rewrite Hme). erewrite lift_bind by done.
  erewrite lift_bind by (apply arp_serialize_eq, (arp_request_valid (mac self) me target); done).
  by rewrite send_frame_eq.
Qed.

(** *** Sending an IPv4 packet *)

(** The next hop: the destination itself on our own network, else the gateway. *)
Definition route self (dst : Ipv4Addr) : option Ipv4Addr :=
  match ipv4 self, subnet_mask self with
  | Some me, Some mask =>
      if decide (network_of dst mask = network_of me mask) then Some dst else gateway self
  | _, _ => None
  end.

(** Everything sending does, given the bytes of the packet. *)
Definition send_effect (dst : Ipv4Addr) (wire : list Z) (s : NetworkInterface.t * W) :
    NetworkInterface.t * W :=
  let '(self, w) := s in
  match route self dst with
  | None => (self, w)
  | Some hop =>
      match ArpCache.lookup (arp self) hop with
      | Some m => (self, emit (ipv4_frame m (mac self) wire) w)
      | None =>
          let '(c, q) := ArpCache.queue_pending (arp self) hop wire in
          (set_arp c self,
           match q with
           | Queued.RequestNeeded =>
               emit (arp_frame broadcast (mac self)
                       (arp_request (mac self) (default UNSPECIFIED (ipv4 self)) hop)) w
           | Queued.AlreadyPending => w
           | Queued.Dropped => say (DroppedPacket hop) w
           end)
      end
  end.

Lemma route_ok self dst hop : config_ok self → ip_ok dst → route self dst = Some hop → ip_ok hop.
Proof.
  unfold config_ok, route. intros Hc Hd.
  destruct (ipv4 self), (subnet_mask self), (gateway self); try done.
  destruct (decide _); naive_solver.
Qed.

Lemma send_ipv4_eq dst p self w :
  iface_ok self → ip_ok dst → Ipv4Packet.packet_valid p →
  send_ipv4 dst p (self, w) = Ret (tt, send_effect dst (ipv4_wire p) (self, w)).
Proof.
  intros (Hm & Hc & _) Hd Hp. unfold send_ipv4. erewrite prog_bind_Ret by done. cbn [fst].
  unfold send_effect. pose proof (route_ok self dst) as Hro. unfold route in *.
  destruct (ipv4 self) as [me|] eqn:Hme; [|done].
  destruct (subnet_mask self) as [mask|] eqn:Hmask; [|done].
  destruct (if decide _ then Some dst else gateway self) as [hop|]; [|done].
  specialize (Hro hop Hc Hd eq_refl).
  erewrite lift_bind by by apply ipv4_serialize_wire.
  destruct (ArpCache.lookup (arp self) hop) as [m|]; [by rewrite send_frame_eq|].
  destruct (ArpCache.queue_pending _ _ _) as [c q]. erewrite prog_bind_Ret by done.
  destruct q; try done. cbn [fst snd]. rewrite (send_arp_request_eq hop me); try done.
  unfold config_ok in Hc. rewrite Hme, Hmask in Hc. by destruct (gateway self), Hc.
Qed.

(** *** Receiving an ARP packet *)

Definition emit_all (fs : list (list Z)) (w : W) : W := foldl (λ w f, emit f w) w fs.

Lemma sent_emit_all fs w : sent (emit_all fs w) = sent w ++ fs.
Proof.
  revert w. induction fs as [|f fs IH]; intros w; simpl; [by rewrite app_nil_r|].
  rewrite IH, sent_emit. by rewrite <- app_assoc.
Qed.
Lemma rng_emit_all fs w : rng (emit_all fs w) = rng w.
Proof. revert w. induction fs as [|f fs IH]; intros w; simpl; [done|]. by rewrite IH, rng_emit. Qed.

Lemma send_all_eq dst frames self w :
  send_all dst frames (self, w) =
  Ret (tt, (self, emit_all (map (ipv4_frame dst (mac self)) frames) w)).
Proof.
  revert w. induction frames as [|f frames IH]; intros w; [done|]. cbn [send_all map].
  erewrite prog_bind_Ret by apply send_frame_eq. by rewrite IH.
Qed.

(** The interface once it has learnt the sender. *)
Definition learn (p : ArpPacket.t) self : NetworkInterface.t :=
  if decide (ArpPacket.sender_mac p = mac self) then self
  else set_arp (ArpCache.insert (arp self) (ArpPacket.sender_addr p) (ArpPacket.sender_mac p)).1 self.

(** The frames that were waiting for the sender. *)
Definition released (p : ArpPacket.t) self : list (list Z) :=
  if decide (ArpPacket.sender_mac p = mac self) then []
  else map (ipv4_frame (ArpPacket.sender_mac p) (mac self)) (parked (arp self) (ArpPacket.sender_addr p)).

(** The answer to a request for our address. *)
Definition answer (p : ArpPacket.t) self : list (list Z) :=
  match ipv4 self with
  | Some me =>
      if decide (ArpPacket.operation p = ArpOperation.Request ∧ ArpPacket.target_addr p = me)
      then [arp_frame (ArpPacket.sender_mac p) (mac self) (arp_reply (mac self) me p)] else []
  | None => []
  end.

Lemma config_addr_ok self me : config_ok self → ipv4 self = Some me → ip_ok me.
Proof.
  unfold config_ok. intros Hc Hme. rewrite Hme in Hc.
  by destruct (subnet_mask self), (gateway self), Hc.
Qed.

Lemma emit_all_app fs fs' w : emit_all (fs ++ fs') w = emit_all fs' (emit_all fs w).
Proof. apply foldl_app. Qed.

Lemma handle_arp_eq p self w :
  iface_ok self → arp_valid p →
  handle_arp p (self, w) =
  Ret (tt, (learn p self, say (ArpSeen p) (emit_all (released p self ++ answer p self) w))).
Proof.
  intros (Hm & Hc & _) Hp. unfold handle_arp. erewrite prog_bind_Ret by done. cbn [fst].
  rewrite emit_all_app. erewrite prog_bind_Ret with (s' := (learn p self, emit_all (released p self) w)).
  2:{ unfold learn, released. destruct (decide (ArpPacket.sender_mac p = mac self)) as [He|He].
      - by rewrite decide_False by (by intros []).
      - rewrite decide_True by done. unfold ArpCache.insert, parked.
        erewrite prog_bind_Ret by done. cbn [fst snd]. rewrite send_all_eq.
        by destruct (ArpCache.entries (arp self) !! ArpPacket.sender_addr p) as [[]|]. }
  erewrite prog_bind_Ret by done. cbn [fst].
  assert (mac (learn p self) = mac self ∧ ipv4 (learn p self) = ipv4 self) as [-> ->].
  { unfold learn. by destruct (decide _). }
  unfold answer. destruct (ipv4 self) as [me|] eqn:Hme; simpl; [|by rewrite andb_false_r].
  destruct (decide (_ ∧ _)) as [[Hop Ht]|Hn].
  - rewrite !bool_decide_true by congruence. cbn [andb].
    assert (arp_valid (arp_reply (mac self) me p)) as Hr
      by (apply arp_reply_valid; [done|by eapply config_addr_ok|done]).
    erewrite prog_bind_Ret by (erewrite lift_bind by done;
      erewrite lift_bind by (by apply arp_serialize_eq in Hr); apply send_frame_eq).
    unfold learn. by destruct (decide _).
  - case_bool_decide as Hop; [|done]. rewrite bool_decide_false; [done|]. naive_solver.
Qed.

(** *** Receiving an ICMP message *)

Definition echo_reply (me : Ipv4Addr) (p : Ipv4Packet.t) : Ipv4Packet.t :=
  fresh_packet (echo_data (Ipv4Packet.data p)) me (Ipv4Packet.source p) (Ipv4Packet.id p)
    IPProtocol.ICMP.

Lemma packet_data_ok p :
  Ipv4Packet.packet_valid p → bytes (Ipv4Packet.data p) ∧ len (Ipv4Packet.data p) ≤ 65515 ∧
  ip_ok (Ipv4Packet.source p) ∧ ip_ok (Ipv4Packet.dest p) ∧ u16 (Ipv4Packet.id p).
Proof.
  intros ((_&_&[_ Ht]&?&_&_&_&_&?&?&_&?) & _ & Ho & _ & Hl & _).
  pose proof (len_nonneg (Ipv4Packet.options p)). split_and!; try done. lia.
Qed.

Lemma echo_reply_valid me p :
  Ipv4Packet.packet_valid p → ip_ok me → 4 ≤ len (Ipv4Packet.data p) →
  Ipv4Packet.packet_valid (echo_reply me p).
Proof.
  intros (Hd & Hl & Hs & _ & Hi)%packet_data_ok Hme H4.
  apply fresh_packet_valid; try done.
  - by apply echo_with_bytes.
  - unfold echo_data. by rewrite len_echo_with.
Qed.

Definition icmp_effect (p : Ipv4Packet.t) (s : NetworkInterface.t * W) : NetworkInterface.t * W :=
  let '(self, w) := s in
  let d := Ipv4Packet.data p in
  if decide (icmp_verifies d) then
    if decide (is_echo d) then
      match ipv4 self with
      | None => (self, w)
      | Some me => send_effect (Ipv4Packet.source p) (ipv4_wire (echo_reply me p)) (self, w)
      end
    else (self, say UnknownIcmpType w)
  else (self, say MalformedIcmp w).

Lemma handle_icmp_eq p self w :
  iface_ok self → Ipv4Packet.packet_valid p →
  handle_icmp p (self, w) = Ret (tt, icmp_effect p (self, w)).
Proof.
  intros Hi Hp. destruct (packet_data_ok p Hp) as (Hd & Hl & Hs & _ & _).
  unfold handle_icmp, icmp_effect. set (d := Ipv4Packet.data p) in *.
  erewrite lift_bind by (apply checksum_single; [done|lia]).
  destruct (decide (icmp_verifies d)) as [Hv|Hv].
  2:{ rewrite (proj2 (Z.eqb_neq _ 0)); [done|]. unfold icmp_verifies in Hv. lia. }
  rewrite Hv. change (negb (65535 - 65535 =? 0)) with false. cbn iota.
  erewrite lift_bind by apply (echo_test_eq d Hd Hv).
  case_bool_decide as He; [rewrite decide_True by done|by rewrite decide_False].
  pose proof (verifies_echo_long d Hd Hv He) as H4.
  erewrite prog_bind_Ret by done. cbn [fst]. destruct (ipv4 self) as [me|] eqn:Hme; [|done].
  destruct (echo_clear d He H4) as (d1 & d2 & E1 & E2 & E3).
  erewrite lift_bind by exact E1. erewrite lift_bind by exact E2. erewrite lift_bind by exact E3.
  erewrite lift_bind by
    (apply checksum_single; [by apply echo_with_bytes|rewrite len_echo_with by done; lia]).
  erewrite lift_bind by apply echo_fill.
  change (echo_with d (65535 - ones (word_sum (echo_with d 0)))) with (echo_data d).
  rewrite new_ok by (unfold echo_data; by rewrite len_echo_with).
  assert (ip_ok me) as Hmok by (destruct Hi as (_ & Hc & _); by eapply config_addr_ok).
  apply send_ipv4_eq; [done|done|]. by apply (echo_reply_valid me p).
Qed.

(** *** Sending a DHCP message *)

Definition dhcp_datagram (msg : list Z) : UDPPacket.t := {|
  UDPPacket.source_port := CLIENT_PORT; UDPPacket.dest_port := SERVER_PORT;
  UDPPacket.datagram_length := len msg + 8; UDPPacket.checksum := 0; UDPPacket.data := msg |}.

Definition dhcp_body (msg : list Z) : list Z :=
  udp_wire (dhcp_datagram msg) (8 + len msg)
    (Udp.sent_checksum (dhcp_datagram msg) UNSPECIFIED BROADCAST).

Definition dhcp_packet (msg : list Z) (id : Z) : Ipv4Packet.t :=
  fresh_packet (dhcp_body msg) UNSPECIFIED BROADCAST id IPProtocol.UDP.

Definition dhcp_frame (src : MacAddress) (msg : list Z) (id : Z) : list Z :=
  ipv4_frame broadcast src (ipv4_wire (dhcp_packet msg id)).

Definition with_rng (r : R) (w : W) : W := World (driver w) r (sent w) (console w).

Lemma unspecified_ok : ip_ok UNSPECIFIED.
Proof. unfold ip_ok. apply (bool_decide_unpack _). vm_compute. exact I. Qed.
Lemma ip_broadcast_ok : ip_ok BROADCAST.
Proof. unfold ip_ok. apply (bool_decide_unpack _). vm_compute. exact I. Qed.

Lemma dhcp_datagram_ok msg : bytes msg → len msg ≤ 60000 → udp_ok (dhcp_datagram msg).
Proof.
  intros. pose proof (len_nonneg msg). unfold udp_ok. simpl. unfold urange, CLIENT_PORT, SERVER_PORT.
  split_and!; try done; lia.
Qed.

Lemma dhcp_packet_valid msg id :
  bytes msg → len msg ≤ 60000 → u16 id → Ipv4Packet.packet_valid (dhcp_packet msg id).
Proof.
  intros Hb Hl Hi. apply fresh_packet_valid; try done.
  - by apply udp_wire_bytes, dhcp_datagram_ok.
  - apply unspecified_ok.
  - apply ip_broadcast_ok.
  - unfold dhcp_body. rewrite len_udp_wire. simpl. lia.
Qed.

Lemma send_dhcp_eq msg self w :
  bytes msg → len msg ≤ 60000 → random_ok (rng w) →
  ∃ id r, u16 id ∧ random_ok r ∧
    send_dhcp msg (self, w) =
    Ret (Ok tt, (self, emit (dhcp_frame (mac self) msg id) (with_rng r w))).
Proof.
  intros Hb Hl Hr. destruct (from_rand_ok U16 (rng w) Hr) as (id & r & E & Hid & Hr').
  exists id, r. split; [exact Hid|]. split; [done|].
  pose proof (len_nonneg msg) as Hn. unfold send_dhcp.
  erewrite prog_bind_Ret by (unfold random; simpl; rewrite E; done).
  unfold UDPPacket.new. rewrite try_from_usize_ok by (unfold urange; lia).
  erewrite lift_bind by (apply (serialize_ipv4_eq (dhcp_datagram msg));
    [by apply dhcp_datagram_ok|apply unspecified_ok|apply ip_broadcast_ok|
     unfold MAX_UDP_PAYLOAD; simpl; lia]).
  change (udp_wire (dhcp_datagram msg) _ _) with (dhcp_body msg).
  cbn iota. rewrite new_ok by (unfold dhcp_body; rewrite len_udp_wire; simpl; lia).
  erewrite lift_bind by (apply ipv4_serialize_wire; by apply (dhcp_packet_valid msg id)).
  erewrite prog_bind_Ret by apply send_frame_eq. done.
Qed.

End Spec.
