(* ===== verification/HandlerStep.v ===== *)
(** * Receiving a frame, as a step of the interface

    [frame_step] relates the interface and the world before a received frame to
    those after it.  [handle_packet] always returns and takes such a step; the
    theorems of the interface are read off the steps. *)

From S2P Require Import Prelude Utils Addr Checksum Ipv4 Arp Udp Dhcp Ethernet Interfaces Icmp.
From S2P Require Import Handler HandlerSpec.
Import NetworkInterface.
Local Open Scope Z_scope.

Section Step.
Context {D R : Type} `{HD : NetDriver D} `{HDok : !NetDriverOk D}.
Context `{HR : RandomSource R} `{HRok : !RandomSourceOk R}.

Abbreviation W := (world D R).
Abbreviation state := (NetworkInterface.t * W)%type.
Implicit Types (self : NetworkInterface.t) (w : W) (s : state).

(** ** The DHCP exchange *)

(** The report on a reply that was refused: none when it was not for us. *)
Definition reported (e : DHCPError.t) (w : W) : W :=
  match e with
  | DHCPError.XidMismatch | DHCPError.ClientMacMismatch => w
  | _ => say (ReplyIgnored e) w
  end.

Definition dhcp_step (d : list Z) (s s' : state) : Prop :=
  let '(self, w) := s in
  match dhcp self with
  | DHCPState.Idle => s' = s
  | DHCPState.Selecting xid =>
      match from_offer d xid (mac self) with
      | Ret (Ok offer) =>
          ∃ id r, u16 id ∧ random_ok r ∧
          s' = (set_dhcp (DHCPState.Requesting xid offer) self,
                emit (dhcp_frame (mac self)
                        (client_message (mac self) xid (request_options offer)) id) (with_rng r w))
      | Ret (Err e) => s' = (self, reported e w)
      | _ => False
      end
  | DHCPState.Requesting xid offer =>
      match from_ack d xid (mac self) with
      | Ret (Ok ack) =>
          if decide (DHCPBinding.server_id ack = DHCPBinding.server_id offer)
          then s' = (bind_config ack self,
                     say (GotAddress (DHCPBinding.client_addr ack) (DHCPBinding.subnet_mask ack)
                            (DHCPBinding.gateway ack)) w)
          else s' = (self, say (AckIgnored (DHCPBinding.server_id ack) (DHCPBinding.server_id offer)) w)
      | Ret (Err e) => s' = (self, reported e w)
      | _ => False
      end
  end.

Lemma read_reply_ok b self w : read_reply (Ok b) (self, w) = Ret (Some b, (self, w)).
Proof. done. Qed.
Lemma read_reply_err e self w : read_reply (Err e) (self, w) = Ret (None, (self, reported e w)).
Proof. by destruct e. Qed.

Lemma client_message_ok mac xid offer :
  mac_ok mac → binding_ok offer →
  bytes (client_message mac xid (request_options offer)) ∧
  len (client_message mac xid (request_options offer)) = 300.
Proof.
  intros Hm (Hc & _ & _ & Hs). unfold client_message. split.
  - apply Forall_app; split; [by apply request_header_bytes|].
    unfold ip_ok, octets in *. bytes_inv. cbn.
    repeat first [apply Forall_nil_2|
      apply Forall_cons_2; [unfold urange; first [lia|by vm_compute]|]].
  - rewrite !len_app, len_request_header. done.
Qed.

Lemma discover_message_ok mac xid :
  mac_ok mac →
  bytes (client_message mac xid discover_options) ∧
  len (client_message mac xid discover_options) = 300.
Proof.
  intros Hm. unfold client_message. split.
  - apply Forall_app; split; [by apply request_header_bytes|].
    apply (bool_decide_unpack _). vm_compute. exact I.
  - by rewrite !len_app, len_request_header.
Qed.

Lemma handle_dhcp_step u self w :
  iface_ok self → random_ok (rng w) → bytes (UDPPacket.data u) →
  ∃ s', handle_dhcp u (self, w) = Ret (tt, s') ∧ dhcp_step (UDPPacket.data u) (self, w) s'.
Proof.
  intros (Hm & _ & _ & Hdh) Hr Hb. unfold handle_dhcp, dhcp_step.
  erewrite prog_bind_Ret by done. cbn [fst].
  destruct (dhcp self) as [|xid|xid offer] eqn:Hst; [by eexists|..].
  - destruct (from_message_facts (UDPPacket.data u) xid (mac self) DHCPMessageType.Offer Hb Hdh)
      as ([r Hret] & Hacc & _). unfold from_offer. rewrite Hret.
    erewrite lift_bind by done. destruct r as [offer|e].
    + assert (binding_ok offer) as Hbo.
      { apply (reply_binds_ok (UDPPacket.data u) xid (mac self) DHCPMessageType.Offer); [done|].
        by apply Hacc. }
      erewrite prog_bind_Ret by apply read_reply_ok. cbn iota.
      erewrite lift_bind by apply build_request_eq.
      destruct (client_message_ok (mac self) xid offer Hm Hbo) as [Hcb Hcl].
      destruct (send_dhcp_eq (client_message (mac self) xid (request_options offer)) self w)
        as (id & r & Hid & Hr' & E); [done|lia|done|].
      erewrite prog_bind_Ret by exact E. eexists. split; [done|]. by exists id, r.
    + erewrite prog_bind_Ret by apply read_reply_err. by eexists.
  - destruct Hdh as [Hx Hbo].
    destruct (from_message_facts (UDPPacket.data u) xid (mac self) DHCPMessageType.Ack Hb Hx)
      as ([r Hret] & _ & _). unfold from_ack. rewrite Hret.
    erewrite lift_bind by done. destruct r as [ack|e].
    + erewrite prog_bind_Ret by apply read_reply_ok. cbn iota.
      destruct (decide (DHCPBinding.server_id ack = DHCPBinding.server_id offer)) as [He|He].
      * rewrite decide_False by (by intros []). by eexists.
      * rewrite decide_True by done. by eexists.
    + erewrite prog_bind_Ret by apply read_reply_err. by eexists.
Qed.

(** ** A packet, a frame *)

Definition udp_step (u : UDPPacket.t) (s s' : state) : Prop :=
  if decide (UDPPacket.dest_port u = CLIENT_PORT ∧ UDPPacket.source_port u = SERVER_PORT)
  then dhcp_step (UDPPacket.data u) s s' else s' = s.

Definition ipv4_step (p : Ipv4Packet.t) (s s' : state) : Prop :=
  let '(self, w) := s in
  if decide (Ipv4Packet.more_fragments p = true ∨ Ipv4Packet.frag_offset p ≠ 0) then s' = s
  else if for_us self (Ipv4Packet.dest p) then
    match Ipv4Packet.protocol p with
    | IPProtocol.ICMP => s' = icmp_effect p s
    | IPProtocol.TCP => s' = s
    | IPProtocol.UDP =>
        match UDPPacket.from_packet p with
        | Ret (Ok u) => udp_step u s s'
        | Ret (Err e) => s' = (self, say (UdpRejected e) w)
        | _ => False
        end
    | IPProtocol.Unknown _ => s' = (self, say UnknownIpProto w)
    end
  else s' = s.

Definition arp_effect (p : ArpPacket.t) (s : state) : state :=
  let '(self, w) := s in
  (learn p self, say (ArpSeen p) (emit_all (released p self ++ answer p self) w)).

Definition frame_step (frame : EthernetFrame.t) (dst : MacAddress) (s s' : state) : Prop :=
  if decide (dst = mac s.1 ∨ dst = broadcast) then
    match frame with
    | EthernetFrame.Arp p => s' = arp_effect p s
    | EthernetFrame.Ipv4 p => ipv4_step p s s'
    | EthernetFrame.Unknown _ _ => s' = s
    end
  else s' = s.

Lemma handle_ipv4_step p self w :
  iface_ok self → random_ok (rng w) → Ipv4Packet.packet_valid p →
  ∃ s', handle_ipv4 p (self, w) = Ret (tt, s') ∧ ipv4_step p (self, w) s'.
Proof.
  intros Hi Hr Hp. unfold handle_ipv4, ipv4_step.
  destruct (decide (_ ∨ _)) as [Hf|Hf].
  { destruct (Ipv4Packet.more_fragments p); [by eexists|].
    rewrite (proj2 (Z.eqb_neq _ 0)) by naive_solver. by eexists. }
  assert (Ipv4Packet.more_fragments p = false ∧ Ipv4Packet.frag_offset p = 0) as [Hmf H0].
  { split; [by destruct (Ipv4Packet.more_fragments p); [destruct Hf; left|]|].
    apply dec_stable. naive_solver. }
  rewrite Hmf, H0. cbn [orb negb Z.eqb].
  erewrite prog_bind_Ret by done. cbn [fst].
  destruct (for_us self (Ipv4Packet.dest p)); [cbn [negb]|by eexists].
  destruct (Ipv4Packet.protocol p); try by eexists.
  - eexists. split; [by apply handle_icmp_eq|done].
  - destruct (packet_data_ok p Hp) as (Hd & _ & Hs & Hdst & _).
    destruct (udp_from_packet_classified p Hd Hs Hdst) as (r & E & Hc).
    rewrite E. erewrite lift_bind by done. destruct r as [u|e]; [|by eexists].
    unfold handle_udp, udp_step.
    destruct (decide (_ ∧ _)) as [[-> ->]|Hports].
    2:{ destruct (Z.eqb_spec (UDPPacket.dest_port u) CLIENT_PORT),
          (Z.eqb_spec (UDPPacket.source_port u) SERVER_PORT); try by eexists. naive_solver. }
    rewrite !Z.eqb_refl. apply handle_dhcp_step; try done.
    destruct Hc as (_ & _ & _ & Hu & _). apply Hu.
Qed.

Lemma handle_packet_step frame dst self w :
  iface_ok self → random_ok (rng w) → frame_ok frame →
  ∃ s', handle_packet frame dst (self, w) = Ret (tt, s') ∧ frame_step frame dst (self, w) s'.
Proof.
  intros Hi Hr Hf. unfold handle_packet, frame_step. erewrite prog_bind_Ret by done. cbn [fst].
  destruct (decide (dst = mac self ∨ dst = broadcast)) as [Ha|Ha].
  - rewrite decide_False by naive_solver. destruct frame as [p|p|]; [| |by eexists].
    + eexists. split; [by apply handle_arp_eq|done].
    + by apply handle_ipv4_step.
  - rewrite decide_True by naive_solver. by eexists.
Qed.

End Step.
