(* ===== verification/HandlerTheorems.v ===== *)
(** * Theorems of the network interface

    Safety of every received frame, the DHCP exchange, address resolution, routing
    and echo replies. *)

From S2P Require Import Prelude Utils Addr Checksum Ipv4 Arp Udp Dhcp Ethernet Interfaces Icmp.
From S2P Require Import Handler HandlerSpec HandlerStep.
Import NetworkInterface.
Local Open Scope Z_scope.

(** ** What every step keeps *)

Section Keeps.
Context {D R : Type} `{HD : NetDriver D} `{HDok : !NetDriverOk D}.
Context `{HR : RandomSource R} `{HRok : !RandomSourceOk R}.

Abbreviation W := (world D R).
Abbreviation state := (NetworkInterface.t * W)%type.
Implicit Types (self : NetworkInterface.t) (w : W) (s : state).

Definition state_ok (s : state) : Prop := iface_ok s.1 ∧ random_ok (rng s.2).

(** The card has taken a frame. *)
Definition card_step (d d' : D) : Prop := ∃ f, driver_send f d = Ok d'.

(** The invariant holds again, only sound frames were sent, and the card was used
    for nothing else. *)
Definition keeps (s s' : state) : Prop :=
  state_ok s' ∧ mac s'.1 = mac s.1 ∧
  (∃ fs, sent s'.2 = sent s.2 ++ fs ∧ Forall (sound_frame (mac s.1)) fs) ∧
  rtc card_step (driver s.2) (driver s'.2).

Lemma driver_emit f w : card_step (driver w) (driver (emit f w)).
Proof. unfold emit, card_step. destruct (driver_send_ok f (driver w)) as [d E]. rewrite E. by exists f. Qed.

Lemma driver_emit_all fs w : rtc card_step (driver w) (driver (emit_all fs w)).
Proof.
  revert w. induction fs as [|f fs IH]; intros w; [apply rtc_refl|].
  eapply rtc_l; [apply driver_emit|apply IH].
Qed.

Lemma keeps_refl s : state_ok s → keeps s s.
Proof. intros. split_and!; try done. exists []. by rewrite app_nil_r. Qed.

Lemma keeps_trans s1 s2 s3 : keeps s1 s2 → keeps s2 s3 → keeps s1 s3.
Proof.
  intros (_ & Hm & (fs & Hs & Hf) & Hd) (Hok & Hm' & (fs' & Hs' & Hf') & Hd').
  split_and!; [done|congruence| |by etrans].
  exists (fs ++ fs'). rewrite Hs', Hs, app_assoc. split; [done|].
  apply Forall_app. rewrite Hm in Hf'. done.
Qed.

Lemma keeps_say self w l : state_ok (self, w) → keeps (self, w) (self, say l w).
Proof. intros Hok. split_and!; try done; [apply Hok..|]. exists []. by rewrite app_nil_r. Qed.

Lemma keeps_emit self w f :
  state_ok (self, w) → sound_frame (mac self) f → keeps (self, w) (self, emit f w).
Proof.
  intros [? ?] Hf. split_and!; try done; simpl.
  - split; [done|]. simpl. by rewrite rng_emit.
  - exists [f]. by rewrite sent_emit; split; [|constructor].
  - apply rtc_once, driver_emit.
Qed.

Lemma keeps_emit_all self w fs :
  state_ok (self, w) → Forall (sound_frame (mac self)) fs → keeps (self, w) (self, emit_all fs w).
Proof.
  intros [? ?] Hf. split_and!; try done; simpl.
  - split; [done|]. simpl. by rewrite rng_emit_all.
  - exists fs. by rewrite sent_emit_all.
  - apply driver_emit_all.
Qed.

(** A change of the interface alone. *)
Lemma keeps_iface self self' w :
  state_ok (self, w) → iface_ok self' → mac self' = mac self → keeps (self, w) (self', w).
Proof. intros [? ?] ? ?. split_and!; try done. exists []. by rewrite app_nil_r. Qed.

Lemma arp_ok_queue c hop f : arp_ok c → parked_ok f → arp_ok (ArpCache.queue_pending c hop f).1.
Proof.
  intros (Hc & Hl & Hq) Hf. pose proof (queue_pending_facts c hop f Hc) as H.
  pose proof (run_op_ok c (OpQueue hop f) Hc) as Hc'. cbn [run_op] in Hc'.
  unfold queue_outcome in H. destruct (ArpCache.queue_pending c hop f) as [c' q].
  destruct H as (Hl' & Hp' & Hq'). split_and!; [done|intros ip m; rewrite Hl'; apply Hl|].
  intros ip. cbn [fst]. destruct (decide (ip = hop)) as [->|]; [|by rewrite Hp'].
  destruct q.
  - destruct Hq' as (_ & _ & -> & _). by repeat constructor.
  - destruct Hq' as (_ & _ & ->). apply Forall_app. by repeat constructor.
  - by destruct Hq' as [-> _].
Qed.

Lemma arp_ok_insert c ip m : arp_ok c → mac_ok m → arp_ok (ArpCache.insert c ip m).1.
Proof.
  intros (Hc & Hl & Hq) Hm. pose proof (run_op_ok c (OpInsert ip m) Hc) as Hc'.
  cbn [run_op] in Hc'. destruct (ArpCache.insert c ip m) as [c' fs] eqn:E.
  injection E as <- _. split_and!; [done|..].
  - intros ip' m'. unfold ArpCache.lookup. cbn [fst ArpCache.entries].
    destruct (decide (ip = ip')) as [->|]; [rewrite lookup_insert_eq; congruence|].
    rewrite lookup_insert_ne by done. apply Hl.
  - intros ip'. unfold parked. cbn [fst ArpCache.entries].
    destruct (decide (ip = ip')) as [->|]; [by rewrite lookup_insert_eq|].
    rewrite lookup_insert_ne by done. apply Hq.
Qed.

Lemma set_arp_ok c self : iface_ok self → arp_ok c → iface_ok (set_arp c self).
Proof. by intros (? & ? & _ & ?) ?. Qed.

Lemma send_effect_keeps dst p self w :
  state_ok (self, w) → ip_ok dst → Ipv4Packet.packet_valid p →
  keeps (self, w) (send_effect dst (ipv4_wire p) (self, w)).
Proof.
  intros [Hi Hr] Hd Hp. unfold send_effect. cbn [fst snd] in *.
  destruct (route self dst) as [hop|] eqn:Hro; [|by apply keeps_refl].
  destruct (Hi) as (Hm & Hc & Ha & Hdh).
  destruct (ArpCache.lookup (arp self) hop) as [m|] eqn:Hl.
  { apply keeps_emit; [done|]. apply sound_ipv4_frame; try done. by eapply Ha. }
  pose proof (arp_ok_queue (arp self) hop (ipv4_wire p) Ha) as Haq.
  destruct (ArpCache.queue_pending _ _ _) as [c q].
  assert (iface_ok (set_arp c self)) as Hi' by (apply set_arp_ok; [done|apply Haq; by exists p]).
  apply (keeps_trans _ (set_arp c self, w)); [by apply keeps_iface|].
  destruct q; [|by apply keeps_refl|by apply keeps_say].
  apply (keeps_emit (set_arp c self)); [done|].
  apply sound_arp_frame; [apply broadcast_ok|done|].
  apply arp_request_valid; [done| |by eapply route_ok].
  unfold config_ok, route in *.
  destruct (ipv4 self), (subnet_mask self), (gateway self); naive_solver.
Qed.

Lemma icmp_effect_keeps p self w :
  state_ok (self, w) → Ipv4Packet.packet_valid p →
  keeps (self, w) (icmp_effect p (self, w)).
Proof.
  intros Hok Hp. unfold icmp_effect.
  destruct (decide (icmp_verifies _)); [|by apply keeps_say].
  destruct (decide (is_echo _)); [|by apply keeps_say].
  destruct (ipv4 self) as [me|] eqn:Hme; [|by apply keeps_refl].
  destruct (packet_data_ok p Hp) as (Hd & _ & Hs & _).
  apply send_effect_keeps; [done..|]. apply echo_reply_valid; [done| |by apply verifies_echo_long].
  destruct Hok as [(_ & Hc & _) _]. by eapply config_addr_ok.
Qed.

Lemma arp_effect_keeps p self w :
  state_ok (self, w) → arp_valid p → keeps (self, w) (arp_effect p (self, w)).
Proof.
  intros Hok Hp. destruct (Hok) as [(Hm & Hc & Ha & Hdh) Hr]. cbn [fst snd] in *.
  assert (iface_ok (learn p self) ∧ mac (learn p self) = mac self) as [Hl Hml].
  { unfold learn. destruct (decide _); [done|]. split; [|done]. apply set_arp_ok; [done|].
    apply arp_ok_insert; [done|apply Hp]. }
  unfold arp_effect. set (fs := released p self ++ answer p self).
  assert (Forall (sound_frame (mac self)) fs) as Hfs.
  { apply Forall_app. unfold released, answer. split.
    - destruct (decide _); [done|]. apply Forall_map, (Forall_impl parked_ok); [apply Ha|].
      intros f (q & Hq & ->). apply sound_ipv4_frame; try done. apply Hp.
    - destruct (ipv4 self) as [me|] eqn:Hme; [|done]. destruct (decide _); [|done].
      apply Forall_cons_2; [|done]. apply sound_arp_frame; try done; [apply Hp|].
      apply arp_reply_valid; try done. by eapply config_addr_ok. }
  apply (keeps_trans _ (self, emit_all fs w)); [by apply keeps_emit_all|].
  assert (state_ok (learn p self, emit_all fs w)) by (split; [done|simpl; by rewrite rng_emit_all]).
  apply (keeps_trans _ (learn p self, emit_all fs w)); [|by apply keeps_say].
  apply keeps_iface; try done. split; [done|]. simpl. by rewrite rng_emit_all.
Qed.

Lemma set_dhcp_ok d self : iface_ok self → dhcp_ok d → iface_ok (set_dhcp d self).
Proof. by intros (? & ? & ? & _) ?. Qed.

Lemma keeps_reported self w e : state_ok (self, w) → keeps (self, w) (self, reported e w).
Proof. intros. destruct e; first [by apply keeps_say|by apply keeps_refl]. Qed.

Lemma sound_dhcp_frame m msg id :
  mac_ok m → bytes msg → len msg ≤ 60000 → u16 id → sound_frame m (dhcp_frame m msg id).
Proof.
  intros. apply sound_ipv4_frame; [apply broadcast_ok|done|by apply dhcp_packet_valid].
Qed.

Lemma keeps_rng self w r :
  state_ok (self, w) → random_ok r → keeps (self, w) (self, with_rng r w).
Proof. intros [? ?] ?. split_and!; try done. exists []. by rewrite app_nil_r. Qed.

(** A reply that is accepted gives a binding made of addresses. *)
Lemma accepted_binding_ok d xid m expected b :
  bytes d → u32 xid → from_message d xid m expected = Ret (Ok b) → binding_ok b.
Proof.
  intros Hb Hx Hf. apply (reply_binds_ok d xid m expected); [done|].
  by apply (from_message_facts d xid m expected Hb Hx).
Qed.

Lemma dhcp_step_keeps d self w s' :
  state_ok (self, w) → bytes d → dhcp_step d (self, w) s' → keeps (self, w) s'.
Proof.
  intros Hok Hb. destruct (Hok) as [Hi Hr]. destruct (Hi) as (Hm & Hc & Ha & Hdh).
  cbn [fst snd] in *. unfold dhcp_step.
  destruct (dhcp self) as [|xid|xid offer] eqn:Hst; [intros ->; by apply keeps_refl|..].
  - destruct (from_offer d xid (mac self)) as [[offer|e]| |] eqn:E; try done;
      [|intros ->; by apply keeps_reported].
    intros (id & r & Hid & Hr' & ->). apply accepted_binding_ok in E; [|done|done].
    destruct (client_message_ok (mac self) xid offer Hm E) as [? Hl].
    apply (keeps_trans _ (self, with_rng r w)); [by apply keeps_rng|].
    apply (keeps_trans _ (set_dhcp (DHCPState.Requesting xid offer) self, with_rng r w)).
    { by apply keeps_iface. }
    apply (keeps_emit (set_dhcp (DHCPState.Requesting xid offer) self)).
    + split; [by apply set_dhcp_ok|done].
    + apply sound_dhcp_frame; done || lia.
  - destruct Hdh as [Hx Hbo].
    destruct (from_ack d xid (mac self)) as [[ack|e]| |] eqn:E; try done;
      [|intros ->; by apply keeps_reported].
    apply accepted_binding_ok in E as (? & ? & ? & _); [|done|done].
    destruct (decide _); intros ->; [|by apply keeps_say].
    apply (keeps_trans _ (bind_config ack self, w)); [by apply keeps_iface|].
    by apply keeps_say.
Qed.

Lemma frame_step_keeps frame dst self w s' :
  state_ok (self, w) → frame_ok frame → frame_step frame dst (self, w) s' → keeps (self, w) s'.
Proof.
  intros Hok Hf. unfold frame_step.
  destruct (decide (dst = _ ∨ _)); [|intros ->; by apply keeps_refl].
  destruct frame as [p|p|]; [|unfold ipv4_step|intros ->; by apply keeps_refl].
  { intros ->. by apply arp_effect_keeps. }
  destruct (decide (_ ∨ _)); [intros ->; by apply keeps_refl|].
  destruct (for_us _ _); [|intros ->; by apply keeps_refl].
  destruct (Ipv4Packet.protocol p).
  - intros ->. by apply icmp_effect_keeps.
  - intros ->. by apply keeps_refl.
  - destruct (packet_data_ok p Hf) as (Hd & _ & Hs & Hdst & _).
    destruct (udp_from_packet_classified p Hd Hs Hdst) as (r & -> & Hcl).
    destruct r as [u|e]; [|intros ->; by apply keeps_say].
    unfold udp_step. destruct (decide (_ ∧ _)); [|intros ->; by apply keeps_refl].
    apply dhcp_step_keeps; [done|]. destruct Hcl as (_ & _ & _ & Hu & _). apply Hu.
  - intros ->. by apply keeps_say.
Qed.

End Keeps.

(** ** Routing *)

Lemma land_u32 a b : u32 a → 0 ≤ b → u32 (Z.land a b).
Proof.
  unfold urange. intros [Ha Hlt] Hb. split; [by apply Z.land_nonneg; left|].
  pose proof (Z.land_nonneg a b) as Hn.
  destruct (decide (Z.land a b = 0)) as [->|Hz]; [lia|].
  apply Z.log2_lt_pow2; [assert (0 ≤ Z.land a b) by (apply Hn; by left); lia|].
  apply Z.le_lt_trans with (Z.log2 a); [|apply Z.log2_lt_pow2; [|done]].
  - etrans; [by apply Z.log2_land|lia].
  - destruct (decide (a = 0)) as [->|]; [by rewrite Z.land_0_l in Hz|lia].
Qed.

(** Two addresses are on one network when they agree on the bits of the mask. *)
Lemma network_of_bits a b mask :
  ip_ok a → ip_ok b → ip_ok mask →
  network_of a mask = network_of b mask ↔
  ∀ i, 0 ≤ i < 32 → Z.testbit (ip_to_u32 mask) i = true →
    Z.testbit (ip_to_u32 a) i = Z.testbit (ip_to_u32 b) i.
Proof.
  intros Ha%ip_to_u32_range Hb%ip_to_u32_range Hm%ip_to_u32_range. unfold network_of.
  set (x := ip_to_u32 a) in *. set (y := ip_to_u32 b) in *. set (m := ip_to_u32 mask) in *.
  assert (u32 (Z.land x m) ∧ u32 (Z.land y m)) as [Hxm Hym]
    by (split; apply land_u32; unfold urange in *; done || lia).
  split.
  - intros H i Hi Hbit. apply (f_equal ip_to_u32) in H. rewrite !ip_to_of_u32 in H by done.
    apply (f_equal (λ z, Z.testbit z i)) in H. rewrite !Z.land_spec, Hbit, !andb_true_r in H. done.
  - intros H. f_equal. apply Z.bits_inj'. intros i Hi. rewrite !Z.land_spec.
    destruct (Z.testbit m i) eqn:E; [|by rewrite !andb_false_r]. rewrite !andb_true_r.
    apply H; [|done]. split; [done|]. apply Znot_ge_lt. intros Hge.
    rewrite Z.bits_above_log2 in E; [done|unfold urange in *; lia|].
    destruct (decide (m = 0)) as [->|]; [simpl; lia|].
    apply Z.lt_le_trans with 32; [apply Z.log2_lt_pow2; unfold urange in *; lia|lia].
Qed.

Section Theorems.
Context {D R : Type} `{HD : NetDriver D} `{HDok : !NetDriverOk D}.
Context `{HR : RandomSource R} `{HRok : !RandomSourceOk R}.
Abbreviation W := (world D R).

(** C20.  Sending an IPv4 packet, on every branch.  Without a configuration nothing
    happens.  Otherwise the next hop is the destination when it agrees with our
    address on every bit of the mask, and the gateway when it does not.  A resolved
    next hop gets exactly one frame, with the packet's bytes; an unresolved one
    gets the packet parked under the cache's rules, and exactly one broadcast
    request when the cache asks for it. *)
Theorem send_ipv4_spec (self : NetworkInterface.t) (w : W) (dst : Ipv4Addr) (p : Ipv4Packet.t)
    (Hi : iface_ok self) (Hd : ip_ok dst) (Hp : Ipv4Packet.packet_valid p) :
  send_ipv4 dst p (self, w) = Ret (tt, send_effect dst (ipv4_wire p) (self, w)) ∧
  Ipv4Packet.serialize p = Ret (ipv4_wire p) ∧
  match ipv4 self, subnet_mask self, gateway self with
  | Some me, Some mask, Some gw =>
      ((∀ i, 0 ≤ i < 32 → Z.testbit (ip_to_u32 mask) i = true →
         Z.testbit (ip_to_u32 dst) i = Z.testbit (ip_to_u32 me) i) →
       route self dst = Some dst) ∧
      (¬ (∀ i, 0 ≤ i < 32 → Z.testbit (ip_to_u32 mask) i = true →
            Z.testbit (ip_to_u32 dst) i = Z.testbit (ip_to_u32 me) i) →
       route self dst = Some gw)
  | _, _, _ => send_effect dst (ipv4_wire p) (self, w) = (self, w)
  end.
Proof.
  split; [by apply send_ipv4_eq|]. split; [by apply ipv4_serialize_wire|].
  destruct Hi as (_ & Hc & _). unfold config_ok, send_effect, route in *.
  destruct (ipv4 self) as [me|], (subnet_mask self) as [mask|], (gateway self) as [gw|]; try done.
  destruct Hc as (? & ? & ?). rewrite <- network_of_bits by done.
  split; intros; [by rewrite decide_True|by rewrite decide_False].
Qed.

(** C21.  Receiving an ARP packet.  It never panics.  The sender is learnt unless it
    is ourselves; every packet that waited for it is sent to it, oldest first, in
    bytes unchanged, and none waits any longer; a request for our address, and
    nothing else, is answered with our address; no other cache entry changes. *)
Theorem handle_arp_spec (self : NetworkInterface.t) (w : W) (p : ArpPacket.t)
    (Hi : iface_ok self) (Hp : arp_valid p) :
  ∃ self' w', handle_arp p (self, w) = Ret (tt, (self', w')) ∧
  sent w' = sent w ++ released p self ++ answer p self ∧
  (∀ ip, ip ≠ ArpPacket.sender_addr p →
     ArpCache.lookup (arp self') ip = ArpCache.lookup (arp self) ip ∧
     parked (arp self') ip = parked (arp self) ip) ∧
  (if decide (ArpPacket.sender_mac p = mac self) then self' = self
   else ArpCache.lookup (arp self') (ArpPacket.sender_addr p) = Some (ArpPacket.sender_mac p) ∧
        parked (arp self') (ArpPacket.sender_addr p) = [] ∧ self' = set_arp (arp self') self).
Proof.
  eexists _, _. split; [by apply handle_arp_eq|]. split; [cbn; by rewrite sent_emit_all|].
  unfold learn. destruct (decide _) as [He|He]; [done|].
  unfold ArpCache.insert, ArpCache.lookup, parked. cbn. split.
  - intros ip Hip. by rewrite !lookup_insert_ne by done.
  - by rewrite !lookup_insert_eq.
Qed.

(** An unfragmented echo request for us with a right checksum, the way back resolved. *)
Record echo_request (self : NetworkInterface.t) (p : Ipv4Packet.t) (me hop : Ipv4Addr) (m : MacAddress) : Prop := {
  echo_valid : Ipv4Packet.packet_valid p;
  echo_whole : Ipv4Packet.more_fragments p = false ∧ Ipv4Packet.frag_offset p = 0;
  echo_icmp : Ipv4Packet.protocol p = IPProtocol.ICMP;
  echo_me : ipv4 self = Some me ∧ Ipv4Packet.dest p = me;
  echo_head : take 2 (Ipv4Packet.data p) = [8; 0];
  echo_sum : internet_checksum [Ipv4Packet.data p] = Ret 0;
  echo_hop : route self (Ipv4Packet.source p) = Some hop;
  echo_mac : ArpCache.lookup (arp self) hop = Some m;
}.

Definition echo_frame (self : NetworkInterface.t) (p : Ipv4Packet.t) (me : Ipv4Addr) (m : MacAddress) : list Z :=
  ipv4_frame m (mac self) (ipv4_wire (echo_reply me p)).

Lemma echo_checked self p me hop m :
  echo_request self p me hop m → icmp_verifies (Ipv4Packet.data p) ∧ 4 ≤ len (Ipv4Packet.data p).
Proof.
  intros He. destruct (packet_data_ok p (echo_valid _ _ _ _ _ He)) as (Hd & Hl & _).
  assert (icmp_verifies (Ipv4Packet.data p)) as Hv.
  { pose proof (echo_sum _ _ _ _ _ He) as Hsum. rewrite checksum_single in Hsum by (done || lia).
    unfold icmp_verifies. injection Hsum. lia. }
  split; [done|]. apply verifies_echo_long; [done|done|apply He].
Qed.

Lemma echo_handled self (w : W) p me hop m :
  iface_ok self → echo_request self p me hop m →
  handle_ipv4 p (self, w) = Ret (tt, (self, emit (echo_frame self p me m) w)).
Proof.
  intros Hi He. destruct (echo_checked _ _ _ _ _ He) as [Hv _].
  destruct He as [Hp [Hf1 Hf2] Hicmp [Hme Hdst] Hecho _ Hhop Hmac].
  unfold handle_ipv4. rewrite Hf1, Hf2. cbn [orb negb Z.eqb].
  erewrite prog_bind_Ret by done. unfold for_us. cbn [fst]. rewrite Hme, Hdst.
  rewrite (bool_decide_true (Some me = Some me)), orb_true_r by done. cbn [orb negb].
  rewrite Hicmp, handle_icmp_eq by done. unfold icmp_effect. rewrite !decide_True by done.
  rewrite Hme. unfold send_effect. by rewrite Hhop, Hmac.
Qed.

(** What the reply parses as. *)
Definition echo_parsed (p : Ipv4Packet.t) (me : Ipv4Addr) : Ipv4Packet.t :=
  Ipv4Packet.with_checksum (header_checksum (echo_reply me p)) (echo_reply me p).

Lemma echo_frame_facts self p me hop m :
  iface_ok self → echo_request self p me hop m →
  let f := echo_frame self p me m in let q := echo_parsed p me in
  sub f 0 6 = mac_addr m ∧ EthernetFrame.new f = Ret (Ok (EthernetFrame.Ipv4 q)) ∧
  len (Ipv4Packet.data q) = len (Ipv4Packet.data p) ∧
  take 2 (Ipv4Packet.data q) = [0; 0] ∧
  drop 4 (Ipv4Packet.data q) = drop 4 (Ipv4Packet.data p) ∧
  internet_checksum [Ipv4Packet.data q] = Ret 0.
Proof.
  intros Hi He. destruct (echo_checked _ _ _ _ _ He) as [Hv H4].
  destruct He as [Hp _ _ [Hme _] Hecho _ _ Hmac].
  destruct (packet_data_ok p Hp) as (Hd & Hl & _).
  destruct (Hi) as (Hm & Hc & Ha & _). pose proof (config_addr_ok _ _ Hc Hme) as Hmok.
  pose proof (echo_reply_valid me p Hp Hmok H4) as Hrv. cbn zeta. split_and!; try done.
  - apply parse_ipv4_sent; try done. by eapply Ha.
  - by apply len_echo_with.
  - cbn [echo_parsed Ipv4Packet.with_checksum echo_reply fresh_packet Ipv4Packet.data].
    rewrite checksum_single; [|by apply echo_with_bytes|unfold echo_data; rewrite len_echo_with; lia].
    by rewrite (echo_data_verifies _ Hd).
Qed.

(** Echo.  An unfragmented echo request with a right checksum, addressed to us
    and received while the way back is resolved, is answered by exactly one frame
    to that hardware address.  It parses as an IPv4 packet from us to the requester
    with the request's identification, whose payload is the request's with the type
    cleared and a checksum that verifies. *)
Theorem echo_replied (self : NetworkInterface.t) (w : W) (p : Ipv4Packet.t)
    (me hop : Ipv4Addr) (m : MacAddress)
    (Hi : iface_ok self) (Hp : Ipv4Packet.packet_valid p)
    (Hf : Ipv4Packet.more_fragments p = false ∧ Ipv4Packet.frag_offset p = 0)
    (Hicmp : Ipv4Packet.protocol p = IPProtocol.ICMP)
    (Hme : ipv4 self = Some me) (Hdst : Ipv4Packet.dest p = me)
    (Hecho : take 2 (Ipv4Packet.data p) = [8; 0])
    (Hsum : internet_checksum [Ipv4Packet.data p] = Ret 0)
    (Hhop : route self (Ipv4Packet.source p) = Some hop)
    (Hmac : ArpCache.lookup (arp self) hop = Some m) :
  ∃ f w' q, handle_ipv4 p (self, w) = Ret (tt, (self, w')) ∧
  sent w' = sent w ++ [f] ∧ sub f 0 6 = mac_addr m ∧
  EthernetFrame.new f = Ret (Ok (EthernetFrame.Ipv4 q)) ∧
  Ipv4Packet.source q = me ∧ Ipv4Packet.dest q = Ipv4Packet.source p ∧
  Ipv4Packet.id q = Ipv4Packet.id p ∧ Ipv4Packet.protocol q = IPProtocol.ICMP ∧
  len (Ipv4Packet.data q) = len (Ipv4Packet.data p) ∧
  take 2 (Ipv4Packet.data q) = [0; 0] ∧
  drop 4 (Ipv4Packet.data q) = drop 4 (Ipv4Packet.data p) ∧
  internet_checksum [Ipv4Packet.data q] = Ret 0.
Proof.
  assert (echo_request self p me hop m) as He by done.
  destruct (echo_frame_facts self p me hop m Hi He) as (? & ? & ? & ? & ? & ?).
  exists (echo_frame self p me m), (emit (echo_frame self p me m) w), (echo_parsed p me).
  split_and!; try done; [by apply (echo_handled _ _ _ _ hop)|apply sent_emit].
Qed.

(** The configuration, as one value. *)
Definition config (self : NetworkInterface.t) : option Ipv4Addr * option Ipv4Addr * option Ipv4Addr :=
  (ipv4 self, subnet_mask self, gateway self).

Lemma send_effect_config dst wire self (w : W) :
  config (send_effect dst wire (self, w)).1 = config self.
Proof.
  unfold send_effect. destruct (route self dst); [|done].
  destruct (ArpCache.lookup _ _); [done|]. by destruct (ArpCache.queue_pending _ _ _).
Qed.

Lemma icmp_effect_config p self (w : W) : config (icmp_effect p (self, w)).1 = config self.
Proof.
  unfold icmp_effect. destruct (decide (icmp_verifies _)); [|done].
  destruct (decide (is_echo _)); [|done]. destruct (ipv4 self) eqn:E; [|done].
  apply send_effect_config.
Qed.

Lemma learn_config p self : config (learn p self) = config self.
Proof. unfold learn. by destruct (decide _). Qed.

(** A datagram of a DHCP server to us, with payload [d], in a frame. *)
Definition carries (frame : EthernetFrame.t) (d : list Z) : Prop :=
  ∃ p u, frame = EthernetFrame.Ipv4 p ∧
  Ipv4Packet.more_fragments p = false ∧ Ipv4Packet.frag_offset p = 0 ∧
  Ipv4Packet.protocol p = IPProtocol.UDP ∧ UDPPacket.from_packet p = Ret (Ok u) ∧
  UDPPacket.dest_port u = CLIENT_PORT ∧ UDPPacket.source_port u = SERVER_PORT ∧
  UDPPacket.data u = d.

Lemma dhcp_step_config d self w s' :
  dhcp_step d (self, w) s' →
  config s'.1 = config self ∨
  ∃ xid offer ack, dhcp self = DHCPState.Requesting xid offer ∧
    from_ack d xid (mac self) = Ret (Ok ack) ∧
    DHCPBinding.server_id ack = DHCPBinding.server_id offer ∧ s'.1 = bind_config ack self.
Proof.
  unfold dhcp_step. destruct (dhcp self) as [|xid|xid offer] eqn:Hst; [intros ->; by left|..].
  - destruct (from_offer _ _ _) as [[offer|e]| |]; try done; [|intros ->; by left].
    intros (id & r & _ & _ & ->). by left.
  - destruct (from_ack _ _ _) as [[ack|e]| |] eqn:E; try done; [|intros ->; by left].
    destruct (decide _) as [Hs|_]; intros ->; [right|by left]. by exists xid, offer, ack.
Qed.

(** C7.  Nothing but the acknowledgement of our own request configures the
    interface.  Whatever valid frame is handled, the address, the mask and the
    gateway stay as they are, unless a request is outstanding and the frame,
    addressed to us or broadcast, carries a DHCP server's datagram that reads as an
    acknowledgement of that exchange, for our hardware address, from the server
    whose offer was taken; then all three are set from it and the exchange is
    closed. *)
Theorem configured_only_by_ack (frame : EthernetFrame.t) (dst : MacAddress)
    (self self' : NetworkInterface.t) (w w' : W)
    (Hok : state_ok (self, w)) (Hf : frame_ok frame)
    (Hrun : handle_packet frame dst (self, w) = Ret (tt, (self', w'))) :
  config self' = config self ∨
  ∃ xid offer ack d, dhcp self = DHCPState.Requesting xid offer ∧
    (dst = mac self ∨ dst = broadcast) ∧ carries frame d ∧
    reply_binds d xid (mac self) DHCPMessageType.Ack ack ∧
    DHCPBinding.server_id ack = DHCPBinding.server_id offer ∧ self' = bind_config ack self.
Proof.
  destruct (Hok) as [Hi Hr]. cbn [fst snd] in Hi, Hr.
  destruct (handle_packet_step frame dst self w Hi Hr Hf) as (s' & Hrun' & Hs).
  rewrite Hrun in Hrun'. injection Hrun' as <-. unfold frame_step in Hs.
  destruct (decide (dst = _ ∨ _)) as [Hdst|_]; [|injection Hs as -> _; by left].
  destruct frame as [p|p|]; [|unfold ipv4_step in Hs|injection Hs as -> _; by left].
  { injection Hs as -> _. left. apply learn_config. }
  destruct (decide (_ ∨ _)) as [_|Hfrag]; [injection Hs as -> _; by left|].
  destruct (for_us _ _); [|injection Hs as -> _; by left].
  destruct (Ipv4Packet.protocol p) eqn:Hproto; try (injection Hs as -> _; by left).
  { left. apply (f_equal fst) in Hs. cbn [fst] in Hs. subst self'. apply icmp_effect_config. }
  destruct (packet_data_ok p Hf) as (Hd & _ & Hsrc & Hdest & _).
  destruct (udp_from_packet_classified p Hd Hsrc Hdest) as (r & E & Hcl).
  rewrite E in Hs. destruct r as [u|e]; [|injection Hs as -> _; by left].
  unfold udp_step in Hs. destruct (decide (_ ∧ _)) as [[Hdp Hsp]|_];
    [|injection Hs as -> _; by left].
  destruct (dhcp_step_config _ _ _ _ Hs) as [?|(xid & offer & ack & Hst & Hack & Hid & Hb)]; [by left|].
  right. exists xid, offer, ack, (UDPPacket.data u).
  assert (bytes (UDPPacket.data u)) as Hbu by (destruct Hcl as (_ & _ & _ & Hu & _); apply Hu).
  assert (u32 xid) as Hx by (destruct Hi as (_ & _ & _ & Hdh); rewrite Hst in Hdh; apply Hdh).
  split_and!; try done.
  - exists p, u. split_and!; try done; [|apply dec_stable; naive_solver].
    destruct (Ipv4Packet.more_fragments p); [destruct Hfrag; by left|done].
  - by apply (from_message_facts _ _ _ DHCPMessageType.Ack Hbu Hx).
Qed.

(** *** The exchange *)

Lemma carries_step frame d dst self w s' :
  carries frame d → dst = broadcast → ipv4 self = None → DHCPState.xid (dhcp self) ≠ None →
  frame_step frame dst (self, w) s' ↔ dhcp_step d (self, w) s'.
Proof.
  intros (p & u & -> & Hm & Hfo & Hproto & Hu & Hdp & Hsp & <-) -> Hip Hx.
  unfold frame_step, ipv4_step, udp_step.
  rewrite (decide_True (P := broadcast = _ ∨ broadcast = broadcast)) by by right.
  rewrite decide_False by (rewrite Hm, Hfo; naive_solver).
  assert (for_us self (Ipv4Packet.dest p) = true) as ->.
  { unfold for_us. rewrite Hip, !(bool_decide_true (None = None)), (bool_decide_true (_ ≠ None)) by done.
    by rewrite orb_true_r. }
  by rewrite Hproto, Hu, decide_True by done.
Qed.

Lemma init_dhcp_eq self w xid r :
  mac_ok (mac self) → dhcp self = DHCPState.Idle → random_ok (rng w) →
  from_rand U32 (rng w) = Ret (Ok xid, r) → random_ok r →
  ∃ id r', u16 id ∧ random_ok r' ∧
    init_dhcp (self, w) =
    Ret (Ok tt, (set_dhcp (DHCPState.Selecting xid) self,
                 emit (dhcp_frame (mac self) (client_message (mac self) xid discover_options) id)
                   (with_rng r' w))).
Proof.
  intros Hm Hidle Hr Hx Hr'. unfold init_dhcp. erewrite prog_bind_Ret by done. cbn [fst].
  rewrite decide_False by (by intros []).
  erewrite prog_bind_Ret by (unfold random; cbn [snd]; rewrite Hx; done). cbn iota.
  erewrite lift_bind by apply build_discover_eq.
  destruct (discover_message_ok (mac self) xid Hm) as [Hb Hl].
  destruct (send_dhcp_eq (client_message (mac self) xid discover_options) self (with_rng r w))
    as (id & r' & Hid & Hr'' & E); [done|lia|done|].
  exists id, r'. split; [done|]. split; [done|].
  erewrite prog_bind_Ret by exact E. done.
Qed.

(** The interface as it starts, with the hardware address of the card. *)
Definition fresh_interface (m : MacAddress) : NetworkInterface.t := {|
  mac := m; ipv4 := None; gateway := None; subnet_mask := None;
  arp := ArpCache.new; dhcp := DHCPState.Idle |}.

Lemma fresh_interface_ok m : mac_ok m → iface_ok (fresh_interface m).
Proof. intros. by split_and!. Qed.

Lemma init_network_interface_eq w xid r :
  random_ok (rng w) → from_rand U32 (rng w) = Ret (Ok xid, r) → random_ok r →
  ∃ m id r', mac_ok m ∧ mac_addr m = driver_mac (driver w) ∧ u16 id ∧ random_ok r' ∧
  init_network_interface w =
  Ret (set_dhcp (DHCPState.Selecting xid) (fresh_interface m),
       emit (dhcp_frame m (client_message m xid discover_options) id) (with_rng r' w)).
Proof.
  intros Hr Hx Hr'. destruct (driver_mac_len (driver w)) as [Hl Hb].
  destruct (MacAddress_new_ok _ Hl) as (m & Hm & Ha).
  assert (mac_ok m) as Hmok by (unfold mac_ok; by rewrite Ha).
  destruct (init_dhcp_eq (fresh_interface m) w xid r) as (id & r' & Hid & Hr'' & E); try done.
  exists m, id, r'. split_and!; try done. unfold init_network_interface.
  rewrite Hm, bind_Ret. fold (fresh_interface m). by rewrite E.
Qed.

Lemma carries_bytes frame d : frame_ok frame → carries frame d → bytes d.
Proof.
  intros Hf (p & u & -> & _ & _ & _ & Hu & _ & _ & <-).
  destruct (packet_data_ok p Hf) as (Hd & _ & Hsrc & Hdest & _).
  destruct (udp_from_packet_classified p Hd Hsrc Hdest) as (r & E & Hcl).
  rewrite Hu in E. injection E as <-. destruct Hcl as (_ & _ & _ & Hub & _). apply Hub.
Qed.

Lemma from_rand_u32 (w : W) xid r :
  random_ok (rng w) → from_rand U32 (rng w) = Ret (Ok xid, r) → u32 xid ∧ random_ok r.
Proof.
  intros Hr Hx. destruct (from_rand_ok U32 (rng w) Hr) as (v & r' & E & Hv & Hr').
  rewrite Hx in E. by injection E as <- <-.
Qed.

Lemma offer_handled frame d self w xid offer :
  state_ok (self, w) → frame_ok frame → carries frame d → ipv4 self = None →
  dhcp self = DHCPState.Selecting xid → from_offer d xid (mac self) = Ret (Ok offer) →
  ∃ id r, u16 id ∧ random_ok r ∧
    handle_packet frame broadcast (self, w) =
    Ret (tt, (set_dhcp (DHCPState.Requesting xid offer) self,
              emit (dhcp_frame (mac self)
                      (client_message (mac self) xid (request_options offer)) id) (with_rng r w))).
Proof.
  intros [Hi Hr] Hf Hd Hip Hst Ho.
  destruct (handle_packet_step frame broadcast self w Hi Hr Hf) as (s2 & E & Hs).
  apply (carries_step frame d) in Hs; try done; [|by rewrite Hst].
  unfold dhcp_step in Hs. rewrite Hst, Ho in Hs.
  destruct Hs as (id & r & Hid & Hr' & ->). by exists id, r.
Qed.

Lemma ack_handled frame d self w xid offer ack :
  state_ok (self, w) → frame_ok frame → carries frame d → ipv4 self = None →
  dhcp self = DHCPState.Requesting xid offer → from_ack d xid (mac self) = Ret (Ok ack) →
  DHCPBinding.server_id ack = DHCPBinding.server_id offer →
  ∃ l, handle_packet frame broadcast (self, w) = Ret (tt, (bind_config ack self, say l w)).
Proof.
  intros [Hi Hr] Hf Hd Hip Hst Ho Hid.
  destruct (handle_packet_step frame broadcast self w Hi Hr Hf) as (s2 & E & Hs).
  apply (carries_step frame d) in Hs; try done; [|by rewrite Hst].
  unfold dhcp_step in Hs. rewrite Hst, Ho, decide_True in Hs by done. subst s2. by eexists.
Qed.

(** C8.  The exchange succeeds.  Starting the interface broadcasts a discover for
    the exchange id that was drawn; an offer for it is answered by a broadcast
    request that names the offered address and its server; the acknowledgement from
    that server configures the interface as it says and closes the exchange.
    Nothing else is sent, and both messages parse as broadcasts from 0.0.0.0. *)
Theorem dhcp_exchange (w : W) (xid : Z) (r : R) (f1 f2 : EthernetFrame.t) (d1 d2 : list Z)
    (offer ack : DHCPBinding.t)
    (Hr : random_ok (rng w)) (Hxid : from_rand U32 (rng w) = Ret (Ok xid, r))
    (Hf1 : frame_ok f1) (Hf2 : frame_ok f2)
    (Hd1 : carries f1 d1) (Hd2 : carries f2 d2) :
  ∃ m self w1, init_network_interface w = Ret (self, w1) ∧
  mac_addr m = driver_mac (driver w) ∧ mac self = m ∧
  (from_offer d1 xid m = Ret (Ok offer) → from_ack d2 xid m = Ret (Ok ack) →
   DHCPBinding.server_id ack = DHCPBinding.server_id offer →
   ∃ w2 id1 id2,
     (handle_packet f1 broadcast;; handle_packet f2 broadcast) (self, w1) =
       Ret (tt, (bind_config ack self, w2)) ∧
     sent w2 = sent w ++
       [dhcp_frame m (client_message m xid discover_options) id1;
        dhcp_frame m (client_message m xid (request_options offer)) id2] ∧
     Forall (sound_frame m) (drop (length (sent w)) (sent w2))).
Proof.
  destruct (from_rand_u32 w xid r Hr Hxid) as [Hx Hr'].
  destruct (init_network_interface_eq w xid r Hr Hxid Hr')
    as (m & id1 & r1 & Hm & Ha & Hid1 & Hr1 & E).
  set (self := set_dhcp (DHCPState.Selecting xid) (fresh_interface m)) in *.
  set (w1 := emit _ _) in E. exists m, self, w1. split_and!; try done.
  intros Ho Hk Hs. assert (state_ok (self, w1)) as Hok.
  { split; [apply set_dhcp_ok; [by apply fresh_interface_ok|done]|].
    cbn [snd]. unfold w1. by rewrite rng_emit. }
  assert (sent w1 = sent w ++ [dhcp_frame m (client_message m xid discover_options) id1]) as Hs1
    by (unfold w1; by rewrite sent_emit).
  destruct (offer_handled f1 d1 self w1 xid offer) as (id2 & r2 & Hid2 & Hr2 & E1); try done.
  set (self2 := set_dhcp (DHCPState.Requesting xid offer) self) in *.
  set (w2 := emit _ _) in E1.
  assert (binding_ok offer) as Hbo
    by (apply (accepted_binding_ok d1 xid m DHCPMessageType.Offer); [by eapply (carries_bytes f1)|done|done]).
  assert (state_ok (self2, w2)) as Hok2.
  { split; [by apply set_dhcp_ok; [apply Hok|]|]. cbn [snd]. unfold w2. by rewrite rng_emit. }
  assert (sent w2 = sent w1 ++ [dhcp_frame m (client_message m xid (request_options offer)) id2])
    as Hs2 by (unfold w2; by rewrite sent_emit).
  destruct (ack_handled f2 d2 self2 w2 xid offer ack) as (l & E2); try done.
  exists (say l w2), id1, id2. cbn [sent say]. rewrite Hs2, Hs1, <- app_assoc. split_and!; [|done|].
  - by rewrite (prog_bind_Ret _ _ _ _ _ E1), E2.
  - rewrite drop_app_length. destruct (discover_message_ok m xid Hm) as [? Hl1].
    destruct (client_message_ok m xid offer Hm Hbo) as [? Hl2].
    repeat (apply Forall_cons_2; [apply sound_dhcp_frame; done || lia|]). done.
Qed.

End Theorems.

(** ** A concrete card and random source, and a configured interface *)

Module Example.
Definition the_mac : MacAddress := CLIENT_MAC.

#[global] Instance card : NetDriver (list (list Z)) := {|
  VirtioError := unit;
  driver_mac := λ _, mac_addr the_mac;
  driver_send := λ f d, Ok (f :: d) |}.
#[global] Instance card_ok : NetDriverOk (list (list Z)).
Proof.
  split; [by eexists|]. intros d. split; [done|].
  apply (bool_decide_unpack _). vm_compute. exact I.
Defined.

(** A source that gives the captured exchange id, and 5 for every other type. *)
#[global] Instance source : RandomSource nat := {|
  RandomError := unit;
  from_rand := λ t r, Ret (Ok (match t with U32 => CAPTURE_XID | _ => 5 end), S r) |}.
#[global] Instance source_ok : RandomSourceOk nat.
Proof.
  refine {| random_ok := λ _, True |}. intros t r _. eexists _, _. split; [done|].
  split; [|done]. unfold in_range. destruct t; vm_compute; split; congruence.
Defined.

Definition w0 : world (list (list Z)) nat := World [] 0%nat [] [].

Definition me : Ipv4Addr := Ip 10 0 2 15.
Definition peer : Ipv4Addr := Ip 10 0 2 2.
Definition peer_mac : MacAddress := Mac 2 0 0 0 0 1.

Definition iface : NetworkInterface.t := {|
  mac := the_mac; ipv4 := Some me; gateway := Some peer; subnet_mask := Some (Ip 255 255 255 0);
  arp := (ArpCache.insert ArpCache.new peer peer_mac).1; dhcp := DHCPState.Idle |}.

Lemma peer_mac_ok : mac_ok peer_mac.
Proof. unfold mac_ok. apply (bool_decide_unpack _). vm_compute. exact I. Defined.
Lemma the_mac_ok : mac_ok the_mac.
Proof. unfold mac_ok. apply (bool_decide_unpack _). vm_compute. exact I. Defined.

Lemma iface_is_ok : iface_ok iface.
Proof.
  split_and!; [exact the_mac_ok| | |done].
  - unfold config_ok. cbn. split_and!; unfold ip_ok; apply (bool_decide_unpack _); vm_compute; exact I.
  - apply arp_ok_insert; [|exact peer_mac_ok]. apply (fresh_interface_ok the_mac the_mac_ok).
Defined.

(** An echo request of eight bytes from [peer]. *)
Definition ping_data : list Z := [8; 0; 0xf7; 0xfd; 0; 1; 0; 1].
Definition ping : Ipv4Packet.t := fresh_packet ping_data peer me 7 IPProtocol.ICMP.
Lemma ping_valid : Ipv4Packet.packet_valid ping.
Proof.
  apply fresh_packet_valid; try reflexivity; try (unfold ip_ok; apply (bool_decide_unpack _));
    vm_compute; first [exact I|split; congruence|congruence].
Defined.

(** A server's datagram to the client, in a broadcast IPv4 packet. *)
Definition server_datagram (msg : list Z) : UDPPacket.t := {|
  UDPPacket.source_port := SERVER_PORT; UDPPacket.dest_port := CLIENT_PORT;
  UDPPacket.datagram_length := len msg + 8; UDPPacket.checksum := 0; UDPPacket.data := msg |}.
Definition server_packet (msg : list Z) : Ipv4Packet.t :=
  fresh_packet (udp_wire (server_datagram msg) (len msg + 8) 0) peer BROADCAST 1 IPProtocol.UDP.
Definition offer_frame : EthernetFrame.t := EthernetFrame.Ipv4 (server_packet OFFER).
Definition ACK : list Z := <[242%nat := 5]> OFFER.
Definition ack_frame : EthernetFrame.t := EthernetFrame.Ipv4 (server_packet ACK).

Lemma server_frame_ok msg :
  bytes msg → len msg ≤ 1000 → frame_ok (EthernetFrame.Ipv4 (server_packet msg)).
Proof.
  intros Hb Hl. pose proof (len_nonneg msg). apply fresh_packet_valid; try reflexivity.
  - apply udp_wire_bytes. unfold udp_ok. simpl. unfold urange, SERVER_PORT, CLIENT_PORT.
    split_and!; try done; lia.
  - unfold ip_ok. apply (bool_decide_unpack _). vm_compute. exact I.
  - apply ip_broadcast_ok.
  - done.
  - done.
  - rewrite len_udp_wire. simpl. lia.
Qed.

Lemma offer_carried : carries offer_frame OFFER.
Proof.
  eexists _, _. split; [reflexivity|]. split; [reflexivity|]. split; [reflexivity|].
  split; [reflexivity|]. split; [vm_compute; reflexivity|]. split_and!; vm_compute; reflexivity.
Qed.
Lemma ack_carried : carries ack_frame ACK.
Proof.
  eexists _, _. split; [reflexivity|]. split; [reflexivity|]. split; [reflexivity|].
  split; [reflexivity|]. split; [vm_compute; reflexivity|]. split_and!; vm_compute; reflexivity.
Qed.
Lemma ACK_bytes : bytes ACK.
Proof. apply (bool_decide_unpack _). vm_compute. exact I. Defined.

(** An interface waiting for the acknowledgement of the captured offer. *)
Definition waiting : NetworkInterface.t :=
  set_dhcp (DHCPState.Requesting CAPTURE_XID CAPTURE_BINDING) (fresh_interface the_mac).
Lemma waiting_ok : state_ok (waiting, w0).
Proof.
  split; [|exact I]. apply set_dhcp_ok; [exact (fresh_interface_ok _ the_mac_ok)|].
  split; [vm_compute; split; congruence|].
  unfold binding_ok. split_and!; unfold ip_ok; apply (bool_decide_unpack _); vm_compute; exact I.
Defined.
End Example.

Lemma send_ipv4_spec_witness :
  iface_ok Example.iface ∧ ip_ok Example.peer ∧ Ipv4Packet.packet_valid Example.ping ∧
  send_ipv4 Example.peer Example.ping (Example.iface, Example.w0) =
    Ret (tt, send_effect Example.peer (ipv4_wire Example.ping) (Example.iface, Example.w0)).
Proof.
  assert (ip_ok Example.peer) as Hd
    by (unfold ip_ok; apply (bool_decide_unpack _); vm_compute; exact I).
  split_and!; [exact Example.iface_is_ok|exact Hd|exact Example.ping_valid|].
  apply (send_ipv4_spec Example.iface Example.w0 Example.peer Example.ping Example.iface_is_ok Hd
           Example.ping_valid).
Defined.

Lemma handle_arp_spec_witness :
  iface_ok Example.iface ∧ arp_valid example_arp ∧
  ∃ self' w', handle_arp example_arp (Example.iface, Example.w0) = Ret (tt, (self', w')) ∧
    ArpCache.lookup (arp self') (Ip 192 168 1 10) = Some (Mac 0x11 0x22 0x33 0x44 0x55 0x66).
Proof.
  assert (arp_valid example_arp) as Hp by (apply (bool_decide_unpack _); vm_compute; exact I).
  split_and!; [exact Example.iface_is_ok|exact Hp|].
  destruct (handle_arp_spec Example.iface Example.w0 example_arp Example.iface_is_ok Hp)
    as (self' & w' & E & _ & _ & Hl).
  exists self', w'. split; [exact E|].
  rewrite decide_False in Hl by (vm_compute; congruence). exact (proj1 Hl).
Defined.

Lemma echo_replied_witness :
  ∃ f w' q, handle_ipv4 Example.ping (Example.iface, Example.w0) = Ret (tt, (Example.iface, w')) ∧
  sent w' = [f] ∧ EthernetFrame.new f = Ret (Ok (EthernetFrame.Ipv4 q)) ∧
  drop 4 (Ipv4Packet.data q) = [0; 1; 0; 1].
Proof.
  destruct (echo_replied Example.iface Example.w0 Example.ping Example.me Example.peer
              Example.peer_mac Example.iface_is_ok Example.ping_valid)
    as (f & w' & q & E & Hs & _ & Hp & _ & _ & _ & _ & _ & _ & Hd & _);
    try reflexivity; [split; reflexivity|].
  exists f, w', q. split; [exact E|]. split; [exact Hs|]. split; [exact Hp|exact Hd].
Defined.

Lemma configured_only_by_ack_witness :
  ∃ w', handle_packet Example.ack_frame broadcast (Example.waiting, Example.w0) =
          Ret (tt, (bind_config CAPTURE_BINDING Example.waiting, w')) ∧
  ∃ xid offer ack d, dhcp Example.waiting = DHCPState.Requesting xid offer ∧
    reply_binds d xid Example.the_mac DHCPMessageType.Ack ack ∧
    DHCPBinding.server_id ack = DHCPBinding.server_id offer.
Proof.
  eexists. match goal with |- ?A ∧ _ => assert A as E by (vm_compute; reflexivity) end.
  split; [exact E|].
  destruct (configured_only_by_ack Example.ack_frame broadcast Example.waiting
              (bind_config CAPTURE_BINDING Example.waiting) Example.w0 _ Example.waiting_ok
              (Example.server_frame_ok _ Example.ACK_bytes ltac:(vm_compute; congruence)) E)
    as [Hc|(xid & offer & ack & d & Hst & _ & _ & Hb & Hs & _)].
  - vm_compute in Hc. discriminate Hc.
  - exists xid, offer, ack, d. split; [exact Hst|]. split; [exact Hb|exact Hs].
Defined.

Lemma dhcp_exchange_witness :
  ∃ self w1 w2, init_network_interface Example.w0 = Ret (self, w1) ∧
  (handle_packet Example.offer_frame broadcast;; handle_packet Example.ack_frame broadcast)
    (self, w1) = Ret (tt, (bind_config CAPTURE_BINDING self, w2)) ∧ length (sent w2) = 2%nat.
Proof.
  destruct (dhcp_exchange Example.w0 CAPTURE_XID 1%nat Example.offer_frame Example.ack_frame
              OFFER Example.ACK CAPTURE_BINDING CAPTURE_BINDING ltac:(exact I) eq_refl
              (Example.server_frame_ok _ OFFER_bytes ltac:(vm_compute; congruence))
              (Example.server_frame_ok _ Example.ACK_bytes ltac:(vm_compute; congruence))
              Example.offer_carried Example.ack_carried)
    as (m & self & w1 & E & Ha & Hm & Hrest).
  apply (mac_addr_inj m Example.the_mac) in Ha. rewrite Ha in Hrest.
  destruct Hrest as (w2 & id1 & id2 & E2 & Hs & _); [vm_compute; reflexivity..|].
  exists self, w1, w2. split; [exact E|]. split; [exact E2|]. by rewrite Hs.
Defined.
