(* ===== verification/Ppa.v ===== *)
(** * The physical page allocator: [kernel/src/allocation/ppa.rs]

    One bit per frame, set when the frame is in use.  The abstract view of an
    allocator is the predicate [is_used] on frame numbers; the operations are
    specified by what they do to it. *)

From S2P Require Import Prelude.
Local Open Scope Z_scope.

Definition PAGE_SIZE : Z := 4096.

(** [a.div_ceil(b)] *)
Definition div_ceil (a b : Z) : Z := a / b + (if a mod b =? 0 then 0 else 1).

(** A region of the boot loader's memory map, and whether its type is [Usable]. *)
Module MemoryRegion.
Record t := { start_addr : Z; end_addr : Z; usable : bool }.
End MemoryRegion.

Module PhysicalPageAllocator.
Record t := { bitmap : list Z; num_frames : Z }.
#[global] Instance t_eq_dec : EqDecision t.
Proof. solve_decision. Defined.

Definition set_bit (a : t) (frame : Z) (used : bool) : outcome t :=
  let byte := frame / 8 in
  let bit := frame mod 8 in
  b ← index (bitmap a) byte;
  bm ← set_index (bitmap a) byte
    (if used then Z.lor b (wrap 8 (Z.shiftl 1 bit))
     else Z.land b (not_w 8 (wrap 8 (Z.shiftl 1 bit))));
  Ret {| bitmap := bm; num_frames := num_frames a |}.

Definition set_used (a : t) (page : Z) : outcome t := set_bit a page true.
Definition set_unused (a : t) (page : Z) : outcome t := set_bit a page false.

Definition is_free (a : t) (page : Z) : outcome bool :=
  let byte := page / 8 in
  let bit := page mod 8 in
  b ← index (bitmap a) byte;
  Ret (Z.land b (wrap 8 (Z.shiftl 1 bit)) =? 0).

(** [for page in page..page + n] with one of the setters. *)
Fixpoint for_pages (f : t → Z → outcome t) (n : nat) (page : Z) (a : t) : outcome t :=
  match n with
  | O => Ret a
  | S n => a ← f a page; for_pages f n (page + 1) a
  end.
Definition for_range (f : t → Z → outcome t) (first last : Z) (a : t) : outcome t :=
  for_pages f (Z.to_nat (last - first)) first a.

Definition mark_region_free (a : t) (start last : Z) : outcome t :=
  for_range (λ a frame, set_bit a frame false) (start / PAGE_SIZE) (div_ceil last PAGE_SIZE) a.

Definition mark_region_used (a : t) (start last : Z) : outcome t :=
  for_range set_used (start / PAGE_SIZE) (div_ceil last PAGE_SIZE) a.

(** The [for] loop of [find_contiguous_pages], [n] pages before its end. *)
Fixpoint find_loop (a : t) (count : Z) (n : nat) (page run_start run_length : Z) :
    outcome (option Z) :=
  match n with
  | O => Ret None
  | S n =>
      free ← is_free a page;
      if (free : bool) then
        let run_start := if run_length =? 0 then page else run_start in
        run_length ← add_w 64 run_length 1;
        if run_length =? count then Ret (Some run_start)
        else find_loop a count n (page + 1) run_start run_length
      else find_loop a count n (page + 1) run_start 0
  end.

Definition find_contiguous_pages (a : t) (count : Z) : outcome (option Z) :=
  if count =? 0 then Ret None
  else find_loop a count (Z.to_nat (num_frames a)) 0 0 0.

Section Addresses.
(** [PhysAddr::new] and [VirtAddr::new] of the [x86_64] crate, and the bytes a raw
    pointer and a length denote. *)
Context (PhysAddr_new VirtAddr_new : Z → outcome Z) (raw_bytes : Z → Z → list Z).

Definition alloc_contiguous_pages (a : t) (count : Z) : outcome (option Z * t) :=
  start ← find_contiguous_pages a count;
  match start with
  | None => Ret (None, a)
  | Some start =>
      last ← add_w 64 start count;
      a ← for_range set_used start last a;
      addr ← mul_w 64 start 4096;
      addr ← PhysAddr_new addr;
      Ret (Some addr, a)
  end.

Definition dealloc_contiguous_pages (a : t) (paddr count : Z) : outcome t :=
  let page := paddr / 4096 in
  last ← add_w 64 page count;
  for_range set_unused page last a.

(** [iter().max()] *)
Fixpoint max_end (map : list MemoryRegion.t) : option Z :=
  match map with
  | [] => None
  | r :: map =>
      Some (match max_end map with
            | None => MemoryRegion.end_addr r
            | Some m => Z.max (MemoryRegion.end_addr r) m end)
  end.

(** [iter().find(..)] *)
Fixpoint find_region (bytes : Z) (map : list MemoryRegion.t) : outcome (option MemoryRegion.t) :=
  match map with
  | [] => Ret None
  | r :: map =>
      if MemoryRegion.usable r then
        size ← sub_w 64 (MemoryRegion.end_addr r) (MemoryRegion.start_addr r);
        if bytes <=? size then Ret (Some r) else find_region bytes map
      else find_region bytes map
  end.

Fixpoint free_usable (map : list MemoryRegion.t) (a : t) : outcome t :=
  match map with
  | [] => Ret a
  | r :: map =>
      a ← (if MemoryRegion.usable r
           then mark_region_free a (MemoryRegion.start_addr r) (MemoryRegion.end_addr r)
           else Ret a);
      free_usable map a
  end.

Definition new (physical_memory_offset : Z) (memory_map : list MemoryRegion.t) : outcome t :=
  max_phys ← expect (max_end memory_map);
  let num_frames := div_ceil max_phys PAGE_SIZE in
  let bitmap_bytes := div_ceil num_frames 8 in
  let bitmap_pages := div_ceil bitmap_bytes PAGE_SIZE in
  size ← mul_w 64 bitmap_pages PAGE_SIZE;
  region ← find_region size memory_map;
  region ← expect region;
  bitmap_phys ← PhysAddr_new (MemoryRegion.start_addr region);
  virt ← add_w 64 physical_memory_offset bitmap_phys;
  bitmap_virt ← VirtAddr_new virt;
  let bitmap := raw_bytes bitmap_virt bitmap_bytes in
  let a := {| bitmap := replicate (length bitmap) 0xff; num_frames := num_frames |} in
  a ← free_usable memory_map a;
  last ← add_w 64 bitmap_phys size;
  mark_region_used a bitmap_phys last.

End Addresses.
End PhysicalPageAllocator.
Import PhysicalPageAllocator.

(** ** The abstract view *)

Definition is_used (a : t) (frame : Z) : bool :=
  match get (bitmap a) (frame / 8) with
  | Some b => Z.testbit b (frame mod 8)
  | None => true
  end.

(** The frames the bitmap has room for. *)
Definition covers (a : t) (frame : Z) : Prop := 0 ≤ frame < 8 * len (bitmap a).

Definition ppa_ok (a : t) : Prop :=
  bytes (bitmap a) ∧ len (bitmap a) = div_ceil (num_frames a) 8 ∧ urange 52 (num_frames a).

Lemma div_ceil_bounds a b : 0 ≤ a → 0 < b → a ≤ b * div_ceil a b < a + b.
Proof.
  intros. unfold div_ceil. destruct (Z.eqb_spec (a mod b) 0); Z.div_mod_to_equations; lia.
Qed.

Lemma ppa_covers a frame : ppa_ok a → 0 ≤ frame < num_frames a → covers a frame.
Proof.
  intros (_ & Hl & [? _]) ?. unfold covers. rewrite Hl.
  pose proof (div_ceil_bounds (num_frames a) 8). lia.
Qed.

Lemma covers_get a frame :
  covers a frame → ∃ b, get (bitmap a) (frame / 8) = Some b ∧ 0 ≤ frame / 8 < len (bitmap a).
Proof.
  intros [? ?]. assert (0 ≤ frame / 8 < len (bitmap a)) by (Z.div_mod_to_equations; lia).
  destruct (get_is_some (bitmap a) (frame / 8)) as [b Hb]; [done|]. by exists b.
Qed.

Lemma one_shift k : 0 ≤ k < 8 → wrap 8 (Z.shiftl 1 k) = 2 ^ k.
Proof.
  intros. rewrite Z.shiftl_mul_pow2, Z.mul_1_l by lia. apply wrap_id. split; [lia|].
  apply Z.pow_lt_mono_r; lia.
Qed.

Lemma is_free_eq a frame : covers a frame → is_free a frame = Ret (negb (is_used a frame)).
Proof.
  intros Hc. destruct (covers_get a frame Hc) as (b & Hb & _). unfold is_free, is_used.
  rewrite (index_get _ _ b), bind_Ret, Hb by done.
  pose proof (Z.mod_pos_bound frame 8 ltac:(lia)). rewrite one_shift by lia.
  rewrite <- land_pow2_test by lia. by rewrite negb_involutive.
Qed.

(** ** Setting bits *)

Lemma testbit_pow2 k j : 0 ≤ k → 0 ≤ j → Z.testbit (2 ^ k) j = bool_decide (j = k).
Proof.
  intros. case_bool_decide as E; [subst; by rewrite Z.pow2_bits_true|].
  apply Z.pow2_bits_false. done.
Qed.

(** The byte written by [set_bit]. *)
Definition new_byte (b k : Z) (used : bool) : Z :=
  if used then Z.lor b (2 ^ k) else Z.land b (not_w 8 (2 ^ k)).

Lemma new_byte_bit b k used j :
  0 ≤ k < 8 → 0 ≤ j < 8 → Z.testbit (new_byte b k used) j = if decide (j = k) then used else Z.testbit b j.
Proof.
  intros. unfold new_byte, not_w. destruct used.
  - rewrite Z.lor_spec, testbit_pow2 by lia. case_decide; case_bool_decide; try done.
    + apply orb_true_r.
    + apply orb_false_r.
  - rewrite !Z.land_spec, Z.lnot_spec, testbit_pow2 by lia.
    rewrite Z.ones_spec_low, andb_true_r by lia. case_decide; case_bool_decide; try done.
    + apply andb_false_r.
    + apply andb_true_r.
Qed.

Lemma testbit_u8 b : u8 b ↔ 0 ≤ b ∧ ∀ j, 8 ≤ j → Z.testbit b j = false.
Proof.
  unfold urange. split.
  - intros [H0 H8]. split; [done|]. intros j Hj. destruct (decide (b = 0)) as [->|]; [apply Z.bits_0|].
    apply Z.bits_above_log2; [done|].
    pose proof (proj1 (Z.log2_lt_pow2 b 8 ltac:(lia)) H8). lia.
  - intros [H0 H]. split; [done|]. destruct (decide (b = 0)) as [->|]; [done|].
    apply Z.log2_lt_pow2; [lia|]. apply Z.lt_nge. intros Hge.
    pose proof (Z.bit_log2 b ltac:(lia)) as Hb. by rewrite H in Hb.
Qed.

Lemma new_byte_u8 b k used : u8 b → 0 ≤ k < 8 → u8 (new_byte b k used).
Proof.
  intros [Hb0 Hb]%testbit_u8 Hk. apply testbit_u8. unfold new_byte, not_w. destruct used.
  - split; [apply Z.lor_nonneg; lia|]. intros j Hj.
    rewrite Z.lor_spec, testbit_pow2, Hb by lia. case_bool_decide; [lia|done].
  - split; [by apply Z.land_nonneg; left|]. intros j Hj. by rewrite Z.land_spec, Hb.
Qed.

(** A step that changes the bits of the frames [first..last] to [used]. *)
Definition updates (first last : Z) (used : bool) (a a' : t) : Prop :=
  num_frames a' = num_frames a ∧ len (bitmap a') = len (bitmap a) ∧
  (bytes (bitmap a) → bytes (bitmap a')) ∧
  ∀ j, 0 ≤ j → is_used a' j = if decide (first ≤ j < last) then used else is_used a j.

Lemma set_bit_spec a frame used :
  covers a frame → ∃ a', set_bit a frame used = Ret a' ∧ updates frame (frame + 1) used a a'.
Proof.
  intros Hc. destruct (covers_get a frame Hc) as (b & Hb & Hr). unfold set_bit.
  pose proof (Z.mod_pos_bound frame 8 ltac:(lia)) as Hm.
  rewrite (index_get _ _ b), bind_Ret by done. rewrite set_index_ok, bind_Ret by done.
  rewrite one_shift by lia. fold (new_byte b (frame mod 8) used).
  eexists. split; [done|]. unfold updates. cbn [num_frames bitmap].
  split_and!; [done|by rewrite len_insert|..].
  - intros Hbs. apply Forall_insert; [done|]. apply new_byte_u8; [|lia].
    rewrite get_lookup in Hb by lia. by eapply Forall_lookup_1.
  - intros j Hj. unfold is_used. cbn [bitmap].
    assert (0 ≤ j / 8) by (Z.div_mod_to_equations; lia).
    pose proof (Z.mod_pos_bound j 8 ltac:(lia)).
    rewrite !get_lookup by lia. destruct (decide (j / 8 = frame / 8)) as [E|E].
    + rewrite E, list_lookup_insert_eq by (unfold len in *; lia).
      rewrite new_byte_bit by lia. rewrite get_lookup in Hb by lia. rewrite Hb.
      assert (j mod 8 = frame mod 8 ↔ frame ≤ j < frame + 1) by (Z.div_mod_to_equations; lia).
      repeat case_decide; tauto || done.
    + rewrite list_lookup_insert_ne by lia. rewrite decide_False; [done|].
      intros ?. apply E. f_equal. lia.
Qed.

Lemma updates_refl first last used a : last ≤ first → updates first last used a a.
Proof. intros. split_and!; try done. intros j Hj. rewrite decide_False by lia. done. Qed.

Lemma updates_cons page last used a a' a'' :
  page < last → updates page (page + 1) used a a' → updates (page + 1) last used a' a'' →
  updates page last used a a''.
Proof.
  intros ? (Hn & Hl & Hb & Hu) (Hn' & Hl' & Hb' & Hu').
  split_and!; [congruence|congruence|auto|]. intros j Hj. rewrite Hu', Hu by done.
  repeat case_decide; done || lia.
Qed.

Lemma updates_covers first last used a a' j : updates first last used a a' → covers a j → covers a' j.
Proof. intros (_ & Hl & _). unfold covers. by rewrite Hl. Qed.

Lemma updates_ok first last used a a' : updates first last used a a' → ppa_ok a → ppa_ok a'.
Proof. intros (Hn & Hl & Hb & _) (? & ? & ?). unfold ppa_ok. rewrite Hn, Hl. auto. Qed.

Lemma for_range_spec f used first last a :
  (∀ a page, f a page = set_bit a page used) →
  (∀ j, first ≤ j < last → covers a j) →
  ∃ a', for_range f first last a = Ret a' ∧ updates first last used a a'.
Proof.
  intros Hf. unfold for_range. remember (Z.to_nat (last - first)) as n eqn:Hn.
  revert first a Hn. induction n as [|n IH]; intros first a Hn Hc; cbn [for_pages].
  { exists a. split; [done|]. apply updates_refl. lia. }
  destruct (set_bit_spec a first used) as (a1 & E1 & U1); [apply Hc; lia|].
  rewrite Hf, E1, bind_Ret.
  destruct (IH (first + 1) a1) as (a2 & E2 & U2); [lia|intros j Hj; eapply updates_covers; [done|apply Hc; lia]|].
  exists a2. split; [done|]. eapply updates_cons; done || lia.
Qed.

(** ** Searching *)

(** [count] free frames from [s] on. *)
Definition free_run (a : t) (s count : Z) : Prop := ∀ j, s ≤ j < s + count → is_used a j = false.
Definition fits (a : t) (count s : Z) : Prop :=
  0 ≤ s ∧ s + count ≤ num_frames a ∧ free_run a s count.

(** The lowest place where [count] frames fit. *)
Definition first_fit (a : t) (count : Z) (r : option Z) : Prop :=
  match r with
  | Some s => fits a count s ∧ ∀ s', 0 ≤ s' < s → ¬ fits a count s'
  | None => ∀ s, ¬ fits a count s
  end.

(** Before page [page]: the last [len] pages are free, the one before them is not,
    and no run that is long enough has ended yet. *)
Definition search_inv (a : t) (count page start run : Z) : Prop :=
  0 ≤ run < count ∧ run ≤ page ∧ free_run a (page - run) run ∧
  (0 < run → start = page - run) ∧
  (page - run = 0 ∨ is_used a (page - run - 1) = true) ∧
  (∀ s, 0 ≤ s → s + count ≤ page → ¬ free_run a s count).

Lemma search_free a count page start run :
  search_inv a count page start run → is_used a page = false →
  let start' := if run =? 0 then page else start in
  (run + 1 = count → start' = page + 1 - count ∧ free_run a start' count) ∧
  (run + 1 ≠ count → search_inv a count (page + 1) start' (run + 1)).
Proof.
  intros (Hr & Hp & Hf & Hs & Hmax & Hno) Hfree start'.
  assert (start' = page - run) as Hst.
  { unfold start'. destruct (Z.eqb_spec run 0); [lia|apply Hs; lia]. }
  assert (free_run a (page - run) (run + 1)) as Hf'.
  { intros j Hj. destruct (decide (j = page)) as [->|]; [done|]. apply Hf. lia. }
  split.
  - intros Hc. split; [lia|]. by rewrite Hst, <- Hc.
  - intros Hc. replace (page + 1 - (run + 1)) with (page - run) by lia.
    split_and!; try lia; [by replace (page + 1 - (run + 1)) with (page - run) by lia|..].
    + by replace (page + 1 - (run + 1)) with (page - run) by lia.
    + intros s H0 Hle Hrun. destruct (decide (s + count ≤ page)); [by eapply Hno|].
      destruct Hmax as [?|Hu]; [lia|]. rewrite Hrun in Hu by lia. done.
Qed.

Lemma search_used a count page start run :
  search_inv a count page start run → is_used a page = true →
  search_inv a count (page + 1) start 0.
Proof.
  intros (Hr & Hp & _ & _ & _ & Hno) Hu. split_and!; try lia.
  - intros j Hj. lia.
  - right. by replace (page + 1 - 0 - 1) with page by lia.
  - intros s H0 Hle Hrun. destruct (decide (s + count ≤ page)); [by eapply Hno|].
    rewrite Hrun in Hu by lia. done.
Qed.

Lemma find_loop_spec a count n page start run :
  ppa_ok a → count < 2 ^ 64 → 0 ≤ page → page + Z.of_nat n = num_frames a →
  search_inv a count page start run →
  ∃ r, find_loop a count n page start run = Ret r ∧ first_fit a count r.
Proof.
  intros Hok Hc64. revert page start run. induction n as [|n IH]; intros page start run Hp Hn Hinv.
  { exists None. split; [done|]. intros s (H0 & Hle & Hrun).
    destruct Hinv as (_ & _ & _ & _ & _ & Hno). by apply (Hno s); [|lia|]. }
  cbn [find_loop]. rewrite is_free_eq, bind_Ret by (apply ppa_covers; [done|lia]).
  destruct (is_used a page) eqn:Hu; cbn [negb].
  { apply IH; [lia|lia|]. by eapply search_used. }
  pose proof (search_free _ _ _ _ _ Hinv Hu) as [Hfound Hmore].
  destruct Hinv as (Hr & Hrp & _ & _ & _ & Hno).
  unfold add_w. rewrite checked_ok, bind_Ret by (unfold urange; lia).
  destruct (Z.eqb_spec (run + 1) count) as [E|E]; [|apply IH; [lia|lia|by apply Hmore]].
  eexists. split; [done|]. destruct (Hfound E) as [Hst Hrun]. rewrite Hst in *.
  split; [split_and!; [lia..|done]|]. intros s' Hs' (_ & _ & Hrun'). by apply (Hno s'); [lia|lia|].
Qed.

Lemma find_contiguous_spec a count :
  ppa_ok a → 0 ≤ count < 2 ^ 64 →
  ∃ r, find_contiguous_pages a count = Ret r ∧
    if decide (count = 0) then r = None else first_fit a count r.
Proof.
  intros Hok Hc. unfold find_contiguous_pages. destruct (Hok) as (_ & _ & [Hn0 _]).
  destruct (decide (count = 0)) as [->|Hne]; [by exists None|].
  rewrite (proj2 (Z.eqb_neq count 0)) by done. apply find_loop_spec; try lia; [done|].
  split_and!; try lia. intros j Hj. lia.
Qed.

(** ** Allocating and freeing *)

Section Alloc.
Context (PhysAddr_new : Z → outcome Z).
(** [PhysAddr::new] accepts every address of at most 52 bits. *)
Context (PhysAddr_new_ok : ∀ a, urange 52 a → PhysAddr_new a = Ret a).

(** Physical memory that 52 bits can address. *)
Definition memory_ok (a : t) : Prop := ppa_ok a ∧ num_frames a ≤ 2 ^ 40.

Definition alloc_outcome (a : t) (count : Z) (r : option Z) (a' : t) : Prop :=
  match r with
  | Some addr => ∃ s, addr = s * 4096 ∧ 0 < count ∧ first_fit a count (Some s) ∧
      updates s (s + count) true a a'
  | None => a' = a ∧ (count = 0 ∨ first_fit a count None)
  end.

Lemma alloc_facts a count :
  memory_ok a → 0 ≤ count < 2 ^ 64 →
  ∃ r a', alloc_contiguous_pages PhysAddr_new a count = Ret (r, a') ∧ alloc_outcome a count r a'.
Proof using PhysAddr_new_ok.
  intros [Hok Hn] Hc. unfold alloc_contiguous_pages, alloc_outcome.
  destruct (find_contiguous_spec a count Hok Hc) as (r & -> & Hr). rewrite bind_Ret.
  destruct (decide (count = 0)) as [Hz|Hne].
  { rewrite Hr. eexists _, _; split; [done|]. cbn. auto. }
  destruct r as [s|]; [|eexists _, _; split; [done|]; cbn; auto].
  pose proof Hr as [(H0 & Hle & Hrun) _].
  unfold add_w, mul_w. cbn iota. rewrite (checked_ok 64 (s + count)), bind_Ret by (unfold urange; lia).
  destruct (for_range_spec set_used true s (s + count) a) as (a' & -> & U); [done|..].
  { intros j Hj. apply ppa_covers; [done|lia]. }
  rewrite bind_Ret, checked_ok, bind_Ret by (unfold urange; lia).
  rewrite PhysAddr_new_ok, bind_Ret by (unfold urange; lia).
  eexists _, _. split; [done|]. exists s. split_and!; try done. lia.
Qed.

Lemma dealloc_facts a s count :
  ppa_ok a → 0 ≤ s → 0 ≤ count → s + count ≤ num_frames a →
  ∃ a', dealloc_contiguous_pages a (s * 4096) count = Ret a' ∧ updates s (s + count) false a a'.
Proof.
  intros Hok H0 Hc Hle. unfold dealloc_contiguous_pages. rewrite Z.div_mul by done.
  unfold add_w. destruct (Hok) as (_ & _ & [_ H52]).
  rewrite checked_ok, bind_Ret by (unfold urange; lia).
  apply for_range_spec; [done|]. intros j Hj. apply ppa_covers; [done|lia].
Qed.
End Alloc.

(** Bitmaps are determined by the frames they say are used. *)
Lemma bitmap_ext a a' :
  bytes (bitmap a) → bytes (bitmap a') → len (bitmap a) = len (bitmap a') →
  num_frames a = num_frames a' → (∀ j, covers a j → is_used a j = is_used a' j) → a = a'.
Proof.
  intros Hb Hb' Hl Hn Hu. destruct a as [bm n], a' as [bm' n']. cbn in *. subst n'. f_equal.
  apply list_eq_same_length with (length bm); [unfold len in *; lia..|].
  intros i x y Hi Hx Hy.
  pose proof (Forall_lookup_1 _ _ _ _ Hb Hx) as [Hx0 Hx8]%testbit_u8.
  pose proof (Forall_lookup_1 _ _ _ _ Hb' Hy) as [Hy0 Hy8]%testbit_u8.
  apply Z.bits_inj'. intros k Hk. destruct (decide (k < 8)); [|by rewrite Hx8, Hy8 by lia].
  specialize (Hu (8 * Z.of_nat i + k)). unfold covers, is_used in Hu. cbn in Hu.
  assert ((8 * Z.of_nat i + k) / 8 = Z.of_nat i ∧ (8 * Z.of_nat i + k) mod 8 = k) as [Ed Em]
    by (Z.div_mod_to_equations; lia).
  rewrite Ed, Em, !get_lookup, Nat2Z.id, Hx, Hy in Hu by lia.
  apply Hu. unfold len. lia.
Qed.

(** ** Histories of allocations *)

Section History.
Context (PhysAddr_new : Z → outcome Z).
Context (PhysAddr_new_ok : ∀ a, urange 52 a → PhysAddr_new a = Ret a).

(** How many of the allocations [(addr, count)] hold frame [j]. *)
Definition owns (al : Z * Z) (j : Z) : bool :=
  bool_decide (al.1 / 4096 ≤ j < al.1 / 4096 + al.2).
Definition owners (live : list (Z * Z)) (j : Z) : Z :=
  foldr (λ al n, Z.b2z (owns al j) + n) 0 live.

(** The allocator and the allocations that are live, from [a0] on: any requests,
    and the return of any live allocation. *)
Inductive history (a0 : t) : t → list (Z * Z) → Prop :=
| HStart : history a0 a0 []
| HAlloc a live count addr a' :
    history a0 a live → 0 ≤ count < 2 ^ 64 →
    alloc_contiguous_pages PhysAddr_new a count = Ret (Some addr, a') →
    history a0 a' ((addr, count) :: live)
| HFail a live count a' :
    history a0 a live → 0 ≤ count < 2 ^ 64 →
    alloc_contiguous_pages PhysAddr_new a count = Ret (None, a') →
    history a0 a' live
| HFree a l1 addr count l2 a' :
    history a0 a (l1 ++ (addr, count) :: l2) →
    dealloc_contiguous_pages a addr count = Ret a' →
    history a0 a' (l1 ++ l2).

(** A live allocation: whole frames, of the memory there is. *)
Definition alloc_ok (frames : Z) (al : Z * Z) : Prop :=
  ∃ s, al.1 = s * 4096 ∧ 0 ≤ s ∧ 0 < al.2 ∧ s + al.2 ≤ frames.

(** What holds of every history: a frame is in use because it was at the start, or
    because exactly one live allocation holds it. *)
Definition history_inv (a0 a : t) (live : list (Z * Z)) : Prop :=
  memory_ok a ∧ num_frames a = num_frames a0 ∧ len (bitmap a) = len (bitmap a0) ∧
  (∀ j, 0 ≤ j → Z.b2z (is_used a j) = Z.b2z (is_used a0 j) + owners live j) ∧
  Forall (alloc_ok (num_frames a0)) live.

Lemma owners_app l1 l2 j : owners (l1 ++ l2) j = owners l1 j + owners l2 j.
Proof.
  induction l1 as [|al l1 IH]; [done|]. cbn [app owners foldr].
  fold (owners (l1 ++ l2) j) (owners l1 j). lia.
Qed.

Lemma owns_spec s count j : owns (s * 4096, count) j = bool_decide (s ≤ j < s + count).
Proof. unfold owns. cbn. by rewrite Z.div_mul. Qed.

Lemma owners_nonneg l j : 0 ≤ owners l j.
Proof.
  induction l as [|al l IH]; [done|]. cbn [owners foldr]. fold (owners l j).
  destruct (owns al j); simpl Z.b2z; lia.
Qed.

Lemma b2z_range b : 0 ≤ Z.b2z b ≤ 1.
Proof. by destruct b. Qed.

Lemma history_alloc a0 a live count r a' :
  history_inv a0 a live → alloc_outcome a count r a' →
  history_inv a0 a' (match r with Some addr => (addr, count) :: live | None => live end).
Proof.
  intros (Hm & Hn & Hl & Hu & Ha). destruct r as [addr|]; [|by intros [-> _]].
  intros (s & -> & Hc & [(H0 & Hle & Hrun) _] & U). pose proof U as (Hn' & Hl' & _ & Hu').
  split_and!; [split; [eapply updates_ok; [done|apply Hm]|rewrite Hn'; apply Hm]|congruence..| |].
  { intros j Hj. cbn [owners foldr]. fold (owners live j). rewrite owns_spec, Hu' by done. specialize (Hu j Hj).
    destruct (decide (s ≤ j < s + count)) as [Hin|Hin].
    - rewrite bool_decide_true by done. rewrite Hrun in Hu by done.
      change (Z.b2z true) with 1. change (Z.b2z false) with 0 in Hu. lia.
    - rewrite bool_decide_false by done. change (Z.b2z false) with 0. lia. }
  constructor; [|done]. exists s. rewrite <- Hn. done.
Qed.

Lemma history_free a0 a l1 s count l2 a' :
  history_inv a0 a (l1 ++ (s * 4096, count) :: l2) → updates s (s + count) false a a' →
  history_inv a0 a' (l1 ++ l2).
Proof.
  intros (Hm & Hn & Hl & Hu & Ha) U. pose proof U as (Hn' & Hl' & _ & Hu').
  split_and!; [split; [eapply updates_ok; [done|apply Hm]|rewrite Hn'; apply Hm]|congruence..| |].
  - intros j Hj. specialize (Hu j Hj). rewrite Hu' by done.
    rewrite owners_app in *. cbn [owners foldr] in Hu. fold (owners l2 j) in Hu. rewrite owns_spec in Hu.
    pose proof (owners_nonneg l1 j). pose proof (owners_nonneg l2 j).
    pose proof (b2z_range (is_used a j)). pose proof (b2z_range (is_used a0 j)).
    destruct (decide (s ≤ j < s + count)) as [Hin|Hin].
    + rewrite bool_decide_true in Hu by done. change (Z.b2z true) with 1 in Hu.
      change (Z.b2z false) with 0. lia.
    + rewrite bool_decide_false in Hu by done. change (Z.b2z false) with 0 in Hu. lia.
  - apply Forall_app in Ha as [? Ha]. apply Forall_cons in Ha as [_ ?]. by apply Forall_app.
Qed.

(** Every history keeps its invariant. *)
Lemma history_holds a0 a live : memory_ok a0 → history a0 a live → history_inv a0 a live.
Proof using PhysAddr_new_ok.
  intros H0. induction 1 as [|a live count addr a' _ IH Hc E|a live count a' _ IH Hc E|a l1 addr count l2 a' _ IH E].
  - split_and!; try done. intros j Hj. cbn. lia.
  - destruct (alloc_facts PhysAddr_new PhysAddr_new_ok a count) as (r & a2 & E2 & Ho); [apply IH|done|].
    rewrite E in E2. injection E2 as <- <-. by apply (history_alloc a0 a live count (Some addr)).
  - destruct (alloc_facts PhysAddr_new PhysAddr_new_ok a count) as (r & a2 & E2 & Ho); [apply IH|done|].
    rewrite E in E2. injection E2 as <- <-. by apply (history_alloc a0 a live count None).
  - pose proof IH as (Hm & Hn & _ & _ & Ha). apply Forall_app in Ha as [_ Ha].
    apply Forall_cons in Ha as [(s & Es & Hs0 & Hc & Hle) _]. cbn in *. subst addr.
    destruct (dealloc_facts a s count) as (a2 & E2 & U); [apply Hm|lia..|].
    rewrite E in E2. injection E2 as <-. by eapply history_free.
Qed.

(** With everything given back, the allocator is what it was. *)
Lemma history_trans a0 a live a' live' :
  history a0 a live → history a a' live' → history a0 a' (live' ++ live).
Proof.
  intros H1. induction 1 as [|a1 live1 count addr a2 _ IH Hc E|a1 live1 count a2 _ IH Hc E|a1 l1 addr count l2 a2 _ IH E].
  - done.
  - by eapply HAlloc.
  - by eapply HFail.
  - rewrite <- app_assoc. eapply HFree; [|done]. by rewrite <- app_assoc in IH.
Qed.

Lemma history_restored a0 a : memory_ok a0 → history a0 a [] → a = a0.
Proof using PhysAddr_new_ok.
  intros H0 Hh. destruct (history_holds a0 a [] H0 Hh) as ([Hok _] & Hn & Hl & Hu & _).
  apply bitmap_ext; [apply Hok|apply H0|done..|]. intros j [Hj _]. specialize (Hu j Hj). cbn in Hu.
  destruct (is_used a j), (is_used a0 j); done.
Qed.
End History.

(** ** Building the allocator *)

(** The virtual addresses of x86_64: bits 48 to 63 are copies of bit 47.  [VirtAddr::new]
    panics on any other. *)
Definition canonical (v : Z) : Prop := 0 ≤ v < 2 ^ 47 ∨ 2 ^ 64 - 2 ^ 47 ≤ v < 2 ^ 64.
#[global] Instance canonical_dec v : Decision (canonical v).
Proof. unfold canonical. apply _. Defined.

Section New.
Context (PhysAddr_new VirtAddr_new : Z → outcome Z) (raw_bytes : Z → Z → list Z).
Context (PhysAddr_new_ok : ∀ a, urange 52 a → PhysAddr_new a = Ret a).
Context (VirtAddr_new_ok : ∀ v, canonical v → VirtAddr_new v = Ret v).
Context (raw_bytes_len : ∀ p n, 0 ≤ n → len (raw_bytes p n) = n).
Context (offset : Z) (map : list MemoryRegion.t).

Definition region_ok (r : MemoryRegion.t) : Prop :=
  0 ≤ MemoryRegion.start_addr r ≤ MemoryRegion.end_addr r ∧ MemoryRegion.end_addr r < 2 ^ 52.

(** The frames a region touches. *)
Definition touches (start last j : Z) : Prop := start / PAGE_SIZE ≤ j < div_ceil last PAGE_SIZE.
#[global] Instance touches_dec start last j : Decision (touches start last j).
Proof. unfold touches. apply _. Defined.

Definition usable_frame (rs : list MemoryRegion.t) (j : Z) : Prop :=
  ∃ r, r ∈ rs ∧ MemoryRegion.usable r = true ∧
    touches (MemoryRegion.start_addr r) (MemoryRegion.end_addr r) j.

(** The frames the map speaks of, and the bytes their bitmap takes, in pages. *)
Definition frames_of (max : Z) : Z := div_ceil max PAGE_SIZE.
Definition bitmap_size (max : Z) : Z :=
  div_ceil (div_ceil (frames_of max) 8) PAGE_SIZE * PAGE_SIZE.

Lemma max_end_spec m :
  max_end map = Some m → (∀ r, r ∈ map → MemoryRegion.end_addr r ≤ m) ∧
  ∃ r, r ∈ map ∧ MemoryRegion.end_addr r = m.
Proof.
  revert m. induction map as [|r rs IH]; intros m; [done|]. cbn [max_end]. intros [= <-].
  destruct (max_end rs) as [m'|] eqn:E.
  - destruct (IH m' eq_refl) as (Hle & r' & Hr' & Hm'). split.
    + intros x [->|Hx]%elem_of_cons; [lia|]. specialize (Hle x Hx). lia.
    + destruct (decide (m' ≤ MemoryRegion.end_addr r)).
      * exists r. split; [by left|lia].
      * exists r'. split; [by right|lia].
  - destruct rs as [|r' rs]; [|by destruct (max_end rs)]. split.
    + intros x [->|[]%elem_of_nil]%elem_of_cons. lia.
    + exists r. split; [by left|lia].
Qed.

Lemma find_region_spec size :
  Forall region_ok map →
  ∃ r, find_region size map = Ret r ∧
  match r with
  | Some r => r ∈ map ∧ MemoryRegion.usable r = true ∧
      size ≤ MemoryRegion.end_addr r - MemoryRegion.start_addr r
  | None => ∀ r, r ∈ map → MemoryRegion.usable r = true →
      MemoryRegion.end_addr r - MemoryRegion.start_addr r < size
  end.
Proof.
  induction map as [|r rs IH]; intros Hok; cbn [find_region].
  { exists None. split; [done|]. intros r Hr. by apply elem_of_nil in Hr. }
  apply Forall_cons in Hok as [[Hr1 Hr2] Hrs]. destruct (IH Hrs) as (x & Hx & Hs).
  assert ((MemoryRegion.usable r = true →
           MemoryRegion.end_addr r - MemoryRegion.start_addr r < size) →
    ∃ r0, find_region size rs = Ret r0 ∧
    match r0 with
    | Some r0 => r0 ∈ r :: rs ∧ MemoryRegion.usable r0 = true ∧
        size ≤ MemoryRegion.end_addr r0 - MemoryRegion.start_addr r0
    | None => ∀ r0, r0 ∈ r :: rs → MemoryRegion.usable r0 = true →
        MemoryRegion.end_addr r0 - MemoryRegion.start_addr r0 < size
    end) as Hskip.
  { intros Hsmall. exists x. split; [done|]. destruct x as [x|].
    - destruct Hs as (? & ? & ?). split_and!; [by right|done..].
    - intros r0 [->|Hin]%elem_of_cons; auto. }
  destruct (MemoryRegion.usable r) eqn:Hu; [|by apply Hskip].
  unfold sub_w. rewrite checked_ok, bind_Ret by (unfold urange; lia).
  destruct (Z.leb_spec size (MemoryRegion.end_addr r - MemoryRegion.start_addr r)).
  - exists (Some r). split; [done|]. split_and!; [by left|done..].
  - apply Hskip. lia.
Qed.

Lemma free_usable_spec rs a :
  (∀ j, usable_frame rs j → covers a j) →
  ∃ a', free_usable rs a = Ret a' ∧ num_frames a' = num_frames a ∧
    len (bitmap a') = len (bitmap a) ∧ (bytes (bitmap a) → bytes (bitmap a')) ∧
    ∀ j, 0 ≤ j → is_used a' j = false ↔ usable_frame rs j ∨ is_used a j = false.
Proof.
  revert a. induction rs as [|r rs IH]; intros a Hc; cbn [free_usable].
  { exists a. split_and!; try done. intros j Hj. split; [auto|].
    intros [(r & []%elem_of_nil & _)|?]; done. }
  assert (∃ a1, (if MemoryRegion.usable r then
      mark_region_free a (MemoryRegion.start_addr r) (MemoryRegion.end_addr r) else Ret a) = Ret a1 ∧
    num_frames a1 = num_frames a ∧ len (bitmap a1) = len (bitmap a) ∧
    (bytes (bitmap a) → bytes (bitmap a1)) ∧
    ∀ j, 0 ≤ j → is_used a1 j = false ↔
      (MemoryRegion.usable r = true ∧
       touches (MemoryRegion.start_addr r) (MemoryRegion.end_addr r) j) ∨ is_used a j = false)
    as (a1 & E1 & Hn1 & Hl1 & Hb1 & Hu1).
  { destruct (MemoryRegion.usable r) eqn:Hu; [|exists a; naive_solver].
    destruct (for_range_spec (λ a frame, set_bit a frame false) false
      (MemoryRegion.start_addr r / PAGE_SIZE) (div_ceil (MemoryRegion.end_addr r) PAGE_SIZE) a)
      as (a1 & E & Hn & Hl & Hb & Hused); [done|..].
    { intros j Hj. apply Hc. exists r. split; [by left|done]. }
    exists a1. split_and!; try done. intros j Hj. rewrite Hused by done. unfold touches.
    case_decide; naive_solver. }
  rewrite E1, bind_Ret. destruct (IH a1) as (a2 & E2 & Hn2 & Hl2 & Hb2 & Hu2).
  { intros j (r' & Hr' & ?). unfold covers. rewrite Hl1. apply Hc. exists r'. split; [by right|done]. }
  exists a2. split_and!; [done|congruence|congruence|auto|]. intros j Hj. rewrite Hu2, Hu1 by done.
  unfold usable_frame. setoid_rewrite elem_of_cons. naive_solver.
Qed.

Lemma div_ceil_mono a b : 0 ≤ a → a ≤ b → div_ceil a PAGE_SIZE ≤ div_ceil b PAGE_SIZE.
Proof.
  intros. unfold PAGE_SIZE in *. pose proof (div_ceil_bounds a 4096). pose proof (div_ceil_bounds b 4096).
  lia.
Qed.

Lemma used_replicate n frames j :
  0 ≤ j → is_used {| bitmap := replicate n 0xff; num_frames := frames |} j = true.
Proof.
  intros Hj. unfold is_used. cbn [bitmap]. pose proof (Z.mod_pos_bound j 8 ltac:(lia)).
  destruct (get _ _) as [b|] eqn:E; [|done]. unfold get in E. destruct (0 <=? j / 8); [|done].
  apply lookup_replicate in E as [-> _]. apply (Z.ones_spec_low 8). lia.
Qed.

(** What is asked of the memory map: it is not empty, fits in 52 bits and has room
    for the bitmap. *)
Definition map_ok (max : Z) : Prop :=
  max_end map = Some max ∧ Forall region_ok map ∧ 0 < max ∧
  ∃ r, r ∈ map ∧ MemoryRegion.usable r = true ∧
    bitmap_size max ≤ MemoryRegion.end_addr r - MemoryRegion.start_addr r.

(** The sizes the map gives. *)
Lemma map_sizes max :
  map_ok max → 0 < max < 2 ^ 52 ∧
  (∀ r, r ∈ map → region_ok r ∧ MemoryRegion.end_addr r ≤ max) ∧
  max ≤ 4096 * frames_of max < max + 4096 ∧
  frames_of max ≤ 8 * div_ceil (frames_of max) 8 < frames_of max + 8 ∧
  div_ceil (frames_of max) 8 ≤ bitmap_size max < div_ceil (frames_of max) 8 + 4096.
Proof.
  intros (Hmax & Hok & H0 & _). destruct (max_end_spec max Hmax) as (Hle & r1 & Hr1 & Hm1).
  pose proof (proj1 (Forall_forall _ _) Hok) as Hall.
  assert (max < 2 ^ 52) by (rewrite <- Hm1; by apply (Hall r1)).
  assert (max ≤ 4096 * frames_of max < max + 4096) by (apply (div_ceil_bounds max 4096); lia).
  assert (frames_of max ≤ 8 * div_ceil (frames_of max) 8 < frames_of max + 8)
    by (apply div_ceil_bounds; lia).
  pose proof (div_ceil_bounds (div_ceil (frames_of max) 8) 4096).
  unfold bitmap_size, PAGE_SIZE. split_and!; auto; lia.
Qed.

(** The bitmap before anything is freed: every frame in use. *)
Definition all_used (n bytes : Z) : t :=
  {| bitmap := replicate (Z.to_nat bytes) 0xff; num_frames := n |}.

Lemma new_reduces max :
  map_ok max → (∀ x, 0 ≤ x < max → canonical (offset + x)) →
  ∃ r, r ∈ map ∧ MemoryRegion.usable r = true ∧
    bitmap_size max ≤ MemoryRegion.end_addr r - MemoryRegion.start_addr r ∧
    new PhysAddr_new VirtAddr_new raw_bytes offset map =
      (a ← free_usable map (all_used (frames_of max) (div_ceil (frames_of max) 8));
       mark_region_used a (MemoryRegion.start_addr r)
         (MemoryRegion.start_addr r + bitmap_size max)).
Proof using PhysAddr_new_ok VirtAddr_new_ok raw_bytes_len.
  intros Hm Ho. destruct (map_sizes max Hm) as (H0 & Hall & Hf & Hb & Hs).
  destruct Hm as (Hmax & Hok & _ & r0 & Hr0 & Hu0 & Hsz0).
  destruct (find_region_spec (bitmap_size max) Hok) as (fr & Hfr & Hspec).
  destruct fr as [r|]; [|specialize (Hspec r0 Hr0 Hu0); lia].
  destruct Hspec as (Hr & Hu & Hfit). exists r. split_and!; try done.
  destruct (Hall r Hr) as [[Hra Hrb] Hrm]. assert (canonical (offset + MemoryRegion.start_addr r)) as Hc
    by (apply Ho; lia). pose proof Hc as Hu64. unfold canonical in Hu64.
  unfold new. rewrite Hmax. cbn [expect]. rewrite bind_Ret. fold (frames_of max).
  unfold mul_w, add_w. fold (bitmap_size max). rewrite checked_ok, bind_Ret by (unfold urange; lia).
  rewrite Hfr, bind_Ret. cbn [expect]. rewrite bind_Ret.
  rewrite PhysAddr_new_ok, bind_Ret by (unfold urange; lia).
  rewrite (checked_ok 64 (offset + _)), bind_Ret by (unfold urange; lia).
  rewrite VirtAddr_new_ok, bind_Ret by done.
  match goal with |- context [raw_bytes ?p ?n] =>
    replace (length (raw_bytes p n)) with (Z.to_nat n)
      by (pose proof (raw_bytes_len p n ltac:(lia)); unfold len in *; lia) end.
  fold (all_used (frames_of max) (div_ceil (frames_of max) 8)).
  destruct (free_usable map _) as [a| |]; [|done..]. rewrite !bind_Ret.
  by rewrite checked_ok, bind_Ret by (unfold urange; lia).
Qed.

Lemma new_facts max :
  map_ok max → (∀ x, 0 ≤ x < max → canonical (offset + x)) →
  ∃ a r, new PhysAddr_new VirtAddr_new raw_bytes offset map = Ret a ∧
    r ∈ map ∧ MemoryRegion.usable r = true ∧
    MemoryRegion.start_addr r + bitmap_size max ≤ MemoryRegion.end_addr r ∧
    memory_ok a ∧ num_frames a = frames_of max ∧
    ∀ j, 0 ≤ j → is_used a j = false ↔ usable_frame map j ∧
      ¬ touches (MemoryRegion.start_addr r) (MemoryRegion.start_addr r + bitmap_size max) j.
Proof using PhysAddr_new_ok VirtAddr_new_ok raw_bytes_len.
  intros Hm Ho. destruct (new_reduces max Hm Ho) as (r & Hr & Hu & Hfit & ->).
  destruct (map_sizes max Hm) as (H0 & Hall & Hf & Hb & Hs).
  set (a0 := all_used (frames_of max) (div_ceil (frames_of max) 8)).
  assert (len (bitmap a0) = div_ceil (frames_of max) 8) as Hl0 by (apply (len_array 0xff); lia).
  assert (∀ start last j, 0 ≤ start → 0 ≤ last ≤ max → touches start last j → covers a0 j) as Hcov.
  { intros start last j ? ? [Hj1 Hj2]. unfold covers. rewrite Hl0.
    pose proof (div_ceil_mono last max). fold (frames_of max) in *.
    assert (0 ≤ start / PAGE_SIZE) by (apply Z.div_pos; unfold PAGE_SIZE; lia). lia. }
  destruct (free_usable_spec map a0) as (a1 & E1 & Hn1 & Hl1 & Hb1 & Hu1).
  { intros j (r' & Hr' & _ & Ht). destruct (Hall r' Hr') as [[? ?] ?]. eapply Hcov; [| |done]; lia. }
  rewrite E1, bind_Ret. destruct (Hall r Hr) as [[Hra Hrb] Hrm].
  destruct (for_range_spec set_used true (MemoryRegion.start_addr r / PAGE_SIZE)
    (div_ceil (MemoryRegion.start_addr r + bitmap_size max) PAGE_SIZE) a1) as (a2 & E2 & U);
    [done|intros j Hj; unfold covers; rewrite Hl1; eapply Hcov; [| |exact Hj]; lia|].
  pose proof U as (Hn2 & Hl2 & Hb2 & Hu2). exists a2, r. split_and!; try done; [lia|..].
  - split; [split; [|split]|].
    + apply Hb2, Hb1. by apply Forall_replicate.
    + by rewrite Hl2, Hl1, Hl0, Hn2, Hn1.
    + rewrite Hn2, Hn1. unfold urange. cbn. lia.
    + rewrite Hn2, Hn1. cbn. lia.
  - by rewrite Hn2, Hn1.
  - intros j Hj. rewrite Hu2 by done.
    pose proof (used_replicate (Z.to_nat (div_ceil (frames_of max) 8)) (frames_of max) j Hj) as Hused.
    fold (all_used (frames_of max) (div_ceil (frames_of max) 8)) a0 in Hused.
    specialize (Hu1 j Hj). destruct (decide _) as [Hin|Hin].
    + split; [done|]. by intros [_ Hn].
    + rewrite Hu1, Hused. split; [by intros [?|?]|]. intros [? _]. by left.
Qed.
End New.

(** ** Theorems *)

(** C24.  Allocating, on every state and request: it never panics; it fails, changing
    nothing, exactly when no frames are asked for or no free run is long enough;
    otherwise it returns the lowest address where the run fits, all of it free
    before and in use after, and no other frame changes. *)
Theorem alloc_spec (PhysAddr_new : Z → outcome Z) (a : t) (count : Z)
    (PhysAddr_new_ok : ∀ x, urange 52 x → PhysAddr_new x = Ret x)
    (Ha : memory_ok a) (Hc : 0 ≤ count < 2 ^ 64) :
  ∃ r a', alloc_contiguous_pages PhysAddr_new a count = Ret (r, a') ∧ memory_ok a' ∧
    alloc_outcome a count r a'.
Proof.
  destruct (alloc_facts PhysAddr_new PhysAddr_new_ok a count Ha Hc) as (r & a' & E & Ho).
  exists r, a'. split_and!; try done. destruct r as [addr|]; cbn in Ho.
  - destruct Ho as (s & _ & _ & _ & U). split; [eapply updates_ok; [done|apply Ha]|].
    destruct U as (-> & _). apply Ha.
  - by destruct Ho as [-> _].
Qed.

(** C10.  No double allocation and no leak.  In every history of requests and of
    returns of live allocations, a frame is in use exactly when it was at the start
    or one live allocation holds it, never two, and never a frame that was in use
    at the start; every live allocation is a run of whole frames of the memory. *)
Theorem history_spec (PhysAddr_new : Z → outcome Z) (a0 a : t) (live : list (Z * Z))
    (PhysAddr_new_ok : ∀ x, urange 52 x → PhysAddr_new x = Ret x)
    (H0 : memory_ok a0) (Hh : history PhysAddr_new a0 a live) :
  memory_ok a ∧
  (∀ j, 0 ≤ j → Z.b2z (is_used a j) = Z.b2z (is_used a0 j) + owners live j) ∧
  Forall (alloc_ok (num_frames a0)) live.
Proof. by destruct (history_holds PhysAddr_new PhysAddr_new_ok a0 a live H0 Hh) as (? & _ & _ & ? & ?). Qed.

(** Returning what was allocated restores the allocator bit for bit. *)
Theorem alloc_dealloc (PhysAddr_new : Z → outcome Z) (a a' : t) (count addr : Z)
    (PhysAddr_new_ok : ∀ x, urange 52 x → PhysAddr_new x = Ret x)
    (Ha : memory_ok a) (Hc : 0 ≤ count < 2 ^ 64)
    (Hal : alloc_contiguous_pages PhysAddr_new a count = Ret (Some addr, a')) :
  dealloc_contiguous_pages a' addr count = Ret a.
Proof.
  destruct (alloc_facts PhysAddr_new PhysAddr_new_ok a count Ha Hc) as (r & a1 & E & Ho).
  rewrite Hal in E. injection E as <- <-. destruct Ho as (s & -> & Hpos & [(Hs & Hle & Hrun) _] & U).
  pose proof U as (Hn & Hl & Hb & Hu). destruct Ha as [Hok Hmax].
  pose proof (updates_ok _ _ _ _ _ U Hok) as Hok'.
  destruct (dealloc_facts a' s count) as (a2 & -> & U2); [done|lia|lia|lia|]. f_equal.
  pose proof U2 as (Hn2 & Hl2 & Hb2 & Hu2).
  apply bitmap_ext; [apply Hb2, Hok'|apply Hok|congruence|congruence|].
  intros j [Hj _]. rewrite Hu2, Hu by done. repeat case_decide; try done. by rewrite Hrun.
Qed.

(** C25.  Building the allocator from a memory map of at most 52 bits with room for
    the bitmap, all of it mapped at canonical addresses, never panics.  A frame is free
    exactly when a usable region touches it and it does not hold the bitmap, which lies
    within a usable region. *)
Theorem new_ppa_spec (PhysAddr_new VirtAddr_new : Z → outcome Z) (raw_bytes : Z → Z → list Z)
    (offset max : Z) (map : list MemoryRegion.t)
    (PhysAddr_new_ok : ∀ x, urange 52 x → PhysAddr_new x = Ret x)
    (VirtAddr_new_ok : ∀ v, canonical v → VirtAddr_new v = Ret v)
    (raw_bytes_len : ∀ p n, 0 ≤ n → len (raw_bytes p n) = n)
    (Hmap : map_ok map max) (Hoff : ∀ x, 0 ≤ x < max → canonical (offset + x)) :
  ∃ a r, new PhysAddr_new VirtAddr_new raw_bytes offset map = Ret a ∧
    r ∈ map ∧ MemoryRegion.usable r = true ∧
    MemoryRegion.start_addr r + bitmap_size max ≤ MemoryRegion.end_addr r ∧
    memory_ok a ∧ num_frames a = frames_of max ∧
    ∀ j, 0 ≤ j → is_used a j = false ↔ usable_frame map j ∧
      ¬ touches (MemoryRegion.start_addr r) (MemoryRegion.start_addr r + bitmap_size max) j.
Proof. by apply new_facts. Qed.

(** ** A small machine *)

Definition phys_new (a : Z) : outcome Z := if (0 <=? a) && (a <? 2 ^ 52) then Ret a else Panic.
Lemma phys_new_ok : ∀ x, urange 52 x → phys_new x = Ret x.
Proof.
  intros x [? ?]. unfold phys_new.
  by rewrite (proj2 (Z.leb_le _ _)), (proj2 (Z.ltb_lt _ _)) by lia.
Qed.

(** A constructor that checks. *)
Definition virt_new (v : Z) : outcome Z := if decide (canonical v) then Ret v else Panic.
Lemma virt_new_ok : ∀ v, canonical v → virt_new v = Ret v.
Proof. intros v Hv. unfold virt_new. by rewrite decide_True. Qed.

(** Twelve frames: 0, 1 and 5 are in use. *)
Definition small : t := {| bitmap := [0x23; 0xf0]; num_frames := 12 |}.
Lemma small_ok : memory_ok small.
Proof. split; [split_and!|]; first [apply (bool_decide_unpack _); vm_compute; exact I|vm_compute; congruence|reflexivity]. Qed.

Example small_allocs :
  alloc_contiguous_pages phys_new small 3 = Ret (Some 8192, {| bitmap := [0x3f; 0xf0]; num_frames := 12 |}) ∧
  alloc_contiguous_pages phys_new small 4 = Ret (Some 24576, {| bitmap := [0xe3; 0xf3]; num_frames := 12 |}) ∧
  alloc_contiguous_pages phys_new small 7 = Ret (None, small).
Proof. split_and!; vm_compute; reflexivity. Qed.

Lemma alloc_spec_witness :
  memory_ok small ∧ ∃ r a', alloc_contiguous_pages phys_new small 3 = Ret (r, a').
Proof.
  split; [exact small_ok|].
  destruct (alloc_spec phys_new small 3 phys_new_ok small_ok) as (r & a' & E & _); [lia|].
  exists r, a'. exact E.
Defined.

Lemma history_spec_witness :
  history phys_new small {| bitmap := [0x3f; 0xf0]; num_frames := 12 |} [(8192, 3)] ∧
  owners [(8192, 3)] 4 = 1.
Proof.
  assert (history phys_new small {| bitmap := [0x3f; 0xf0]; num_frames := 12 |} [(8192, 3)]) as Hh.
  { eapply HAlloc; [apply HStart|lia|vm_compute; reflexivity]. }
  split; [exact Hh|].
  destruct (history_spec phys_new _ _ _ phys_new_ok small_ok Hh) as (_ & Hu & _).
  specialize (Hu 4 ltac:(lia)). vm_compute in Hu |- *. congruence.
Defined.

Lemma alloc_dealloc_witness :
  dealloc_contiguous_pages {| bitmap := [0x3f; 0xf0]; num_frames := 12 |} 8192 3 = Ret small.
Proof.
  apply (alloc_dealloc phys_new small _ 3 8192 phys_new_ok small_ok); [lia|].
  vm_compute. reflexivity.
Defined.

Definition small_map : list MemoryRegion.t := [
  {| MemoryRegion.start_addr := 0; MemoryRegion.end_addr := 4096; MemoryRegion.usable := false |};
  {| MemoryRegion.start_addr := 4096; MemoryRegion.end_addr := 40960; MemoryRegion.usable := true |}].

(** Mapped at the bottom of the upper half. *)
Lemma new_ppa_spec_witness :
  map_ok small_map 40960 ∧
  ∃ a, new phys_new virt_new (λ _ n, replicate (Z.to_nat n) 0) 0xFFFF800000000000 small_map = Ret a ∧
    num_frames a = 10.
Proof.
  assert (map_ok small_map 40960) as Hm.
  { split_and!; [reflexivity| |lia|].
    - repeat constructor; vm_compute; congruence.
    - eexists. split; [right; left|]. split; [reflexivity|]. vm_compute. congruence. }
  split; [exact Hm|].
  destruct (new_ppa_spec phys_new virt_new (λ _ n, replicate (Z.to_nat n) 0) 0xFFFF800000000000 40960 small_map
              phys_new_ok virt_new_ok) as (a & r & E & _ & _ & _ & _ & Hn & _);
    [intros; apply (len_array 0); lia|exact Hm|unfold canonical; lia|].
  exists a. split; [exact E|exact Hn].
Defined.
