(* ===== verification/Streams.v ===== *)
(** * Event streams: [kernel/src/task/serial.rs] and the stream half of
      [kernel/src/task/network.rs]

    The two files have the same shape: an interrupt handler pushes onto a bounded
    queue and wakes whoever waits; the stream pops, and registers its waker when
    there is nothing to pop.  [ArrayQueue], [AtomicWaker] and [OnceCell] come from
    crates, so the queue and the waker are classes; polling is cut at its atomic
    actions, so that the handler can run between any two of them. *)

From S2P Require Import Prelude.
Local Open Scope Z_scope.

(** ** What the crates provide *)

(** [crossbeam_queue::ArrayQueue]: a bounded FIFO queue. *)
Class ArrayQueue (Q E : Type) := {
  queue_new : Z → Q;
  queue_push : E → Q → result Q E;
  queue_pop : Q → option (E * Q);
  queue_is_empty : Q → bool;
}.
Class ArrayQueueOk (Q E : Type) `{ArrayQueue Q E} := {
  contents : Q → list E;
  capacity : Q → Z;
  queue_new_ok : ∀ n, contents (queue_new n) = [] ∧ capacity (queue_new n) = n;
  queue_push_ok : ∀ e q,
    match queue_push e q with
    | Ok q' => len (contents q) < capacity q ∧ contents q' = contents q ++ [e] ∧
        capacity q' = capacity q
    | Err e' => capacity q ≤ len (contents q) ∧ e' = e
    end;
  queue_pop_ok : ∀ q,
    match queue_pop q with
    | Some (e, q') => contents q = e :: contents q' ∧ capacity q' = capacity q
    | None => contents q = []
    end;
  queue_is_empty_ok : ∀ q, queue_is_empty q = true ↔ contents q = [];
}.

(** [futures_util::task::AtomicWaker]: holds at most one waker; waking and taking
    empty it. *)
Class AtomicWaker (A Wk : Type) := {
  aw_new : A;
  aw_register : Wk → A → A;
  aw_wake : A → option Wk * A;
  aw_take : A → option Wk * A;
}.
Class AtomicWakerOk (A Wk : Type) `{AtomicWaker A Wk} := {
  registered : A → option Wk;
  aw_new_ok : registered aw_new = None;
  aw_register_ok : ∀ w a, registered (aw_register w a) = Some w;
  aw_wake_ok : ∀ a, (aw_wake a).1 = registered a ∧ registered (aw_wake a).2 = None;
  aw_take_ok : ∀ a, (aw_take a).1 = registered a ∧ registered (aw_take a).2 = None;
}.

Definition QUEUE_SIZE : Z := 100.

(** The [println!]s. *)
Inductive warning := QueueFull | QueueUninitialized.

Section Stream.
Context {Q E A Wk : Type} `{HQ : ArrayQueue Q E} `{HA : AtomicWaker A Wk}.

(** The two statics; [woken] and [warnings] record the wakers woken and the
    messages printed, in order. *)
Record stream := Stream {
  queue : option Q;
  waker : A;
  woken : list Wk;
  warnings : list warning;
}.

Definition uninit : stream := Stream None aw_new [] [].

(** [add_event] and [add_byte], called from the interrupt handlers. *)
Definition add_event (evt : E) (st : stream) : stream :=
  match queue st with
  | Some q =>
      match queue_push evt q with
      | Err _ => Stream (queue st) (waker st) (woken st) (warnings st ++ [QueueFull])
      | Ok q => Stream (Some q) (aw_wake (waker st)).2
                  (woken st ++ option_list (aw_wake (waker st)).1) (warnings st)
      end
  | None => Stream (queue st) (waker st) (woken st) (warnings st ++ [QueueUninitialized])
  end.

(** [NetworkStream::new] and [SerialStream::new]. *)
Definition stream_new (st : stream) : outcome stream :=
  match queue st with
  | None => Ret (Stream (Some (queue_new QUEUE_SIZE)) (waker st) (woken st) (warnings st))
  | Some _ => Panic
  end.

Inductive poll := Ready (evt : E) | Pending.

(** Where [poll_next] is: before its first pop, before registering, before its
    second pop, before dropping the waker it no longer needs, at its end. *)
Inductive pc := AtStart | AtRegister | AtSecondPop | AtTake (evt : E) | AtEnd (r : poll).

(** One atomic action of [poll_next], polled with [cx]. *)
Definition poll_step (cx : Wk) (at_ : pc) (st : stream) : outcome (pc * stream) :=
  match at_ with
  | AtStart =>
      q ← expect (queue st);
      match queue_pop q with
      | Some (evt, q) => Ret (AtEnd (Ready evt), Stream (Some q) (waker st) (woken st) (warnings st))
      | None => Ret (AtRegister, st)
      end
  | AtRegister =>
      Ret (AtSecondPop, Stream (queue st) (aw_register cx (waker st)) (woken st) (warnings st))
  | AtSecondPop =>
      q ← expect (queue st);
      match queue_pop q with
      | Some (evt, q) => Ret (AtTake evt, Stream (Some q) (waker st) (woken st) (warnings st))
      | None => Ret (AtEnd Pending, st)
      end
  | AtTake evt =>
      Ret (AtEnd (Ready evt), Stream (queue st) (aw_take (waker st)).2 (woken st) (warnings st))
  | AtEnd r => Ret (AtEnd r, st)
  end.

(** [poll_next] without an interruption. *)
Definition poll_next (cx : Wk) (st : stream) : outcome (poll * stream) :=
  q ← expect (queue st);
  match queue_pop q with
  | Some (evt, q) => Ret (Ready evt, Stream (Some q) (waker st) (woken st) (warnings st))
  | None =>
      let st := Stream (queue st) (aw_register cx (waker st)) (woken st) (warnings st) in
      q ← expect (queue st);
      match queue_pop q with
      | Some (evt, q) =>
          Ret (Ready evt, Stream (Some q) (aw_take (waker st)).2 (woken st) (warnings st))
      | None => Ret (Pending, st)
      end
  end.

(** ** The task and the interrupt handler together *)

(** A run of the system: the stream, the poll under way, the wakers that had been
    woken when it began, the events accepted by the queue and those delivered. *)
Record system := System {
  st : stream;
  at_pc : pc;
  before : nat;
  accepted_events : list E;
  delivered : list E;
}.

Definition evt_of (p : pc) : list E := match p with AtEnd (Ready e) => [e] | _ => [] end.
Definition held (p : pc) : list E := match p with AtTake e => [e] | _ => [] end.

Context (cx : Wk).

Inductive sys_step : system → system → Prop :=
| SInterrupt s evt :
    sys_step s (System (add_event evt (st s)) (at_pc s) (before s)
      (accepted_events s ++
       match queue (st s) with
       | Some q => match queue_push evt q with Ok _ => [evt] | Err _ => [] end
       | None => [] end) (delivered s))
| SPoll s p st' :
    (∀ r, at_pc s ≠ AtEnd r) → poll_step cx (at_pc s) (st s) = Ret (p, st') →
    sys_step s (System st' p (before s) (accepted_events s) (delivered s ++ evt_of p))
| SAgain s r :
    at_pc s = AtEnd r →
    sys_step s (System (st s) AtStart (length (woken (st s))) (accepted_events s) (delivered s)).

(** The stream just made, and its first poll. *)
Definition sys_init (s : system) : Prop :=
  ∃ st0, stream_new uninit = Ret st0 ∧ s = System st0 AtStart 0 [] [].

Definition reachable (s : system) : Prop := ∃ s0, sys_init s0 ∧ rtc sys_step s0 s.

End Stream.
Arguments stream : clear implicits.
Arguments system : clear implicits.
Arguments poll : clear implicits.
Arguments pc : clear implicits.

(** ** The serial line's stream, of bytes *)

Section Serial.
Context {Q A Wk : Type} `{HQ : ArrayQueue Q Z} `{HA : AtomicWaker A Wk}.
Definition add_byte (byte : Z) (st : stream Q A Wk) : stream Q A Wk := add_event byte st.
Definition SerialStream_new (st : stream Q A Wk) : outcome (stream Q A Wk) := stream_new (E := Z) st.
Definition SerialStream_poll_next (cx : Wk) (st : stream Q A Wk) : outcome (poll Z * stream Q A Wk) :=
  poll_next cx st.
End Serial.

(** ** No event and no wake-up is lost *)

Section Proofs.
Context {Q E A Wk : Type} `{HQ : ArrayQueue Q E} `{HQok : !ArrayQueueOk Q E}.
Context `{HA : AtomicWaker A Wk} `{HAok : !AtomicWakerOk A Wk}.
Context (cx : Wk).
Abbreviation sys := (system Q E A Wk).
Implicit Types (s : sys).

(** The waker was woken since the poll under way began. *)
Definition woken_since s : Prop := cx ∈ drop (before s) (woken (st s)).

Definition sys_inv s : Prop :=
  ∃ q, queue (st s) = Some q ∧ capacity q = QUEUE_SIZE ∧ len (contents q) ≤ QUEUE_SIZE ∧
  accepted_events s = delivered s ++ held (at_pc s) ++ contents q ∧
  (before s ≤ length (woken (st s)))%nat ∧
  match at_pc s with
  | AtSecondPop => registered (waker (st s)) = Some cx ∨ woken_since s
  | AtEnd Pending => (contents q = [] ∧ registered (waker (st s)) = Some cx) ∨ woken_since s
  | _ => True
  end.

Lemma elem_of_drop_app (x : Wk) n l k :
  (n ≤ length l)%nat → x ∈ drop n (l ++ k) ↔ x ∈ drop n l ∨ x ∈ k.
Proof. intros. by rewrite drop_app_le, elem_of_app by done. Qed.

Lemma sys_inv_init s : sys_init s → sys_inv s.
Proof.
  intros (st0 & Hst & ->). injection Hst as <-. destruct (queue_new_ok QUEUE_SIZE) as [Hc Hcap].
  exists (queue_new QUEUE_SIZE). cbn. rewrite Hc. split_and!; done.
Qed.

(** The handler: either nothing changes for the stream, or the event is queued and
    whoever was registered is woken. *)
Lemma sys_inv_interrupt s evt :
  sys_inv s →
  sys_inv (System (add_event evt (st s)) (at_pc s) (before s)
    (accepted_events s ++
     match queue (st s) with
     | Some q => match queue_push evt q with Ok _ => [evt] | Err _ => [] end
     | None => [] end) (delivered s)).
Proof.
  intros (q & Hq & Hcap & Hlen & Hacc & Hbef & Hpc). unfold add_event. rewrite Hq.
  pose proof (queue_push_ok evt q) as Hp. destruct (queue_push evt q) as [q'|e].
  2:{ exists q. rewrite app_nil_r. cbn. split_and!; done. }
  destruct Hp as (Hlt & Hc' & Hcap'). destruct (aw_wake_ok (waker (st s))) as [Hw Hw'].
  exists q'. cbn. split_and!; try done.
  - congruence.
  - rewrite Hc', len_app, len_cons, len_nil. unfold QUEUE_SIZE in *. lia.
  - by rewrite Hacc, Hc', <- !app_assoc.
  - rewrite length_app. lia.
  - assert (registered (waker (st s)) = Some cx ∨ woken_since s →
      cx ∈ drop (before s) (woken (st s) ++ option_list (aw_wake (waker (st s))).1)) as Hkeep.
    { intros [Hr|Hws]; apply elem_of_drop_app; try done; [right|by left].
      rewrite Hw, Hr. by left. }
    unfold woken_since in *. cbn. destruct (at_pc s) as [| | |?|[?|]]; try done; right; apply Hkeep; tauto.
Qed.

Lemma sys_inv_poll s p st' :
  sys_inv s → (∀ r, at_pc s ≠ AtEnd r) → poll_step cx (at_pc s) (st s) = Ret (p, st') →
  sys_inv (System st' p (before s) (accepted_events s) (delivered s ++ evt_of p)).
Proof.
  intros (q & Hq & Hcap & Hlen & Hacc & Hbef & Hpc) Hnend. unfold poll_step.
  pose proof (queue_pop_ok q) as Hpop. rewrite Hq. cbn [expect]. rewrite !bind_Ret.
  destruct (at_pc s) as [| | |evt|r] eqn:Epc; [| | | |by destruct (Hnend r)].
  - destruct (queue_pop q) as [[evt q']|]; intros [= <- <-].
    + destruct Hpop as [Hc Hcap']. exists q'. cbn. rewrite Hacc, Hc in *. cbn in *.
      rewrite <- app_assoc. split_and!; try done; [congruence|]. rewrite len_cons in Hlen. lia.
    + exists q. cbn. rewrite app_nil_r. split_and!; done.
  - intros [= <- <-]. exists q. cbn. rewrite app_nil_r. split_and!; try done.
    left. apply aw_register_ok.
  - destruct (queue_pop q) as [[evt q']|]; intros [= <- <-].
    + destruct Hpop as [Hc Hcap']. exists q'. cbn. rewrite app_nil_r, Hacc, Hc in *.
      split_and!; try done; [congruence|]. rewrite len_cons in Hlen. lia.
    + exists q. cbn. rewrite app_nil_r. split_and!; try done.
      destruct Hpc as [?|?]; [by left|by right].
  - intros [= <- <-]. exists q. cbn. rewrite Hacc, <- app_assoc. split_and!; done.
Qed.

Lemma sys_inv_step s s' : sys_inv s → sys_step cx s s' → sys_inv s'.
Proof.
  intros Hinv. destruct 1 as [s evt|s p st' Hn Hp|s r Hr].
  - by apply sys_inv_interrupt.
  - by apply sys_inv_poll.
  - destruct Hinv as (q & Hq & Hcap & Hlen & Hacc & Hbef & Hpc). exists q. cbn.
    rewrite Hr in Hacc. split_and!; done.
Qed.

Lemma sys_inv_reachable s : reachable cx s → sys_inv s.
Proof.
  intros (s0 & Hi & Hs). apply sys_inv_init in Hi. induction Hs; [done|].
  eauto using sys_inv_step.
Qed.

(** A stream that was made. *)
Definition stream_up (st : stream Q A Wk) : Prop :=
  ∃ q, queue st = Some q ∧ capacity q = QUEUE_SIZE ∧ len (contents q) ≤ QUEUE_SIZE.

Definition queued (st : stream Q A Wk) : list E :=
  match queue st with Some q => contents q | None => [] end.

(** The actions a poll has left, where every event on the queue may take it round once. *)
Definition poll_rank (p : pc E) (st : stream Q A Wk) : nat :=
  6 * length (queued st) +
  match p with
  | AtEnd Pending => 1 | AtSecondPop => 3 | AtRegister => 4 | AtStart => 5
  | AtEnd (Ready _) => 7 | AtTake _ => 8
  end.

Lemma stream_new_up st : queue st = None → ∃ st', stream_new (E := E) st = Ret st' ∧ stream_up st' ∧
  queued st' = [] ∧ woken st' = woken st.
Proof.
  intros Hq. unfold stream_new. rewrite Hq. destruct (queue_new_ok (Q := Q) QUEUE_SIZE) as [Hc Hcap].
  eexists. split; [done|]. split; [|done]. exists (queue_new QUEUE_SIZE). cbn. by rewrite Hc.
Qed.

Lemma poll_step_up p st :
  stream_up st → (∀ r, p ≠ AtEnd r) →
  ∃ p' st', poll_step cx p st = Ret (p', st') ∧ stream_up st' ∧ woken st' = woken st ∧
    (poll_rank p' st' < poll_rank p st)%nat.
Proof.
  intros (q & Hq & Hcap & Hlen) Hend. unfold poll_step, poll_rank, queued. rewrite Hq. cbn [expect].
  rewrite !bind_Ret. pose proof (queue_pop_ok q) as Hpop.
  destruct p as [| | |e|r]; [| | | |by destruct (Hend r)].
  1,3: destruct (queue_pop q) as [[e q']|]; [destruct Hpop as [Hc Hc']; rewrite Hc, len_cons in *|];
    eexists _, _; (split; [done|]); cbn; rewrite ?Hq, ?Hpop; cbn; split_and!; try done; try lia;
    [exists q'|exists q]; cbn; split_and!; try done; try congruence; lia.
  all: eexists _, _; (split; [done|]); cbn; rewrite ?Hq; cbn; split_and!; try done; try lia;
    exists q; by rewrite ?Hq.
Qed.

(** [poll_next] is its atomic actions, one after the other. *)
Fixpoint poll_run (fuel : nat) (p : pc E) (st : stream Q A Wk) :
    outcome (poll E * stream Q A Wk) :=
  match p with
  | AtEnd r => Ret (r, st)
  | _ => match fuel with
         | O => OutOfFuel
         | S fuel => '(p, st) ← poll_step cx p st; poll_run fuel p st
         end
  end.

Lemma poll_next_run st : poll_next cx st = poll_run 4 AtStart st.
Proof.
  unfold poll_next, poll_run, poll_step, mbind, outcome_bind.
  destruct (queue st) as [q|] eqn:Eq; cbn; [|done].
  destruct (queue_pop q) as [[evt q']|] eqn:Ep; cbn; [done|].
  rewrite Eq. cbn. by rewrite Ep.
Qed.

(** C15.  However the interrupt handler and the polling task interleave, from the
    making of the stream on: the queue holds at most 100 events; the events
    delivered, the one in hand and those queued are exactly the accepted ones, in
    order; the poll never panics; and no wake-up is lost: once a poll has returned
    [Pending] and an event is queued, the task has been woken since that poll
    began.  An uninterrupted poll is the run of its atomic actions. *)
Theorem stream_spec s (Hr : reachable cx s) :
  (∃ q, queue (st s) = Some q ∧ len (contents q) ≤ QUEUE_SIZE ∧
     accepted_events s = delivered s ++ held (at_pc s) ++ contents q ∧
     (at_pc s = AtEnd Pending → contents q ≠ [] → woken_since s)) ∧
  returns (poll_step cx (at_pc s) (st s)) ∧
  poll_next cx (st s) = poll_run 4 AtStart (st s).
Proof.
  apply sys_inv_reachable in Hr as (q & Hq & Hcap & Hlen & Hacc & Hbef & Hpc). split_and!.
  - exists q. split_and!; try done. intros Hp. rewrite Hp in Hpc. tauto.
  - unfold poll_step. rewrite Hq. cbn [expect]. rewrite !bind_Ret.
    destruct (at_pc s); try apply returns_Ret; destruct (queue_pop q) as [[]|]; apply returns_Ret.
  - apply poll_next_run.
Qed.
End Proofs.

(** ** A list as the queue, an option as the waker *)

Module ListQueue.
#[global] Instance list_queue {E} : ArrayQueue (Z * list E) E := {|
  queue_new := λ n, (n, []);
  queue_push := λ e q, if len q.2 <? q.1 then Ok (q.1, q.2 ++ [e]) else Err e;
  queue_pop := λ q, match q.2 with [] => None | e :: l => Some (e, (q.1, l)) end;
  queue_is_empty := λ q, match q.2 with [] => true | _ => false end |}.
#[global] Instance list_queue_ok {E} : ArrayQueueOk (Z * list E) E.
Proof.
  refine {| contents := snd; capacity := fst |}.
  - done.
  - intros e [n l]. cbn. destruct (Z.ltb_spec (len l) n); done.
  - intros [n [|e l]]; done.
  - intros [n [|e l]]; done.
Defined.
#[global] Instance option_waker : AtomicWaker (option Z) Z := {|
  aw_new := None; aw_register := λ w _, Some w; aw_wake := λ a, (a, None);
  aw_take := λ a, (a, None) |}.
#[global] Instance option_waker_ok : AtomicWakerOk (option Z) Z.
Proof. by refine {| registered := λ a, a |}. Defined.
End ListQueue.

(** An event that arrives between the first pop and the registration is found by
    the second pop; one that arrives after it wakes the task. *)
Definition late_event : system (Z * list Z) Z (option Z) Z :=
  System (Stream (Some (100, [7])) None [1] []) (AtEnd Pending) 0 [7] [].

Lemma late_event_reachable : reachable 1 late_event.
Proof.
  eexists. split; [eexists; split; reflexivity|].
  eapply rtc_l; [eapply SPoll; [done|reflexivity]|]. cbn.
  eapply rtc_l; [eapply SPoll; [done|reflexivity]|]. cbn.
  eapply rtc_l; [eapply SPoll; [done|reflexivity]|]. cbn.
  eapply rtc_l; [apply (SInterrupt 1 _ 7)|]. cbn. apply rtc_refl.
Qed.

Lemma stream_spec_witness : reachable 1 late_event ∧ woken_since 1 late_event.
Proof.
  split; [exact late_event_reachable|].
  destruct (stream_spec 1 late_event late_event_reachable) as [(q & Hq & _ & _ & Hw) _].
  injection Hq as <-. apply Hw; [reflexivity|discriminate].
Defined.
