(* ===== verification/NetTask.v ===== *)
(** * The network task: [kernel/src/task/network.rs]

    What happens to the bytes the card delivers, from the interrupt's event to the
    interface.  The stream of events is in [Streams.v]. *)

From S2P Require Import Prelude Utils Addr Checksum Ipv4 Arp Udp Dhcp Ethernet Interfaces Icmp.
From S2P Require Import Handler HandlerSpec HandlerStep HandlerTheorems.
Import NetworkInterface.
Local Open Scope Z_scope.

Module NetworkEvent.
Inductive t := Queue | ConfigChange.
End NetworkEvent.

(** The receiving half of the card: [VirtIONet::receive] and
    [VirtIONet::recycle_rx_buffer]. *)
Class NetReceiver (D : Type) `{NetDriver D} := {
  RxBuffer : Type;
  rx_packet : RxBuffer → list Z;
  driver_receive : D → result RxBuffer VirtioError * D;
  driver_recycle : RxBuffer → D → result D VirtioError;
}.

(** What the card delivers is bytes, it takes its buffers back, and a card left
    alone delivers [backlog] packets at most before it reports that there is none. *)
Class NetReceiverOk (D : Type) `{NetReceiver D} := {
  backlog : D → nat;
  receive_ok : ∀ d b d', driver_receive d = (Ok b, d') →
    bytes (rx_packet b) ∧ (backlog d' < backlog d)%nat;
  receive_none : ∀ d e d', driver_receive d = (Err e, d') → (backlog d' ≤ backlog d)%nat;
  recycle_ok : ∀ b d, ∃ d', driver_recycle b d = Ok d' ∧ (backlog d' ≤ backlog d)%nat;
  send_backlog : ∀ f d d', driver_send f d = Ok d' → (backlog d' ≤ backlog d)%nat;
}.

Section Task.
Context {D R : Type} `{HD : NetDriver D} `{HR : RandomSource R} `{HN : !NetReceiver D}.
Abbreviation W := (world D R).
Abbreviation M := (prog (NetworkInterface.t * W)).

Definition process_rx (packet : list Z) : M unit :=
  if len packet <? 14 then println (ShortFrame (len packet)) else
  d ← lift (slice packet 0 6); dst ← lift (MacAddress_new d);
  s ← lift (slice packet 6 12); src ← lift (MacAddress_new s);
  b12 ← lift (index packet 12); b13 ← lift (index packet 13);
  let ethertype := from_be_bytes [b12; b13] in
  card ← (λ s, Ret (driver_mac (driver s.2), s));
  (if (ethertype =? 0x0806) || ((ethertype =? 0x0800) && bool_decide (mac_addr dst = card))
   then println (Received (len packet) dst src ethertype) else mret tt);;
  r ← lift (EthernetFrame.new packet);
  match r with
  | Ok pkt => handle_packet pkt dst
  | Err _ => println RejectedPacket
  end.

(** The card alone changes. *)
Definition with_driver (d : D) (w : W) : W := World d (rng w) (sent w) (console w).
Definition set_driver (d : D) : M unit := λ s, Ret (tt, (s.1, with_driver d s.2)).

(** [driver.receive()] and [driver.recycle_rx_buffer(..).expect(..)] *)
Definition receive : M (result RxBuffer VirtioError) := λ s,
  let '(r, d) := driver_receive (driver s.2) in Ret (r, (s.1, with_driver d s.2)).
Definition recycle (b : RxBuffer) : M unit := λ s,
  match driver_recycle b (driver s.2) with
  | Ok d => set_driver d s
  | Err _ => Panic
  end.

(** The [loop] of [handle_queue_interrupt]. *)
Fixpoint handle_queue_interrupt (fuel : nat) : M unit :=
  match fuel with
  | O => λ _, OutOfFuel
  | S fuel =>
      packet ← receive;
      match packet with
      | Err _ => mret tt
      | Ok packet =>
          process_rx (rx_packet packet);;
          recycle packet;;
          handle_queue_interrupt fuel
      end
  end.

(** One round of [network_task]'s loop. *)
Definition handle_event (fuel : nat) (event : NetworkEvent.t) : M unit :=
  match event with
  | NetworkEvent.Queue => handle_queue_interrupt fuel
  | NetworkEvent.ConfigChange => println ConfigChanged
  end.

(** [network_task] over the events the stream gives it, each with the card as it is
    when the task wakes up: between two events the hardware writes to it freely. *)
Fixpoint network_loop (fuel : nat) (events : list (NetworkEvent.t * D)) : M unit :=
  match events with
  | [] => mret tt
  | (event, d) :: events => set_driver d;; handle_event fuel event;; network_loop fuel events
  end.
Definition network_task (fuel : nat) (events : list (NetworkEvent.t * D)) (w : W) :
    outcome (NetworkInterface.t * W) :=
  s ← init_network_interface w;
  '(_, s) ← network_loop fuel events s; Ret s.
End Task.

(** ** Safety against anything the wire carries *)

Section Safety.
Context {D R : Type} `{HD : NetDriver D} `{HDok : !NetDriverOk D}.
Context `{HR : RandomSource R} `{HRok : !RandomSourceOk R}.
Context `{HN : !NetReceiver D} `{HNok : !NetReceiverOk D}.
Abbreviation W := (world D R).
Abbreviation state := (NetworkInterface.t * W)%type.

Lemma process_rx_short packet self (w : W) :
  len packet < 14 → process_rx packet (self, w) = Ret (tt, (self, say (ShortFrame (len packet)) w)).
Proof. intros. unfold process_rx. by rewrite (proj2 (Z.ltb_lt _ _)). Qed.

Lemma keeps_print_if (b : bool) l self (w : W) :
  state_ok (self, w) →
  ∃ w', (if b then println l else mret tt) (self, w) = Ret (tt, (self, w')) ∧ keeps (self, w) (self, w').
Proof.
  intros Hok. destruct b; [exists (say l w)|exists w]; (split; [done|]).
  - by apply keeps_say.
  - by apply keeps_refl.
Qed.

Lemma process_rx_keeps packet self (w : W) :
  state_ok (self, w) → bytes packet →
  ∃ s', process_rx packet (self, w) = Ret (tt, s') ∧ keeps (self, w) s'.
Proof.
  intros Hok Hb. destruct (decide (len packet < 14)) as [Hs|Hl].
  { eexists. split; [by apply process_rx_short|by apply keeps_say]. }
  unfold process_rx. rewrite (proj2 (Z.ltb_ge _ _)) by lia.
  destruct (MacAddress_new_ok (sub packet 0 6)) as (dst & Ed & _); [rewrite len_sub; lia|].
  destruct (MacAddress_new_ok (sub packet 6 12)) as (src & Es & _); [rewrite len_sub; lia|].
  destruct (index_pair packet 12) as (x & y & Ex & Ey & _); [lia|lia|].
  erewrite lift_bind by (apply slice_ok; lia). erewrite lift_bind by exact Ed.
  erewrite lift_bind by (apply slice_ok; lia). erewrite lift_bind by exact Es.
  erewrite lift_bind by exact Ex. erewrite lift_bind by exact Ey.
  erewrite prog_bind_Ret by done.
  match goal with |- context [if ?b then println ?l else _] =>
    destruct (keeps_print_if b l self w Hok) as (w1 & E1 & K1) end.
  erewrite prog_bind_Ret by exact E1. destruct K1 as (Hok1 & Hm1 & K1).
  destruct (ethernet_new_classified packet Hb) as (r & Er & Hr).
  erewrite lift_bind by exact Er. destruct r as [f|e].
  - destruct Hr as [Hf _]. destruct (Hok1) as [Hi1 Hr1].
    destruct (handle_packet_step f dst self w1 Hi1 Hr1 Hf) as (s' & E & Hst).
    exists s'. split; [done|]. apply (keeps_trans _ (self, w1)); [done|].
    by eapply frame_step_keeps.
  - eexists. split; [done|]. apply (keeps_trans _ (self, w1)); [done|]. by apply keeps_say.
Qed.

(** A frame with an IPv4 packet reaches the interface, whatever pads it. *)
Lemma process_rx_ipv4 dst src p pad self (w : W) :
  mac_ok dst → mac_ok src → Ipv4Packet.packet_valid p → bytes pad →
  ∃ l, process_rx (eth_wire dst src 0x0800 (ipv4_wire p) ++ pad) (self, w) =
    handle_packet (EthernetFrame.Ipv4 (Ipv4Packet.with_checksum (header_checksum p) p)) dst
      (self, World (driver w) (rng w) (sent w) (console w ++ l)).
Proof.
  intros Hd Hs Hp Hpad. pose proof (parse_ipv4_frame dst src p pad Hd Hs Hp Hpad) as Eparse.
  set (f := eth_wire dst src 0x0800 (ipv4_wire p) ++ pad).
  change (EthernetFrame.new f = Ret (Ok (EthernetFrame.Ipv4 (Ipv4Packet.with_checksum (header_checksum p) p)))) in Eparse.
  assert (14 ≤ len f) as Hl
    by (unfold f; rewrite len_app, len_eth_wire; pose proof (len_nonneg (ipv4_wire p)); pose proof (len_nonneg pad); lia).
  destruct (eth_wire_fields dst src 0x0800 (ipv4_wire p ++ pad)) as (F1 & F2 & _); [done|].
  assert (f = eth_wire dst src 0x0800 (ipv4_wire p ++ pad)) as Ef
    by (unfold f, eth_wire; by rewrite <- !app_assoc). rewrite <- Ef in F1, F2.
  destruct (index_pair f 12) as (x & y & Ex & Ey & _); [lia|lia|].
  unfold process_rx. rewrite (proj2 (Z.ltb_ge _ _)) by lia.
  erewrite lift_bind by (apply slice_ok; lia). rewrite F1. erewrite lift_bind by apply MacAddress_new_addr.
  erewrite lift_bind by (apply slice_ok; lia). rewrite F2. erewrite lift_bind by apply MacAddress_new_addr.
  erewrite lift_bind by exact Ex. erewrite lift_bind by exact Ey. erewrite prog_bind_Ret by done.
  match goal with |- context [if ?b then println ?l else _] =>
    assert (∃ k, (if b then println l else mret tt) (self, w) =
      Ret (tt, (self, World (driver w) (rng w) (sent w) (console w ++ k)))) as [k E] end.
  { match goal with |- context [if ?b then _ else _] => destruct b end; [by eexists|].
    exists []. rewrite app_nil_r. by destruct w. }
  exists k. erewrite prog_bind_Ret by exact E. by erewrite lift_bind by exact Eparse.
Qed.

Lemma card_steps_backlog d d' : rtc card_step d d' → (backlog d' ≤ backlog d)%nat.
Proof.
  induction 1 as [|d1 d2 d3 [f Hf] _ IH]; [done|]. apply send_backlog in Hf. lia.
Qed.

(** The interface is sound again, and nothing but sound frames was sent. *)
Definition safe (s s' : state) : Prop :=
  state_ok s' ∧ mac s'.1 = mac s.1 ∧
  ∃ fs, sent s'.2 = sent s.2 ++ fs ∧ Forall (sound_frame (mac s.1)) fs.

Lemma safe_trans s1 s2 s3 : safe s1 s2 → safe s2 s3 → safe s1 s3.
Proof.
  intros (_ & Hm & fs & Hs & Hf) (Hok & Hm' & fs' & Hs' & Hf'). split_and!; [done|congruence|].
  exists (fs ++ fs'). rewrite Hs', Hs, app_assoc. split; [done|].
  apply Forall_app. rewrite Hm in Hf'. done.
Qed.

Lemma safe_driver s d' : state_ok s → safe s (s.1, with_driver d' s.2).
Proof. intros [? ?]. split_and!; try done. exists []. by rewrite app_nil_r. Qed.

Lemma handle_queue_safe fuel (s : state) :
  state_ok s → (backlog (driver s.2) < fuel)%nat →
  ∃ s', handle_queue_interrupt fuel s = Ret (tt, s') ∧ safe s s' ∧
    (backlog (driver s'.2) ≤ backlog (driver s.2))%nat.
Proof.
  revert s. induction fuel as [|fuel IH]; intros [self w] Hok Hb; [lia|]. cbn [handle_queue_interrupt].
  destruct (driver_receive (driver w)) as [r d1] eqn:Erx. set (w1 := with_driver d1 w).
  pose proof (safe_driver (self, w) d1 Hok : safe (self, w) (self, w1)) as S1.
  erewrite prog_bind_Ret by (unfold receive; cbn; rewrite Erx; done).
  pose proof (receive_ok (driver w)) as Hrx. rewrite Erx in Hrx.
  destruct r as [b|e]; [|eexists; split; [done|]; split; [done|cbn; by eapply receive_none]].
  destruct (Hrx _ _ eq_refl) as [Hbytes Hlt]. cbn [snd] in Hb.
  destruct (process_rx_keeps (rx_packet b) self w1) as ([self2 w2] & E2 & K2); [apply S1|done|].
  erewrite prog_bind_Ret by exact E2. destruct K2 as (Hok2 & Hm2 & Hs2 & Hd2).
  apply card_steps_backlog in Hd2. cbn in Hd2.
  destruct (recycle_ok b (driver w2)) as (d3 & E3 & Hd3). set (w3 := with_driver d3 w2).
  pose proof (safe_driver (self2, w2) d3 Hok2 : safe (self2, w2) (self2, w3)) as S3.
  erewrite prog_bind_Ret by (unfold recycle; cbn; rewrite E3; done).
  destruct (IH (self2, w3)) as (s' & E & S & Hle); [apply S3|cbn; lia|].
  exists s'. split; [done|]. cbn in Hle |- *. split; [|lia]. eapply safe_trans; [exact S1|].
  eapply (safe_trans _ (self2, w2)); [done|]. by apply (safe_trans _ (self2, w3)).
Qed.

(** One packet, an echo request: the loop sends the reply and ends. *)
Lemma handle_queue_echo (w : W) b d1 src p pad self me hop m :
  state_ok (self, w) → driver_receive (driver w) = (Ok b, d1) → backlog (driver w) = 1%nat →
  rx_packet b = eth_wire (mac self) src 0x0800 (ipv4_wire p) ++ pad → echo_request self p me hop m →
  ∃ w', handle_queue_interrupt 2 (self, w) = Ret (tt, (self, w')) ∧
    sent w' = sent w ++ [echo_frame self p me m].
Proof.
  intros [Hi _] Erx Hb Hf He. cbn in Hi. destruct (receive_ok _ _ _ Erx) as [Hby Hlt].
  pose proof Hby as Hby'. rewrite Hf in Hby'. apply Forall_app in Hby' as [Hby1 Hpad].
  unfold eth_wire in Hby1. rewrite !Forall_app in Hby1. destruct Hby1 as (Hdst & Hsrc & _).
  destruct (process_rx_ipv4 (mac self) src p pad self (with_driver d1 w) Hdst Hsrc (echo_valid _ _ _ _ _ He) Hpad) as [l El].
  set (p' := Ipv4Packet.with_checksum (header_checksum p) p) in *.
  set (w1 := World _ _ _ _) in El.
  assert (echo_request self p' me hop m) as He'.
  { destruct (ethernet_new_classified _ Hby) as (r & Er & Hr). rewrite Hf in Er.
    pose proof (parse_ipv4_frame (mac self) src p pad Hdst Hsrc (echo_valid _ _ _ _ _ He) Hpad) as Er'.
    change (EthernetFrame.new (eth_wire (mac self) src 0x0800 (ipv4_wire p) ++ pad) = Ret (Ok (EthernetFrame.Ipv4 p'))) in Er'.
    rewrite Er in Er'. injection Er' as ->. destruct Hr as [Hr _]. destruct He. by split. }
  assert (process_rx (rx_packet b) (self, with_driver d1 w) =
    Ret (tt, (self, emit (echo_frame self p me m) w1))) as Ep.
  { rewrite Hf, El. unfold handle_packet. erewrite prog_bind_Ret by done. cbn [fst].
    rewrite decide_False by (intros [? _]; done). by rewrite (echo_handled _ _ _ me hop m). }
  set (w2 := emit _ w1) in Ep. destruct (recycle_ok b (driver w2)) as (d3 & E3 & Hd3).
  assert (backlog d3 = 0%nat) as H0.
  { pose proof (card_steps_backlog _ _ (rtc_once _ _ (driver_emit (echo_frame self p me m) w1))) as H1.
    fold w2 in H1. cbn in H1. lia. }
  destruct (driver_receive d3) as [[b4|e] d4] eqn:E4; [apply receive_ok in E4 as [_ ?]; lia|].
  exists (with_driver d4 (with_driver d3 w2)). split; [|cbn; unfold w2; by rewrite sent_emit].
  cbn [handle_queue_interrupt]. erewrite prog_bind_Ret by (unfold receive; cbn; rewrite Erx; done).
  cbn iota. erewrite prog_bind_Ret by exact Ep. erewrite prog_bind_Ret by (unfold recycle; cbn; rewrite E3; done).
  unfold mbind, prog_bind, receive. cbn. by rewrite E4.
Qed.

Lemma handle_event_safe fuel event (s : state) :
  state_ok s → (backlog (driver s.2) < fuel)%nat →
  ∃ s', handle_event fuel event s = Ret (tt, s') ∧ safe s s' ∧
    (backlog (driver s'.2) ≤ backlog (driver s.2))%nat.
Proof.
  intros Hok Hb. destruct event; [by apply handle_queue_safe|]. destruct s as [self w].
  exists (self, say ConfigChanged w). split; [done|].
  destruct (keeps_say self w ConfigChanged Hok) as (Hok1 & Hm1 & Hs1 & _). done.
Qed.

Lemma network_loop_safe fuel events (s : state) :
  state_ok s → Forall (λ e, backlog e.2 < fuel)%nat events →
  ∃ s', network_loop fuel events s = Ret (tt, s') ∧ safe s s'.
Proof.
  intros Hok Hb. revert s Hok. induction Hb as [|[event d] events Hd _ IH]; intros s Hok.
  - eexists. split; [done|]. destruct s. split_and!; try done. exists []. by rewrite app_nil_r.
  - cbn [network_loop]. pose proof (safe_driver s d Hok) as S0. erewrite prog_bind_Ret by done.
    destruct (handle_event_safe fuel event (s.1, with_driver d s.2)) as (s1 & E1 & S1 & _); [apply S0|done|].
    erewrite prog_bind_Ret by exact E1. destruct (IH s1) as (s2 & E2 & S2); [apply S1|].
    exists s2. split; [done|]. eapply safe_trans; [exact S0|]. by eapply safe_trans.
Qed.

(** Bringing the interface up sends one frame, the discover. *)
Lemma init_network_interface_safe (w : W) :
  random_ok (rng w) →
  ∃ self w' f, init_network_interface w = Ret (self, w') ∧ state_ok (self, w') ∧
    mac_addr (mac self) = driver_mac (driver w) ∧ (backlog (driver w') ≤ backlog (driver w))%nat ∧
    sent w' = sent w ++ [f] ∧ sound_frame (mac self) f.
Proof.
  intros Hr. destruct (from_rand_ok U32 (rng w) Hr) as (xid & r & Ex & Hx & Hr').
  destruct (init_network_interface_eq w xid r Hr Ex Hr')
    as (m & id & r' & Hm & Ha & Hid & Hr1 & E). destruct (discover_message_ok m xid Hm) as [Hdb Hdl].
  eexists _, _, _. split; [exact E|]. split.
  { split; [apply set_dhcp_ok; [by apply fresh_interface_ok|done]|]. cbn [snd]. by rewrite rng_emit. }
  split; [done|]. split; [|split; [by rewrite sent_emit|apply sound_dhcp_frame; done || lia]].
  change (driver w) with (driver (with_rng r' w)). apply card_steps_backlog, rtc_once, driver_emit.
Qed.

(** C1.  The network task survives the network.  Started over any card that takes
    its frames and any source of random integers, and whatever bytes the card
    delivers on however many events, the task never panics: no index, [unwrap],
    [expect] or arithmetic of the whole stack fails, the loop that drains the card
    ends, and every frame that leaves is at least 60 bytes from our own address and
    parses as a valid ARP or IPv4 packet.  The interface's invariant holds at the
    end: addresses set together, cache within its bounds. *)
Theorem network_task_safe (fuel : nat) (events : list (NetworkEvent.t * D)) (w : W)
    (Hr : random_ok (rng w)) (Hb : Forall (λ e, backlog e.2 < fuel)%nat events) :
  ∃ self w', network_task fuel events w = Ret (self, w') ∧
    iface_ok self ∧ mac_addr (mac self) = driver_mac (driver w) ∧
    ∃ fs, sent w' = sent w ++ fs ∧ Forall (sound_frame (mac self)) fs.
Proof.
  destruct (init_network_interface_safe w Hr) as (self & w1 & f & E & Hok & Ha & _ & Hs1 & Hf1).
  destruct (network_loop_safe fuel events (self, w1) Hok Hb) as ([self' w'] & E' & S).
  exists self', w'. unfold network_task. rewrite E, bind_Ret, E', bind_Ret.
  destruct S as ([Hi' _] & Hm' & fs & Hs & Hf). cbn in *. split_and!; try done; [by rewrite Hm'|].
  exists (f :: fs). rewrite Hm', Hs, Hs1, <- app_assoc. split; [done|by constructor].
Qed.
End Safety.

(** ** A card with three packets: garbage, a ping too short and an ARP request *)

Module ExampleCard.
(** The packets still to come, and the frames taken. *)
Definition t : Type := list (list Z) * list (list Z).
#[global] Instance card : NetDriver t := {|
  VirtioError := unit; driver_mac := λ _, mac_addr CLIENT_MAC;
  driver_send := λ f d, Ok (d.1, f :: d.2) |}.
#[global] Instance card_ok : NetDriverOk t.
Proof.
  split; [by eexists|]. intros d. split; [done|]. apply (bool_decide_unpack _). vm_compute. exact I.
Defined.
(** Whatever is not a byte is delivered modulo 256. *)
#[global] Instance receiver : NetReceiver t := {|
  RxBuffer := list Z; rx_packet := λ b, map (λ z, z mod 256) b;
  driver_receive := λ d, match d.1 with [] => (Err tt, d) | p :: ps => (Ok p, (ps, d.2)) end;
  driver_recycle := λ b d, Ok d |}.
#[global] Instance receiver_ok : NetReceiverOk t.
Proof.
  refine {| backlog := λ d : t, length d.1 |}.
  - intros [[|p ps] q] b d' [= <- <-]. split; [|cbn; lia]. apply Forall_map, Forall_true.
    intros x. unfold urange. cbn. apply Z.mod_pos_bound. lia.
  - intros [[|p ps] q] e d' [=]. by subst.
  - intros b d. by exists d.
  - intros f d d' [= <-]. done.
Defined.
Definition w0 : world t nat := World ([], []) 0%nat [] [].
Definition events : list (NetworkEvent.t * t) :=
  [(NetworkEvent.ConfigChange, ([], []));
   (NetworkEvent.Queue, ([[1; 2; 3]; replicate 40 255; example_frame], []))].
End ExampleCard.

Lemma network_task_safe_witness :
  ∃ self w', network_task 4 ExampleCard.events ExampleCard.w0 = Ret (self, w') ∧ iface_ok self.
Proof.
  destruct (network_task_safe 4 ExampleCard.events ExampleCard.w0) as (self & w' & E & Hi & _);
    [exact I|repeat apply Forall_cons_2; cbn; try lia; apply Forall_nil; exact I|].
  exists self, w'. split; [exact E|exact Hi].
Defined.

(** What the task does with them. *)
Example network_task_runs :
  match network_task 4 ExampleCard.events ExampleCard.w0 with
  | Ret (self, w') =>
      ArpCache.lookup (arp self) (Ip 192 168 1 10) = Some (Mac 0x11 0x22 0x33 0x44 0x55 0x66) ∧
      length (sent w') = 1%nat ∧
      console w' = [ConfigChanged; ShortFrame 3;
                    Received 42 broadcast (Mac 2 0 0 0 0 1) 0x0806; ArpSeen example_arp]
  | _ => False
  end.
Proof. vm_compute. split_and!; reflexivity. Qed.
