(* ===== verification/Pci.v ===== *)
(** * PCI configuration space: [kernel/src/pci.rs]

    and the ports' side of [kernel/src/acpi_handling.rs], which reads the same
    registers on behalf of the ACPI interpreter. *)

From S2P Require Import Prelude Utils.
Local Open Scope Z_scope.

(** ** Port I/O *)

(** The machine behind the [in] and [out] instructions: [Port::read] and
    [Port::write] of an integer of some width in bits at a port. *)
Class PortIo (H : Type) := {
  port_read : Z → Z → H → Z * H;
  port_write : Z → Z → Z → H → H;
}.

Record DeviceFunction := { bus : Z; device : Z; function : Z }.

#[export] Instance DeviceFunction_eq_dec : EqDecision DeviceFunction.
Proof. solve_decision. Defined.

Definition pci_config_address (bus device function offset : Z) : Z :=
  Z.lor (Z.lor (Z.lor (Z.lor (Z.shiftl 1 31) (Z.shiftl bus 16)) (Z.shiftl device 11))
    (Z.shiftl function 8)) (Z.land offset 0xfc).

Section Ports.
Context {H : Type} `{HP : PortIo H}.

Definition pci_read_u32 (bus device function offset : Z) (h : H) : Z * H :=
  let address := pci_config_address bus device function offset in
  port_read 32 0xCFC (port_write 32 0xCF8 address h).

Definition pci_write_u32 (bus device function offset value : Z) (h : H) : H :=
  let address := pci_config_address bus device function offset in
  port_write 32 0xCFC value (port_write 32 0xCF8 address h).
End Ports.

(** [ConfigurationAccess] of [virtio_drivers], for its transports *)
Module PortCam.
Definition read_word {H} `{PortIo H} (device_function : DeviceFunction) (register_offset : Z) (h : H) : Z * H :=
  pci_read_u32 (bus device_function) (device device_function) (function device_function) register_offset h.
Definition write_word {H} `{PortIo H} (device_function : DeviceFunction) (register_offset data : Z) (h : H) : H :=
  pci_write_u32 (bus device_function) (device device_function) (function device_function) register_offset
    data h.
End PortCam.

(** ** Identifying a VirtIO function *)

(** Of the [virtio_drivers] crate: its enumerations of device and header types and
    its table of device identifiers. *)
Class VirtioIds := {
  DeviceType : Type;
  DeviceType_eq_dec :: EqDecision DeviceType;
  EntropySource : DeviceType;
  Network : DeviceType;
  HeaderType : Type;
  HeaderType_from : Z → HeaderType;
}.

Record DeviceFunctionInfo `{VirtioIds} := {
  vendor_id : Z; device_id : Z; class : Z; subclass : Z;
  prog_if : Z; revision : Z; header_type : HeaderType }.

Class VirtioPci `{VirtioIds} := virtio_device_type : DeviceFunctionInfo → option DeviceType.

Definition virtio_type_at {H : Type} `{PortIo H} `{VirtioPci} (bus device function : Z) (h : H) :
    option DeviceType * H :=
  let '(device_vendor, h) := pci_read_u32 bus device function 0 h in
  let '(class_revision, h) := pci_read_u32 bus device function 8 h in
  let '(bist_type_latency_cache, h) := pci_read_u32 bus device function 12 h in
  (virtio_device_type {|
     vendor_id := wrap 16 device_vendor;
     device_id := wrap 16 (Z.shiftr device_vendor 16);
     class := wrap 8 (Z.shiftr class_revision 24);
     subclass := wrap 8 (Z.shiftr class_revision 16);
     prog_if := wrap 8 (Z.shiftr class_revision 8);
     revision := wrap 8 class_revision;
     header_type := HeaderType_from (Z.land (wrap 8 (Z.shiftr bist_type_latency_cache 16)) 0x7f) |},
   h).

(** ** The order of a scan: the three nested loops over buses, devices and functions. *)
Definition pci_functions : list DeviceFunction :=
  b ← seqZ 0 256; d ← seqZ 0 32; f ← seqZ 0 8;
  [{| bus := b; device := d; function := f |}].

(** ** [enumerate_pci] and what it prints *)
Inductive pci_line :=
| VirtioFound
| Bar (bar value : Z)
| FunctionFound (df : DeviceFunction) (vendor device_id : Z).

Section Enumerate.
Context {H : Type} `{HP : PortIo H}.

(** [for bar in 0..6] *)
Fixpoint print_bars (df : DeviceFunction) (bars : list Z) (h : H) : list pci_line * H :=
  match bars with
  | [] => ([], h)
  | bar :: bars =>
      let '(value, h) := pci_read_u32 (bus df) (device df) (function df) (0x10 + bar * 4) h in
      let '(out, h) := print_bars df bars h in (Bar bar value :: out, h)
  end.

(** The body of the innermost loop. *)
Definition print_function (df : DeviceFunction) (h : H) : list pci_line * H :=
  let '(v, h) := pci_read_u32 (bus df) (device df) (function df) 0 h in
  let vendor := Z.land v 0xffff in
  if negb (vendor =? 0xffff) then
    let '(v, h) := pci_read_u32 (bus df) (device df) (function df) 0 h in
    let id := Z.land (Z.shiftr v 16) 0xffff in
    let '(out, h) :=
      if vendor =? 0x1af4 then
        let '(out, h) := print_bars df (seqZ 0 6) h in (VirtioFound :: out, h)
      else ([], h) in
    (out ++ [FunctionFound df vendor id], h)
  else ([], h).

Fixpoint print_functions (dfs : list DeviceFunction) (h : H) : list pci_line * H :=
  match dfs with
  | [] => ([], h)
  | df :: dfs =>
      let '(out, h) := print_function df h in
      let '(out', h) := print_functions dfs h in (out ++ out', h)
  end.

Definition enumerate_pci (h : H) : list pci_line * H := print_functions pci_functions h.
End Enumerate.

(** ** The ACPI handler's accesses *)

(** [acpi::PciAddress]: a segment and a function within it. *)
Record PciAddress := { segment : Z; in_segment : DeviceFunction }.

Definition pci_address_to_u32 (address : PciAddress) (offset : Z) : Z :=
  let df := in_segment address in
  Z.lor (Z.lor (Z.lor (Z.lor 0x80000000 (Z.shiftl (bus df) 16)) (Z.shiftl (device df) 11))
    (Z.shiftl (function df) 8)) (Z.land offset 0xFC).

Module AcpiHandler.
Section Access.
Context {H : Type} `{HP : PortIo H}.

(** The six methods differ in the width of the access. *)
Definition read_pci (w : Z) (address : PciAddress) (offset : Z) (h : H) : outcome (Z * H) :=
  if segment address =? 0 then
    let pci_addr := pci_address_to_u32 address offset in
    let h := port_write 32 0xCF8 pci_addr h in
    Ret (port_read w (0xCFC + offset mod 4) h)
  else Panic.
Definition read_pci_u8 := read_pci 8.
Definition read_pci_u16 := read_pci 16.
Definition read_pci_u32 := read_pci 32.

Definition write_pci (w : Z) (address : PciAddress) (offset value : Z) (h : H) : outcome H :=
  if segment address =? 0 then
    let pci_addr := pci_address_to_u32 address offset in
    let h := port_write 32 0xCF8 pci_addr h in
    Ret (port_write w (0xCFC + offset mod 4) value h)
  else Panic.
Definition write_pci_u8 := write_pci 8.
Definition write_pci_u16 := write_pci 16.
Definition write_pci_u32 := write_pci 32.
End Access.
End AcpiHandler.

(** ** The host bridge *)

(** What PCI's configuration mechanism #1 promises: after an address is written to
    port 0xCF8, a read within the data port's four bytes gives the bytes of the
    configuration space there, and changes none of them. *)
Class PciHost (H : Type) `{PortIo H} := {
  config : H → Z → Z;
  config_byte : ∀ h a, u8 (config h a);
  host_read : ∀ (n : nat) i a h, 0 ≤ i → (0 < n)%nat → i + Z.of_nat n ≤ 4 →
    ∃ h', port_read (8 * Z.of_nat n) (0xCFC + i) (port_write 32 0xCF8 a h) =
          (from_le_bytes (map (config h) (seqZ (a + i) (Z.of_nat n))), h') ∧
      ∀ x, config h' x = config h x;
}.

(** A location a 32-bit configuration address can name. *)
Definition df_ok (df : DeviceFunction) : Prop :=
  u8 (bus df) ∧ 0 ≤ device df < 32 ∧ 0 ≤ function df < 8.

(** The configuration space of a function: its 256 bytes. *)
Definition space {H} `{PciHost H} (df : DeviceFunction) (h : H) (i : Z) : Z :=
  config h (pci_config_address (bus df) (device df) (function df) 0 + i).

Lemma land_fc o : u8 o → Z.land o 0xfc = o - o mod 4.
Proof.
  intros Ho. assert (Forall (λ o, Z.land o 0xfc = o - o mod 4) (seqZ 0 256)) as Hall
    by (apply (bool_decide_unpack _); vm_compute; exact I).
  rewrite Forall_forall in Hall. apply Hall, elem_of_seqZ. unfold urange in Ho. lia.
Qed.

Lemma mod4 o : o - o mod 4 = 4 * (o / 4).
Proof. pose proof (Z.div_mod o 4). lia. Qed.

(** The fields of an address do not overlap. *)
Lemma pci_config_address_eq b d f o :
  u8 b → 0 ≤ d < 32 → 0 ≤ f < 8 → u8 o →
  pci_config_address b d f o = 2147483648 + b * 65536 + d * 2048 + f * 256 + 4 * (o / 4).
Proof.
  unfold urange. change (2 ^ 8) with 256. intros Hb Hd Hf Ho. unfold pci_config_address.
  rewrite land_fc, mod4 by done. rewrite !Z.shiftl_mul_pow2 by lia.
  change (1 * 2 ^ 31) with 2147483648. change (2 ^ 16) with 65536.
  change (2 ^ 11) with 2048. change (2 ^ 8) with 256.
  rewrite (lor_add 2147483648 _ 31) by (change (2 ^ 31) with 2147483648; done || lia).
  rewrite (lor_add _ (d * 2048) 16) by (change (2 ^ 16) with 65536; lia || (Z.to_euclidean_division_equations; lia)).
  rewrite (lor_add _ (f * 256) 11) by (change (2 ^ 11) with 2048; lia || (Z.to_euclidean_division_equations; lia)).
  rewrite (lor_add _ (4 * (o / 4)) 8) by (change (2 ^ 8) with 256; Z.to_euclidean_division_equations; lia).
  done.
Qed.

(** A configuration address names one register of one function: it fits in 32
    bits with the enable bit set, and two locations (of devices below 32 and
    functions below 8) give the same address exactly when they are in the same
    32-bit register of the same function. *)
Theorem pci_config_address_spec (x y : DeviceFunction) (i j : Z)
    (Hx : df_ok x) (Hy : df_ok y) (Hi : u8 i) (Hj : u8 j) :
  let address df o := pci_config_address (bus df) (device df) (function df) o in
  u32 (address x i) ∧ Z.testbit (address x i) 31 = true ∧ address x i mod 4 = 0 ∧
  (address x i = address y j ↔ x = y ∧ i / 4 = j / 4).
Proof.
  destruct Hx as (Hxb & Hxd & Hxf), Hy as (Hyb & Hyd & Hyf). cbn beta zeta.
  rewrite !pci_config_address_eq by done. unfold urange in *.
  change (2 ^ 8) with 256 in *. change (2 ^ 32) with 4294967296.
  destruct x as [xb xd xf], y as [yb yd yf]; cbn [bus device function] in *.
  set (low := xb * 65536 + xd * 2048 + xf * 256 + 4 * (i / 4)).
  assert (0 ≤ low < 2147483648) as Hlow by (unfold low; Z.to_euclidean_division_equations; lia).
  replace (2147483648 + _ + _ + _ + _) with (2147483648 + low) by (unfold low; ring).
  split_and!; [lia|lia| | |].
  - rewrite Z.testbit_odd, Z.shiftr_div_pow2 by lia. change (2 ^ 31) with (1 * 2147483648).
    rewrite Z.mul_1_l, <- (Z.mul_1_l 2147483648) at 1.
    rewrite Z.div_add_l, Z.div_small by lia. done.
  - unfold low. Z.to_euclidean_division_equations. lia.
  - unfold low. split.
    + intros E. assert (xb = yb ∧ xd = yd ∧ xf = yf ∧ i / 4 = j / 4) as (-> & -> & -> & ->);
        [|done]. Z.to_euclidean_division_equations. lia.
    + intros [[= -> -> ->] ->]. lia.
Qed.

Lemma pci_config_address_spec_witness :
  pci_config_address 0 3 0 0x3C = 0x8000183C ∧
  (pci_config_address 0 3 0 0x3C = pci_config_address 0 3 0 0x3E ↔
   ({| bus := 0; device := 3; function := 0 |} = {| bus := 0; device := 3; function := 0 |} ∧
    0x3C / 4 = 0x3E / 4)).
Proof.
  split; [reflexivity|].
  apply (pci_config_address_spec {| bus := 0; device := 3; function := 0 |}
           {| bus := 0; device := 3; function := 0 |} 0x3C 0x3E);
    unfold df_ok, urange; cbn; lia.
Defined.

(** ** The header of a function *)

Section Host.
Context {H : Type} `{HP : PortIo H} `{HH : !PciHost H}.

(** The 32-bit register at byte [o] of a function's space. *)
Definition register (df : DeviceFunction) (h : H) (o : Z) : Z :=
  from_le_bytes [space df h o; space df h (o + 1); space df h (o + 2); space df h (o + 3)].

Definition same_config (h h' : H) : Prop := ∀ a, config h' a = config h a.

Lemma space_same df h h' i : same_config h h' → space df h' i = space df h i.
Proof. intros Hs. apply Hs. Qed.

Lemma register_same df h h' o : same_config h h' → register df h' o = register df h o.
Proof. intros Hs. unfold register. by rewrite !(space_same _ h h'). Qed.

Lemma pci_read_eq df o h :
  df_ok df → u8 o → o mod 4 = 0 →
  ∃ h', pci_read_u32 (bus df) (device df) (function df) o h = (register df h o, h') ∧
    same_config h h'.
Proof.
  intros (Hb & Hd & Hf) Ho Ho4. unfold pci_read_u32.
  destruct (host_read 4 0 (pci_config_address (bus df) (device df) (function df) o) h)
    as (h' & E & Hs); [lia..|].
  exists h'. split; [|done]. change (8 * Z.of_nat 4) with 32 in E.
  rewrite Z.add_0_r in E. rewrite E. f_equal. unfold register, space.
  rewrite !pci_config_address_eq by (done || (unfold urange; lia)).
  replace (4 * (o / 4)) with o by (pose proof (mod4 o); lia).
  set (base := _ + function df * 256).
  change (map (config h) (seqZ ?a (Z.of_nat 4)))
    with [config h (0 + a); config h (1 + a); config h (2 + a); config h (3 + a)].
  change (4 * (0 / 4)) with 0. f_equal.
  do 4 (apply (f_equal2 cons); [f_equal; lia|]). done.
Qed.

(** What a driver needs to know of a function, from the bytes of its header. *)
Definition header_info `{VirtioIds} (df : DeviceFunction) (h : H) : DeviceFunctionInfo :=
  let c := space df h in {|
  vendor_id := from_le_bytes [c 0; c 1]; device_id := from_le_bytes [c 2; c 3];
  class := c 11; subclass := c 10; prog_if := c 9; revision := c 8;
  header_type := HeaderType_from (c 14 mod 128) |}.

(** Halves and bytes of a register. *)
Lemma register_fields b0 b1 b2 b3 :
  bytes [b0; b1; b2; b3] →
  let r := from_le_bytes [b0; b1; b2; b3] in
  wrap 16 r = from_le_bytes [b0; b1] ∧ wrap 16 (Z.shiftr r 16) = from_le_bytes [b2; b3] ∧
  wrap 8 r = b0 ∧ wrap 8 (Z.shiftr r 8) = b1 ∧ wrap 8 (Z.shiftr r 16) = b2 ∧
  wrap 8 (Z.shiftr r 24) = b3.
Proof.
  intros Hb. bytes_inv. cbn [from_le_bytes]. cbn zeta. unfold wrap.
  rewrite !Z.shiftr_div_pow2 by lia.
  change (2 ^ 8) with 256 in *. change (2 ^ 16) with 65536. change (2 ^ 24) with 16777216.
  split_and!; Z.to_euclidean_division_equations; lia.
Qed.

Lemma space_bytes df h o :
  bytes [space df h o; space df h (o + 1); space df h (o + 2); space df h (o + 3)].
Proof. repeat (apply Forall_cons_2; [apply config_byte|]). done. Qed.

Lemma virtio_type_at_eq `{VP : VirtioPci} df h :
  df_ok df →
  ∃ h', virtio_type_at (bus df) (device df) (function df) h =
        (virtio_device_type (header_info df h), h') ∧ same_config h h'.
Proof.
  intros Hdf. unfold virtio_type_at.
  destruct (pci_read_eq df 0 h Hdf) as (h1 & E1 & S1); [unfold urange; lia|done|]. rewrite E1.
  destruct (pci_read_eq df 8 h1 Hdf) as (h2 & E2 & S2); [unfold urange; lia|done|]. rewrite E2.
  destruct (pci_read_eq df 12 h2 Hdf) as (h3 & E3 & S3); [unfold urange; lia|done|]. rewrite E3.
  rewrite (register_same _ h1 h2), !(register_same _ h h1) by done. exists h3.
  split; [|intros a; by rewrite S3, S2].
  destruct (register_fields _ _ _ _ (space_bytes df h 0)) as (R1 & R2 & _).
  destruct (register_fields _ _ _ _ (space_bytes df h 8)) as (_ & _ & R3 & R4 & R5 & R6).
  destruct (register_fields _ _ _ _ (space_bytes df h 12)) as (_ & _ & _ & _ & R7 & _).
  unfold register. cbn zeta in *. rewrite R1, R2, R3, R4, R5, R6, R7.
  change 0x7f with (2 ^ 7 - 1). by rewrite land_ones_mod.
Qed.

(** Whatever a function is, [virtio_type_at] decides on its configuration header
    and on nothing else: vendor and device from bytes 0 to 3, revision, interface and
    class from bytes 8 to 11, the header type from the low seven bits of byte 14.  The
    probe leaves every register of every function as it was. *)
Theorem virtio_type_at_spec `{VP : VirtioPci} (df : DeviceFunction) (h : H) (Hdf : df_ok df) :
  ∃ h', virtio_type_at (bus df) (device df) (function df) h =
        (virtio_device_type (header_info df h), h') ∧ same_config h h'.
Proof. by apply virtio_type_at_eq. Qed.

(** The transports read the registers of the function they are built for, and only those. *)
Lemma read_word_eq df o h :
  df_ok df → u8 o → o mod 4 = 0 →
  ∃ h', PortCam.read_word df o h = (register df h o, h') ∧ same_config h h'.
Proof. apply pci_read_eq. Qed.

(** *** What [enumerate_pci] reports of a function *)
Definition report (df : DeviceFunction) (h : H) : list pci_line :=
  let c := space df h in
  let vendor := from_le_bytes [c 0; c 1] in
  if vendor =? 0xffff then [] else
  (if vendor =? 0x1af4
   then VirtioFound :: map (λ bar, Bar bar (register df h (0x10 + bar * 4))) (seqZ 0 6) else []) ++
  [FunctionFound df vendor (from_le_bytes [c 2; c 3])].

Lemma report_same df h h' : same_config h h' → report df h' = report df h.
Proof.
  intros Hs. unfold report. rewrite !(space_same _ h h') by done.
  destruct (_ =? 0xffff); [done|]. destruct (_ =? 0x1af4); [|done].
  do 2 f_equal. apply map_ext. intros bar. by rewrite (register_same _ h h').
Qed.

Lemma same_config_trans h1 h2 h3 : same_config h1 h2 → same_config h2 h3 → same_config h1 h3.
Proof. intros H1 H2 a. by rewrite H2. Qed.

Lemma print_bars_eq df bars h :
  df_ok df → Forall (λ bar, 0 ≤ bar < 6) bars →
  ∃ h', print_bars df bars h =
        (map (λ bar, Bar bar (register df h (0x10 + bar * 4))) bars, h') ∧ same_config h h'.
Proof.
  intros Hdf Hb. revert h. induction Hb as [|bar bars Hbar _ IH]; intros h; [by exists h|].
  cbn [print_bars map].
  destruct (pci_read_eq df (0x10 + bar * 4) h Hdf) as (h1 & E1 & S1);
    [unfold urange; lia|Z.to_euclidean_division_equations; lia|].
  rewrite E1. destruct (IH h1) as (h2 & E2 & S2). rewrite E2. exists h2.
  split; [|by eapply same_config_trans]. do 2 f_equal. apply map_ext. intros b.
  by rewrite (register_same _ h h1).
Qed.

Lemma print_function_eq df h :
  df_ok df → ∃ h', print_function df h = (report df h, h') ∧ same_config h h'.
Proof.
  intros Hdf. unfold print_function, report.
  destruct (pci_read_eq df 0 h Hdf) as (h1 & E1 & S1); [unfold urange; lia|done|].
  destruct (pci_read_eq df 0 h1 Hdf) as (h2 & E2 & S2); [unfold urange; lia|done|].
  rewrite E1, E2, (register_same _ h h1) by done.
  destruct (register_fields _ _ _ _ (space_bytes df h 0)) as (R1 & R2 & _).
  cbn zeta in R1, R2. fold (register df h 0) in R1, R2.
  change 0xffff with (2 ^ 16 - 1). rewrite !land_ones_mod by done. unfold wrap in R1, R2.
  rewrite R1, R2. destruct (_ =? 2 ^ 16 - 1); cbn [negb]; [by exists h1|].
  destruct (_ =? 0x1af4).
  - destruct (print_bars_eq df (seqZ 0 6) h2 Hdf) as (h3 & E3 & S3).
    { apply Forall_forall. intros x. rewrite elem_of_seqZ. lia. }
    rewrite E3. exists h3. split; [|by do 2 (eapply same_config_trans; [done|])].
    do 3 f_equal. apply map_ext. intros b.
    by rewrite (register_same _ h1 h2), (register_same _ h h1).
  - exists h2. split; [done|by eapply same_config_trans].
Qed.

Lemma print_functions_eq dfs h :
  Forall df_ok dfs →
  ∃ h', print_functions dfs h = (dfs ≫= λ df, report df h, h') ∧ same_config h h'.
Proof.
  intros Hd. revert h. induction Hd as [|df dfs Hdf _ IH]; intros h; [by exists h|].
  cbn [print_functions]. destruct (print_function_eq df h Hdf) as (h1 & E1 & S1). rewrite E1.
  destruct (IH h1) as (h2 & E2 & S2). rewrite E2. exists h2.
  split; [|by eapply same_config_trans]. rewrite bind_cons. do 2 f_equal.
  apply list_bind_ext; [|done]. intros x. by apply report_same.
Qed.
End Host.

Lemma elem_of_pci_functions df : df ∈ pci_functions ↔ df_ok df.
Proof.
  unfold pci_functions, df_ok, urange. change (2 ^ 8) with 256. rewrite list_elem_of_bind. split.
  - intros (b & Hdf & Hb). apply list_elem_of_bind in Hdf as (d & Hdf & Hd).
    apply list_elem_of_bind in Hdf as (f & Hdf & Hf).
    apply list_elem_of_singleton in Hdf as ->. rewrite elem_of_seqZ in *. cbn. lia.
  - intros (Hb & Hd & Hf). exists (bus df). rewrite elem_of_seqZ. split; [|lia].
    apply list_elem_of_bind. exists (device df). rewrite elem_of_seqZ. split; [|lia].
    apply list_elem_of_bind. exists (function df). rewrite elem_of_seqZ. split; [|lia].
    destruct df. by apply list_elem_of_singleton.
Qed.

Lemma df_ok_functions : Forall df_ok pci_functions.
Proof. apply Forall_forall. intros df. by rewrite elem_of_pci_functions. Qed.

(** [enumerate_pci] visits every function a configuration address can name, in
    the order of the three loops, and prints what is there: nothing for an absent
    function (vendor 0xffff), else its identifiers, after the six base addresses when
    it is a VirtIO one.  No register changes. *)
Theorem enumerate_pci_spec {H} `{PciHost H} (h : H) :
  (∀ df, df ∈ pci_functions ↔ df_ok df) ∧
  ∃ h', enumerate_pci h = (pci_functions ≫= λ df, report df h, h') ∧ same_config h h'.
Proof.
  split; [exact elem_of_pci_functions|]. apply print_functions_eq, df_ok_functions.
Qed.

(** ** The ACPI handler reads the same space *)

Lemma pci_address_agrees a o :
  pci_address_to_u32 a o =
  pci_config_address (bus (in_segment a)) (device (in_segment a)) (function (in_segment a)) o.
Proof. reflexivity. Qed.

Lemma address_offset df o :
  df_ok df → u8 o →
  pci_config_address (bus df) (device df) (function df) o + o mod 4 =
  pci_config_address (bus df) (device df) (function df) 0 + o.
Proof.
  intros (Hb & Hd & Hf) Ho. rewrite !pci_config_address_eq by (done || (unfold urange; lia)).
  pose proof (mod4 o). change (4 * (0 / 4)) with 0. lia.
Qed.

(** The ACPI handler's PCI accesses are those of [pci.rs].  On segment 0, a 32-bit
    access at an aligned offset is [pci_read_u32] or [pci_write_u32] of the same
    function; a read of one, two or four bytes that stays in its register gives those
    bytes of the function's space, little endian.  Any other segment panics. *)
Theorem acpi_pci_spec {H} `{PciHost H} (a : PciAddress) (o v : Z) (n : nat) (h : H)
    (Ho : u8 o) (Hdf : df_ok (in_segment a)) (Hn : (0 < n)%nat) (Hin : o mod 4 + Z.of_nat n ≤ 4) :
  let df := in_segment a in
  (segment a = 0 → o mod 4 = 0 →
     AcpiHandler.read_pci_u32 a o h = Ret (pci_read_u32 (bus df) (device df) (function df) o h) ∧
     AcpiHandler.write_pci_u32 a o v h =
       Ret (pci_write_u32 (bus df) (device df) (function df) o v h)) ∧
  (segment a = 0 → ∃ h',
     AcpiHandler.read_pci (8 * Z.of_nat n) a o h =
       Ret (from_le_bytes (map (space df h) (seqZ o (Z.of_nat n))), h') ∧ same_config h h') ∧
  (segment a ≠ 0 → ∀ w, AcpiHandler.read_pci w a o h = Panic ∧ AcpiHandler.write_pci w a o v h = Panic).
Proof.
  cbn zeta. unfold AcpiHandler.read_pci_u32, AcpiHandler.write_pci_u32, AcpiHandler.read_pci,
    AcpiHandler.write_pci. rewrite pci_address_agrees. split_and!.
  - intros -> Hm. rewrite Hm. done.
  - intros ->. cbn [Z.eqb].
    destruct (host_read n (o mod 4) (pci_config_address (bus (in_segment a))
      (device (in_segment a)) (function (in_segment a)) o) h) as (h' & E & Hs);
      [apply Z.mod_pos_bound; lia|done|done|].
    exists h'. rewrite E. split; [|done]. do 3 f_equal. rewrite address_offset by done.
    unfold seqZ. rewrite <- !list_fmap_compose.
    apply list_fmap_ext. intros i x _. unfold space. cbn. f_equal. lia.
  - intros Hs w. by rewrite (proj2 (Z.eqb_neq _ _)).
Qed.

(** ** A bridge over a table of bytes *)

Module ExampleHost.
(** The address port's latch, and the space. *)
Definition t : Type := Z * (Z → Z).
#[global] Instance ports : PortIo t := {|
  port_read := λ w p h,
    (from_le_bytes (map (λ a, h.2 a mod 256) (seqZ (h.1 + (p - 0xCFC)) (w / 8))), h);
  port_write := λ w p v h, if p =? 0xCF8 then (v, h.2) else h |}.
#[global] Instance host : PciHost t.
Proof.
  refine {| config := λ h a, h.2 a mod 256 |}.
  - intros h a. unfold urange. apply Z.mod_pos_bound. lia.
  - intros n i a h Hi Hn Hin. exists (a, h.2). split; [|done]. unfold port_read, port_write. cbn.
    do 3 f_equal. f_equal; [lia|]. rewrite (Z.mul_comm _ (Z.of_nat n)). by rewrite Z.div_mul.
Defined.

(** One function, 00:03.0: an entropy source. *)
Definition header : list Z := [0xf4; 0x1a; 0x44; 0x10; 7; 4; 16; 0; 1; 0; 255; 0; 0; 0; 0x80; 0].
Definition base : Z := pci_config_address 0 3 0 0.
Definition h0 : t := (0, λ a, default 0xff (get header (a - base))).
Definition df : DeviceFunction := {| bus := 0; device := 3; function := 0 |}.
Lemma df_is_ok : df_ok df.
Proof. unfold df_ok, urange. cbn. lia. Qed.

#[global] Instance ids : VirtioIds.
Proof.
  refine {| DeviceType := bool; EntropySource := true; Network := false;
            HeaderType := Z; HeaderType_from := λ z, z |}.
Defined.
(** Vendor 0x1af4, of device 0x1044 or 0x1041. *)
#[global] Instance types : VirtioPci := λ i,
  if vendor_id i =? 0x1af4 then
    if device_id i =? 0x1044 then Some true else if device_id i =? 0x1041 then Some false else None
  else None.
End ExampleHost.

Lemma virtio_type_at_spec_witness :
  ∃ h', virtio_type_at 0 3 0 ExampleHost.h0 = (Some EntropySource, h').
Proof.
  destruct (virtio_type_at_spec ExampleHost.df ExampleHost.h0 ExampleHost.df_is_ok) as (h' & E & _).
  exists h'. exact E.
Defined.

Lemma enumerate_pci_spec_witness :
  ∃ h', enumerate_pci ExampleHost.h0 =
    (pci_functions ≫= λ df, report df ExampleHost.h0, h') ∧
    report ExampleHost.df ExampleHost.h0 =
      VirtioFound :: map (λ bar, Bar bar 0xffffffff) [0; 1; 2; 3; 4; 5] ++
        [FunctionFound ExampleHost.df 0x1af4 0x1044].
Proof.
  destruct (enumerate_pci_spec ExampleHost.h0) as (_ & h' & E & _).
  exists h'. split; [exact E|vm_compute; reflexivity].
Defined.

Lemma acpi_pci_spec_witness :
  ∃ h', AcpiHandler.read_pci 16 {| segment := 0; in_segment := ExampleHost.df |} 2 ExampleHost.h0 =
    Ret (0x1044, h').
Proof.
  destruct (acpi_pci_spec {| segment := 0; in_segment := ExampleHost.df |} 2 0 2 ExampleHost.h0)
    as (_ & Hr & _);
    [unfold urange; lia|exact ExampleHost.df_is_ok|lia|vm_compute; congruence|].
  destruct (Hr eq_refl) as (h' & E & _). exists h'. exact E.
Defined.
