(* ===== verification/Probe.v ===== *)
(** * Finding a VirtIO device and bringing it up

    [kernel/src/rng.rs] and [kernel/src/network/device.rs] scan the buses with the
    same loop for their device: the first is after an entropy source, the second
    after the network card. *)

From S2P Require Import Prelude Utils Pci.
Local Open Scope Z_scope.

(** The [virtio_drivers] crate on a machine [H]: [PciTransport::new], the driver's
    constructor ([VirtIORng::new], [VirtIONet::new]) and [enable_interrupts].  The first two
    call back into the kernel for memory, which can panic. *)
Class VirtioDriver (H V : Type) := {
  Transport : Type;
  VirtioPciError : Type;
  DriverError : Type;
  transport_new : DeviceFunction → H → outcome (result Transport VirtioPciError * H);
  driver_new : Transport → H → outcome (result V DriverError * H);
  enable_interrupts : V → H → V * H;
}.

Section Probe.
Context {H V : Type} `{HP : PortIo H} `{HV : VirtioPci} `{HD : !VirtioDriver H V}.

Inductive DeviceErr := FailedInit (err : DriverError) | VirtioError (err : VirtioPciError).

(** What is printed of an attempt. *)
Inductive attempt_line :=
| Initialized (df : DeviceFunction)
| Failed (df : DeviceFunction) (err : DeviceErr).

(** The machine, the [Once] of the driver, and the lines printed. *)
Record t := State { machine : H; slot : option V; log : list attempt_line }.

Definition set_machine (h : H) (s : t) : t := State h (slot s) (log s).
Definition print (l : attempt_line) (s : t) : t := State (machine s) (slot s) (log s ++ [l]).

Definition init_from_df (df : DeviceFunction) : prog t (result unit DeviceErr) := λ s,
  '(r, h) ← transport_new df (machine s);
  match r with
  | Ok transport =>
      '(r, h) ← driver_new transport h;
      match r with
      | Ok driver =>
          let '(driver, h) := enable_interrupts driver h in
          Ret (Ok tt, State h (call_once (slot s) driver) (log s))
      | Err err => Ret (Err (FailedInit err), set_machine h s)
      end
  | Err err => Ret (Err (VirtioError err), set_machine h s)
  end.

(** The scan; [ready] is what follows a success, before the function returns. *)
Fixpoint probe (wanted : DeviceType) (ready : DeviceFunction → prog t unit)
    (dfs : list DeviceFunction) : prog t bool :=
  match dfs with
  | [] => mret false
  | df :: dfs => λ s,
      let '(ty, h) := virtio_type_at (bus df) (device df) (function df) (machine s) in
      let s := set_machine h s in
      if negb (bool_decide (ty = Some wanted)) then probe wanted ready dfs s else
      '(r, s) ← init_from_df df s;
      match r with
      | Ok _ => (ready df;; mret true) (print (Initialized df) s)
      | Err err => probe wanted ready dfs (print (Failed df err) s)
      end
  end.

Definition init_pci (wanted : DeviceType) (ready : DeviceFunction → prog t unit) : prog t bool := λ s,
  match slot s with
  | Some _ => Ret (true, s)
  | None => probe wanted ready pci_functions s
  end.
End Probe.
Arguments t H V {HD} : rename.

(** ** Only the devices looked for are touched *)

(** Reading configuration space keeps what its two ports keep. *)
Class ConfigPorts {H} `{PortIo H} (P : H → Prop) := {
  config_address_keeps : ∀ v h, P h → P (port_write 32 0xCF8 v h);
  config_data_keeps : ∀ h, P h → P (port_read 32 0xCFC h).2;
}.

Lemma pci_read_keeps {H} `{HP : PortIo H} (P : H → Prop) `{HC : !ConfigPorts P} b d f o h :
  P h → P (pci_read_u32 b d f o h).2.
Proof. intros Hh. unfold pci_read_u32. by apply config_data_keeps, config_address_keeps. Qed.

Lemma virtio_type_keeps {H} `{HP : PortIo H} `{HV : VirtioPci} (P : H → Prop) `{HC : !ConfigPorts P} b d f h :
  P h → P (virtio_type_at b d f h).2.
Proof.
  intros Hh. unfold virtio_type_at.
  pose proof (pci_read_keeps P b d f 0 h Hh) as H1. destruct (pci_read_u32 b d f 0 h) as [v1 h1].
  pose proof (pci_read_keeps P b d f 8 h1 H1) as H2. destruct (pci_read_u32 b d f 8 h1) as [v2 h2].
  pose proof (pci_read_keeps P b d f 12 h2 H2) as H3. by destruct (pci_read_u32 b d f 12 h2) as [v3 h3].
Qed.

(** On a machine that is [ready] for the driver, bringing a device up returns; when it has
    failed the machine is ready again, and when it has succeeded it is [up].  The
    identification of the functions is left alone, those registers being read only, and the
    machine remembers for which functions a transport was built, each of them reset by it. *)
Class VirtioDriverOk (H V : Type) (ready up : H → Prop) `{PciHost H} `{VirtioIds} `{!VirtioDriver H V} := {
  transports : H → list DeviceFunction;
  transport_ok : ∀ df h, ready h → ∃ r h', transport_new df h = Ret (r, h') ∧
    (∀ x, header_info x h' = header_info x h) ∧ transports h' = transports h ++ [df] ∧ ready h';
  driver_ok : ∀ t h, ready h → ∃ r h', driver_new t h = Ret (r, h') ∧
    (∀ x, header_info x h' = header_info x h) ∧ transports h' = transports h ∧
    match r with Ok _ => up h' | Err _ => ready h' end;
  enable_ok : ∀ v h, up h → let h' := (enable_interrupts v h).2 in
    (∀ x, header_info x h' = header_info x h) ∧ transports h' = transports h ∧ up h';
  ready_ports :: ConfigPorts ready;
  up_ports :: ConfigPorts up;
  transports_ports :: ∀ l, ConfigPorts (λ h, transports h = l);
}.

Definition line_df {H V} `{VirtioDriver H V} (l : attempt_line) : DeviceFunction :=
  match l with Initialized df | Failed df _ => df end.
Definition failed {H V} `{VirtioDriver H V} (l : attempt_line) : Prop :=
  match l with Failed _ _ => True | _ => False end.

Section Spec.
Context {H V : Type} (ready up : H → Prop) `{HP : PortIo H} `{HH : !PciHost H} `{HV : VirtioPci}.
Context `{HD : !VirtioDriver H V} `{HDok : !VirtioDriverOk H V ready up}.

Definition same_headers (h h' : H) : Prop := ∀ x, header_info x h' = header_info x h.

(** A function of the type looked for. *)
Definition is_a (wanted : DeviceType) (h : H) (df : DeviceFunction) : Prop :=
  virtio_device_type (header_info df h) = Some wanted.
#[global] Instance is_a_dec wanted h df : Decision (is_a wanted h df).
Proof. unfold is_a. apply _. Defined.

Lemma same_config_headers (h h' : H) : same_config h h' → same_headers h h'.
Proof. intros Hs x. unfold header_info. by rewrite !(space_same _ h h'). Qed.

(** Machines with the same headers are alike to a scan. *)
#[global] Instance same_headers_equiv : Equivalence same_headers.
Proof.
  split.
  - by intros h x.
  - by intros h h' Hs x.
  - intros h1 h2 h3 H1 H2 x. by rewrite H2.
Qed.
#[global] Instance is_a_proper wanted : Proper (same_headers ==> (=) ==> iff) (is_a wanted).
Proof. intros h h' Hs df ? <-. unfold is_a. by rewrite Hs. Qed.

Lemma filter_is_a wanted h h' (dfs : list DeviceFunction) :
  same_headers h h' → filter (is_a wanted h') dfs = filter (is_a wanted h) dfs.
Proof.
  intros Hs. apply list_filter_iff. intros df. by rewrite Hs.
Qed.

Lemma init_from_df_spec df (s : t H V) :
  slot s = None → ready (machine s) →
  ∃ r s', init_from_df df s = Ret (r, s') ∧ same_headers (machine s) (machine s') ∧ log s' = log s ∧
    transports (machine s') = transports (machine s) ++ [df] ∧
    match r with
    | Ok _ => is_Some (slot s') ∧ up (machine s')
    | Err _ => slot s' = None ∧ ready (machine s')
    end.
Proof using HDok.
  intros Hs Hr. unfold init_from_df.
  destruct (transport_ok df (machine s) Hr) as ([tr|e] & h1 & -> & T1 & T2 & T3); rewrite bind_Ret;
    [|eexists _, _; by split_and!].
  destruct (driver_ok tr h1 T3) as ([v|e] & h2 & -> & C1 & C2 & C3); rewrite bind_Ret.
  - destruct (enable_ok v h2 C3) as (I1 & I2 & I3).
    destruct (enable_interrupts v h2) as [v' h3]; cbn in *. rewrite Hs.
    eexists _, _. split; [done|]. cbn. split_and!; [|done|congruence|by eexists|done].
    intros x. by rewrite I1, C1, T1.
  - eexists _, _. split; [done|]. cbn. split_and!; [|done|congruence|done|done].
    intros x. by rewrite C1, T1.
Qed.

(** The result [r] of a scan on a machine with the headers of [h], after [printed] was
    printed and transports for [built] were built: the functions a transport is built for
    are the wanted ones, in order; all of them failed, or the last one succeeded and was
    handed to [use_it]. *)
Definition probed wanted (use_it : DeviceFunction → prog (t H V) unit) (dfs : list DeviceFunction)
    (h : H) (printed : list attempt_line) (built : list DeviceFunction) (r : outcome (bool * t H V)) : Prop :=
  ∃ lines s', log s' = printed ++ lines ∧ Forall failed lines ∧ same_headers h (machine s') ∧
    ((r = Ret (false, s') ∧ slot s' = None ∧ ready (machine s') ∧
      transports (machine s') = built ++ map line_df lines ∧
      map line_df lines = filter (is_a wanted h) dfs) ∨
     (∃ df rest, r = (use_it df;; mret true) (print (Initialized df) s') ∧ is_Some (slot s') ∧
      up (machine s') ∧ transports (machine s') = built ++ map line_df lines ++ [df] ∧
      map line_df lines ++ df :: rest = filter (is_a wanted h) dfs)).

Lemma probed_headers wanted use_it dfs (h h' : H) printed built r :
  same_headers h h' → probed wanted use_it dfs h' printed built r → probed wanted use_it dfs h printed built r.
Proof.
  intros Hs (lines & s' & Hl & Hf & Hs' & Hr). rewrite (filter_is_a _ h h') in Hr by done.
  exists lines, s'. split_and!; try done. by etrans.
Qed.

Lemma probed_skip wanted use_it df dfs (h : H) printed built r :
  ¬ is_a wanted h df → probed wanted use_it dfs h printed built r →
  probed wanted use_it (df :: dfs) h printed built r.
Proof. intros Hn. unfold probed. by rewrite filter_cons_False. Qed.

Lemma probed_failed wanted use_it df dfs (h : H) printed built e r :
  is_a wanted h df → probed wanted use_it dfs h (printed ++ [Failed df e]) (built ++ [df]) r →
  probed wanted use_it (df :: dfs) h printed built r.
Proof.
  intros Hw (lines & s' & Hl & Hf & Hs & Hr). exists (Failed df e :: lines), s'.
  rewrite filter_cons_True by done. rewrite Hl, <- app_assoc. split_and!; try done.
  { by constructor. }
  destruct Hr as [(? & ? & ? & Ht & Hm)|(d & rest & ? & ? & ? & Ht & Hm)]; [left|right; exists d, rest];
    rewrite Ht, <- app_assoc; split_and!; try done; cbn; by rewrite Hm.
Qed.

Lemma probe_spec wanted use_it dfs (s : t H V) :
  slot s = None → ready (machine s) → Forall df_ok dfs →
  probed wanted use_it dfs (machine s) (log s) (transports (machine s)) (probe wanted use_it dfs s).
Proof using HDok.
  intros Hslot Hready Hdfs. revert s Hslot Hready. induction Hdfs as [|df dfs Hdf _ IH]; intros s Hslot Hready.
  { exists [], s. rewrite !app_nil_r. split_and!; try done. by left. }
  cbn [probe]. destruct (virtio_type_at_eq df (machine s) Hdf) as (h1 & E & Sc).
  pose proof (virtio_type_keeps ready (bus df) (device df) (function df) _ Hready) as R1.
  pose proof (virtio_type_keeps (λ h, transports h = transports (machine s)) (bus df) (device df) (function df)
    (machine s) eq_refl) as T1.
  rewrite E in R1, T1 |- *. cbn in R1, T1. apply same_config_headers in Sc.
  destruct (decide (is_a wanted (machine s) df)) as [Hw|Hw].
  - rewrite bool_decide_eq_true_2 by done. cbn [negb].
    destruct (init_from_df_spec df (set_machine h1 s) Hslot R1) as (r & s2 & E2 & S2 & L2 & T2 & R2).
    rewrite E2, bind_Ret. pose proof (transitivity Sc S2) as S12. cbn in T2. rewrite T1 in T2. destruct r as [[]|e].
    + exists [], s2. rewrite app_nil_r. destruct R2. split_and!; try done. right.
      exists df, (filter (is_a wanted (machine s)) dfs). by rewrite filter_cons_True.
    + destruct R2 as [R2 R3]. apply (probed_failed _ _ _ _ _ _ _ e); [done|].
      eapply probed_headers; [exact S12|]. rewrite <- (L2 : log s2 = log s), <- T2.
      apply (IH (print (Failed df e) s2) R2 R3).
  - rewrite bool_decide_eq_false_2 by done. cbn [negb]. apply probed_skip; [done|].
    eapply probed_headers; [exact Sc|]. rewrite <- T1. apply (IH (set_machine h1 s) Hslot R1).
Qed.

(** The state the whole scan leaves the machine in. *)
Lemma init_pci_ready wanted use_it (s : t H V) :
  (∀ df s, up (machine s) → ∃ s', use_it df s = Ret (tt, s') ∧ up (machine s')) →
  slot s = None → ready (machine s) →
  ∃ b s', init_pci wanted use_it s = Ret (b, s') ∧ if b then up (machine s') else ready (machine s').
Proof using HDok.
  intros Huse Hslot Hready. unfold init_pci. rewrite Hslot.
  destruct (probe_spec wanted use_it pci_functions s Hslot Hready df_ok_functions)
    as (lines & s' & _ & _ & _ & [(-> & _ & Hr & _)|(df & rest & -> & _ & Hu & _)]); [by eexists _, _|].
  destruct (Huse df (print (Initialized df) s') Hu) as (s2 & E & Hu2).
  exists true, s2. by erewrite prog_bind_Ret by exact E.
Qed.
End Spec.

(** ** A machine that remembers the transports it was asked for *)

Module ExampleBridge.
(** The example bridge, and the functions a transport was built for. *)
Record t := Machine { bridge : ExampleHost.t; built : list DeviceFunction }.
#[global] Instance ports : PortIo t := {|
  port_read := λ w p x, let '(v, h) := port_read w p (bridge x) in (v, Machine h (built x));
  port_write := λ w p v x, Machine (port_write w p v (bridge x)) (built x) |}.
#[global] Instance pci : PciHost t.
Proof.
  refine {| config := λ x a, config (bridge x) a |}.
  - intros x a. apply config_byte.
  - intros n i a x Hi Hn Hin. destruct (host_read n i a (bridge x) Hi Hn Hin) as (h' & E & Hs).
    exists (Machine h' (built x)). split; [|done]. unfold port_read, port_write. cbn [bridge built ports].
    by rewrite E.
Defined.

(** Every device comes up, as [v]. *)
Definition driver {V} (v : V) : VirtioDriver t V := {|
  Transport := unit; VirtioPciError := unit; DriverError := unit;
  transport_new := λ df x, Ret (Ok tt, Machine (bridge x) (built x ++ [df]));
  driver_new := λ _ x, Ret (Ok v, x); enable_interrupts := λ v x, (v, x) |}.

Lemma always_ports {H} `{PortIo H} : ConfigPorts (λ _ : H, True).
Proof. done. Qed.
Lemma built_ports l : ConfigPorts (λ x : t, built x = l).
Proof. split; [done|]. intros x <-. cbn. by destruct (ExampleHost.ports). Qed.

Lemma driver_ok `{VirtioIds} {V} (v : V) :
  VirtioDriverOk t V (λ _, True) (λ _, True) (VirtioDriver0 := driver v).
Proof.
  refine {| transports := built : t → _ |}.
  - intros df x _. by eexists _, _.
  - intros [] x _. by eexists _, _.
  - done.
  - exact always_ports.
  - exact always_ports.
  - exact built_ports.
Defined.
End ExampleBridge.
