(* ===== verification/Rng.v ===== *)
(** * Randomness: [kernel/src/rng.rs]

    The hardware sources and how they are mixed into a seed, the generator with fast
    key erasure built around ChaCha20, the fallback without hardware, and the trait
    [FromRand] the rest of the kernel draws integers through. *)

From S2P Require Import Prelude Utils Interfaces Pci Probe.
Local Open Scope Z_scope.

(** ** What the module is built on *)

(** The hardware: [VirtIORng::request_entropy], which overwrites a buffer and says how
    much of it, RDRAND behind its CPUID bit (a status, 1 for success, and a word), and
    the time stamp counter. *)
Class EntropyHw (H V : Type) `{VirtioDriver H V} := {
  request_entropy : list Z → V → H → result Z DriverError * list Z * V * H;
  has_rdrand : H → bool;
  rdrand64_step : H → Z * Z * H;
  rdtsc : H → Z * H;
}.

(** The [rand_chacha] crate: [ChaCha20Rng::from_seed] and [fill_bytes] of a buffer of
    some length. *)
Class ChaCha := {
  ChaCha20Rng : Type;
  from_seed : list Z → ChaCha20Rng;
  fill_bytes : nat → ChaCha20Rng → list Z * ChaCha20Rng;
}.

Module EntropyMode.
Inductive t := VirtioAndRdrand | Virtio | Rdrand | Insecure.
#[global] Instance eq_dec : EqDecision t.
Proof. solve_decision. Defined.
End EntropyMode.

Definition RESEED_INTERVAL : Z := 1024.

(** ** Hardware sources *)

Section Sources.
Context {H V : Type} `{HD : VirtioDriver H V} `{HE : !EntropyHw H V}.
Abbreviation sources := (Probe.t H V).

Definition virtio_bytes (s : sources) : option (list Z) * sources :=
  match slot s with
  | None => (None, s)
  | Some v =>
      let '(r, out, v, h) := request_entropy (array 0 32) v (machine s) in
      (match r with
       | Ok n => if n =? len out then Some out else None
       | Err _ => None
       end, State h (Some v) (log s))
  end.

(** [(0..n).any(|_| _rdrand64_step(&mut word) == 1)] *)
Fixpoint rdrand_any (n : nat) (word : Z) (h : H) : bool * Z * H :=
  match n with
  | O => (false, word, h)
  | S n =>
      let '(status, word, h) := rdrand64_step h in
      if status =? 1 then (true, word, h) else rdrand_any n word h
  end.

(** The loop over the eight-byte chunks of the buffer. *)
Fixpoint rdrand_chunks (n : nat) (h : H) : option (list Z) * H :=
  match n with
  | O => (Some [], h)
  | S n =>
      let '(ok, word, h) := rdrand_any 10 0 h in
      if negb ok then (None, h) else
      let '(rest, h) := rdrand_chunks n h in
      ((λ r, to_le_bytes 8 word ++ r) <$> rest, h)
  end.
Definition rdrand_bytes_unchecked (h : H) : option (list Z) * H := rdrand_chunks 4 h.

Definition rdrand_bytes (s : sources) : option (list Z) * sources :=
  if negb (has_rdrand (machine s)) then (None, s) else
  let '(r, h) := rdrand_bytes_unchecked (machine s) in (r, set_machine h s).

(** [for (s, b) in seed.iter_mut().zip(source.iter()) { *s ^= *b; }] *)
Fixpoint xor_into (seed source : list Z) : list Z :=
  match seed, source with
  | s :: seed, b :: source => Z.lxor s b :: xor_into seed source
  | _, _ => seed
  end.

Definition gather_seed (s : sources) : option (list Z * EntropyMode.t) * sources :=
  let '(virtio, s) := virtio_bytes s in
  let '(rdrand, s) := rdrand_bytes s in
  match (match virtio, rdrand with
         | Some _, Some _ => Some EntropyMode.VirtioAndRdrand
         | Some _, None => Some EntropyMode.Virtio
         | None, Some _ => Some EntropyMode.Rdrand
         | None, None => None
         end) with
  | None => (None, s)
  | Some mode => (Some (foldl xor_into (array 0 32) (omap id [virtio; rdrand]), mode), s)
  end.
End Sources.

(** ** The generator *)

Module Csprng.
Section Csprng.
Context {H V : Type} `{HD : VirtioDriver H V} `{HE : !EntropyHw H V} `{HC : ChaCha}.

Record t := { inner : ChaCha20Rng; buf : list Z; buf_pos : Z; blocks : Z }.

Definition new (seed : list Z) : t :=
  {| inner := from_seed seed; buf := array 0 32; buf_pos := 32; blocks := 0 |}.

Abbreviation M := (prog (t * Probe.t H V)).

Definition refill : M unit := λ '(self, s),
  let '(block, _) := fill_bytes 64 (inner self) in
  head ← slice_to block 32; next_seed ← copy_range (array 0 32) 0 32 head;
  tail ← slice_from block 32; b ← copy_range (buf self) 0 (len (buf self)) tail;
  let count := wrap 32 (blocks self + 1) in
  let '(count, next_seed, s) :=
    if RESEED_INTERVAL <=? count then
      let '(r, s) := gather_seed s in
      (0, match r with Some (fresh, _) => xor_into next_seed fresh | None => next_seed end, s)
    else (count, next_seed, s) in
  Ret (tt, ({| inner := from_seed next_seed; buf := b; buf_pos := 0; blocks := count |}, s)).

(** One round of [fill]'s loop. *)
Definition next_byte : M Z := λ '(self, s),
  '(_, (self, s)) ←
    (if buf_pos self =? len (buf self) then refill (self, s) else Ret (tt, (self, s)));
  byte ← index (buf self) (buf_pos self);
  pos ← add_w 64 (buf_pos self) 1;
  Ret (byte, ({| inner := inner self; buf := buf self; buf_pos := pos; blocks := blocks self |}, s)).

Fixpoint fill (out : list Z) : M (list Z) :=
  match out with
  | [] => mret []
  | _ :: out => byte ← next_byte; rest ← fill out; mret (byte :: rest)
  end.
End Csprng.
End Csprng.

(** ** Without hardware *)

Module Xorshift64.
Section Xorshift.
Context {H V : Type} `{HD : VirtioDriver H V} `{HE : !EntropyHw H V}.

(** The three shifts, on 64 bits. *)
Definition scramble (x : Z) : Z :=
  let x := Z.lxor x (wrap 64 (Z.shiftl x 13)) in
  let x := Z.lxor x (Z.shiftr x 7) in
  Z.lxor x (wrap 64 (Z.shiftl x 17)).

Definition next (state : Z) (h : H) : Z * Z * H :=
  let '(state, h) :=
    if state =? 0 then let '(tsc, h) := rdtsc h in (Z.lor tsc 1, h) else (state, h) in
  (scramble state, scramble state, h).
End Xorshift.
End Xorshift64.

(** ** The module's state and its functions *)

Section Rng.
Context {H V : Type} `{HP : PortIo H} `{HV : VirtioPci}.
Context `{HD : !VirtioDriver H V} `{HE : !EntropyHw H V} `{HC : ChaCha}.

(** [VIRTIO_RNG] and the machine, [CSPRNG], [ENTROPY_MODE], [FALLBACK]. *)
Record rng := Rng {
  sources : Probe.t H V;
  CSPRNG : option Csprng.t;
  ENTROPY_MODE : option EntropyMode.t;
  FALLBACK : Z;
}.

Definition init_virtio_rng : prog (Probe.t H V) bool := init_pci EntropySource (λ _, mret tt).

Definition init_entropy : prog rng EntropyMode.t := λ r,
  '(_, s) ← init_virtio_rng (sources r);
  let '(g, s) := gather_seed s in
  let '(mode, c) :=
    match g with
    | Some (seed, mode) => (mode, call_once (CSPRNG r) (Csprng.new seed))
    | None => (EntropyMode.Insecure, CSPRNG r)
    end in
  let m := call_once (ENTROPY_MODE r) mode in
  Ret (default mode m, Rng s c m (FALLBACK r)).

(** [for chunk in buf.chunks_mut(8)] *)
Fixpoint fallback_fill (chunks : list (list Z)) (state : Z) (h : H) : outcome (list Z * Z * H) :=
  match chunks with
  | [] => Ret ([], state, h)
  | chunk :: chunks =>
      let '(x, state, h) := Xorshift64.next state h in
      part ← slice_to (to_le_bytes 8 x) (len chunk);
      chunk ← copy_range chunk 0 (len chunk) part;
      '(rest, state, h) ← fallback_fill chunks state h;
      Ret (chunk ++ rest, state, h)
  end.

(** The filled buffer comes with the result. *)
Definition get_random (buf : list Z) : prog rng (result Z DriverError * list Z) := λ r,
  match CSPRNG r with
  | Some c =>
      '(buf, (c, s)) ← Csprng.fill buf (c, sources r);
      Ret (Ok (len buf), buf, Rng s (Some c) (ENTROPY_MODE r) (FALLBACK r))
  | None =>
      '(buf, state, h) ← fallback_fill (chunks 8 buf) (FALLBACK r) (machine (sources r));
      Ret (Ok (len buf), buf, Rng (set_machine h (sources r)) None (ENTROPY_MODE r) state)
  end.

Definition entropy_mode (r : rng) : EntropyMode.t := default EntropyMode.Insecure (ENTROPY_MODE r).
Definition entropy_is_cryptographic (r : rng) : bool :=
  negb (bool_decide (entropy_mode r = EntropyMode.Insecure)).

(** [FromRand::from_rand] of the eight integer types. *)
Definition from_rand_int (t : int_ty) : prog rng (result Z DriverError) := λ r,
  '(res, arr, r) ← get_random (array 0 (Z.of_nat (size_of t))) r;
  match res with
  | Ok _ => Ret (Ok (of_pattern t (from_le_bytes arr)), r)
  | Err e => Ret (Err e, r)
  end.

#[global] Instance rng_source : RandomSource rng := {|
  RandomError := DriverError; from_rand := from_rand_int |}.
End Rng.
Arguments rng H V {HD HC} : rename.
