(* ===== verification/RngTheorems.v ===== *)
(** * What the random numbers are worth

    Theorems on [Rng.v]: the seed, the generator against a specification of fast key
    erasure, the fallback, and the interface the network stack relies on. *)

From S2P Require Import Prelude Utils Interfaces Pci Probe Rng.
Local Open Scope Z_scope.

(** The device overwrites bytes of the buffer it is given; the processor's words have
    64 bits. *)
Class EntropyHwOk (H V : Type) `{EntropyHw H V} := {
  request_entropy_ok : ∀ buf v h r out v' h', bytes buf →
    request_entropy buf v h = (r, out, v', h') → len out = len buf ∧ bytes out;
  rdrand_ok : ∀ h, u64 (rdrand64_step h).1.2;
  rdtsc_ok : ∀ h, u64 (rdtsc h).1;
}.

(** The cipher fills the whole buffer with bytes. *)
Class ChaChaOk `{ChaCha} :=
  fill_bytes_ok : ∀ n c, length (fill_bytes n c).1 = n ∧ bytes (fill_bytes n c).1.

(** ** Exclusive or of byte strings *)

Lemma lxor_u8 a b : u8 a → u8 b → u8 (Z.lxor a b).
Proof.
  unfold urange. intros Ha Hb. assert (0 ≤ Z.lxor a b) as H0 by (apply Z.lxor_nonneg; lia).
  split; [done|]. destruct (decide (Z.lxor a b = 0)) as [->|Hne]; [done|].
  apply Z.log2_lt_pow2; [lia|].
  pose proof (Z.log2_lxor a b). assert (∀ x, 0 ≤ x < 2 ^ 8 → Z.log2 x < 8) as Hlog.
  { intros x Hx. destruct (decide (x = 0)) as [->|]; [done|]. apply Z.log2_lt_pow2; lia. }
  pose proof (Hlog a). pose proof (Hlog b). lia.
Qed.

Lemma length_xor_into a b : length (xor_into a b) = length a.
Proof. revert b. induction a as [|x a IH]; intros [|y b]; cbn; auto. Qed.

Lemma bytes_xor_into a b : bytes a → bytes b → bytes (xor_into a b).
Proof.
  intros Ha. revert b. induction Ha as [|x a Hx Ha IH]; intros b Hb; [done|].
  destruct Hb as [|y b Hy Hb]; cbn; constructor; auto using lxor_u8.
Qed.

Lemma xor_into_zero b : xor_into (replicate (length b) 0) b = b.
Proof. induction b as [|y b IH]; cbn; [done|]. by rewrite Z.lxor_0_l, IH. Qed.

Lemma xor_into_undo a b : length a = length b → xor_into (xor_into a b) a = b.
Proof.
  revert b. induction a as [|x a IH]; intros [|y b] Hl; try done. cbn. f_equal; [|auto].
  by rewrite (Z.lxor_comm x y), Z.lxor_assoc, Z.lxor_nilpotent, Z.lxor_0_r.
Qed.

Lemma xor_into_cancel a b : length a = length b → xor_into (xor_into a b) b = a.
Proof.
  revert b. induction a as [|x a IH]; intros [|y b] Hl; try done. cbn. f_equal; [|auto].
  by rewrite Z.lxor_assoc, Z.lxor_nilpotent, Z.lxor_0_r.
Qed.

(** ** The seed *)

(** Thirty-two bytes. *)
Definition seed_ok (l : list Z) : Prop := length l = 32%nat ∧ bytes l.

Section Seed.
Context {H V : Type} `{HD : VirtioDriver H V} `{HE : !EntropyHw H V} `{HEok : !EntropyHwOk H V}.
Abbreviation sources := (Probe.t H V).

Lemma seed_array : seed_ok (array 0 32).
Proof. split; [done|]. apply Forall_replicate. done. Qed.

Lemma virtio_bytes_ok (s : sources) a : (virtio_bytes s).1 = Some a → seed_ok a.
Proof.
  unfold virtio_bytes. destruct (slot s) as [v|]; [|done].
  destruct (request_entropy _ v (machine s)) as [[[r out] v'] h'] eqn:E.
  apply request_entropy_ok in E as [Hl Hb]; [|apply seed_array].
  destruct r as [n|e]; cbn; [|done]. destruct (n =? len out); [|done]. intros [= <-].
  split; [|done]. rewrite len_array in Hl by lia. unfold len in Hl. lia.
Qed.

Lemma rdrand_chunks_ok n (h : H) l :
  (rdrand_chunks n h).1 = Some l → length l = (8 * n)%nat ∧ bytes l.
Proof.
  revert h l. induction n as [|n IH]; intros h l; cbn [rdrand_chunks]; [by intros [= <-]|].
  destruct (rdrand_any 10 0 h) as [[ok word] h1]. destruct ok; cbn [negb]; [|done].
  specialize (IH h1). destruct (rdrand_chunks n h1) as [[r|] h2]; cbn in IH |- *; [|done].
  intros [= <-]. destruct (IH r eq_refl) as [Hl Hb]. split.
  - cbn [length]. rewrite Hl. lia.
  - apply (Forall_app_2 _ (to_le_bytes 8 word) r); [apply bytes_to_le|done].
Qed.

Lemma rdrand_bytes_ok (s : sources) b : (rdrand_bytes s).1 = Some b → seed_ok b.
Proof.
  unfold rdrand_bytes, rdrand_bytes_unchecked. destruct (negb _); [done|].
  pose proof (rdrand_chunks_ok 4 (machine s)) as Hc.
  destruct (rdrand_chunks 4 (machine s)) as [r h]. cbn. intros ->. by apply Hc.
Qed.

(** The mixture of what the two sources gave. *)
Definition mix (virtio rdrand : option (list Z)) : option (list Z * EntropyMode.t) :=
  match virtio, rdrand with
  | Some a, Some b => Some (xor_into a b, EntropyMode.VirtioAndRdrand)
  | Some a, None => Some (a, EntropyMode.Virtio)
  | None, Some b => Some (b, EntropyMode.Rdrand)
  | None, None => None
  end.

Lemma xor_into_fresh a : seed_ok a → xor_into (array 0 32) a = a.
Proof. intros [Hl _]. change (array 0 32) with (replicate 32 0). rewrite <- Hl. apply xor_into_zero. Qed.

Lemma gather_seed_eq (s : sources) :
  let '(virtio, s1) := virtio_bytes s in
  let '(rdrand, s2) := rdrand_bytes s1 in
  gather_seed s = (mix virtio rdrand, s2).
Proof.
  unfold gather_seed. pose proof (virtio_bytes_ok s) as Hv.
  destruct (virtio_bytes s) as [virtio s1]. pose proof (rdrand_bytes_ok s1) as Hr.
  destruct (rdrand_bytes s1) as [rdrand s2]. cbn in Hv, Hr.
  destruct virtio as [a|], rdrand as [b|]; cbn [omap list_omap id foldl mix];
    rewrite ?xor_into_fresh by auto; done.
Qed.

Lemma gather_seed_ok (s : sources) seed mode :
  (gather_seed s).1 = Some (seed, mode) → seed_ok seed ∧ mode ≠ EntropyMode.Insecure.
Proof.
  pose proof (gather_seed_eq s) as E. pose proof (virtio_bytes_ok s) as Hv.
  destruct (virtio_bytes s) as [virtio s1]. pose proof (rdrand_bytes_ok s1) as Hr.
  destruct (rdrand_bytes s1) as [rdrand s2]. cbn in Hv, Hr. rewrite E. cbn.
  destruct virtio as [a|], rdrand as [b|]; cbn; intros [= <- <-]; (split; [|done]); auto.
  destruct (Hv a eq_refl) as [Hla Hba], (Hr b eq_refl) as [Hlb Hbb].
  split; [by rewrite length_xor_into|by apply bytes_xor_into].
Qed.

(** *** What the sources deliver

    The device delivers when it is there and says that it has filled the whole buffer. *)
Definition from_device (s s' : sources) (a : option (list Z)) : Prop :=
  match slot s with
  | None => a = None ∧ s' = s
  | Some v => ∃ r out v' h, request_entropy (array 0 32) v (machine s) = (r, out, v', h) ∧
      s' = State h (Some v') (log s) ∧
      ((r = Ok 32 ∧ a = Some out) ∨ (r ≠ Ok 32 ∧ a = None))
  end.

(** The processor's word, if one of [n] tries succeeds. *)
Inductive rdrand_word : nat → H → option Z → H → Prop :=
| word_none h : rdrand_word 0 h None h
| word_hit n h w h' : rdrand64_step h = (1, w, h') → rdrand_word (S n) h (Some w) h'
| word_miss n h st w h1 r h' :
    rdrand64_step h = (st, w, h1) → st ≠ 1 → rdrand_word n h1 r h' → rdrand_word (S n) h r h'.

(** [n] of them, with ten tries for each. *)
Inductive rdrand_words : nat → H → option (list Z) → H → Prop :=
| words_nil h : rdrand_words 0 h (Some []) h
| words_none n h h' : rdrand_word 10 h None h' → rdrand_words (S n) h None h'
| words_cons n h w h1 ws h' :
    rdrand_word 10 h (Some w) h1 → rdrand_words n h1 ws h' → rdrand_words (S n) h (cons w <$> ws) h'.

(** The processor delivers when it has the instruction and four words of it. *)
Definition from_processor (s s' : sources) (b : option (list Z)) : Prop :=
  if has_rdrand (machine s) then
    ∃ ws h, rdrand_words 4 (machine s) ws h ∧ s' = set_machine h s ∧
      b = (λ ws, concat (map (to_le_bytes 8) ws)) <$> ws
  else b = None ∧ s' = s.

Lemma virtio_bytes_from (s : sources) : from_device s (virtio_bytes s).2 (virtio_bytes s).1.
Proof using HEok.
  unfold from_device, virtio_bytes. destruct (slot s) as [v|]; [|done].
  destruct (request_entropy _ v (machine s)) as [[[r out] v'] h] eqn:E.
  pose proof E as Hl. apply request_entropy_ok in Hl as [Hl _]; [|apply seed_array].
  rewrite len_array in Hl by lia. exists r, out, v', h. split; [done|]. split; [done|]. cbn. rewrite Hl.
  destruct r as [n|e]; [|by right]. destruct (Z.eqb_spec n 32) as [->|Hn]; [by left|]. right. split; congruence.
Qed.

Lemma rdrand_any_word n w (h : H) :
  rdrand_word n h (let '(ok, w, _) := rdrand_any n w h in if ok then Some w else None) (rdrand_any n w h).2.
Proof.
  revert w h. induction n as [|n IH]; intros w h; [constructor|]. cbn [rdrand_any].
  destruct (rdrand64_step h) as [[st w'] h1] eqn:E. destruct (Z.eqb_spec st 1) as [->|Hne].
  - by apply word_hit.
  - eapply word_miss; [done|done|apply IH].
Qed.

Lemma rdrand_chunks_words n (h : H) :
  ∃ ws, rdrand_words n h ws (rdrand_chunks n h).2 ∧
    (rdrand_chunks n h).1 = (λ ws, concat (map (to_le_bytes 8) ws)) <$> ws.
Proof.
  revert h. induction n as [|n IH]; intros h; [exists (Some []); by split; [constructor|]|]. cbn [rdrand_chunks].
  pose proof (rdrand_any_word 10 0 h) as Hw. destruct (rdrand_any 10 0 h) as [[[] w] h1]; cbn [negb fst snd] in *.
  - destruct (IH h1) as (ws & Hws & E). destruct (rdrand_chunks n h1) as [rest h2]. cbn [fst snd] in *. subst rest.
    exists (cons w <$> ws). split; [by eapply words_cons|]. by destruct ws.
  - exists None. split; [by apply words_none|done].
Qed.

Lemma rdrand_bytes_from (s : sources) : from_processor s (rdrand_bytes s).2 (rdrand_bytes s).1.
Proof.
  unfold from_processor, rdrand_bytes, rdrand_bytes_unchecked. destruct (has_rdrand (machine s)); [|done].
  cbn [negb]. destruct (rdrand_chunks_words 4 (machine s)) as (ws & Hws & E).
  destruct (rdrand_chunks 4 (machine s)) as [r h]. by exists ws, h.
Qed.

Lemma gather_seed_from (s : sources) :
  ∃ a s1 b s2, from_device s s1 a ∧ from_processor s1 s2 b ∧ gather_seed s = (mix a b, s2).
Proof using HEok.
  pose proof (gather_seed_eq s) as E. pose proof (virtio_bytes_from s) as Hv.
  destruct (virtio_bytes s) as [a s1]. pose proof (rdrand_bytes_from s1) as Hr.
  destruct (rdrand_bytes s1) as [b s2]. by exists a, s1, b, s2.
Qed.

(** [gather_seed] mixes every source that delivered and names exactly those: the
    seed is the exclusive or of the 32 bytes of the device and of the processor when
    both delivered, the one that did when one did, and there is none otherwise.  The
    mixture keeps what either source has: whatever one of them is, the seed and the
    other determine each other. *)
Theorem gather_seed_spec (s : sources) :
  ∃ virtio rdrand s1 s2,
    virtio_bytes s = (virtio, s1) ∧ rdrand_bytes s1 = (rdrand, s2) ∧
    gather_seed s = (mix virtio rdrand, s2) ∧
    (∀ a, virtio = Some a → seed_ok a) ∧ (∀ b, rdrand = Some b → seed_ok b) ∧
    (∀ a b, virtio = Some a → rdrand = Some b →
       seed_ok (xor_into a b) ∧ xor_into (xor_into a b) a = b ∧ xor_into (xor_into a b) b = a).
Proof.
  pose proof (gather_seed_eq s) as E. pose proof (virtio_bytes_ok s) as Hv.
  destruct (virtio_bytes s) as [virtio s1]. pose proof (rdrand_bytes_ok s1) as Hr.
  destruct (rdrand_bytes s1) as [rdrand s2] eqn:E2. cbn in Hv, Hr.
  exists virtio, rdrand, s1, s2. split_and!; try done.
  intros a b Ha Hb. destruct (Hv a Ha) as [Hla Hba], (Hr b Hb) as [Hlb Hbb].
  split_and!; [split; [by rewrite length_xor_into|by apply bytes_xor_into]|..].
  - apply xor_into_undo. congruence.
  - apply xor_into_cancel. congruence.
Qed.
End Seed.

(** ** Fast key erasure *)

(** What the generator is meant to be: under a key, the cipher gives 64 bytes; the
    first half is the next key and the second half is the output.  Every
    [RESEED_INTERVAL] blocks the hardware is stirred into the key. *)
Section Generator.
Context {H V : Type} `{HD : VirtioDriver H V} `{HE : !EntropyHw H V} `{HC : ChaCha}.

Record gen := Gen { key : list Z; count : Z; hardware : Probe.t H V }.

Definition stir (k : list Z) (r : option (list Z * EntropyMode.t)) : list Z :=
  match r with Some (fresh, _) => xor_into k fresh | None => k end.

Definition gen_block (g : gen) : list Z * gen :=
  let block := (fill_bytes 64 (from_seed (key g))).1 in
  (drop 32 block,
   if count g + 1 <? RESEED_INTERVAL then Gen (take 32 block) (count g + 1) (hardware g)
   else let '(r, s) := gather_seed (hardware g) in Gen (stir (take 32 block) r) 0 s).

Fixpoint gen_blocks (n : nat) (g : gen) : list Z * gen :=
  match n with
  | O => ([], g)
  | S n => let '(b, g) := gen_block g in let '(bs, g) := gen_blocks n g in (b ++ bs, g)
  end.

(** The bytes of the buffer not handed out yet. *)
Definition pending (c : Csprng.t) : list Z := drop (Z.to_nat (Csprng.buf_pos c)) (Csprng.buf c).

(** The code's generator, with the hardware, is in the specification's state. *)
Definition implements (c : Csprng.t) (s : Probe.t H V) (g : gen) : Prop :=
  Csprng.inner c = from_seed (key g) ∧ Csprng.blocks c = count g ∧ s = hardware g ∧
  seed_ok (key g) ∧ 0 ≤ count g < RESEED_INTERVAL ∧
  seed_ok (Csprng.buf c) ∧ 0 ≤ Csprng.buf_pos c ≤ 32.

Context `{HEok : !EntropyHwOk H V} `{HCok : !ChaChaOk}.

Lemma new_implements seed s :
  seed_ok seed → implements (Csprng.new seed) s (Gen seed 0 s) ∧ pending (Csprng.new seed) = [].
Proof. intros Hs. split; [|done]. split_and!; try done; apply seed_array. Qed.

Lemma stir_ok k s : seed_ok k → seed_ok (stir k (gather_seed s).1).
Proof.
  intros [Hk Hb]. pose proof (gather_seed_ok s) as Hg.
  destruct (gather_seed s) as [[[fresh mode]|] s2]; [|done]. cbn in Hg |- *.
  destruct (Hg _ _ eq_refl) as [[_ Hf] _]. split; [by rewrite length_xor_into|by apply bytes_xor_into].
Qed.

Lemma gen_block_ok g :
  seed_ok (key g) → 0 ≤ count g < RESEED_INTERVAL →
  seed_ok (gen_block g).1 ∧ seed_ok (key (gen_block g).2) ∧
  0 ≤ count (gen_block g).2 < RESEED_INTERVAL.
Proof.
  intros Hk Hc. unfold gen_block. destruct (fill_bytes_ok 64 (from_seed (key g))) as [Hl Hb].
  set (block := (fill_bytes 64 _).1) in *.
  assert (seed_ok (take 32 block)) as Ht by (split; [rewrite length_take; lia|by apply Forall_take]).
  split_and!; [split; [cbn; rewrite length_drop; lia|by apply Forall_drop]|..].
  - destruct (_ <? _); cbn; [done|]. pose proof (stir_ok _ (hardware g) Ht) as Hs.
    by destruct (gather_seed (hardware g)).
  - cbn [snd]. destruct (Z.ltb_spec (count g + 1) RESEED_INTERVAL); cbn; [lia|].
    destruct (gather_seed (hardware g)); cbn; unfold RESEED_INTERVAL; lia.
  - cbn [snd]. destruct (Z.ltb_spec (count g + 1) RESEED_INTERVAL); cbn; [lia|].
    destruct (gather_seed (hardware g)); cbn; unfold RESEED_INTERVAL; lia.
Qed.

(** [refill], evaluated. *)
Lemma refill_run c s :
  length (Csprng.buf c) = 32%nat →
  let block := (fill_bytes 64 (Csprng.inner c)).1 in
  let count := wrap 32 (Csprng.blocks c + 1) in
  Csprng.refill (c, s) =
  let '(n, k, s) :=
    if RESEED_INTERVAL <=? count
    then let '(r, s) := gather_seed s in (0, stir (take 32 block) r, s)
    else (count, take 32 block, s) in
  Ret (tt, (Csprng.Build_t (from_seed k) (drop 32 block) 0 n, s)).
Proof.
  intros Hb. unfold Csprng.refill. destruct (fill_bytes_ok 64 (Csprng.inner c)) as [Hl _].
  destruct (fill_bytes 64 (Csprng.inner c)) as [block i]; cbn [fst] in *.
  assert (len block = 64 ∧ len (Csprng.buf c) = 32) as [Hlen Hbuf] by (unfold len; lia).
  rewrite slice_to_ok, bind_Ret by lia.
  rewrite copy_range_all by (rewrite ?take_len; len_lia).
  rewrite bind_Ret, slice_from_ok, bind_Ret by lia.
  by rewrite copy_range_all by len_lia.
Qed.

(** It produces the next block. *)
Lemma refill_eq c s g :
  implements c s g →
  ∃ c' s', Csprng.refill (c, s) = Ret (tt, (c', s')) ∧ implements c' s' (gen_block g).2 ∧
    Csprng.buf c' = (gen_block g).1 ∧ Csprng.buf_pos c' = 0.
Proof.
  intros (Hi & Hc & -> & Hk & Hn & [Hbl Hbb] & Hp).
  destruct (gen_block_ok g Hk Hn) as (G1 & G2 & G3). revert G1 G2 G3.
  rewrite refill_run by done. unfold gen_block, wrap. rewrite Hi, Hc.
  rewrite Z.mod_small by (unfold RESEED_INTERVAL in Hn; lia). rewrite Z.leb_antisym.
  cbn [fst snd]. intros G1 G2 G3. destruct (count g + 1 <? RESEED_INTERVAL); cbn [negb].
  - eexists _, _. split; [reflexivity|]. by split_and!.
  - destruct (gather_seed (hardware g)) as [r s']. eexists _, _. split; [reflexivity|].
    by split_and!.
Qed.

Lemma pending_start c : Csprng.buf_pos c = 0 → pending c = Csprng.buf c.
Proof. intros Hp. unfold pending. by rewrite Hp. Qed.

(** Taking one byte that is already there. *)
Lemma next_byte_pending c s g :
  implements c s g → Csprng.buf_pos c < 32 →
  ∃ x c', (byte ← index (Csprng.buf c) (Csprng.buf_pos c);
           pos ← add_w 64 (Csprng.buf_pos c) 1;
           Ret (byte, (Csprng.Build_t (Csprng.inner c) (Csprng.buf c) pos (Csprng.blocks c), s))) =
          Ret (x, (c', s)) ∧
    implements c' s g ∧ pending c = x :: pending c'.
Proof.
  intros (Hi & Hc & Hs & Hk & Hn & [Hbl Hbb] & Hp) Hlt.
  destruct (get_is_some (Csprng.buf c) (Csprng.buf_pos c)) as [x Hx]; [unfold len; lia|].
  rewrite (index_get _ _ _ Hx), bind_Ret. unfold add_w. rewrite checked_ok by (unfold urange; lia).
  rewrite bind_Ret. eexists x, _. split; [reflexivity|].
  split; [split_and!; try done; cbn; lia|]. unfold pending. cbn.
  rewrite get_lookup in Hx by lia. rewrite (drop_S _ x _ Hx). do 2 f_equal. lia.
Qed.

Lemma next_byte_eq c s g :
  implements c s g →
  ∃ n x c' s', Csprng.next_byte (c, s) = Ret (x, (c', s')) ∧
    implements c' s' (gen_blocks n g).2 ∧ pending c ++ (gen_blocks n g).1 = x :: pending c' ∧
    (n = 0%nat ∨ (length (pending c') < 32)%nat).
Proof.
  intros Himp. destruct (Himp) as (_ & _ & _ & Hk & Hn & [Hbl _] & Hp). unfold Csprng.next_byte.
  destruct (Z.eqb_spec (Csprng.buf_pos c) (len (Csprng.buf c))) as [He|He]; unfold len in He.
  - destruct (refill_eq c s g Himp) as (c1 & s1 & E & Himp1 & Hb1 & Hp1). rewrite E, bind_Ret.
    destruct (next_byte_pending c1 s1 _ Himp1) as (x & c2 & E2 & Himp2 & Hpe); [lia|].
    exists 1%nat, x, c2, s1. cbn [gen_blocks]. rewrite pending_start, Hb1 in Hpe by done.
    destruct (gen_block_ok g Hk Hn) as ([Hlb _] & _).
    destruct (gen_block g) as [b g1]; cbn [fst snd] in *. split; [done|]. split; [done|].
    rewrite app_nil_r. replace (pending c) with (@nil Z).
    + split; [done|]. right. rewrite Hpe in Hlb. cbn in Hlb. lia.
    + unfold pending. rewrite drop_ge; [done|lia].
  - rewrite bind_Ret. destruct (next_byte_pending c s g Himp) as (x & c2 & E2 & Himp2 & Hpe); [lia|].
    exists 0%nat, x, c2, s. cbn [gen_blocks fst snd]. rewrite app_nil_r. by eauto.
Qed.

Lemma gen_blocks_add m n g :
  gen_blocks (m + n) g =
  let '(a, g1) := gen_blocks m g in let '(b, g2) := gen_blocks n g1 in (a ++ b, g2).
Proof.
  revert g. induction m as [|m IH]; intros g; cbn [Nat.add gen_blocks].
  - by destruct (gen_blocks n g).
  - destruct (gen_block g) as [b g1]. rewrite IH. destruct (gen_blocks m g1) as [bs g2].
    destruct (gen_blocks n g2) as [cs g3]. by rewrite app_assoc.
Qed.

Lemma fill_eq out c s g :
  implements c s g →
  ∃ n l c' s', Csprng.fill out (c, s) = Ret (l, (c', s')) ∧
    implements c' s' (gen_blocks n g).2 ∧ pending c ++ (gen_blocks n g).1 = l ++ pending c' ∧
    length l = length out ∧ (n = 0%nat ∨ (length (pending c') < 32)%nat).
Proof.
  revert c s g. induction out as [|o out IH]; intros c s g Himp; cbn [Csprng.fill].
  { exists 0%nat, [], c, s. cbn [gen_blocks fst snd]. rewrite app_nil_r. split_and!; try done. by left. }
  destruct (next_byte_eq c s g Himp) as (n1 & x & c1 & s1 & E1 & Himp1 & Hp1 & Hn1).
  erewrite prog_bind_Ret by exact E1.
  destruct (IH c1 s1 _ Himp1) as (n2 & l & c2 & s2 & E2 & Himp2 & Hp2 & Hl & Hn2).
  erewrite prog_bind_Ret by exact E2.
  exists (n1 + n2)%nat, (x :: l), c2, s2. rewrite gen_blocks_add.
  destruct (gen_blocks n1 g) as [a g1]; cbn [fst snd] in *.
  destruct (gen_blocks n2 g1) as [b g2] eqn:Hg2; cbn [fst snd] in *.
  split_and!; try done; [by rewrite app_assoc, Hp1; cbn; rewrite Hp2|cbn; by rewrite Hl|].
  destruct Hn2 as [->|]; [|by right]. destruct Hn1 as [->|Hn1]; [by left|right].
  injection Hg2 as <- <-. apply (f_equal length) in Hp2. rewrite !length_app in Hp2. cbn in Hp2. lia.
Qed.

(** C13.  The generator is fast key erasure.  Filling a buffer of any length returns, and
    what it hands out is the specification's output: the bytes left over followed by
    whole blocks, none skipped, repeated or drawn before it is needed, with the key
    replaced by the first half of every block and the hardware stirred in every 1024
    blocks. *)
Theorem csprng_fill_spec (out : list Z) (c : Csprng.t) (s : Probe.t H V) (g : gen)
    (Himp : implements c s g) :
  ∃ n l c' s', Csprng.fill out (c, s) = Ret (l, (c', s')) ∧
    implements c' s' (gen_blocks n g).2 ∧ pending c ++ (gen_blocks n g).1 = l ++ pending c' ∧
    length l = length out ∧ (n = 0%nat ∨ (length (pending c') < 32)%nat).
Proof. by apply fill_eq. Qed.

(** A refill erases the key that produced it: two generators that are about to
    draw the same block, whatever their keys and what they handed out before, are in
    the same state after it.  So the state says nothing of earlier keys but through
    the block itself. *)
Theorem refill_erases (c1 c2 : Csprng.t) (s : Probe.t H V)
    (Hb1 : length (Csprng.buf c1) = 32%nat) (Hb2 : length (Csprng.buf c2) = 32%nat)
    (Hn : Csprng.blocks c1 = Csprng.blocks c2)
    (Hblock : (fill_bytes 64 (Csprng.inner c1)).1 = (fill_bytes 64 (Csprng.inner c2)).1) :
  Csprng.refill (c1, s) = Csprng.refill (c2, s) ∧ returns (Csprng.refill (c1, s)).
Proof.
  rewrite !refill_run, Hn, Hblock by done. split; [done|].
  destruct (_ <=? _); [destruct (gather_seed s)|]; by eexists.
Qed.
End Generator.

(** ** The fallback *)

Lemma lxor_u64 a b : u64 a → u64 b → u64 (Z.lxor a b).
Proof.
  unfold urange. intros Ha Hb. assert (Z.lxor a b = Z.lxor a b mod 2 ^ 64) as ->.
  { apply Z.bits_inj'. intros n Hn. destruct (decide (n < 64)) as [Hlt|Hge].
    - by rewrite Z.mod_pow2_bits_low.
    - rewrite Z.mod_pow2_bits_high by lia. rewrite Z.lxor_spec.
      rewrite <- (Z.mod_small a (2 ^ 64)), <- (Z.mod_small b (2 ^ 64)) by done.
      by rewrite !Z.mod_pow2_bits_high by lia. }
  apply Z.mod_pos_bound. lia.
Qed.

Lemma u64_bits a n : u64 a → 64 ≤ n → Z.testbit a n = false.
Proof.
  intros Ha Hn. rewrite <- (Z.mod_small a (2 ^ 64)) by done. apply Z.mod_pow2_bits_high. lia.
Qed.

(** [x ^= x << k] and [x ^= x >> k] lose nothing. *)
Lemma xor_shiftl_inj k x y :
  0 < k → u64 x → u64 y →
  Z.lxor x (wrap 64 (Z.shiftl x k)) = Z.lxor y (wrap 64 (Z.shiftl y k)) → x = y.
Proof.
  intros Hk Hx Hy E. apply Z.bits_inj'. intros n Hn. revert Hn. revert n.
  apply (Z_lt_induction (λ n, Z.testbit x n = Z.testbit y n)). intros n IH.
  destruct (decide (n < 0)) as [Hneg|Hn]; [by rewrite !Z.testbit_neg_r by lia|].
  destruct (decide (n < 64)) as [Hlt|Hge];
    [|by rewrite !u64_bits by (done || lia)].
  apply (f_equal (λ z, Z.testbit z n)) in E. revert E. unfold wrap.
  rewrite !Z.lxor_spec, !Z.mod_pow2_bits_low, !Z.shiftl_spec by lia.
  destruct (decide (n < k)) as [Hlk|Hgk].
  - by rewrite !(Z.testbit_neg_r _ (n - k)), !xorb_false_r by lia.
  - rewrite (IH (n - k)) by lia. by destruct (Z.testbit x n), (Z.testbit y n), (Z.testbit y (n - k)).
Qed.

Lemma xor_shiftr_inj k x y :
  0 < k → u64 x → u64 y → Z.lxor x (Z.shiftr x k) = Z.lxor y (Z.shiftr y k) → x = y.
Proof.
  intros Hk Hx Hy E. apply Z.bits_inj'.
  assert (∀ m n, 0 ≤ n → 64 - m ≤ n → 0 ≤ m → Z.testbit x n = Z.testbit y n) as Hall.
  { intros m n Hn Hm Hm0. revert m Hm0 n Hn Hm. apply (natlike_ind (λ m, ∀ n, 0 ≤ n → 64 - m ≤ n → _)).
    - intros n Hn Hm. by rewrite !u64_bits by (done || lia).
    - intros m Hm IH n Hn Hmn. apply (f_equal (λ z, Z.testbit z n)) in E. revert E.
      rewrite !Z.lxor_spec, !Z.shiftr_spec by lia. rewrite (IH (n + k)) by lia.
      by destruct (Z.testbit x n), (Z.testbit y n), (Z.testbit y (n + k)). }
  intros n Hn. apply (Hall 64); lia.
Qed.

Lemma shiftr_u64 x k : u64 x → 0 ≤ k → u64 (Z.shiftr x k).
Proof.
  unfold urange. intros Hx Hk. rewrite Z.shiftr_div_pow2 by done.
  assert (0 < 2 ^ k) by (apply Z.pow_pos_nonneg; lia).
  split; [apply Z.div_pos; lia|]. apply Z.div_lt_upper_bound; [done|]. nia.
Qed.

Lemma scramble_u64 x : u64 x → u64 (Xorshift64.scramble x).
Proof.
  intros Hx. unfold Xorshift64.scramble. cbn zeta.
  repeat first [apply lxor_u64|apply wrap_range; lia|apply shiftr_u64|done]; lia.
Qed.

Lemma scramble_inj x y :
  u64 x → u64 y → Xorshift64.scramble x = Xorshift64.scramble y → x = y.
Proof.
  intros Hx Hy. unfold Xorshift64.scramble. cbn zeta.
  assert (∀ x k, u64 x → u64 (Z.lxor x (wrap 64 (Z.shiftl x k)))) as L
    by (intros; apply lxor_u64; [done|apply wrap_range; lia]).
  assert (∀ x k, u64 x → 0 ≤ k → u64 (Z.lxor x (Z.shiftr x k))) as R
    by (intros; apply lxor_u64; [done|by apply shiftr_u64]).
  intros E. apply xor_shiftl_inj in E; [|lia|apply R; [apply L, Hx|lia]|apply R; [apply L, Hy|lia]].
  apply xor_shiftr_inj in E; [|lia|apply L, Hx|apply L, Hy].
  by apply xor_shiftl_inj in E.
Qed.

Lemma scramble_nonzero x : u64 x → x ≠ 0 → Xorshift64.scramble x ≠ 0.
Proof. intros Hx Hne E. apply Hne, scramble_inj; [done|done|exact E]. Qed.

Lemma lor_1_u64 x : u64 x → u64 (Z.lor x 1) ∧ Z.lor x 1 ≠ 0.
Proof.
  intros Hx. split.
  - assert (Z.lor x 1 = Z.lxor x (Z.land (Z.lxor x 1) 1)) as ->.
    { apply Z.bits_inj'. intros n Hn. rewrite Z.lor_spec, !Z.lxor_spec, Z.land_spec, Z.lxor_spec.
      by destruct (Z.testbit x n), (Z.testbit 1 n). }
    apply lxor_u64; [done|]. change 1 with (2 ^ 1 - 1) at 2. rewrite land_ones_mod by lia.
    unfold urange. pose proof (Z.mod_pos_bound (Z.lxor x 1) (2 ^ 1)). lia.
  - intros E. apply (f_equal (λ z, Z.testbit z 0)) in E. rewrite Z.lor_spec, orb_true_r in E. done.
Qed.

Section Fallback.
Context {H V : Type} `{HD : VirtioDriver H V} `{HE : !EntropyHw H V} `{HEok : !EntropyHwOk H V}.

Lemma next_eq x (h : H) :
  u64 x → ∃ y h', Xorshift64.next x h = (y, y, h') ∧ u64 y ∧ y ≠ 0.
Proof.
  intros Hx. unfold Xorshift64.next. pose proof (rdtsc_ok h) as Ht.
  destruct (Z.eqb_spec x 0) as [->|Hne].
  - destruct (rdtsc h) as [tsc h']; cbn in Ht. destruct (lor_1_u64 tsc Ht) as [Ho Hn].
    eexists _, _. split; [done|]. split; [by apply scramble_u64|by apply scramble_nonzero].
  - eexists _, _. split; [done|]. split; [by apply scramble_u64|by apply scramble_nonzero].
Qed.

(** The fallback never sticks at zero and never merges two of its sequences: from
    any 64-bit state, zero included, it draws a non-zero word and is left with a
    non-zero state, and the map from one state to the next is one to one. *)
Theorem xorshift_spec (x y : Z) (h : H) (Hx : u64 x) (Hy : u64 y) :
  (∃ z h', Xorshift64.next x h = (z, z, h') ∧ u64 z ∧ z ≠ 0) ∧
  (Xorshift64.scramble x = Xorshift64.scramble y → x = y).
Proof. split; [by apply next_eq|by apply scramble_inj]. Qed.

Lemma fallback_fill_eq cs x (h : H) :
  u64 x → Forall (λ c, (length c ≤ 8)%nat) cs →
  ∃ l y h', fallback_fill cs x h = Ret (l, y, h') ∧ u64 y ∧
    length l = length (concat cs) ∧ bytes l.
Proof.
  intros Hx Hc. revert x h Hx. induction Hc as [|c cs Hc _ IH]; intros x h Hx.
  { by exists [], x, h. }
  cbn [fallback_fill]. destruct (next_eq x h Hx) as (y & h1 & E & Hy & _). rewrite E.
  assert (len (to_le_bytes 8 y) = 8) as Hl8 by (unfold len; by rewrite length_to_le).
  assert (0 ≤ len c ≤ 8) as Hlc by (unfold len; lia).
  rewrite slice_to_ok, bind_Ret by lia.
  rewrite copy_range_all by (rewrite ?take_len; len_lia). rewrite bind_Ret.
  destruct (IH y h1 Hy) as (l & z & h2 & E2 & Hz & Hl & Hb). rewrite E2, bind_Ret.
  eexists _, _, _. split; [done|]. split; [done|]. split.
  - cbn [concat]. rewrite !length_app, Hl, length_take, length_to_le. unfold len. lia.
  - apply Forall_app. split; [apply Forall_take, bytes_to_le|done].
Qed.
End Fallback.

Lemma chunks_split {A} n (l : list A) :
  (0 < n)%nat → concat (chunks n l) = l ∧ Forall (λ c, (length c ≤ n)%nat) (chunks n l).
Proof.
  intros Hn. remember (length l) as m eqn:Hm. revert l Hm.
  induction m as [m IH] using lt_wf_ind. intros [|x l] Hm; [done|].
  rewrite chunks_step by done. destruct (IH (length (drop n (x :: l)))) with (drop n (x :: l)) as [H1 H2];
    [rewrite length_drop; cbn in *; lia|done|].
  split; [cbn [concat]; by rewrite H1, take_drop|]. constructor; [|done]. rewrite length_take. lia.
Qed.

(** ** The module as a whole *)

Section Module.
Context {H V : Type} `{HP : PortIo H} `{HV : VirtioPci} `{HD : !VirtioDriver H V}.
Context `{HE : !EntropyHw H V} `{HEok : !EntropyHwOk H V} `{HC : ChaCha} `{HCok : !ChaChaOk}.
Abbreviation rng := (rng H V).

Definition rng_ok (r : rng) : Prop :=
  (∀ c, CSPRNG r = Some c → ∃ g, implements c (sources r) g) ∧ u64 (FALLBACK r).

Lemma implements_hardware c (s s' : Probe.t H V) g :
  implements c s g → implements c s' (Gen (key g) (count g) s').
Proof. unfold implements. naive_solver. Qed.

Lemma pending_bytes c (s : Probe.t H V) g : implements c s g → bytes (pending c).
Proof. intros (_ & _ & _ & _ & _ & [_ Hb] & _). by apply Forall_drop. Qed.

Lemma gen_blocks_bytes n (g : gen) :
  seed_ok (key g) → 0 ≤ count g < RESEED_INTERVAL → bytes (gen_blocks n g).1.
Proof.
  revert g. induction n as [|n IH]; intros g Hk Hc; [done|]. cbn [gen_blocks].
  destruct (gen_block_ok g Hk Hc) as ([_ Hb] & Hk' & Hc'). destruct (gen_block g) as [b g1].
  specialize (IH g1 Hk' Hc'). destruct (gen_blocks n g1) as [bs g2]. by apply Forall_app.
Qed.

Lemma get_random_eq buf (r : rng) :
  rng_ok r →
  ∃ out r', get_random buf r = Ret (Ok (len buf), out, r') ∧ length out = length buf ∧ bytes out ∧
    rng_ok r' ∧ ENTROPY_MODE r' = ENTROPY_MODE r ∧ (is_Some (CSPRNG r') ↔ is_Some (CSPRNG r)).
Proof.
  intros [Hc Hf]. unfold get_random. destruct (CSPRNG r) as [c|] eqn:Ec.
  - destruct (Hc c eq_refl) as [g Himp].
    destruct (fill_eq buf c (sources r) g Himp) as (n & l & c' & s' & E & Himp' & Hp & Hl & _).
    rewrite E, bind_Ret. eexists _, _. split; [do 3 f_equal; unfold len; by rewrite Hl|].
    split_and!; try done.
    + destruct Himp as (? & ? & ? & Hk & Hn & Hb & Hpos).
      assert (bytes (l ++ pending c')) as Hall; [|by apply Forall_app in Hall as [? _]].
      rewrite <- Hp. apply Forall_app. split; [by apply Forall_drop, Hb|by apply gen_blocks_bytes].
    + split; [|done]. intros c2 [= <-]. by eexists.
  - destruct (chunks_split 8 buf) as [Hcat Hch]; [lia|].
    destruct (fallback_fill_eq (chunks 8 buf) (FALLBACK r) (machine (sources r)) Hf Hch)
      as (l & y & h & E & Hy & Hl & Hb).
    rewrite E, bind_Ret. rewrite Hcat in Hl. eexists _, _.
    split; [do 3 f_equal; unfold len; by rewrite Hl|]. by split_and!.
Qed.

Lemma of_pattern_range t p : urange (bits t) p → in_range t (of_pattern t p).
Proof.
  unfold in_range, of_pattern, urange. intros Hp.
  assert (2 ^ bits t = 2 * 2 ^ (bits t - 1)) as Hd by (by destruct t).
  destruct (is_signed t); cbn [andb]; [|done].
  destruct (Z.leb_spec (2 ^ (bits t - 1)) p); lia.
Qed.

Lemma from_rand_eq t (r : rng) :
  rng_ok r →
  ∃ v r', from_rand_int t r = Ret (Ok v, r') ∧ in_range t v ∧ rng_ok r'.
Proof.
  intros Hr. unfold from_rand_int.
  destruct (get_random_eq (array 0 (Z.of_nat (size_of t))) r Hr) as (out & r' & E & Hl & Hb & Hr' & _).
  rewrite E, bind_Ret. eexists _, r'. split; [done|]. split; [|done].
  unfold array in Hl. rewrite length_replicate, Nat2Z.id in Hl.
  apply of_pattern_range. unfold bits. pose proof (from_le_range out Hb) as Hrange.
  unfold len in Hrange. by rewrite Hl in Hrange.
Qed.

(** The kernel's source of integers meets the interface the network stack asks for. *)
#[global] Instance rng_source_ok : RandomSourceOk rng := {|
  random_ok := rng_ok; from_rand_ok := from_rand_eq |}.

(** C39.  [get_random] never fails and always fills the whole buffer, whichever
    generator serves it: it reports the buffer's length, leaves bytes and nothing else
    in it, keeps the module's invariant and does not change which generator is in
    use.  [from_rand] gives every integer type a value of its range. *)
Theorem get_random_spec (buf : list Z) (t : int_ty) (r : rng) (Hr : rng_ok r) :
  (∃ out r', get_random buf r = Ret (Ok (len buf), out, r') ∧ length out = length buf ∧ bytes out ∧
    rng_ok r' ∧ ENTROPY_MODE r' = ENTROPY_MODE r ∧ (is_Some (CSPRNG r') ↔ is_Some (CSPRNG r))) ∧
  (∃ v r', from_rand_int t r = Ret (Ok v, r') ∧ in_range t v ∧ rng_ok r').
Proof. split; [by apply get_random_eq|by apply from_rand_eq]. Qed.

(** *** Bringing the module up *)

Lemma init_entropy_eq (r : rng) b s :
  init_virtio_rng (sources r) = Ret (b, s) →
  ∃ m r', init_entropy r = Ret (m, r') ∧ FALLBACK r' = FALLBACK r ∧ sources r' = (gather_seed s).2 ∧
    ENTROPY_MODE r' = Some m ∧ (ENTROPY_MODE r = Some m ∨ ENTROPY_MODE r = None) ∧
    (ENTROPY_MODE r = None → m = default EntropyMode.Insecure (snd <$> (gather_seed s).1)) ∧
    CSPRNG r' = match CSPRNG r with
      | Some c => Some c
      | None => (λ g, Csprng.new g.1) <$> (gather_seed s).1
      end.
Proof.
  unfold init_entropy. intros E. rewrite E, bind_Ret.
  destruct (gather_seed s) as [[[seed mode]|] s2]; eexists _, _; (split; [reflexivity|]);
    destruct (ENTROPY_MODE r), (CSPRNG r); cbn; naive_solver.
Qed.

Lemma init_entropy_returned (r : rng) m r' :
  init_entropy r = Ret (m, r') → ∃ b s, init_virtio_rng (sources r) = Ret (b, s).
Proof. unfold init_entropy. intros E. apply bind_returns in E as ([b s] & E & _). by exists b, s. Qed.

Lemma init_entropy_ok (r : rng) m r' : rng_ok r → init_entropy r = Ret (m, r') → rng_ok r'.
Proof.
  intros [Hc Hf] E. destruct (init_entropy_returned r m r' E) as (b & s & Es).
  destruct (init_entropy_eq r b s Es) as (m' & r2 & E' & Hfb & Hs & _ & _ & _ & Hn).
  rewrite E in E'. injection E' as <- <-. split; [|by rewrite Hfb].
  intros c Hc'. rewrite Hn in Hc'. destruct (CSPRNG r) as [c0|] eqn:Ec.
  - injection Hc' as <-. destruct (Hc c0 eq_refl) as [g Hg]. eexists. by eapply implements_hardware.
  - pose proof (gather_seed_ok s) as Hg. destruct (gather_seed s) as [[[seed mode]|] s2]; [|done].
    injection Hc' as <-. eexists. apply new_implements. by eapply Hg.
Qed.

(** What the kernel does with the module, in any order. *)
Inductive rng_step : rng → rng → Prop :=
| step_init r m r' : init_entropy r = Ret (m, r') → rng_step r r'
| step_draw r buf res out r' : get_random buf r = Ret (res, out, r') → rng_step r r'.

(** The statics as they are before [init_entropy]. *)
Definition fresh (r : rng) : Prop := CSPRNG r = None ∧ ENTROPY_MODE r = None ∧ FALLBACK r = 0.

Definition honest (r : rng) : Prop :=
  rng_ok r ∧ (entropy_is_cryptographic r = true → is_Some (CSPRNG r)).

Lemma cryptographic_mode (r : rng) :
  entropy_is_cryptographic r = true ↔ ∃ m, ENTROPY_MODE r = Some m ∧ m ≠ EntropyMode.Insecure.
Proof.
  unfold entropy_is_cryptographic, entropy_mode. rewrite negb_true_iff, bool_decide_eq_false.
  destruct (ENTROPY_MODE r) as [m|]; cbn; naive_solver.
Qed.

Lemma honest_step (r r' : rng) : rng_step r r' → honest r → honest r'.
Proof.
  intros [r0 m r1 E|r0 buf res out r1 E] [Hok Hh].
  - split; [by eapply init_entropy_ok|]. rewrite cryptographic_mode. intros (m' & Hm & Hne).
    destruct (init_entropy_returned r0 m r1 E) as (b & s & Es).
    destruct (init_entropy_eq r0 b s Es) as (m2 & r2 & E' & _ & _ & Hmode & Hprev & Hfirst & Hc).
    rewrite E in E'. injection E' as <- <-. rewrite Hmode in Hm. injection Hm as <-. rewrite Hc.
    destruct (CSPRNG r0) as [c|] eqn:Ec; [by eexists|]. destruct Hprev as [Hp|Hp].
    + destruct Hh as [c Hc']; [rewrite cryptographic_mode; by eexists|]. done.
    + rewrite (Hfirst Hp) in Hne. destruct (gather_seed s) as [[[seed mode]|] s2]; [by eexists|done].
  - destruct (get_random_eq buf r0 Hok) as (out' & r2 & E' & _ & _ & Hok' & Hm & Hc).
    rewrite E in E'. injection E' as -> <- <-. split; [done|].
    rewrite cryptographic_mode, Hm, <- cryptographic_mode, Hc. done.
Qed.

Lemma honest_steps (r r' : rng) : rtc rng_step r r' → honest r → honest r'.
Proof. induction 1; eauto using honest_step. Qed.

(** The first [init_entropy] says what the sources delivered. *)
Lemma init_entropy_fresh (r : rng) b s :
  fresh r → init_virtio_rng (sources r) = Ret (b, s) →
  ∃ a s1 c s2 m r', from_device s s1 a ∧ from_processor s1 s2 c ∧
    init_entropy r = Ret (m, r') ∧ sources r' = s2 ∧ entropy_mode r' = m ∧
    m = default EntropyMode.Insecure (snd <$> mix a c) ∧
    CSPRNG r' = (λ g, Csprng.new g.1) <$> mix a c ∧
    (entropy_is_cryptographic r' = true ↔ is_Some a ∨ is_Some c).
Proof.
  intros (Hc0 & Hm0 & _) Es. destruct (gather_seed_from s) as (a & s1 & c & s2 & Ha & Hc & Eg).
  destruct (init_entropy_eq r b s Es) as (m & r' & E & _ & Hs & Hmode & _ & Hm & Hg).
  rewrite Hc0, Eg in Hg. specialize (Hm Hm0). rewrite Eg in Hm, Hs. cbn in Hm, Hg, Hs.
  exists a, s1, c, s2, m, r'. split_and!; try done; [unfold entropy_mode; by rewrite Hmode|].
  rewrite cryptographic_mode, Hmode, Hm. destruct a, c; cbn; split.
  all: first [by intros _; (left + right); eexists|by intros (? & [= <-] & ?)|by intros [[]|[]]|by eauto].
Qed.
End Module.

Section Bringup.
Context {H V : Type} (ready up : H → Prop) `{HP : PortIo H} `{HH : !PciHost H} `{HV : VirtioPci}.
Context `{HD : !VirtioDriver H V} `{HDok : !VirtioDriverOk H V ready up}.
Context `{HE : !EntropyHw H V} `{HEok : !EntropyHwOk H V} `{HC : ChaCha} `{HCok : !ChaChaOk}.
Abbreviation rng := (rng H V).

Lemma init_virtio_rng_eq (s : Probe.t H V) :
  slot s = None → ready (machine s) →
  ∃ lines b s', init_virtio_rng s = Ret (b, s') ∧ log s' = log s ++ lines ∧
    same_headers (machine s) (machine s') ∧ (b = true ↔ is_Some (slot s')) ∧
    transports (machine s') = transports (machine s) ++ map line_df lines ∧
    map line_df lines `prefix_of` filter (is_a EntropySource (machine s)) pci_functions ∧
    (b = false → map line_df lines = filter (is_a EntropySource (machine s)) pci_functions ∧
       Forall failed lines).
Proof using HDok.
  intros Hs Hr. unfold init_virtio_rng, init_pci. rewrite Hs.
  destruct (probe_spec ready up EntropySource (λ _, mret tt) pci_functions s Hs Hr df_ok_functions)
    as (lines & s' & Hl & Hf & Hh & [(-> & Hn & _ & Ht & Hm)|(df & rest & -> & Hn & _ & Ht & Hm)]).
  - exists lines, false, s'. split_and!; try done; [|by rewrite Hm].
    rewrite Hn. split; [done|by intros []].
  - exists (lines ++ [Initialized df]), true, (print (Initialized df) s').
    split_and!; try done; [cbn; by rewrite Hl, app_assoc|by rewrite map_app|].
    rewrite map_app, <- Hm. exists rest. by rewrite <- app_assoc.
Qed.

(** Looking for the entropy source disturbs no other device.  The functions a transport is
    built for are entropy sources, in the order of the scan; it stops at the first that
    comes up and succeeds exactly when one does; otherwise every one of them was tried and
    failed. *)
Theorem init_virtio_rng_spec (s : Probe.t H V) (Hs : slot s = None) (Hr : ready (machine s)) :
  ∃ lines b s', init_virtio_rng s = Ret (b, s') ∧ log s' = log s ++ lines ∧
    same_headers (machine s) (machine s') ∧ (b = true ↔ is_Some (slot s')) ∧
    transports (machine s') = transports (machine s) ++ map line_df lines ∧
    map line_df lines `prefix_of` filter (is_a EntropySource (machine s)) pci_functions ∧
    (b = false → map line_df lines = filter (is_a EntropySource (machine s)) pci_functions ∧
       Forall failed lines).
Proof using HDok. by apply init_virtio_rng_eq. Qed.

End Bringup.

(** ** A machine with one entropy source *)

Module ExampleRng.
#[global] Instance driver : VirtioDriver ExampleBridge.t unit := ExampleBridge.driver tt.
#[global] Instance driver_ok : VirtioDriverOk ExampleBridge.t unit (λ _, True) (λ _, True) := ExampleBridge.driver_ok tt.

(** The device fills the buffer with 1, 2, ...; the processor has the same word for all. *)
Definition WORD : Z := 0x0123456789abcdef.
#[global] Instance hw : EntropyHw ExampleBridge.t unit := {|
  request_entropy := λ buf v h, (Ok (len buf), map (λ i, Z.of_nat i mod 256) (seq 1 (length buf)), v, h);
  has_rdrand := λ h, true; rdrand64_step := λ h, (1, WORD, h); rdtsc := λ h, (0, h) |}.
#[global] Instance hw_ok : EntropyHwOk ExampleBridge.t unit.
Proof.
  split.
  - intros buf v h r out v' h' _ [= <- <- <- <-]. split.
    + unfold len. by rewrite length_map, length_seq.
    + apply Forall_map, Forall_true. intros x. unfold urange. cbn. apply Z.mod_pos_bound. lia.
  - intros h. change (u64 WORD). unfold urange, WORD. lia.
  - intros h. unfold urange. cbn. lia.
Defined.

(** A cipher of counting up from the key. *)
#[global] Instance cipher : ChaCha := {|
  ChaCha20Rng := list Z; from_seed := λ k, k;
  fill_bytes := λ n k, (map (λ i, (Z.of_nat i + from_le_bytes k) mod 256) (seq 0 n), k) |}.
#[global] Instance cipher_ok : ChaChaOk.
Proof.
  intros n c. split; cbn; [by rewrite length_map, length_seq|].
  apply Forall_map, Forall_true. intros x. unfold urange. cbn. apply Z.mod_pos_bound. lia.
Defined.

Definition s0 : Probe.t ExampleBridge.t unit := State (ExampleBridge.Machine ExampleHost.h0 []) None [].
Definition r0 : rng ExampleBridge.t unit := Rng s0 None None 0.
Definition r1 : rng ExampleBridge.t unit :=
  match init_entropy r0 with Ret (_, r) => r | _ => r0 end.
Lemma r1_step : rng_step r0 r1.
Proof.
  destruct (init_virtio_rng_eq (λ _, True) (λ _, True) s0 eq_refl I) as (_ & b & s & Es & _).
  destruct (init_entropy_eq r0 b s Es) as (m & r & E & _).
  replace r1 with r; [by eapply step_init|]. unfold r1. by rewrite E.
Qed.
Lemma r0_ok : rng_ok r0.
Proof. split; [done|]. unfold urange. cbn. lia. Qed.

Definition SEED : list Z := seqZ 0 32.
Lemma SEED_ok : seed_ok SEED.
Proof. split; [done|]. apply (bool_decide_unpack _). vm_compute. exact I. Qed.
End ExampleRng.

Lemma gather_seed_spec_witness :
  ∃ virtio rdrand s1 s2,
    virtio_bytes ExampleRng.s0 = (virtio, s1) ∧ rdrand_bytes s1 = (rdrand, s2) ∧
    gather_seed ExampleRng.s0 = (mix virtio rdrand, s2) ∧ virtio = None ∧ is_Some rdrand.
Proof.
  destruct (gather_seed_spec ExampleRng.s0) as (v & r & s1 & s2 & E1 & E2 & E3 & _).
  exists v, r, s1, s2. split; [exact E1|]. split; [exact E2|]. split; [exact E3|].
  injection E1 as <- <-. injection E2 as <- <-. split; [reflexivity|by eexists].
Defined.

Lemma csprng_fill_spec_witness :
  ∃ n l c' s', Csprng.fill (array 0 40) (Csprng.new ExampleRng.SEED, ExampleRng.s0) =
    Ret (l, (c', s')) ∧
    (gen_blocks n (Gen ExampleRng.SEED 0 ExampleRng.s0)).1 = l ++ pending c' ∧ length l = 40%nat.
Proof.
  destruct (new_implements ExampleRng.SEED ExampleRng.s0 ExampleRng.SEED_ok) as [Himp Hp].
  destruct (csprng_fill_spec (array 0 40) _ _ _ Himp) as (n & l & c' & s' & E & _ & Hl & Hlen & _).
  exists n, l, c', s'. rewrite Hp in Hl. split; [exact E|]. split; [exact Hl|exact Hlen].
Defined.

Lemma refill_erases_witness :
  let c1 := Csprng.new ExampleRng.SEED in
  let c2 := Csprng.Build_t ExampleRng.SEED (array 7 32) 3 0 in
  Csprng.refill (c1, ExampleRng.s0) = Csprng.refill (c2, ExampleRng.s0).
Proof.
  intros c1 c2. apply (refill_erases c1 c2 ExampleRng.s0); reflexivity.
Defined.

Lemma xorshift_spec_witness :
  ∃ z h', Xorshift64.next 0 (machine ExampleRng.s0) = (z, z, h') ∧ u64 z ∧ z ≠ 0.
Proof.
  destruct (xorshift_spec 0 0 (machine ExampleRng.s0)) as [Hn _]; [unfold urange; lia..|]. exact Hn.
Defined.

Lemma get_random_spec_witness :
  ∃ out r', get_random [0; 0; 0] ExampleRng.r0 = Ret (Ok 3, out, r') ∧ length out = 3%nat.
Proof.
  destruct (get_random_spec [0; 0; 0] U32 ExampleRng.r0 ExampleRng.r0_ok)
    as [(out & r' & E & Hl & _) _].
  exists out, r'. split; [exact E|exact Hl].
Defined.

Lemma init_virtio_rng_spec_witness :
  ∃ lines b s', init_virtio_rng ExampleRng.s0 = Ret (b, s') ∧ log s' = lines ∧
    ExampleBridge.built (machine s') = map line_df lines ∧
    map line_df lines `prefix_of` filter (is_a EntropySource (machine ExampleRng.s0)) pci_functions.
Proof.
  destruct (init_virtio_rng_spec (λ _, True) (λ _, True) ExampleRng.s0 eq_refl I)
    as (lines & b & s' & E & Hl & _ & _ & Ht & Hp & _).
  exists lines, b, s'. split; [exact E|]. split; [exact Hl|]. split; [exact Ht|exact Hp].
Defined.


(** The device at 00:03.0 was found, and both sources seeded the generator. *)
Example init_entropy_runs :
  log (sources ExampleRng.r1) = [Initialized ExampleHost.df] ∧
  entropy_mode ExampleRng.r1 = EntropyMode.VirtioAndRdrand.
Proof. vm_compute. split; reflexivity. Qed.
