(* ===== verification/Executor.v ===== *)
(** * The executor: [kernel/src/task/executor.rs] and [kernel/src/task/mod.rs] *)

From S2P Require Import Prelude Streams.
Local Open Scope Z_scope.

(** ** Tasks *)

Definition TaskId : Type := Z.

(** [TaskId::new]: the counter is an atomic [u64], which wraps. *)
Definition TaskId_new (NEXT_ID : Z) : TaskId * Z := (NEXT_ID, wrap 64 (NEXT_ID + 1)).

Record Task (F : Type) := { id : TaskId; future : F }.
Arguments id {F} _.
Arguments future {F} _.

Definition Task_new {F} (f : F) (NEXT_ID : Z) : Task F * Z :=
  let '(i, NEXT_ID) := TaskId_new NEXT_ID in ({| id := i; future := f |}, NEXT_ID).

(** The waker of a task; the queue it shares with the executor is in the state. *)
Record TaskWaker := { task_id : TaskId }.
Definition TaskWaker_new (i : TaskId) : TaskWaker := {| task_id := i |}.

Definition wake_task {Q} `{ArrayQueue Q TaskId} (w : TaskWaker) (task_queue : Q) : outcome Q :=
  match queue_push (task_id w) task_queue with Ok q => Ret q | Err _ => Panic end.

(** [Future::poll] of the tasks' futures [F]: polled with a waker, on an environment
    [X] and the task queue, which it may push onto by waking; [true] is [Ready]. *)
Class Future (F X Q : Type) :=
  poll_future : TaskWaker → F → X → Q → outcome (bool * F * X * Q).

(** ** The executor *)

Section Executor.
Context {F X Q : Type} `{HQ : ArrayQueue Q TaskId} `{HF : !Future F X Q}.

Record Executor := {
  tasks : gmap TaskId (Task F);
  task_queue : Q;
  waker_cache : gmap TaskId TaskWaker;
}.

Definition Executor_new : Executor :=
  {| tasks := ∅; task_queue := queue_new 100; waker_cache := ∅ |}.

Definition spawn (task : Task F) (self : Executor) : outcome Executor :=
  match tasks self !! id task with
  | Some _ => Panic
  | None =>
      q ← (match queue_push (id task) (task_queue self) with Ok q => Ret q | Err _ => Panic end);
      Ret {| tasks := <[id task := task]> (tasks self); task_queue := q;
             waker_cache := waker_cache self |}
  end.

(** The executor, the environment, and the tasks polled so far. *)
Record running := Running { exec : Executor; env : X; polled : list TaskId }.

(** The body of [run_ready_tasks]' loop, for a task popped off the queue. *)
Definition run_task (i : TaskId) (s : running) : outcome running :=
  let self := exec s in
  match tasks self !! i with
  | None => Ret s
  | Some task =>
      let waker := default (TaskWaker_new i) (waker_cache self !! i) in
      let cache := <[i := waker]> (waker_cache self) in
      '(ready, f, x, q) ← poll_future waker (future task) (env s) (task_queue self);
      let tasks := <[i := {| id := id task; future := f |}]> (tasks self) in
      let self :=
        if ready : bool
        then {| tasks := delete i tasks; task_queue := q; waker_cache := delete i cache |}
        else {| tasks := tasks; task_queue := q; waker_cache := cache |} in
      Ret (Running self x (polled s ++ [i]))
  end.

Definition set_queue (q : Q) (self : Executor) : Executor :=
  {| tasks := tasks self; task_queue := q; waker_cache := waker_cache self |}.

Fixpoint run_ready_tasks (fuel : nat) (s : running) : outcome running :=
  match fuel with
  | O => OutOfFuel
  | S fuel =>
      match queue_pop (task_queue (exec s)) with
      | None => Ret s
      | Some (i, q) =>
          s ← run_task i (Running (set_queue q (exec s)) (env s) (polled s));
          run_ready_tasks fuel s
      end
  end.
End Executor.
Arguments Executor F Q : clear implicits.
Arguments running F X Q : clear implicits.

(** ** What is asked of the futures *)

(** As long as the live tasks and the environment are in order ([pool_ok]), a poll of
    one of them returns and keeps them so, changes the queue only by pushing onto it,
    and the environment allows [budget] wake-ups at most, each of which uses it up. *)
Class FutureOk (F X Q : Type) `{ArrayQueueOk Q TaskId} `{!Future F X Q} := {
  budget : X → nat;
  pool_ok : gmap TaskId (Task F) → X → Prop;
  poll_ok : ∀ tasks i t w x q,
    pool_ok tasks x → tasks !! i = Some t → task_id w = i →
    ∃ ready f' x' q' woken,
    poll_future w (future t) x q = Ret (ready, f', x', q') ∧
    contents q' = contents q ++ woken ∧ capacity q' = capacity q ∧
    (len (contents q) ≤ capacity q → len (contents q') ≤ capacity q') ∧
    (length woken + budget x' ≤ budget x)%nat ∧
    pool_ok (if ready : bool then delete i tasks else <[i := {| id := id t; future := f' |}]> tasks) x';
}.

Section Proofs.
Context {F X Q : Type} `{HQ : ArrayQueue Q TaskId} `{HQok : !ArrayQueueOk Q TaskId}.
Context `{HF : !Future F X Q} `{HFok : !FutureOk F X Q}.
Abbreviation Executor := (Executor F Q).
Abbreviation running := (running F X Q).

(** Every task is filed under its identifier, and cached wakers belong to live tasks
    and wake them. *)
Definition exec_ok (self : Executor) : Prop :=
  (∀ i t, tasks self !! i = Some t → id t = i) ∧
  (∀ i w, waker_cache self !! i = Some w → task_id w = i ∧ is_Some (tasks self !! i)) ∧
  capacity (task_queue self) = 100 ∧ len (contents (task_queue self)) ≤ 100.

Lemma executor_new_ok : exec_ok Executor_new.
Proof.
  destruct (queue_new_ok 100) as [Hc Hn]. split_and!; cbn; [done|done|done|by rewrite Hc].
Qed.

Definition work (s : running) : nat :=
  length (contents (task_queue (exec s))) + budget (env s).

Lemma run_task_eq i (s : running) :
  exec_ok (exec s) → pool_ok (tasks (exec s)) (env s) →
  ∃ s' woken, run_task i s = Ret s' ∧
    exec_ok (exec s') ∧ pool_ok (tasks (exec s')) (env s') ∧
    contents (task_queue (exec s')) = contents (task_queue (exec s)) ++ woken ∧
    (work s' ≤ work s)%nat ∧
    (∀ j, j ≠ i → tasks (exec s') !! j = tasks (exec s) !! j) ∧
    polled s' = polled s ++ (if decide (is_Some (tasks (exec s) !! i)) then [i] else []).
Proof.
  intros (Ht & Hw & Hcap & Hlen) Hpool. unfold run_task, work.
  destruct (tasks (exec s) !! i) as [t|] eqn:Ei.
  - set (w := default (TaskWaker_new i) (waker_cache (exec s) !! i)).
    assert (task_id w = i) as Hwi.
    { unfold w. destruct (waker_cache (exec s) !! i) as [w'|] eqn:Ew; [|done]. by apply Hw in Ew as [? _]. }
    destruct (poll_ok (tasks (exec s)) i t w (env s) (task_queue (exec s)) Hpool Ei Hwi)
      as (ready & f & x & q & woken & E & Hq & Hqc & Hql & Hb & Hpool').
    rewrite E, bind_Ret. eexists _, woken. split; [reflexivity|]. cbn [exec env polled].
    rewrite Hcap in *. specialize (Hql Hlen). rewrite Hqc in Hql.
    split_and!; [| |by destruct ready| | |by destruct (decide _) as [_|[]]].
    + pose proof (Ht i t Ei) as Hid.
      destruct ready; split_and!; cbn [tasks waker_cache task_queue] in *; try congruence.
      * intros j t'. rewrite delete_insert_eq. rewrite lookup_delete_Some. intros [_ Hj]. by apply Ht.
      * intros j w'. rewrite delete_insert_eq. rewrite lookup_delete_Some. intros [Hne Hj].
        rewrite delete_insert_eq, lookup_delete_ne by done. by apply Hw.
      * intros j t'. rewrite lookup_insert_Some. intros [[<- <-]|[_ Hj]]; [done|by apply Ht].
      * intros j w'. rewrite lookup_insert_Some. intros [[<- <-]|[Hne Hj]].
        -- split; [done|]. by rewrite lookup_insert_eq.
        -- rewrite lookup_insert_ne by done. by apply Hw.
    + destruct ready; cbn; [by rewrite delete_insert_eq|done].
    + destruct ready; cbn; rewrite Hq, length_app; lia.
    + intros j Hj. destruct ready; cbn.
      * by rewrite lookup_delete_ne, lookup_insert_ne by done.
      * by rewrite lookup_insert_ne by done.
  - exists s, []. rewrite app_nil_r. split_and!; try done.
    destruct (decide _) as [[]|_]; [done|]. by rewrite app_nil_r.
Qed.

Lemma pop_ok (self : Executor) i q :
  exec_ok self → queue_pop (task_queue self) = Some (i, q) →
  exec_ok (set_queue q self) ∧ contents (task_queue self) = i :: contents q.
Proof.
  intros (Ht & Hw & Hcap & Hlen) E. pose proof (queue_pop_ok (task_queue self)) as Hp.
  rewrite E in Hp. destruct Hp as [Hc Hcap']. split; [|done]. split_and!; cbn; try done; [congruence|].
  rewrite Hc, len_cons in Hlen. lia.
Qed.

Lemma run_ready_tasks_eq fuel (s : running) :
  exec_ok (exec s) → pool_ok (tasks (exec s)) (env s) → (work s < fuel)%nat →
  ∃ s' l, run_ready_tasks fuel s = Ret s' ∧ exec_ok (exec s') ∧ pool_ok (tasks (exec s')) (env s') ∧
    contents (task_queue (exec s')) = [] ∧ polled s' = polled s ++ l ∧
    (∀ i, i ∈ contents (task_queue (exec s)) → is_Some (tasks (exec s) !! i) → i ∈ l) ∧
    (∀ i, i ∉ l → tasks (exec s') !! i = tasks (exec s) !! i).
Proof.
  revert s. induction fuel as [|fuel IH]; intros s Hok Hpool Hf; [lia|]. cbn [run_ready_tasks].
  destruct (queue_pop (task_queue (exec s))) as [[i q]|] eqn:Ep.
  2:{ pose proof (queue_pop_ok (task_queue (exec s))) as Hp. rewrite Ep in Hp.
      exists s, []. rewrite app_nil_r, Hp. by split_and!. }
  destruct (pop_ok _ _ _ Hok Ep) as [Hok1 Hc1].
  destruct (run_task_eq i (Running (set_queue q (exec s)) (env s) (polled s)) Hok1 Hpool)
    as (s2 & woken & E2 & Hok2 & Hpool2 & Hc2 & Hw2 & Ht2 & Hp2).
  rewrite E2, bind_Ret. unfold work in *. cbn [exec env polled set_queue task_queue tasks] in *.
  rewrite Hc1 in Hf. cbn [length] in Hf.
  destruct (IH s2 Hok2 Hpool2) as (s3 & l & E3 & Hok3 & Hpool3 & Hc3 & Hp3 & Hall & Hrest); [unfold work; lia|].
  exists s3, ((if decide (is_Some (tasks (exec s) !! i)) then [i] else []) ++ l).
  split; [done|]. split; [done|]. split; [done|]. split; [done|]. split; [by rewrite Hp3, Hp2, app_assoc|]. split.
  - intros j Hj Htj. rewrite elem_of_app. rewrite Hc1, elem_of_cons in Hj.
    destruct (decide (j = i)) as [->|Hne].
    { left. destruct (decide _) as [_|[]]; [|done]. by apply list_elem_of_singleton. }
    destruct Hj as [|Hj]; [done|]. right. apply Hall; [rewrite Hc2; set_solver|by rewrite Ht2].
  - intros j Hj. rewrite not_elem_of_app in Hj. destruct Hj as [Hji Hjl].
    rewrite Hrest by done. destruct (decide (j = i)) as [->|Hne]; [|by apply Ht2].
    revert Hji E2. destruct (decide (is_Some (tasks (exec s) !! i))) as [_|Hn]; [set_solver|].
    intros _. unfold run_task. cbn [exec set_queue tasks].
    destruct (tasks (exec s) !! i) eqn:Ei; [destruct Hn; by eexists|]. intros [= <-]. done.
Qed.

(** C18.  Running the ready tasks ends, and leaves none waiting.  Over any futures whose
    polls return and whose wake-ups run out, the loop empties the queue; every live
    task that was queued has been polled; tasks not polled are untouched; the futures'
    own invariant is kept; and the executor's holds: tasks are filed under their identifiers and a cached
    waker belongs to a live task and wakes that one. *)
Theorem run_ready_tasks_spec (fuel : nat) (s : running)
    (Hok : exec_ok (exec s)) (Hpool : pool_ok (tasks (exec s)) (env s))
    (Hfuel : (work s < fuel)%nat) :
  ∃ s' l, run_ready_tasks fuel s = Ret s' ∧ exec_ok (exec s') ∧ pool_ok (tasks (exec s')) (env s') ∧
    contents (task_queue (exec s')) = [] ∧ polled s' = polled s ++ l ∧
    (∀ i, i ∈ contents (task_queue (exec s)) → is_Some (tasks (exec s) !! i) → i ∈ l) ∧
    (∀ i, i ∉ l → tasks (exec s') !! i = tasks (exec s) !! i).
Proof. by apply run_ready_tasks_eq. Qed.

Lemma spawn_ok task (self : Executor) :
  exec_ok self → tasks self !! id task = None → len (contents (task_queue self)) < 100 →
  ∃ self', spawn task self = Ret self' ∧ exec_ok self' ∧
    tasks self' = <[id task := task]> (tasks self) ∧
    contents (task_queue self') = contents (task_queue self) ++ [id task].
Proof.
  intros (Ht & Hw & Hcap & Hlen) Hnone Hlt. unfold spawn. rewrite Hnone.
  pose proof (queue_push_ok (id task) (task_queue self)) as Hp. rewrite Hcap in Hp.
  destruct (queue_push _ _) as [q|e]; [|lia].
  destruct Hp as (_ & Hq & Hqc). eexists. split; [reflexivity|].
  split; [|done]. split_and!; cbn; [| |done|rewrite Hq, len_app, len_cons, len_nil; lia].
  - intros i t. rewrite lookup_insert_Some. intros [[<- <-]|[_ Hi]]; [done|by apply Ht].
  - intros i w Hi. destruct (Hw i w Hi) as [? Hs]. split; [done|].
    destruct (decide (i = id task)) as [->|Hne]; [by rewrite lookup_insert_eq|].
    by rewrite lookup_insert_ne.
Qed.

(** Spawning schedules the task exactly once, and fails loudly: the executor that
    results has the task under its identifier and at the back of the queue; it panics
    exactly when a task with that identifier is alive or the queue of 100 is full. *)
Theorem spawn_spec (task : Task F) (self : Executor) (Hok : exec_ok self) :
  (is_Some (tasks self !! id task) ∨ len (contents (task_queue self)) = 100 →
     spawn task self = Panic) ∧
  (tasks self !! id task = None → len (contents (task_queue self)) < 100 →
     ∃ self', spawn task self = Ret self' ∧ exec_ok self' ∧
       tasks self' = <[id task := task]> (tasks self) ∧
       contents (task_queue self') = contents (task_queue self) ++ [id task]).
Proof.
  split; [|by apply spawn_ok]. destruct Hok as (_ & _ & Hcap & _). unfold spawn.
  pose proof (queue_push_ok (id task) (task_queue self)) as Hp. rewrite Hcap in Hp.
  intros [[t ->]|Hfull]; [done|]. destruct (tasks self !! id task); [done|].
  destruct (queue_push _ _); [lia|done].
Qed.
End Proofs.

(** ** Going to sleep *)

(** [run]'s loop as the interrupts see it: where it is, whether they are enabled, and
    the queue. *)
Module Sleep.
Inductive pc := RunTasks | AtDisable | AtCheck | Halted.

Record cpu := Cpu { at_ : pc; interrupts : bool; queue : list TaskId }.

(** The next instruction of [sleep_if_idle]: [disable()]; then, on an empty queue,
    [enable_and_hlt()], which halts with interrupts enabled in one go, else [enable()]. *)
Definition sleep_if_idle (c : cpu) : cpu :=
  match at_ c with
  | AtDisable => Cpu AtCheck false (queue c)
  | AtCheck => match queue c with
               | [] => Cpu Halted true (queue c)
               | _ => Cpu RunTasks true (queue c)
               end
  | _ => c
  end.

(** An interrupt, when they are enabled: its handler wakes tasks, and [hlt] returns. *)
Definition interrupt (woken : list TaskId) (c : cpu) : option cpu :=
  if interrupts c
  then Some (Cpu (match at_ c with Halted => RunTasks | p => p end) true (queue c ++ woken))
  else None.

Inductive step : cpu → cpu → Prop :=
| step_poll q q' : step (Cpu RunTasks true q) (Cpu RunTasks true q')
| step_done q : step (Cpu RunTasks true q) (Cpu AtDisable true q)
| step_sleep c : step c (sleep_if_idle c)
| step_interrupt c woken c' : interrupt woken c = Some c' → step c c'.

Definition sleep_ok (c : cpu) : Prop :=
  match at_ c with
  | RunTasks | AtDisable => interrupts c = true
  | AtCheck => interrupts c = false
  | Halted => queue c = [] ∧ interrupts c = true
  end.

Lemma sleep_step_ok c c' : step c c' → sleep_ok c → sleep_ok c'.
Proof.
  intros [| |[p b q]|[p b q] woken c2 E] Hok; try done; unfold sleep_ok in *; cbn in *.
  - destruct p; cbn in *; try done. by destruct q.
  - unfold interrupt in E. destruct b; [|done]. injection E as <-. by destruct p.
Qed.

(** The executor never sleeps with work to do, and wakes up when there is some:
    however the interrupts fall, in every reachable state where the processor is
    halted the queue is empty and interrupts are enabled; and it cannot be caught
    between looking at the queue and halting. *)
Theorem halted_idle (q : list TaskId) (c : cpu) (Hr : rtc step (Cpu RunTasks true q) c) :
  (at_ c = Halted → queue c = [] ∧ ∀ woken, ∃ c', interrupt woken c = Some c' ∧
     at_ c' = RunTasks ∧ queue c' = woken) ∧
  (at_ c = AtCheck → ∀ woken, interrupt woken c = None).
Proof.
  assert (sleep_ok c) as Hok.
  { assert (sleep_ok (Cpu RunTasks true q)) as Hinit by done. revert Hinit.
    induction Hr; eauto using sleep_step_ok. }
  destruct c as [p b q']. unfold sleep_ok, interrupt in *. cbn in *. split; intros ->.
  - destruct Hok as [-> ->]. split; [done|]. intros woken. by eexists.
  - by rewrite Hok.
Qed.

Lemma halted_idle_witness :
  rtc step (Cpu RunTasks true []) (Cpu Halted true []) ∧
  ∀ woken, ∃ c', interrupt woken (Cpu Halted true []) = Some c' ∧ queue c' = woken.
Proof.
  assert (rtc step (Cpu RunTasks true []) (Cpu Halted true [])) as Hr.
  { apply (rtc_l _ _ (Cpu AtDisable true [])); [apply step_done|].
    apply (rtc_l _ _ (Cpu AtCheck false [])); [apply (step_sleep (Cpu AtDisable true []))|].
    apply rtc_once, (step_sleep (Cpu AtCheck false [])). }
  split; [exact Hr|]. destruct (halted_idle [] _ Hr) as [Hh _].
  intros woken. destruct (Hh eq_refl) as [_ Hw]. destruct (Hw woken) as (c' & E & _ & Hq).
  exists c'. split; [exact E|exact Hq].
Defined.
End Sleep.

(** ** Wake-ups are not merged *)

(** Several wakers woken in a row. *)
Fixpoint wake_all {Q} `{ArrayQueue Q TaskId} (ws : list TaskWaker) (q : Q) : outcome Q :=
  match ws with
  | [] => Ret q
  | w :: ws => q ← wake_task w q; wake_all ws q
  end.

Section Overflow.
Context {Q : Type} `{HQ : ArrayQueue Q TaskId} `{HQok : !ArrayQueueOk Q TaskId}.

Lemma wake_all_overflow w n (q : Q) :
  capacity q < len (contents q) + Z.of_nat n → len (contents q) ≤ capacity q →
  wake_all (replicate n w) q = Panic.
Proof.
  revert q. induction n as [|n IH]; intros q Hover Hle; [lia|]. cbn [replicate wake_all].
  unfold wake_task. pose proof (queue_push_ok (task_id w) q) as Hp.
  destruct (queue_push (task_id w) q) as [q'|e]; [|done]. destruct Hp as (Hlt & Hc & Hcap).
  rewrite bind_Ret. apply IH; rewrite Hc, len_app, len_cons, len_nil, Hcap; lia.
Qed.

(** Wakers that fit are queued in order. *)
Lemma wake_all_fits ws (q : Q) :
  len (contents q) + len ws ≤ capacity q → returns (wake_all ws q).
Proof.
  revert q. induction ws as [|w ws IH]; intros q Hle; [by apply returns_Ret|]. cbn [wake_all].
  rewrite len_cons in Hle. pose proof (len_nonneg ws) as Hn.
  unfold wake_task. pose proof (queue_push_ok (task_id w) q) as Hp.
  destruct (queue_push (task_id w) q) as [q'|e]; [|lia]. destruct Hp as (Hlt & Hc & Hcap).
  rewrite bind_Ret. apply IH. rewrite Hc, len_app, len_cons, len_nil, Hcap. lia.
Qed.

Lemma wake_all_inv ws (q q' : Q) :
  wake_all ws q = Ret q' →
  contents q' = contents q ++ map task_id ws ∧ capacity q' = capacity q ∧
  (len (contents q) ≤ capacity q → len (contents q') ≤ capacity q).
Proof.
  revert q. induction ws as [|w ws IH]; intros q; cbn [wake_all map].
  { intros [= <-]. by rewrite app_nil_r. }
  unfold wake_task. pose proof (queue_push_ok (task_id w) q) as Hp.
  destruct (queue_push (task_id w) q) as [q1|e]; [|done]. destruct Hp as (Hlt & Hc & Hcap).
  rewrite bind_Ret. intros (Hc' & Hcap' & Hle)%IH. rewrite Hc, Hcap in *.
  rewrite len_app, len_cons, len_nil in Hle.
  split_and!; [by rewrite Hc', <- app_assoc|done|intros _; apply Hle; lia].
Qed.
End Overflow.

Section Busy.
Context {Q E A : Type} `{HQ : ArrayQueue Q E} `{HQok : !ArrayQueueOk Q E}.
Context `{HA : AtomicWaker A TaskWaker} `{HAok : !AtomicWakerOk A TaskWaker}.
Context {T : Type} `{HT : ArrayQueue T TaskId} `{HTok : !ArrayQueueOk T TaskId}.
Context (cx : TaskWaker).

(** A step of the task and its interrupts after which the task is not waiting. *)
Definition busy_step (s s' : system Q E A TaskWaker) : Prop :=
  sys_step cx s s' ∧ at_pc s' ≠ AtEnd Pending.

(** One round: the event arrives just after the waker is registered. *)
Lemma busy_round (evt : E) (s : system Q E A TaskWaker) q :
  queue (st s) = Some q → contents q = [] → 0 < capacity q → at_pc s = AtStart →
  ∃ s' q', rtc busy_step s s' ∧ queue (st s') = Some q' ∧ contents q' = [] ∧
    capacity q' = capacity q ∧ at_pc s' = AtStart ∧ woken (st s') = woken (st s) ++ [cx].
Proof.
  destruct s as [[qo a wk ws] p n acc del]. cbn. intros -> Hc Hcap ->.
  pose proof (queue_pop_ok q) as Hpop. destruct (queue_pop q) as [[e q1]|] eqn:Epop;
    [destruct Hpop; congruence|].
  pose proof (queue_push_ok evt q) as Hpush. destruct (queue_push evt q) as [q1|e] eqn:Epush;
    [|destruct Hpush; rewrite Hc, len_nil in *; lia].
  destruct Hpush as (_ & Hc1 & Hcap1). rewrite Hc in Hc1. cbn in Hc1.
  pose proof (queue_pop_ok q1) as Hpop1. destruct (queue_pop q1) as [[e q2]|] eqn:Epop1; [|congruence].
  destruct Hpop1 as [Hc2 Hcap2]. rewrite Hc1 in Hc2. injection Hc2 as <- Hc2.
  destruct (aw_wake_ok (aw_register cx a)) as [Hw _]. rewrite aw_register_ok in Hw.
  eexists _, q2. split.
  - eapply rtc_l; [split; [eapply SPoll; [done|cbn; rewrite Epop; reflexivity]|done]|]. cbn.
    eapply rtc_l; [split; [eapply SPoll; [done|reflexivity]|done]|]. cbn.
    eapply rtc_l; [split; [apply (SInterrupt _ _ evt)|done]|]. cbn. rewrite Epush. cbn.
    eapply rtc_l; [split; [eapply SPoll; [done|cbn; rewrite Epop1; reflexivity]|done]|]. cbn.
    eapply rtc_l; [split; [eapply SPoll; [done|reflexivity]|done]|]. cbn.
    eapply rtc_l; [split; [by eapply SAgain|done]|]. apply rtc_refl.
  - cbn. rewrite Hw. split_and!; try done. congruence.
Qed.

Lemma busy_rounds (evt : E) n (s : system Q E A TaskWaker) q :
  queue (st s) = Some q → contents q = [] → 0 < capacity q → at_pc s = AtStart →
  ∃ s', rtc busy_step s s' ∧ woken (st s') = woken (st s) ++ replicate n cx.
Proof.
  revert s q. induction n as [|n IH]; intros s q Hq Hc Hcap Hat.
  { exists s. by rewrite app_nil_r. }
  destruct (busy_round evt s q Hq Hc Hcap Hat) as (s1 & q1 & Hs1 & Hq1 & Hc1 & Hcap1 & Hat1 & Hw1).
  destruct (IH s1 q1) as (s2 & Hs2 & Hw2); try done; [lia|].
  exists s2. split; [by etrans|]. rewrite Hw2, Hw1, <- app_assoc. done.
Qed.

(** C40.  Wake-ups of one task are not merged, and can overflow the executor's queue: an
    event that arrives between the registration of the waker and the second look at
    the stream's queue wakes the task and is delivered to it at once, without the task
    waiting.  When that happens 101 times before the task next waits, the interrupt
    handler that wakes it panics on the full queue of 100, with a single task alive. *)
Theorem wakeups_overflow (evt : E) (s0 : system Q E A TaskWaker) (Hinit : sys_init s0) :
  ∃ s, rtc busy_step s0 s ∧ wake_all (woken (st s)) (queue_new 100 : T) = Panic.
Proof.
  destruct Hinit as (st0 & Hnew & ->). unfold stream_new in Hnew. cbn in Hnew. injection Hnew as <-.
  destruct (queue_new_ok (Q := Q) QUEUE_SIZE) as [Hc Hcap].
  destruct (queue_new_ok (Q := T) 100) as [Hc' Hcap'].
  set (s0 := System (Stream (Some (queue_new QUEUE_SIZE)) aw_new [] []) AtStart 0 [] []).
  destruct (busy_rounds evt 101 s0 (queue_new QUEUE_SIZE)) as (s & Hs & Hw);
    [done|done|by rewrite Hcap|done|].
  exists s. split; [exact Hs|]. rewrite Hw. cbn [woken st app].
  apply wake_all_overflow; rewrite Hc', Hcap', len_nil; lia.
Qed.
End Busy.

(** ** A task that wakes itself a few times *)

Module ExampleTask.
#[global] Instance option_task_waker : AtomicWaker (option TaskWaker) TaskWaker := {|
  aw_new := None; aw_register := λ w _, Some w; aw_wake := λ a, (a, None);
  aw_take := λ a, (a, None) |}.
#[global] Instance option_task_waker_ok : AtomicWakerOk (option TaskWaker) TaskWaker.
Proof. by refine {| registered := λ a, a |}. Defined.

(** It wakes itself as long as the environment lets it and the queue has room. *)
#[global] Instance countdown : Future unit nat (Z * list Z) := λ w f x q,
  match x, queue_push (task_id w) q with
  | S x, Ok q => Ret (false, tt, x, q)
  | _, _ => Ret (true, tt, x, q)
  end.
#[global] Instance countdown_ok : FutureOk unit nat (Z * list Z).
Proof.
  refine {| budget := λ x : nat, x; pool_ok := λ _ _, True |}.
  intros ts i [j []] w x q _ _ _. unfold poll_future, countdown.
  pose proof (queue_push_ok (task_id w) q) as Hp.
  destruct x as [|x], (queue_push (task_id w) q) as [q'|e].
  1,2,4: by eexists _, _, _, _, []; rewrite app_nil_r.
  destruct Hp as (Hl & Hc & Hcap). eexists _, _, _, _, [task_id w]. split; [done|].
  split; [done|]. split; [done|]. split; [|split; [cbn; lia|done]].
  rewrite Hc, len_app, len_cons, len_nil, Hcap. lia.
Defined.

Definition task : Task unit := (Task_new tt 0).1.
Definition exec0 : Executor unit (Z * list Z) :=
  {| tasks := {[ 0 := task ]}; task_queue := (100, [0]); waker_cache := ∅ |}.
Definition s0 : running unit nat (Z * list Z) := Running exec0 3%nat [].
Lemma exec0_ok : exec_ok exec0.
Proof.
  split; [|split; [|split]]; cbn; [| |done|done].
  - intros i t. rewrite lookup_singleton_Some. by intros [<- <-].
  - done.
Qed.
End ExampleTask.

Lemma run_ready_tasks_spec_witness :
  ∃ s' l, run_ready_tasks 5 ExampleTask.s0 = Ret s' ∧ contents (task_queue (exec s')) = [] ∧ 0 ∈ l ∧
    polled s' = l.
Proof.
  destruct (run_ready_tasks_spec 5 ExampleTask.s0 ExampleTask.exec0_ok)
    as (s' & l & E & Hok & _ & Hc & Hp & Hall & _); [exact I|cbn; lia|].
  exists s', l. split; [exact E|]. split; [exact Hc|].
  split; [|exact Hp]. apply Hall; [by apply list_elem_of_singleton|by eexists].
Defined.

Lemma spawn_spec_witness :
  spawn ExampleTask.task ExampleTask.exec0 = Panic ∧
  ∃ self', spawn ExampleTask.task (Executor_new : Executor unit (Z * list Z)) = Ret self' ∧
    contents (task_queue self') = [0].
Proof.
  split.
  - apply (spawn_spec ExampleTask.task ExampleTask.exec0 ExampleTask.exec0_ok).
    left. by eexists.
  - destruct (spawn_spec (Q := Z * list Z) ExampleTask.task Executor_new executor_new_ok) as [_ Hs].
    destruct (Hs eq_refl) as (self' & E & _ & _ & Hq); [done|].
    exists self'. split; [exact E|exact Hq].
Defined.

Lemma wakeups_overflow_witness :
  ∃ s0 s : system (Z * list Z) Z (option TaskWaker) TaskWaker,
    rtc (busy_step (TaskWaker_new 1)) s0 s ∧
    wake_all (woken (st s)) (queue_new 100 : Z * list Z) = Panic.
Proof.
  destruct (wakeups_overflow (Q := Z * list Z) (E := Z) (A := option TaskWaker) (T := Z * list Z)
              (TaskWaker_new 1) 0 (System (Stream (Some (100, [])) None [] []) AtStart 0 [] []))
    as (s & Hs & Hp); [eexists; split; reflexivity|].
  eexists _, s. split; [exact Hs|exact Hp].
Defined.

(** Four polls: three times it wakes itself, then it is done and gone. *)
Example executor_runs :
  match run_ready_tasks 5 ExampleTask.s0 with
  | Ret s' => polled s' = [0; 0; 0; 0] ∧ tasks (exec s') = ∅ ∧ waker_cache (exec s') = ∅
  | _ => False
  end.
Proof. vm_compute. split_and!; reflexivity. Qed.
