(* ===== verification/Timers.v ===== *)
(** * Sleeping: [kernel/src/task/time.rs] and the clock of [kernel/src/time.rs]

    Every operation takes the lock of the map with interrupts disabled, so each is one
    step; the timer interrupt is one of them. *)

From S2P Require Import Prelude.
From Stdlib Require Import Sorting.Sorted.
Local Open Scope Z_scope.

(** ** [BTreeMap<(u64, u64), V>]: its entries, in the order of the keys *)

Module BTreeMap.
Abbreviation key := (Z * Z)%type.

Definition lt (a b : key) : Prop := a.1 < b.1 ∨ (a.1 = b.1 ∧ a.2 < b.2).
#[global] Instance lt_dec a b : Decision (lt a b).
Proof. unfold lt. apply _. Defined.

Section Map.
Context {V : Type}.

Abbreviation map := (list (key * V)).

Fixpoint insert (k : key) (v : V) (m : map) : map :=
  match m with
  | [] => [(k, v)]
  | (k', v') :: m' =>
      if decide (lt k k') then (k, v) :: m
      else if decide (k = k') then (k, v) :: m'
      else (k', v') :: insert k v m'
  end.
Definition remove (k : key) (m : map) : map := filter (λ e, e.1 ≠ k) m.
Definition first_key_value (m : map) : option (key * V) := head m.

Definition sorted (m : map) : Prop := StronglySorted (λ a b, lt a.1 b.1) m.

Lemma lt_trans a b c : lt a b → lt b c → lt a c.
Proof. unfold lt. lia. Qed.
Lemma lt_irrefl a : ¬ lt a a.
Proof. unfold lt. lia. Qed.
Lemma lt_total a b : ¬ lt a b → a ≠ b → lt b a.
Proof.
  destruct a as [a1 a2], b as [b1 b2]. unfold lt. cbn. intros Hn Hne.
  destruct (decide (a1 = b1)) as [->|]; [|lia]. destruct (decide (a2 = b2)) as [->|]; [done|lia].
Qed.

Lemma elem_of_insert k v (m : map) e :
  sorted m → e ∈ insert k v m ↔ e = (k, v) ∨ (e ∈ m ∧ e.1 ≠ k).
Proof.
  induction m as [|[k' v'] m IH]; cbn [insert]; intros Hs.
  { rewrite list_elem_of_singleton. set_solver. }
  apply StronglySorted_inv in Hs as [Hs Hhd]. rewrite Forall_forall in Hhd.
  assert (∀ e, e ∈ m → lt k' e.1) as Hgt by (intros e' He'; by apply Hhd).
  destruct (decide (lt k k')) as [Hlt|Hn]; [|destruct (decide (k = k')) as [->|Hne]].
  - rewrite !elem_of_cons. split; [|tauto]. intros [->|[->|He]]; [by left|..]; right.
    + split; [by left|]. cbn. intros ->. by apply lt_irrefl in Hlt.
    + split; [by right|]. intros He1. apply Hgt in He. rewrite He1 in He.
      by apply (lt_irrefl k), (lt_trans _ k').
  - rewrite !elem_of_cons. split.
    + intros [->|He]; [by left|]. right. split; [by right|]. intros He1. apply Hgt in He.
      rewrite He1 in He. by apply lt_irrefl in He.
    + intros [->|[[->|He] Hne]]; [by left|done|by right].
  - rewrite !elem_of_cons, IH by done. split.
    + intros [->|[->|[He Hk]]]; [right|by left|right]; (split; [tauto|]); [by cbn|done].
    + intros [->|[[->|He] Hk]]; tauto.
Qed.

Lemma sorted_insert k v (m : map) : sorted m → sorted (insert k v m).
Proof.
  induction m as [|[k' v'] m IH]; cbn [insert]; intros Hs.
  { repeat constructor. }
  pose proof (StronglySorted_inv Hs) as [Hs' Hhd]. rewrite Forall_forall in Hhd.
  destruct (decide (lt k k')) as [Hlt|Hn]; [|destruct (decide (k = k')) as [->|Hne]].
  - constructor; [done|]. apply Forall_forall. intros e. rewrite elem_of_cons.
    intros [->|He]; [done|]. apply (lt_trans _ k'); [done|]. by apply (Hhd e).
  - constructor; [done|]. by apply Forall_forall.
  - constructor; [by apply IH|]. apply Forall_forall. intros e.
    rewrite elem_of_insert by done. intros [->|[He _]]; [by apply lt_total|by apply (Hhd e)].
Qed.

Lemma elem_of_remove k (m : map) e : e ∈ remove k m ↔ e ∈ m ∧ e.1 ≠ k.
Proof. unfold remove. rewrite list_elem_of_filter. tauto. Qed.

Lemma sorted_filter (P : key * V → Prop) `{!∀ x, Decision (P x)} (m : map) : sorted m → sorted (filter P m).
Proof.
  induction m as [|e m IH]; intros Hs; [done|]. apply StronglySorted_inv in Hs as [Hs Hhd].
  rewrite filter_cons. destruct (decide (P e)); [|by apply IH]. constructor; [by apply IH|].
  rewrite Forall_forall in *. intros x Hx. apply Hhd. by apply list_elem_of_filter in Hx as [_ ?].
Qed.

(** Keys are unique. *)
Lemma sorted_unique (m : map) k v v' : sorted m → (k, v) ∈ m → (k, v') ∈ m → v = v'.
Proof.
  induction m as [|e m IH]; intros Hs; [by intros ?%elem_of_nil|].
  apply StronglySorted_inv in Hs as [Hs Hhd]. rewrite Forall_forall in Hhd. rewrite !elem_of_cons.
  intros [Ha|Ha] [Hb|Hb].
  - congruence.
  - exfalso. subst e. apply Hhd in Hb. by apply lt_irrefl in Hb.
  - exfalso. subst e. apply Hhd in Ha. by apply lt_irrefl in Ha.
  - by apply IH.
Qed.
End Map.
Abbreviation t V := (list (key * V)).
End BTreeMap.

(** ** The clock and the sleepers *)

Definition TICK_HZ : Z := 1000.

Section Timers.
Context {Wk : Type}.

(** The statics: [TICKS], [NEXT_ID] and [TIMERS]; [woken] are the wakers woken, in order. *)
Record clock := Clock {
  TICKS : Z;
  NEXT_ID : Z;
  TIMERS : BTreeMap.t Wk;
  woken : list Wk;
}.

Definition set_timers (m : BTreeMap.t Wk) (s : clock) : clock :=
  Clock (TICKS s) (NEXT_ID s) m (woken s).

Definition now_ms (s : clock) : outcome Z :=
  m ← mul_w 64 (TICKS s) 1000; Ret (m / TICK_HZ).
Definition ticks (s : clock) : Z := TICKS s.

Definition next_id (s : clock) : Z * clock :=
  (NEXT_ID s, Clock (TICKS s) (wrap 64 (NEXT_ID s + 1)) (TIMERS s) (woken s)).

(** The [while let] loop: each round removes the first entry. *)
Fixpoint expire_loop (now : Z) (m : BTreeMap.t Wk) (ws : list Wk) : BTreeMap.t Wk * list Wk :=
  match m with
  | [] => ([], ws)
  | ((deadline, i), w) :: m' => if now <? deadline then (m, ws) else expire_loop now m' (ws ++ [w])
  end.
Definition expire (now : Z) (s : clock) : clock :=
  let '(m, ws) := expire_loop now (TIMERS s) (woken s) in Clock (TICKS s) (NEXT_ID s) m ws.

Definition tick (s : clock) : outcome clock :=
  let s := Clock (wrap 64 (TICKS s + 1)) (NEXT_ID s) (TIMERS s) (woken s) in
  now ← now_ms s; Ret (expire now s).

Definition next_deadline (s : clock) : option Z :=
  (λ e, e.1.1) <$> BTreeMap.first_key_value (TIMERS s).

Record TimeTask := { deadline_ms : Z; id : Z }.

Definition TimeTask_new (duration_ms : Z) (s : clock) : outcome (TimeTask * clock) :=
  now ← now_ms s;
  deadline ← add_w 64 now duration_ms;
  let '(i, s) := next_id s in
  Ret ({| deadline_ms := deadline; id := i |}, s).

Inductive poll_result := Ready | Pending.

Definition poll (self : TimeTask) (cx : Wk) (s : clock) : outcome (poll_result * clock) :=
  now ← now_ms s;
  if deadline_ms self <=? now
  then Ret (Ready, set_timers (BTreeMap.remove (deadline_ms self, id self) (TIMERS s)) s)
  else Ret (Pending, set_timers (BTreeMap.insert (deadline_ms self, id self) cx (TIMERS s)) s).

Definition drop (self : TimeTask) (s : clock) : clock :=
  set_timers (BTreeMap.remove (deadline_ms self, id self) (TIMERS s)) s.

(** *** The clock task of [kernel/src/main.rs] *)

(** Where [time_task] is: at the head of its loop, or waiting. *)
Inductive time_state := AtLoop | Sleeping (t : TimeTask).

(** One poll of the task: the times it prints, and where it is left.  The loop goes
    round at most twice, since a future made for 1000 ms is not ready at once. *)
Fixpoint time_task (fuel : nat) (st : time_state) (cx : Wk) (s : clock) :
    outcome (list Z * time_state * clock) :=
  match fuel with
  | O => OutOfFuel
  | S fuel =>
      match st with
      | AtLoop =>
          now ← now_ms s;
          '(t, s) ← TimeTask_new 1000 s;
          '(printed, st, s) ← time_task fuel (Sleeping t) cx s;
          Ret (now :: printed, st, s)
      | Sleeping t =>
          '(r, s) ← poll t cx s;
          match r with
          | Pending => Ret ([], Sleeping t, s)
          | Ready => time_task fuel AtLoop cx (drop t s)
          end
      end
  end.

(** ** Lemmas *)

(** The clock is that many ticks from overflowing [now_ms]. *)
Definition clock_runs (s : clock) : Prop := 0 ≤ TICKS s ∧ (TICKS s + 1) * 1000 < 2 ^ 64.

(** The time in milliseconds fits. *)
Definition clock_ok (s : clock) : Prop := 0 ≤ TICKS s ∧ TICKS s * 1000 < 2 ^ 64.

Lemma clock_runs_ok s : clock_runs s → clock_ok s.
Proof. unfold clock_runs, clock_ok. lia. Qed.
#[local] Hint Resolve clock_runs_ok : rust.

Lemma now_ms_eq s : clock_ok s → now_ms s = Ret (TICKS s).
Proof.
  intros [H0 H1]. unfold now_ms, mul_w. rewrite checked_ok, bind_Ret by (unfold urange; lia).
  f_equal. unfold TICK_HZ. apply Z.div_mul. lia.
Qed.

Lemma filter_all {A} (P : A → Prop) `{!∀ x, Decision (P x)} l : Forall P l → filter P l = l.
Proof. induction 1; [done|]. rewrite filter_cons_True by done. by f_equal. Qed.
Lemma filter_none {A} (P : A → Prop) `{!∀ x, Decision (P x)} l :
  Forall (λ x, ¬ P x) l → filter P l = [].
Proof. induction 1; [done|]. by rewrite filter_cons_False. Qed.

(** The due entries are a prefix. *)
Lemma expire_loop_eq now m ws :
  BTreeMap.sorted m →
  expire_loop now m ws =
  (filter (λ e, now < e.1.1) m, ws ++ map snd (filter (λ e, e.1.1 ≤ now) m)).
Proof.
  revert ws. induction m as [|[[d i] w] m IH]; intros ws Hs; cbn [expire_loop].
  { by rewrite app_nil_r. }
  apply StronglySorted_inv in Hs as [Hs Hhd]. rewrite !filter_cons. cbn [fst snd].
  destruct (Z.ltb_spec now d) as [Hlt|Hge].
  - destruct (decide (now < d)) as [_|]; [|lia]. destruct (decide (d ≤ now)) as [|_]; [lia|].
    assert (Forall (λ e : BTreeMap.key * Wk, now < e.1.1) m) as Hall.
    { eapply Forall_impl; [exact Hhd|]. intros [[d' i'] w']. unfold BTreeMap.lt. cbn. lia. }
    rewrite (filter_all (λ e, now < e.1.1)) by done.
    rewrite (filter_none (λ e, e.1.1 ≤ now)); [by rewrite app_nil_r|].
    eapply Forall_impl; [exact Hall|]. intros [[a b] c]. cbn. lia.
  - destruct (decide (now < d)) as [|_]; [lia|]. destruct (decide (d ≤ now)) as [_|]; [|lia].
    rewrite IH by done. by rewrite <- app_assoc.
Qed.

(** The map is in order and no sleeper is overdue. *)
Definition timers_ok (s : clock) : Prop :=
  BTreeMap.sorted (TIMERS s) ∧ Forall (λ e, TICKS s < e.1.1) (TIMERS s).

Lemma expire_eq now s :
  BTreeMap.sorted (TIMERS s) →
  expire now s = Clock (TICKS s) (NEXT_ID s) (filter (λ e, now < e.1.1) (TIMERS s))
    (woken s ++ map snd (filter (λ e, e.1.1 ≤ now) (TIMERS s))).
Proof. intros Hs. unfold expire. by rewrite expire_loop_eq. Qed.

Lemma tick_eq s :
  clock_runs s → BTreeMap.sorted (TIMERS s) →
  tick s = Ret (Clock (TICKS s + 1) (NEXT_ID s) (filter (λ e, TICKS s + 1 < e.1.1) (TIMERS s))
    (woken s ++ map snd (filter (λ e, e.1.1 ≤ TICKS s + 1) (TIMERS s)))).
Proof.
  intros [H0 H1] Hs. unfold tick. rewrite wrap_id by (unfold urange; lia).
  rewrite now_ms_eq, bind_Ret by (split; cbn; lia). by rewrite expire_eq.
Qed.

Lemma tick_runs s s' : clock_ok s → tick s = Ret s' → clock_runs s.
Proof.
  intros [H0 H1] E. unfold tick in E. rewrite wrap_id in E by (unfold urange; lia).
  apply bind_returns in E as (now & E & _). unfold now_ms in E. apply bind_returns in E as (m & E & _).
  apply checked_inv in E as [_ Hr]. cbn in Hr. unfold urange in Hr. split; lia.
Qed.

(** ** The life of a sleeper *)

(** What can happen to the statics, each under the lock. *)
Inductive event :=
| Tick
| New (duration_ms : Z)
| Poll (self : TimeTask) (cx : Wk)
| Dropped (self : TimeTask).

Definition apply_event (e : event) (s : clock) : outcome clock :=
  match e with
  | Tick => tick s
  | New d => '(_, s) ← TimeTask_new d s; Ret s
  | Poll self cx => '(_, s) ← poll self cx s; Ret s
  | Dropped self => Ret (drop self s)
  end.

Lemma poll_eq self cx s :
  clock_ok s →
  poll self cx s =
  Ret (if decide (deadline_ms self ≤ TICKS s)
       then (Ready, set_timers (BTreeMap.remove (deadline_ms self, id self) (TIMERS s)) s)
       else (Pending, set_timers (BTreeMap.insert (deadline_ms self, id self) cx (TIMERS s)) s)).
Proof.
  intros Hc. unfold poll. rewrite now_ms_eq, bind_Ret by done.
  destruct (Z.leb_spec (deadline_ms self) (TICKS s)), (decide (deadline_ms self ≤ TICKS s)); done || lia.
Qed.

Lemma new_eq d s :
  clock_ok s →
  TimeTask_new d s =
  if decide (urange 64 (TICKS s + d))
  then Ret ({| deadline_ms := TICKS s + d; id := NEXT_ID s |},
            Clock (TICKS s) (wrap 64 (NEXT_ID s + 1)) (TIMERS s) (woken s))
  else Panic.
Proof.
  intros Hc. unfold TimeTask_new. rewrite now_ms_eq, bind_Ret by done. unfold add_w.
  destruct (decide (urange 64 (TICKS s + d))) as [Hd|Hd].
  - by rewrite checked_ok, bind_Ret by done.
  - unfold checked. destruct (Z.leb_spec 0 (TICKS s + d)), (Z.ltb_spec (TICKS s + d) (2 ^ 64));
      try done. exfalso. apply Hd. done.
Qed.

Lemma remove_ok k s : timers_ok s → timers_ok (set_timers (BTreeMap.remove k (TIMERS s)) s).
Proof.
  intros [Hs Hf]. split; [by apply BTreeMap.sorted_filter|].
  rewrite Forall_forall in *. cbn. intros e. rewrite BTreeMap.elem_of_remove. intros [He _].
  by apply Hf.
Qed.

(** Any number of events. *)
Fixpoint apply_events (es : list event) (s : clock) : outcome clock :=
  match es with
  | [] => Ret s
  | e :: es => s ← apply_event e s; apply_events es s
  end.

(** The waker the timer [k] was last polled with: [w] before the events [es]. *)
Fixpoint last_waker (k : BTreeMap.key) (w : Wk) (es : list event) : Wk :=
  match es with
  | [] => w
  | Poll self cx :: es => last_waker k (if decide ((deadline_ms self, id self) = k) then cx else w) es
  | _ :: es => last_waker k w es
  end.

Definition drops (e : event) (k : BTreeMap.key) : Prop :=
  match e with Dropped self => (deadline_ms self, id self) = k | _ => False end.

(** The timer [k] is filed with the waker [w]. *)
Definition sleeping (k : BTreeMap.key) (w : Wk) (s : clock) : Prop :=
  clock_ok s ∧ timers_ok s ∧ (k, w) ∈ TIMERS s.

Lemma event_ok e s s' :
  clock_ok s → timers_ok s → apply_event e s = Ret s' → clock_ok s' ∧ timers_ok s'.
Proof.
  intros Hc [Hs Hf] E. pose proof Hc as [H0 H1]. destruct e as [|d|self cx|self]; cbn [apply_event] in E.
  - pose proof (tick_runs s s' Hc E) as Hr. rewrite tick_eq in E by done. injection E as <-. destruct Hr.
    split; [unfold clock_ok; cbn; lia|]. split; [by apply BTreeMap.sorted_filter|].
    apply Forall_forall. cbn. intros e. rewrite list_elem_of_filter. tauto.
  - rewrite new_eq in E by done. destruct (decide _); [|done]. injection E as <-. done.
  - rewrite poll_eq, bind_Ret in E by done. destruct (decide _) as [Hd|Hd]; injection E as <-;
      (split; [done|]); [by apply remove_ok|].
    split; [by apply BTreeMap.sorted_insert|]. rewrite Forall_forall in *. intros e. cbn.
    rewrite BTreeMap.elem_of_insert by done. intros [->|[He _]]; [cbn; lia|by apply Hf].
  - injection E as <-. split; [done|]. by apply remove_ok.
Qed.

(** Where a sleeper is after an event. *)
Lemma sleeping_event e s s' k w :
  sleeping k w s → apply_event e s = Ret s' → ¬ drops e k →
  (TICKS s' < k.1 ∧ sleeping k (last_waker k w [e]) s') ∨
  (e = Tick ∧ TICKS s' = k.1 ∧ ∃ l, woken s' = woken s ++ l ∧ w ∈ l ∧ ∀ w', (k, w') ∉ TIMERS s').
Proof.
  intros (Hc & Hok & Hk) E Hn. destruct (event_ok e s s' Hc Hok E) as [Hc' Hok'].
  destruct (Hok) as [Hs Hf]. rewrite Forall_forall in Hf. pose proof (Hf _ Hk) as Hlt. cbn in Hlt.
  unfold sleeping. destruct e as [|d|self cx|self]; cbn [apply_event drops last_waker] in *.
  - pose proof (tick_runs s s' Hc E) as Hr. rewrite tick_eq in E by done. injection E as <-. cbn in *.
    destruct (decide (k.1 ≤ TICKS s + 1)) as [Hd|Hd]; [right|left].
    + split; [done|]. split; [lia|]. eexists. split; [done|]. split.
      * apply list_elem_of_fmap. exists (k, w). split; [done|]. by apply list_elem_of_filter.
      * intros w'. rewrite list_elem_of_filter. cbn. lia.
    + split; [lia|]. split_and!; try done. apply list_elem_of_filter. split; [cbn; lia|done].
  - rewrite new_eq in E by done. destruct (decide _); [|done]. injection E as <-. by left.
  - left. rewrite poll_eq, bind_Ret in E by done. destruct (decide (_ ≤ _)) as [Hd|Hd]; injection E as <-;
      (split; [done|]); split_and!; try done; destruct (decide (_ = k)) as [<-|Hne]; cbn in *.
    + lia.
    + by apply BTreeMap.elem_of_remove.
    + apply BTreeMap.elem_of_insert; [done|]. by left.
    + apply BTreeMap.elem_of_insert; [done|]. right. by split.
  - left. injection E as <-. split; [done|]. split_and!; try done. by apply BTreeMap.elem_of_remove.
Qed.

(** ... and after many. *)
Lemma sleeping_events k w es s s2 :
  sleeping k w s → TICKS s < k.1 → apply_events es s = Ret s2 → Forall (λ e, ¬ drops e k) es →
  (TICKS s2 < k.1 ∧ (k, last_waker k w es) ∈ TIMERS s2) ∨
  (∃ es1 es2 sa sb l, es = es1 ++ Tick :: es2 ∧
     apply_events es1 s = Ret sa ∧ tick sa = Ret sb ∧ apply_events es2 sb = Ret s2 ∧
     TICKS sb = k.1 ∧ woken sb = woken sa ++ l ∧ last_waker k w es1 ∈ l ∧
     ∀ w', (k, w') ∉ TIMERS sb).
Proof.
  intros Hk Hlt E Hd. revert w s Hk Hlt E. induction Hd as [|e es He _ IH]; intros w s Hk Hlt E; cbn in E.
  { injection E as <-. left. split; [done|]. by destruct Hk as (_ & _ & ?). }
  apply bind_returns in E as (s1 & E1 & E).
  destruct (sleeping_event e s s1 k w Hk E1 He) as [[Hlt1 Hk1]|(-> & Ht & l & Hl & Hw & Hn)].
  - destruct (IH _ s1 Hk1 Hlt1 E) as [[Hlt2 Hin]|(es1 & es2 & sa & sb & l & -> & Ea & Hrest)].
    + left. split; [done|]. by destruct e.
    + right. exists (e :: es1), es2, sa, sb, l. split; [done|]. cbn [apply_events]. rewrite E1, bind_Ret.
      split; [done|]. by destruct e.
  - right. exists [], es, s, s1, l. by split_and!.
Qed.

(** C19.  A sleeper is woken exactly on time.  A poll that returns [Pending] has found the
    deadline ahead.  Whatever then happens to the module (ticks, other timers made, polled
    and dropped, this one polled again; but not dropped): as long as the deadline is ahead
    the timer is filed with the waker of its last poll, and the very tick that reaches the
    deadline wakes that waker and leaves no entry of the timer behind. *)
Theorem sleeper_woken (self : TimeTask) (cx : Wk) (es : list event) (s s1 s2 : clock)
    (Hc : clock_ok s) (Hok : timers_ok s) (Hp : poll self cx s = Ret (Pending, s1))
    (He : apply_events es s1 = Ret s2) (Hd : Forall (λ e, ¬ drops e (deadline_ms self, id self)) es) :
  let k := (deadline_ms self, id self) in
  TICKS s < deadline_ms self ∧
  ((TICKS s2 < deadline_ms self ∧ (k, last_waker k cx es) ∈ TIMERS s2) ∨
   (∃ es1 es2 sa sb l, es = es1 ++ Tick :: es2 ∧
      apply_events es1 s1 = Ret sa ∧ tick sa = Ret sb ∧ apply_events es2 sb = Ret s2 ∧
      TICKS sb = deadline_ms self ∧ woken sb = woken sa ++ l ∧ last_waker k cx es1 ∈ l ∧
      ∀ w, (k, w) ∉ TIMERS sb)).
Proof.
  intros k. assert (TICKS s < deadline_ms self ∧ TICKS s1 < deadline_ms self ∧ sleeping k cx s1) as (Hlt & H1 & Hk).
  { pose proof (event_ok (Poll self cx) s s1 Hc Hok) as Hev. cbn in Hev. rewrite Hp in Hev.
    destruct (Hev eq_refl) as [Hc1 Hok1]. rewrite poll_eq in Hp by done.
    destruct (decide _); [done|]. injection Hp as <-. split_and!; [lia|cbn; lia|].
    split_and!; [done..|]. apply BTreeMap.elem_of_insert; [apply Hok|]. by left. }
  split; [done|]. by apply (sleeping_events k cx).
Qed.

(** A tick wakes the sleepers that are due, in the order of their deadlines, and no
    other: it never fails while the clock does not overflow, and what is left in the
    map is what is not due. *)
Theorem tick_spec (s : clock) (Hr : clock_runs s) (Hs : BTreeMap.sorted (TIMERS s)) :
  tick s = Ret (Clock (TICKS s + 1) (NEXT_ID s) (filter (λ e, TICKS s + 1 < e.1.1) (TIMERS s))
    (woken s ++ map snd (filter (λ e, e.1.1 ≤ TICKS s + 1) (TIMERS s)))).
Proof. by apply tick_eq. Qed.

(** The future's contract: made at time [t] for [d] milliseconds, it is ready
    exactly from [t + d] on; a poll that finds it ready, or dropping it, leaves no waker
    of it behind; a poll that does not, files the waker it was last polled with.  Making
    it panics exactly when the deadline does not fit in 64 bits. *)
Theorem time_task_spec (d : Z) (s s1 s2 : clock) (self : TimeTask) (cx : Wk)
    (Hr : clock_runs s) (Hr2 : clock_runs s2) (Hok2 : timers_ok s2) :
  (¬ urange 64 (TICKS s + d) → TimeTask_new d s = Panic) ∧
  (TimeTask_new d s = Ret (self, s1) → deadline_ms self = TICKS s + d ∧ id self = NEXT_ID s) ∧
  (∃ r s3, poll self cx s2 = Ret (r, s3) ∧ (r = Ready ↔ deadline_ms self ≤ TICKS s2) ∧
     (r = Ready → ∀ w, ((deadline_ms self, id self), w) ∉ TIMERS s3) ∧
     (r = Pending → ∀ w, ((deadline_ms self, id self), w) ∈ TIMERS s3 ↔ w = cx) ∧
     (∀ k w, k ≠ (deadline_ms self, id self) → (k, w) ∈ TIMERS s3 ↔ (k, w) ∈ TIMERS s2)) ∧
  (∀ k w, (k, w) ∈ TIMERS (drop self s2) ↔
     (k, w) ∈ TIMERS s2 ∧ k ≠ (deadline_ms self, id self)).
Proof.
  rewrite new_eq by auto with rust. split_and!.
  - intros Hn. by destruct (decide _).
  - destruct (decide _); [|done]. by intros [= <- <-].
  - rewrite poll_eq by auto with rust. destruct Hok2 as [Hs2 _].
    destruct (decide _) as [Hd|Hd]; eexists _, _; (split; [reflexivity|]); split_and!; cbn; try done.
    + intros _ w. rewrite BTreeMap.elem_of_remove. cbn. tauto.
    + intros k w Hk. rewrite BTreeMap.elem_of_remove. cbn. tauto.
    + intros _ w. rewrite BTreeMap.elem_of_insert by done. cbn. split; [|by intros ->; left].
      intros [[= <-]|[_ Hn]]; done.
    + intros k w Hk. rewrite BTreeMap.elem_of_insert by done. cbn. split; [|tauto].
      intros [[= -> _]|[? _]]; done.
  - intros k w. cbn. by rewrite BTreeMap.elem_of_remove.
Qed.

Lemma time_task_loop fuel cx s :
  (2 ≤ fuel)%nat → clock_runs s →
  let t := {| deadline_ms := TICKS s + 1000; id := NEXT_ID s |} in
  time_task fuel AtLoop cx s =
  Ret ([TICKS s], Sleeping t, Clock (TICKS s) (wrap 64 (NEXT_ID s + 1))
    (BTreeMap.insert (TICKS s + 1000, NEXT_ID s) cx (TIMERS s)) (woken s)).
Proof.
  intros Hf Hr. destruct fuel as [|[|fuel]]; [lia..|]. cbn [time_task]. destruct (Hr) as [H0 H1].
  rewrite now_ms_eq, bind_Ret, new_eq by auto with rust.
  rewrite decide_True by (unfold urange; lia). rewrite bind_Ret. cbn [time_task].
  rewrite poll_eq by auto with rust. destruct (decide _) as [Hd|_]; [cbn in Hd; lia|]. done.
Qed.

(** The clock task prints the time when it starts and then once for each time it is polled
    at or after its deadline, a second after the print before it; it prints nothing when
    it is polled early.  Each poll leaves it waiting for a deadline ahead. *)
Theorem clock_task_spec (fuel : nat) (t : TimeTask) (cx : Wk) (s : clock)
    (Hf : (3 ≤ fuel)%nat) (Hr : clock_runs s) :
  (∃ t' s', time_task fuel AtLoop cx s = Ret ([TICKS s], Sleeping t', s') ∧ deadline_ms t' = TICKS s + 1000) ∧
  (TICKS s < deadline_ms t → ∃ s', time_task fuel (Sleeping t) cx s = Ret ([], Sleeping t, s')) ∧
  (deadline_ms t ≤ TICKS s → ∃ t' s',
     time_task fuel (Sleeping t) cx s = Ret ([TICKS s], Sleeping t', s') ∧ deadline_ms t' = TICKS s + 1000).
Proof.
  split_and!.
  - rewrite time_task_loop by (done || lia). by eexists _, _.
  - intros Hd. destruct fuel as [|fuel]; [lia|]. cbn [time_task]. rewrite poll_eq by auto with rust.
    destruct (decide _); [lia|]. by eexists.
  - intros Hd. destruct fuel as [|fuel]; [lia|]. cbn [time_task]. rewrite poll_eq by auto with rust.
    destruct (decide _); [|lia]. rewrite bind_Ret. rewrite time_task_loop by (done || lia). by eexists _, _.
Qed.
End Timers.
Arguments clock : clear implicits.
Arguments event : clear implicits.

(** ** Two sleepers *)

Module ExampleTimers.
Definition s0 : clock nat := Clock 4 2 [((5, 1), 10%nat); ((7, 0), 20%nat)] [].
Lemma s0_runs : clock_runs s0.
Proof. unfold clock_runs. cbn. lia. Qed.
Lemma s0_ok : timers_ok s0.
Proof.
  split; [|repeat (apply Forall_cons_2; [cbn; lia|]); apply Forall_nil_2].
  repeat constructor.
Qed.
Definition self : TimeTask := {| deadline_ms := 7; id := 0 |}.
End ExampleTimers.

(** Polled at 4 for 7, it is woken by the third tick, with the waker of the second poll. *)
Lemma sleeper_woken_witness :
  ∃ s1 s2, poll ExampleTimers.self 30%nat ExampleTimers.s0 = Ret (Pending, s1) ∧
    apply_events [Tick; Poll ExampleTimers.self 40%nat; Tick; Tick; New 5] s1 = Ret s2 ∧
    ∃ es1 es2 sa sb l, [Tick; Poll ExampleTimers.self 40%nat; Tick; Tick; New 5] = es1 ++ Tick :: es2 ∧
      tick sa = Ret sb ∧ TICKS sb = 7 ∧ woken sb = woken sa ++ l ∧
      last_waker (7, 0) 30%nat es1 ∈ l.
Proof.
  eexists _, _. split; [reflexivity|]. split; [reflexivity|].
  destruct (sleeper_woken ExampleTimers.self 30%nat
    [Tick; Poll ExampleTimers.self 40%nat; Tick; Tick; New 5] ExampleTimers.s0 _ _
    (clock_runs_ok _ ExampleTimers.s0_runs) ExampleTimers.s0_ok eq_refl eq_refl)
    as [_ [[Hlt _]|(es1 & es2 & sa & sb & l & He & _ & Ht & _ & Hk & Hl & Hw & _)]].
  - repeat constructor; intros [].
  - vm_compute in Hlt. discriminate Hlt.
  - exists es1, es2, sa, sb, l. split; [exact He|]. split; [exact Ht|]. split; [exact Hk|].
    split; [exact Hl|exact Hw].
Defined.

Lemma tick_spec_witness :
  tick ExampleTimers.s0 = Ret (Clock 5 2 [((7, 0), 20%nat)] [10%nat]).
Proof. apply (tick_spec ExampleTimers.s0 ExampleTimers.s0_runs). apply ExampleTimers.s0_ok. Defined.

Lemma time_task_spec_witness :
  ∃ r s3, poll ExampleTimers.self 30%nat ExampleTimers.s0 = Ret (r, s3) ∧
    (r = Ready ↔ 7 ≤ 4) ∧
    ∀ k w, (k, w) ∈ TIMERS (drop ExampleTimers.self ExampleTimers.s0) ↔
      (k, w) ∈ TIMERS ExampleTimers.s0 ∧ k ≠ (7, 0).
Proof.
  destruct (time_task_spec 3 ExampleTimers.s0 ExampleTimers.s0 ExampleTimers.s0 ExampleTimers.self
              30%nat ExampleTimers.s0_runs ExampleTimers.s0_runs ExampleTimers.s0_ok)
    as (_ & _ & (r & s3 & E & Hr & _) & Hd).
  exists r, s3. split; [exact E|]. split; [exact Hr|exact Hd].
Defined.

Lemma clock_task_spec_witness :
  ∃ t' s', time_task 3 (Sleeping {| deadline_ms := 3; id := 9 |}) 30%nat ExampleTimers.s0 =
    Ret ([4], Sleeping t', s') ∧ deadline_ms t' = 1004.
Proof.
  apply (clock_task_spec 3 {| deadline_ms := 3; id := 9 |} 30%nat ExampleTimers.s0 ltac:(lia)
    ExampleTimers.s0_runs). cbn. lia.
Defined.
