(* ===== verification/Vga.v ===== *)
(** * The text screen: [kernel/src/vga.rs] *)

From S2P Require Import Prelude.
Local Open Scope Z_scope.

Module Color.
Inductive t :=
| Black | Blue | Green | Cyan | Red | Magenta | Brown | LightGray
| DarkGray | LightBlue | LightGreen | LightCyan | LightRed | Pink | Yellow | White.

(** [as u8] *)
Definition code (c : t) : Z :=
  match c with
  | Black => 0 | Blue => 1 | Green => 2 | Cyan => 3 | Red => 4 | Magenta => 5 | Brown => 6
  | LightGray => 7 | DarkGray => 8 | LightBlue => 9 | LightGreen => 10 | LightCyan => 11
  | LightRed => 12 | Pink => 13 | Yellow => 14 | White => 15
  end.
End Color.

Definition ColorCode_new (foreground background : Color.t) : Z :=
  Z.lor (wrap 8 (Z.shiftl (Color.code background) 4)) (Color.code foreground).

Record ScreenChar := { ascii_character : Z; color_code : Z }.

Definition BUFFER_HEIGHT : Z := 25.
Definition BUFFER_WIDTH : Z := 80.

Module ScreenPos.
Record t := { row : Z; col : Z }.

Definition new (row col : Z) : t := {| row := row; col := col |}.

Definition incr_row (self : t) : outcome t :=
  row ← add_w 64 (row self) 1;
  let row := if row =? BUFFER_HEIGHT then 0 else row in
  Ret {| row := row; col := 0 |}.

Definition incr_col (self : t) : outcome t :=
  col ← add_w 64 (col self) 1;
  let self := {| row := row self; col := col |} in
  if col =? BUFFER_WIDTH then incr_row self else Ret self.
End ScreenPos.

(** [position], [color_code] and the memory at 0xb8000: 25 rows of 80. *)
Record Writer := { position : ScreenPos.t; color : Z; buffer : list (list ScreenChar) }.

Definition Writer_new (c : Z) (screen : list (list ScreenChar)) : Writer :=
  {| position := ScreenPos.new 0 0; color := c; buffer := screen |}.

(** One round of [write_str]'s loop. *)
Definition write_byte (byte : Z) (self : Writer) : outcome Writer :=
  if byte =? 10 then
    pos ← ScreenPos.incr_row (position self);
    Ret {| position := pos; color := color self; buffer := buffer self |}
  else
    line ← index (buffer self) (ScreenPos.row (position self));
    line ← set_index line (ScreenPos.col (position self))
             {| ascii_character := byte; color_code := color self |};
    screen ← set_index (buffer self) (ScreenPos.row (position self)) line;
    pos ← ScreenPos.incr_col (position self);
    Ret {| position := pos; color := color self; buffer := screen |}.

Fixpoint write_str (s : list Z) (self : Writer) : outcome Writer :=
  match s with
  | [] => Ret self
  | byte :: s => self ← write_byte byte self; write_str s self
  end.

(** ** The screen as one line of 2000 cells *)

Definition pos_ok (p : ScreenPos.t) : Prop :=
  0 ≤ ScreenPos.row p < BUFFER_HEIGHT ∧ 0 ≤ ScreenPos.col p < BUFFER_WIDTH.
Definition writer_ok (w : Writer) : Prop :=
  pos_ok (position w) ∧ len (buffer w) = BUFFER_HEIGHT ∧
  Forall (λ line, len line = BUFFER_WIDTH) (buffer w).

Definition cursor (w : Writer) : Z :=
  ScreenPos.row (position w) * BUFFER_WIDTH + ScreenPos.col (position w).

(** The character in a cell. *)
Definition cell (w : Writer) (i : Z) : option ScreenChar :=
  line ← get (buffer w) (i / BUFFER_WIDTH); get line (i mod BUFFER_WIDTH).

Definition CELLS : Z := 2000.

Lemma incr_row_eq p :
  pos_ok p → ∃ p', ScreenPos.incr_row p = Ret p' ∧ pos_ok p' ∧ ScreenPos.col p' = 0 ∧
    ScreenPos.row p' = (ScreenPos.row p + 1) mod BUFFER_HEIGHT.
Proof.
  unfold pos_ok, BUFFER_HEIGHT, BUFFER_WIDTH. intros [Hr Hc]. unfold ScreenPos.incr_row, add_w.
  rewrite checked_ok, bind_Ret by (unfold urange; lia). eexists. split; [reflexivity|]. cbn.
  unfold BUFFER_HEIGHT. destruct (Z.eqb_spec (ScreenPos.row p + 1) 25) as [->|Hne].
  - split; [lia|]. done.
  - rewrite Z.mod_small by lia. lia.
Qed.

Lemma incr_col_eq p :
  pos_ok p → ∃ p', ScreenPos.incr_col p = Ret p' ∧ pos_ok p' ∧
    ScreenPos.row p' * BUFFER_WIDTH + ScreenPos.col p' =
    (ScreenPos.row p * BUFFER_WIDTH + ScreenPos.col p + 1) mod CELLS.
Proof.
  intros Hp. pose proof Hp as [Hr Hc]. unfold BUFFER_HEIGHT, BUFFER_WIDTH in Hr, Hc.
  unfold ScreenPos.incr_col, add_w. rewrite checked_ok, bind_Ret by (unfold urange; lia).
  unfold BUFFER_WIDTH at 1. destruct (Z.eqb_spec (ScreenPos.col p + 1) 80) as [He|Hne].
  - destruct (incr_row_eq {| ScreenPos.row := ScreenPos.row p; ScreenPos.col := 0 |})
      as (p' & E & Hok & Hc' & Hr'); [unfold pos_ok, BUFFER_HEIGHT, BUFFER_WIDTH; cbn; lia|].
    exists p'. split; [|split; [done|]].
    + rewrite <- E. unfold ScreenPos.incr_row. cbn. done.
    + rewrite Hc', Hr'. cbn. unfold BUFFER_HEIGHT, BUFFER_WIDTH, CELLS.
      Z.to_euclidean_division_equations. lia.
  - eexists. split; [reflexivity|]. unfold pos_ok, BUFFER_HEIGHT, BUFFER_WIDTH, CELLS. cbn.
    split; [lia|]. rewrite Z.mod_small; lia.
Qed.

(** The cell at a position. *)
Lemma cell_at r c :
  0 ≤ c < BUFFER_WIDTH → (r * BUFFER_WIDTH + c) / BUFFER_WIDTH = r ∧
  (r * BUFFER_WIDTH + c) mod BUFFER_WIDTH = c.
Proof. unfold BUFFER_WIDTH. intros. Z.to_euclidean_division_equations. lia. Qed.

Lemma get_set {A} (l : list A) i j x :
  0 ≤ i < len l → 0 ≤ j → get (<[Z.to_nat i := x]> l) j = if decide (j = i) then Some x else get l j.
Proof.
  intros Hi Hj. rewrite !get_lookup by lia. destruct (decide (j = i)) as [->|Hne].
  - apply list_lookup_insert_eq. unfold len in Hi. lia.
  - apply list_lookup_insert_ne. lia.
Qed.

(** A printed character lands in the cursor's cell and moves the cursor on. *)
Lemma write_char_eq byte w :
  writer_ok w → byte ≠ 10 →
  ∃ w', write_byte byte w = Ret w' ∧ writer_ok w' ∧ color w' = color w ∧
    cursor w' = (cursor w + 1) mod CELLS ∧
    ∀ i, 0 ≤ i < CELLS → cell w' i =
      if decide (i = cursor w) then Some {| ascii_character := byte; color_code := color w |}
      else cell w i.
Proof.
  intros (Hp & Hh & Hw) Hb. pose proof Hp as [Hr Hc]. unfold write_byte.
  rewrite (proj2 (Z.eqb_neq _ _)) by done.
  destruct (get_is_some (buffer w) (ScreenPos.row (position w))) as [line Hl]; [lia|].
  assert (len line = BUFFER_WIDTH) as Hlw.
  { rewrite Forall_forall in Hw. apply Hw. rewrite get_lookup in Hl by lia.
    by apply list_elem_of_lookup_2 in Hl. }
  rewrite (index_get _ _ _ Hl), bind_Ret, set_index_ok, bind_Ret, set_index_ok, bind_Ret by lia.
  destruct (incr_col_eq (position w) Hp) as (p' & E & Hp' & Hcur). rewrite E, bind_Ret.
  eexists. split; [reflexivity|]. split.
  { split; [done|]. cbn. rewrite len_insert. split; [done|].
    apply Forall_insert; [done|]. by rewrite len_insert. }
  split; [done|]. split; [exact Hcur|]. intros i Hi. unfold cell, cursor. cbn [buffer].
  assert (0 ≤ i / BUFFER_WIDTH ∧ 0 ≤ i mod BUFFER_WIDTH) as [Hd Hm]
    by (unfold BUFFER_WIDTH; Z.to_euclidean_division_equations; lia).
  rewrite get_set by (rewrite ?Hh; lia).
  destruct (cell_at (ScreenPos.row (position w)) (ScreenPos.col (position w)) Hc) as [Ed Em].
  destruct (decide (i / BUFFER_WIDTH = ScreenPos.row (position w))) as [Her|Hner].
  - change (mbind (M := option) ?f (Some ?x)) with (f x). cbn beta. rewrite get_set by lia.
    rewrite Her, Hl. destruct (decide (i mod BUFFER_WIDTH = _)) as [Hec|Hnec], (decide (i = _)) as [Hi'|Hi'];
      try done; exfalso.
    + apply Hi'. rewrite (Z.div_mod i BUFFER_WIDTH) by (unfold BUFFER_WIDTH; lia).
      rewrite Her, Hec. ring.
    + apply Hnec. by rewrite Hi', Em.
  - destruct (decide (i = _)) as [Hi'|Hi']; [|done]. exfalso. apply Hner. by rewrite Hi', Ed.
Qed.

Lemma write_newline_eq w :
  writer_ok w →
  ∃ w', write_byte 10 w = Ret w' ∧ writer_ok w' ∧ color w' = color w ∧ buffer w' = buffer w ∧
    cursor w' = ((cursor w / BUFFER_WIDTH + 1) mod BUFFER_HEIGHT) * BUFFER_WIDTH.
Proof.
  intros (Hp & Hh & Hw). unfold write_byte. cbn [Z.eqb Pos.eqb].
  destruct (incr_row_eq (position w) Hp) as (p' & E & Hp' & Hc & Hr). rewrite E, bind_Ret.
  eexists. split; [reflexivity|]. split; [by split_and!|]. split; [done|]. split; [done|].
  unfold cursor. cbn. rewrite Hr, Hc. destruct Hp as [_ Hcol].
  destruct (cell_at (ScreenPos.row (position w)) (ScreenPos.col (position w)) Hcol) as [-> _]. ring.
Qed.

Lemma get_cons {A} (x : A) l d :
  0 ≤ d → get (x :: l) d = if decide (d = 0) then Some x else get l (d - 1).
Proof.
  intros Hd. destruct (decide (d = 0)) as [->|Hne]; [done|]. rewrite !get_lookup by lia.
  replace (Z.to_nat d) with (S (Z.to_nat (d - 1))) by lia. done.
Qed.

Lemma cursor_range w : writer_ok w → 0 ≤ cursor w < CELLS.
Proof.
  intros ([? ?] & _). unfold cursor, CELLS, BUFFER_HEIGHT, BUFFER_WIDTH in *. lia.
Qed.

(** A string without a newline. *)
Lemma write_text_eq s w :
  writer_ok w → Forall (λ b, b ≠ 10) s → len s ≤ CELLS →
  ∃ w', write_str s w = Ret w' ∧ writer_ok w' ∧ color w' = color w ∧
    cursor w' = (cursor w + len s) mod CELLS ∧
    ∀ i, 0 ≤ i < CELLS →
      cell w' i = match get s ((i - cursor w) mod CELLS) with
                  | Some b => Some {| ascii_character := b; color_code := color w |}
                  | None => cell w i
                  end.
Proof.
  revert w. induction s as [|b s IH]; intros w Hok Hs Hl; cbn [write_str].
  { exists w. pose proof (cursor_range w Hok) as Hc. split_and!; try done.
    - rewrite len_nil, Z.add_0_r, Z.mod_small; done.
    - intros i Hi. by rewrite get_none by (rewrite len_nil; apply Z.mod_pos_bound; done). }
  apply Forall_cons in Hs as [Hb Hs]. rewrite len_cons in *. pose proof (len_nonneg s) as Hn.
  destruct (write_char_eq b w Hok Hb) as (w1 & E1 & Hok1 & Hc1 & Hcur1 & Hcell1).
  rewrite E1, bind_Ret. destruct (IH w1) as (w2 & E2 & Hok2 & Hc2 & Hcur2 & Hcell2); [done|done|lia|].
  exists w2. split; [done|]. split; [done|]. split; [congruence|]. split.
  { rewrite Hcur2, Hcur1, Zplus_mod_idemp_l. f_equal. lia. }
  intros i Hi. pose proof (cursor_range w Hok) as Hc.
  rewrite Hcell2, Hcell1, Hc1, Hcur1, Zminus_mod_idemp_r by done.
  rewrite get_cons by (apply Z.mod_pos_bound; done). unfold CELLS in *.
  destruct (decide (i = cursor w)) as [->|Hne].
  - rewrite Z.sub_diag. cbn [decide]. rewrite decide_True by done.
    by rewrite get_none by (Z.to_euclidean_division_equations; lia).
  - rewrite decide_False by (Z.to_euclidean_division_equations; lia).
    replace ((i - cursor w) mod 2000 - 1) with ((i - (cursor w + 1)) mod 2000)
      by (Z.to_euclidean_division_equations; lia). done.
Qed.

Lemma write_str_ok s w : writer_ok w → ∃ w', write_str s w = Ret w' ∧ writer_ok w'.
Proof.
  revert w. induction s as [|b s IH]; intros w Hok; [by exists w|]. cbn [write_str].
  destruct (decide (b = 10)) as [->|Hb].
  - destruct (write_newline_eq w Hok) as (w1 & E & Hok1 & _). rewrite E, bind_Ret. by apply IH.
  - destruct (write_char_eq b w Hok Hb) as (w1 & E & Hok1 & _). rewrite E, bind_Ret. by apply IH.
Qed.

(** The screen takes any text.  Whatever bytes are written, the cursor stays on the
    screen and no index is out of range.  A text without newlines of up to 2000 bytes
    fills the cells from the cursor on, going round from the last to the first, and
    changes no other cell; a newline moves the cursor to the start of the next row, the
    first after the last, and changes no cell. *)
Theorem vga_write_spec (s text : list Z) (w : Writer) (Hok : writer_ok w)
    (Htext : Forall (λ b, b ≠ 10) text) (Hlen : len text ≤ CELLS) :
  (∃ w', write_str s w = Ret w' ∧ writer_ok w') ∧
  (∃ w', write_str text w = Ret w' ∧ cursor w' = (cursor w + len text) mod CELLS ∧
    ∀ i, 0 ≤ i < CELLS →
      cell w' i = match get text ((i - cursor w) mod CELLS) with
                  | Some b => Some {| ascii_character := b; color_code := color w |}
                  | None => cell w i
                  end) ∧
  (∃ w', write_byte 10 w = Ret w' ∧ buffer w' = buffer w ∧
    cursor w' = ((cursor w / BUFFER_WIDTH + 1) mod BUFFER_HEIGHT) * BUFFER_WIDTH).
Proof.
  split_and!; [by apply write_str_ok|..].
  - destruct (write_text_eq text w Hok Htext Hlen) as (w' & E & _ & _ & Hc & Hcell). by exists w'.
  - destruct (write_newline_eq w Hok) as (w' & E & _ & _ & Hb & Hc). by exists w'.
Qed.

(** A colour code holds both colours. *)
Lemma ColorCode_fields fg bg :
  ColorCode_new fg bg mod 16 = Color.code fg ∧ ColorCode_new fg bg / 16 = Color.code bg.
Proof. by destruct fg, bg. Qed.

Module ExampleScreen.
Definition w0 : Writer :=
  Writer_new (ColorCode_new Color.LightBlue Color.Black)
    (array (array {| ascii_character := 32; color_code := 0 |} 80) 25).
Lemma w0_ok : writer_ok w0.
Proof.
  split; [unfold pos_ok, BUFFER_HEIGHT, BUFFER_WIDTH; cbn; lia|]. split; [done|].
  by apply Forall_replicate.
Qed.
End ExampleScreen.

Lemma vga_write_spec_witness :
  ∃ w', write_str [86; 71; 65; 33] ExampleScreen.w0 = Ret w' ∧ cursor w' = 4 ∧
    cell w' 3 = Some {| ascii_character := 33; color_code := 9 |}.
Proof.
  destruct (vga_write_spec [] [86; 71; 65; 33] ExampleScreen.w0 ExampleScreen.w0_ok)
    as (_ & (w' & E & Hc & Hcell) & _);
    [repeat (apply Forall_cons_2; [lia|]); apply Forall_nil_2|vm_compute; congruence|].
  exists w'. split; [exact E|]. split; [exact Hc|]. rewrite Hcell by (vm_compute; split; congruence).
  reflexivity.
Defined.
