(* ===== verification/Serial.v ===== *)
(** * The serial terminal: [kernel/src/serial.rs] and the task that reads it in
      [kernel/src/main.rs]

    The bytes the stream delivers ([Streams.v]) come as a list; when it runs out the
    task is left waiting. *)

From S2P Require Import Prelude.
Local Open Scope Z_scope.

(** The UART: [fmt::Write] of [uart_16550]'s terminal. *)
Class Tty (T : Type) := tty_write : list Z → T → result T unit.

Module TTYErr.
Inductive t := BufferTooSmall | SerialErr.
End TTYErr.

Section Readline.
Context {T : Type} `{HT : Tty T}.

Definition print (s : list Z) (t : T) : outcome T :=
  match tty_write s t with Ok t => Ret t | Err _ => Panic end.

(** [readline] returned, with what it left unread; or it waits for the next byte. *)
Inductive reading :=
| Finished (r : result Z TTYErr.t) (buffer : list Z) (rest : list (option Z)) (t : T)
| Waiting (count : Z) (buffer : list Z) (t : T).

Definition is_newline (byte : Z) : bool := (byte =? 10) || (byte =? 13).
Definition is_backspace (byte : Z) : bool := (byte =? 8) || (byte =? 127).
Definition is_printable (byte : Z) : bool := (32 <=? byte) && (byte <=? 126).

(** One round of the [loop], on the byte the stream gave: what [readline] returns, if it
    returns, and the buffer and the count after it. *)
Definition read_byte (byte : Z) (buffer : list Z) (count : Z) (t : T) :
    outcome (option (result Z TTYErr.t) * list Z * Z * T) :=
  if is_newline byte then
    match tty_write [10] t with
    | Ok t => Ret (Some (Ok count), buffer, count, t)
    | Err _ => Ret (Some (Err TTYErr.SerialErr), buffer, count, t)
    end
  else if is_backspace byte && (0 <? count) then
    count ← sub_w 64 count 1;
    t ← print [8; 32; 8] t;
    Ret (None, buffer, count, t)
  else if is_printable byte then
    if count <? len buffer then
      buffer ← set_index buffer count byte;
      count ← add_w 64 count 1;
      t ← print [byte] t;
      Ret (None, buffer, count, t)
    else Ret (Some (Err TTYErr.BufferTooSmall), buffer, count, t)
  else Ret (None, buffer, count, t).

(** The [loop]; every round takes one item of the stream. *)
Fixpoint read_loop (stream : list (option Z)) (buffer : list Z) (count : Z) (t : T) :
    outcome reading :=
  match stream with
  | [] => Ret (Waiting count buffer t)
  | None :: stream => Ret (Finished (Err TTYErr.SerialErr) buffer stream t)
  | Some byte :: stream =>
      '(r, buffer, count, t) ← read_byte byte buffer count t;
      match r with
      | Some r => Ret (Finished r buffer stream t)
      | None => read_loop stream buffer count t
      end
  end.

Definition readline (stream : list (option Z)) (buffer : list Z) (t : T) : outcome reading :=
  read_loop stream buffer 0 t.
End Readline.
Arguments reading : clear implicits.

(** ** Line editing *)

(** The line typed, one key at a time. *)
Definition edit (line : list Z) (byte : Z) : list Z :=
  if is_backspace byte then take (length line - 1) line
  else if is_printable byte then line ++ [byte] else line.
Definition typed (body : list Z) : list Z := foldl edit [] body.

(** What is echoed for a key. *)
Definition echo (line : list Z) (byte : Z) : list Z :=
  if is_backspace byte && negb (bool_decide (line = [])) then [8; 32; 8]
  else if is_printable byte then [byte] else [].
Fixpoint echoes (line body : list Z) : list Z :=
  match body with
  | [] => []
  | byte :: body => echo line byte ++ echoes (edit line byte) body
  end.

(** No prefix of the typing is longer than the buffer. *)
Definition fits (n : Z) (line body : list Z) : Prop :=
  ∀ k, len (foldl edit line (take k body)) ≤ n.

Lemma fits_short n line body : len line + len body ≤ n → fits n line body.
Proof.
  intros Hn k. assert (∀ l b, len (edit l b) ≤ len l + 1) as Hedit.
  { intros l b. unfold edit. destruct (is_backspace b); [unfold len; rewrite length_take; lia|].
    destruct (is_printable b); rewrite ?len_app, ?len_cons, ?len_nil; lia. }
  assert (∀ body line, len (foldl edit line body) ≤ len line + len body) as Hfold.
  { clear -Hedit. intros body. induction body as [|b body IH]; intros line; cbn [foldl].
    - rewrite len_nil. lia.
    - rewrite len_cons. specialize (IH (edit line b)). specialize (Hedit line b). lia. }
  specialize (Hfold (take k body) line). assert (len (take k body) ≤ len body).
  { unfold len. rewrite length_take. lia. }
  lia.
Qed.

(** The terminal takes every character, in order. *)
Class TtyOk (T : Type) `{Tty T} := {
  output : T → list Z;
  tty_write_ok : ∀ s t, ∃ t', tty_write s t = Ok t' ∧ output t' = output t ++ s;
}.

Section Proofs.
Context {T : Type} `{HT : Tty T} `{HTok : !TtyOk T}.

Lemma print_eq s (t : T) : ∃ t', print s t = Ret t' ∧ output t' = output t ++ s.
Proof. destruct (tty_write_ok s t) as (t' & E & Ho). exists t'. unfold print. by rewrite E. Qed.

(** The buffer holds the line typed so far. *)
Definition holds (buffer line : list Z) : Prop :=
  ∃ rest, buffer = line ++ rest.

(** One key that is not a newline and does not overflow. *)
Lemma read_byte_key byte buffer line (t : T) :
  holds buffer line → is_newline byte = false → len (edit line byte) ≤ len buffer →
  len buffer < 2 ^ 63 →
  ∃ buffer' t', read_byte byte buffer (len line) t = Ret (None, buffer', len (edit line byte), t') ∧
    holds buffer' (edit line byte) ∧ len buffer' = len buffer ∧
    output t' = output t ++ echo line byte.
Proof.
  intros [rest ->] Hnl Hfit Hsmall. unfold read_byte. rewrite Hnl. unfold edit, echo in *.
  rewrite !len_app in *. pose proof (len_nonneg line) as Hl0. pose proof (len_nonneg rest) as Hr0.
  destruct (is_backspace byte) eqn:Hbs; cbn [andb].
  - destruct line as [|x line] using rev_ind.
    + cbn. assert (is_printable byte = false) as ->.
      { unfold is_backspace in Hbs. apply orb_true_iff in Hbs as [->%Z.eqb_eq| ->%Z.eqb_eq]; done. }
      exists rest, t. split_and!; [done|by exists rest|done|by rewrite app_nil_r].
    + clear IHline. pose proof (len_nonneg line).
      assert (len (line ++ [x]) = len line + 1) as Hlx by (by rewrite len_app).
      rewrite (proj2 (Z.ltb_lt _ _)) by lia. rewrite bool_decide_eq_false_2 by (by destruct line).
      cbn [negb]. unfold sub_w. rewrite checked_ok, bind_Ret by (unfold urange; lia).
      destruct (print_eq [8; 32; 8] t) as (t' & E & Ho). rewrite E, bind_Ret.
      replace (length (line ++ [x]) - 1)%nat with (length line) by (rewrite length_app; cbn; lia).
      rewrite take_app_length. exists ((line ++ [x]) ++ rest), t'.
      split_and!; [by replace (len (line ++ [x]) - 1) with (len line) by lia|exists (x :: rest); by rewrite <- app_assoc| |done].
      by rewrite !len_app.
  - destruct (is_printable byte) eqn:Hp.
    + rewrite len_app, len_cons, len_nil in Hfit.
      destruct rest as [|y rest]; [rewrite len_nil in *; lia|]. rewrite len_cons in *.
      pose proof (len_nonneg rest). rewrite (proj2 (Z.ltb_lt _ _)) by lia.
      rewrite set_index_ok, bind_Ret by (rewrite len_app, len_cons; lia).
      unfold add_w. rewrite checked_ok, bind_Ret by (unfold urange; lia).
      destruct (print_eq [byte] t) as (t' & E & Ho). rewrite E, bind_Ret.
      exists ((line ++ [byte]) ++ rest), t'.
      split_and!; [|by exists rest| |done].
      * unfold len at 1. rewrite Nat2Z.id, insert_app_r_alt, Nat.sub_diag by lia. cbn.
        by rewrite <- app_assoc, len_app.
      * rewrite !len_app, !len_cons, len_nil. lia.
    + exists (line ++ rest), t. split_and!; [done|by exists rest|by rewrite len_app|by rewrite app_nil_r].
Qed.

Lemma read_key byte stream buffer line (t : T) :
  holds buffer line → is_newline byte = false → len (edit line byte) ≤ len buffer →
  len buffer < 2 ^ 63 →
  ∃ buffer' t', read_loop (Some byte :: stream) buffer (len line) t =
      read_loop stream buffer' (len (edit line byte)) t' ∧
    holds buffer' (edit line byte) ∧ len buffer' = len buffer ∧
    output t' = output t ++ echo line byte.
Proof.
  intros Hh Hnl Hfit Hs. destruct (read_byte_key byte buffer line t Hh Hnl Hfit Hs) as (b & t' & E & Hr).
  exists b, t'. cbn [read_loop]. by rewrite E.
Qed.

(** Any byte at all: the round returns, the buffer keeps its length and the count stays
    within it. *)
Lemma read_byte_total byte buffer count (t : T) :
  0 ≤ count ≤ len buffer → len buffer < 2 ^ 63 →
  ∃ r buffer' count' t', read_byte byte buffer count t = Ret (r, buffer', count', t') ∧
    len buffer' = len buffer ∧ 0 ≤ count' ≤ len buffer ∧
    match r with Some (Ok n) => n = count' | _ => True end.
Proof.
  intros Hc Hs. unfold read_byte. destruct (is_newline byte).
  { destruct (tty_write_ok [10] t) as (t' & E & _). rewrite E. eexists _, _, _, _. by split. }
  destruct (is_backspace byte && (0 <? count)) eqn:Hb.
  { apply andb_true_iff in Hb as [_ Hn%Z.ltb_lt]. unfold sub_w.
    rewrite checked_ok, bind_Ret by (unfold urange; lia).
    destruct (print_eq [8; 32; 8] t) as (t' & E & _). rewrite E, bind_Ret.
    eexists _, _, _, _. split; [done|]. split; [done|]. split; [lia|done]. }
  destruct (is_printable byte); [|eexists _, _, _, _; by split].
  destruct (Z.ltb_spec count (len buffer)) as [Hlt|Hge]; [|eexists _, _, _, _; by split].
  rewrite set_index_ok, bind_Ret by lia. unfold add_w. rewrite checked_ok, bind_Ret by (unfold urange; lia).
  destruct (print_eq [byte] t) as (t' & E & _). rewrite E, bind_Ret.
  eexists _, _, _, _. split; [done|]. rewrite len_insert. split; [done|]. split; [lia|done].
Qed.

(** A run of keys. *)
Lemma read_keys body stream buffer line (t : T) :
  holds buffer line → Forall (λ b, is_newline b = false) body → fits (len buffer) line body →
  len buffer < 2 ^ 63 →
  ∃ buffer' t', read_loop (map Some body ++ stream) buffer (len line) t =
      read_loop stream buffer' (len (foldl edit line body)) t' ∧
    holds buffer' (foldl edit line body) ∧ len buffer' = len buffer ∧
    output t' = output t ++ echoes line body.
Proof.
  revert buffer line t. induction body as [|b body IH]; intros buffer line t Hh Hb Hf Hs.
  { exists buffer, t. by rewrite app_nil_r. }
  apply Forall_cons in Hb as [Hb Hbody]. cbn [map app foldl echoes].
  destruct (read_key b (map Some body ++ stream) buffer line t) as (buf1 & t1 & E1 & Hh1 & Hl1 & Ho1);
    [done|done|apply (Hf 1%nat)|done|].
  destruct (IH buf1 (edit line b) t1) as (buf2 & t2 & E2 & Hh2 & Hl2 & Ho2); [done|done| |lia|].
  { intros k. rewrite Hl1. apply (Hf (S k)). }
  exists buf2, t2. rewrite E1, E2. split_and!; try done; [congruence|].
  by rewrite Ho2, Ho1, app_assoc.
Qed.

Lemma typed_printable line body :
  Forall (λ b, 32 ≤ b ≤ 126) line → Forall (λ b, 32 ≤ b ≤ 126) (foldl edit line body).
Proof.
  revert line. induction body as [|b body IH]; intros line Hl; [done|]. cbn. apply IH. unfold edit.
  destruct (is_backspace b); [by apply Forall_take|]. destruct (is_printable b) eqn:Hp; [|done].
  apply Forall_app. split; [done|]. constructor; [|done].
  unfold is_printable in Hp. apply andb_true_iff in Hp as [?%Z.leb_le ?%Z.leb_le]. lia.
Qed.

Lemma readline_eq body nl rest buffer (t : T) :
  Forall (λ b, is_newline b = false) body → fits (len buffer) [] body → len buffer < 2 ^ 63 →
  is_newline nl = true →
  ∃ buffer' t', readline (map Some body ++ Some nl :: rest) buffer t =
      Ret (Finished (Ok (len (typed body))) buffer' rest t') ∧
    holds buffer' (typed body) ∧ len buffer' = len buffer ∧
    output t' = output t ++ echoes [] body ++ [10].
Proof.
  intros Hb Hf Hs Hnl.
  destruct (read_keys body (Some nl :: rest) buffer [] t) as (buf & t1 & E & Hh & Hl & Ho);
    [by exists buffer|done|done|done|].
  unfold readline. change 0 with (len (@nil Z)). rewrite E. cbn [read_loop]. unfold read_byte. rewrite Hnl.
  destruct (tty_write_ok [10] t1) as (t2 & E2 & Ho2). rewrite E2.
  exists buf, t2. by rewrite Ho2, Ho, <- app_assoc.
Qed.

(** Reading a line gives what was typed.  As long as the line does not outgrow the
    buffer, [readline] returns at the first newline or carriage return: the count and
    the front of the buffer are the line after backspaces, all of it printable ASCII,
    what follows the newline is left unread, and the echo is each key's, then a
    newline.  The first printable key beyond a full buffer ends it with
    [BufferTooSmall]. *)
Theorem readline_spec (body : list Z) (key : Z) (rest : list (option Z)) (buffer : list Z) (t : T)
    (Hbody : Forall (λ b, is_newline b = false) body) (Hfits : fits (len buffer) [] body)
    (Hsmall : len buffer < 2 ^ 63) :
  (is_newline key = true →
   ∃ buffer' t', readline (map Some body ++ Some key :: rest) buffer t =
       Ret (Finished (Ok (len (typed body))) buffer' rest t') ∧
     take (length (typed body)) buffer' = typed body ∧
     Forall (λ b, 32 ≤ b ≤ 126) (typed body) ∧ len buffer' = len buffer ∧
     output t' = output t ++ echoes [] body ++ [10]) ∧
  (is_printable key = true → len (typed body) = len buffer →
   ∃ buffer' t', readline (map Some body ++ Some key :: rest) buffer t =
       Ret (Finished (Err TTYErr.BufferTooSmall) buffer' rest t')).
Proof.
  split.
  - intros Hnl. destruct (readline_eq body key rest buffer t) as (buf & t' & E & [r ->] & Hl & Ho);
      [done..|]. eexists _, t'. split; [exact E|]. split; [apply take_app_length|].
    split; [by apply typed_printable|]. done.
  - intros Hp Hfull.
    destruct (read_keys body (Some key :: rest) buffer [] t) as (buf & t1 & E & Hh & Hl & Ho);
      [by exists buffer|done|done|done|].
    unfold readline. change 0 with (len (@nil Z)). rewrite E. cbn [read_loop]. unfold read_byte.
    assert (is_newline key = false ∧ is_backspace key = false) as [-> ->].
    { unfold is_printable in Hp. apply andb_true_iff in Hp as [?%Z.leb_le ?%Z.leb_le].
      unfold is_newline, is_backspace. split; apply orb_false_iff; split; apply Z.eqb_neq; lia. }
    cbn [andb]. rewrite Hp. fold (typed body). rewrite (proj2 (Z.ltb_ge _ _)) by lia.
    by eexists _, _.
Qed.
End Proofs.

(** ** The task *)

(** [str::from_utf8(..).is_ok()]: the well-formed byte sequences of the Unicode standard. *)
Definition within (lo hi b : Z) : bool := (lo <=? b) && (b <=? hi).
Fixpoint from_utf8 (l : list Z) : bool :=
  match l with
  | [] => true
  | b :: l =>
      if b <? 0x80 then from_utf8 l else
      match l with
      | [] => false
      | c :: l =>
          if within 0xC2 0xDF b then within 0x80 0xBF c && from_utf8 l else
          match l with
          | [] => false
          | d :: l =>
              if ((b =? 0xE0) && within 0xA0 0xBF c) || (within 0xE1 0xEC b && within 0x80 0xBF c) ||
                 ((b =? 0xED) && within 0x80 0x9F c) || (within 0xEE 0xEF b && within 0x80 0xBF c)
              then within 0x80 0xBF d && from_utf8 l else
              match l with
              | [] => false
              | e :: l =>
                  (((b =? 0xF0) && within 0x90 0xBF c) || (within 0xF1 0xF3 b && within 0x80 0xBF c) ||
                   ((b =? 0xF4) && within 0x80 0x8F c)) &&
                  within 0x80 0xBF d && within 0x80 0xBF e && from_utf8 l
              end
          end
      end
  end.

(** The messages. *)
Definition PROMPT : list Z := [62; 32].
Definition NOT_UTF8 : list Z := (* line was not utf8 *)
  [108; 105; 110; 101; 32; 119; 97; 115; 32; 110; 111; 116; 32; 117; 116; 102; 56].
Definition TOO_LONG : list Z := (* line too long *)
  [108; 105; 110; 101; 32; 116; 111; 111; 32; 108; 111; 110; 103].
Definition SERIAL_ERR : list Z := (* serial err *) [115; 101; 114; 105; 97; 108; 32; 101; 114; 114].

Section Task.
Context {T : Type} `{HT : Tty T}.

(** What the task says to what [readline] returned. *)
Definition respond (r : result Z TTYErr.t) (buffer : list Z) (t : T) : outcome T :=
  match r with
  | Ok count =>
      s ← slice buffer 0 count;
      if from_utf8 s then print (s ++ [10]) t else print NOT_UTF8 t
  | Err TTYErr.BufferTooSmall => print TOO_LONG t
  | Err TTYErr.SerialErr => print SERIAL_ERR t
  end.

(** One round of [handle_serial]'s loop: [None] while it waits for the line. *)
Definition handle_line (stream : list (option Z)) (t : T) : outcome (option (list (option Z) * T)) :=
  t ← print PROMPT t;
  r ← readline stream (array 0 1024) t;
  match r with
  | Waiting _ _ _ => Ret None
  | Finished r buffer rest t =>
      t ← respond r buffer t;
      Ret (Some (rest, t))
  end.
End Task.

Lemma respond_total {T} `{TtyOk T} r buffer (t : T) :
  match r with Ok n => 0 ≤ n ≤ len buffer | Err _ => True end → returns (respond r buffer t).
Proof.
  intros Hr. unfold respond. destruct r as [n|[]].
  - rewrite slice_ok, bind_Ret by lia.
    destruct (from_utf8 _); [destruct (print_eq (sub buffer 0 n ++ [10]) t) as (t' & E & _)|
      destruct (print_eq NOT_UTF8 t) as (t' & E & _)]; by exists t'.
  - destruct (print_eq TOO_LONG t) as (t' & E & _). by exists t'.
  - destruct (print_eq SERIAL_ERR t) as (t' & E & _). by exists t'.
Qed.

Lemma ascii_utf8 l : Forall (λ b, 32 ≤ b ≤ 126) l → from_utf8 l = true.
Proof.
  induction 1 as [|b l Hb _ IH]; [done|]. cbn [from_utf8]. by rewrite (proj2 (Z.ltb_lt _ _)) by lia.
Qed.

(** The terminal task prompts, echoes and repeats the line: for any typing that
    stays within 1024 characters, one round prints the prompt, the echo of the keys and
    the line once more, each line ended, and goes on with what was typed after it.  The
    line is always valid UTF-8. *)
Theorem handle_serial_spec {T} `{TtyOk T} (body : list Z) (key : Z) (rest : list (option Z)) (t : T)
    (Hbody : Forall (λ b, is_newline b = false) body) (Hfits : fits 1024 [] body)
    (Hnl : is_newline key = true) :
  ∃ t', handle_line (map Some body ++ Some key :: rest) t = Ret (Some (rest, t')) ∧
    output t' = output t ++ PROMPT ++ (echoes [] body ++ [10]) ++ (typed body ++ [10]).
Proof.
  unfold handle_line. destruct (print_eq PROMPT t) as (t1 & E1 & O1). rewrite E1, bind_Ret.
  destruct (readline_eq body key rest (array 0 1024) t1) as (buf & t2 & E2 & [r ->] & Hl & O2);
    [done|by rewrite len_array|by rewrite len_array|done|].
  rewrite E2, bind_Ret. unfold respond. pose proof (len_nonneg (typed body)) as Hn0. pose proof (len_nonneg r) as Hn1.
  rewrite slice_ok, bind_Ret by (rewrite ?len_app; lia).
  rewrite sub_app_l, sub_all by (done || lia).
  rewrite ascii_utf8 by (by apply typed_printable).
  destruct (print_eq (typed body ++ [10]) t2) as (t3 & E3 & O3). rewrite E3, bind_Ret.
  exists t3. split; [done|]. by rewrite O3, O2, O1, <- !app_assoc.
Qed.

(** ** A terminal that remembers *)

Module ExampleTty.
#[global] Instance tty : Tty (list Z) := λ s t, Ok (t ++ s).
#[global] Instance tty_ok : TtyOk (list Z).
Proof. refine {| output := λ t, t |}. intros s t. by eexists. Defined.

(** h, a, backspace, i *)
Definition body : list Z := [104; 97; 127; 105].
Lemma body_keys : Forall (λ b, is_newline b = false) body.
Proof. by repeat (apply Forall_cons_2; [done|]). Qed.
Lemma body_fits n : 2 ≤ n → fits n [] body.
Proof.
  intros Hn k. do 5 (destruct k as [|k]; [unfold len; cbn; lia|]).
  cbn. unfold len. cbn. lia.
Qed.
End ExampleTty.

Lemma readline_spec_witness :
  ∃ buffer' t', readline (map Some ExampleTty.body ++ [Some 13; Some 98]) [0; 0; 0] [] =
    Ret (Finished (Ok 2) buffer' [Some 98] t') ∧ take 2 buffer' = [104; 105].
Proof.
  destruct (readline_spec (T := list Z) ExampleTty.body 13 [Some 98] [0; 0; 0] []) as [Hr _];
    [exact ExampleTty.body_keys|apply ExampleTty.body_fits; vm_compute; congruence|
     vm_compute; reflexivity|].
  destruct (Hr eq_refl) as (buf & t' & E & Ht & _). exists buf, t'. split; [exact E|exact Ht].
Defined.

Lemma handle_serial_spec_witness :
  ∃ t', handle_line (map Some ExampleTty.body ++ [Some 13]) [] = Ret (Some ([], t')) ∧
    t' = [62; 32; 104; 97; 8; 32; 8; 105; 10; 104; 105; 10].
Proof.
  destruct (handle_serial_spec (T := list Z) ExampleTty.body 13 [] []) as (t' & E & Ho);
    [exact ExampleTty.body_keys|apply ExampleTty.body_fits; lia|reflexivity|].
  exists t'. split; [exact E|exact Ho].
Defined.
