(* ===== verification/Mutex.v ===== *)
(** * Locks shared with interrupt handlers: [kernel/src/mutex.rs]

    One processor, whose interrupts can fall between any two instructions while they are
    enabled.  A context (the kernel, or a handler that interrupted it, and so on) takes
    locks and drops its guards, in any order. *)

From S2P Require Import Prelude.

(** [InterruptMutexGuard]: the mutex it holds and [saved_int]. *)
Record InterruptMutexGuard := { mutex : nat; saved_int : bool }.

(** What a context is doing: between operations, in [lock] after interrupts were
    disabled, or in [drop] after the inner guard was dropped. *)
Inductive pc := Idle | Acquiring (m : nat) (saved : bool) | Restoring (saved : bool).

(** A context: where it is, and its live guards, the latest first. *)
Record context := Context { at_ : pc; guards : list InterruptMutexGuard }.

(** The interrupt flag, the locked spin locks, and the contexts, the running one first. *)
Record cpu := Cpu { enabled : bool; locked : list nat; contexts : list context }.

(** [lock], first half: [are_enabled()], [disable()] *)
Definition lock_disable (m : nat) (c : cpu) : option cpu :=
  match contexts c with
  | Context Idle gs :: cs =>
      Some (Cpu (if enabled c then false else enabled c) (locked c)
              (Context (Acquiring m (enabled c)) gs :: cs))
  | _ => None
  end.

(** [lock], second half: [self.inner.lock()], which spins for as long as the lock is taken. *)
Definition lock_acquire (c : cpu) : option cpu :=
  match contexts c with
  | Context (Acquiring m saved) gs :: cs =>
      if decide (m ∈ locked c) then None
      else Some (Cpu (enabled c) (m :: locked c)
                   (Context Idle ({| mutex := m; saved_int := saved |} :: gs) :: cs))
  | _ => None
  end.

(** [drop] of the [i]-th guard, first half: the inner guard is dropped. *)
Definition drop_release (i : nat) (c : cpu) : option cpu :=
  match contexts c with
  | Context Idle gs :: cs =>
      g ← gs !! i;
      Some (Cpu (enabled c) (filter (λ m, m ≠ mutex g) (locked c))
              (Context (Restoring (saved_int g)) (delete i gs) :: cs))
  | _ => None
  end.

(** [drop], second half: [if self.saved_int { enable() }] *)
Definition drop_restore (c : cpu) : option cpu :=
  match contexts c with
  | Context (Restoring saved) gs :: cs =>
      Some (Cpu (if saved then true else enabled c) (locked c) (Context Idle gs :: cs))
  | _ => None
  end.

(** The processor enters a handler with interrupts disabled, and enables them on return. *)
Definition interrupt (c : cpu) : option cpu :=
  if enabled c then Some (Cpu false (locked c) (Context Idle [] :: contexts c)) else None.
Definition iret (c : cpu) : option cpu :=
  match contexts c with
  | Context Idle [] :: c' :: cs => Some (Cpu true (locked c) (c' :: cs))
  | _ => None
  end.

(** What can happen next, when guard [i] may be dropped if [may_drop i]. *)
Inductive step (may_drop : nat → cpu → Prop) : cpu → cpu → Prop :=
| step_disable m c c' : lock_disable m c = Some c' → step may_drop c c'
| step_acquire c c' : lock_acquire c = Some c' → step may_drop c c'
| step_release i c c' : may_drop i c → drop_release i c = Some c' → step may_drop c c'
| step_restore c c' : drop_restore c = Some c' → step may_drop c c'
| step_interrupt c c' : interrupt c = Some c' → step may_drop c c'
| step_iret c c' : iret c = Some c' → step may_drop c c'.

(** The guard that found interrupts enabled is dropped after all others of its context:
    guards in nested scopes are, and so are temporaries of one statement. *)
Definition orderly (i : nat) (c : cpu) : Prop :=
  match contexts c with
  | [] => True
  | ctx :: _ => ∀ g, guards ctx !! i = Some g → saved_int g = true → guards ctx = [g]
  end.

(** The kernel after [interrupts::enable()], no lock taken. *)
Definition boot : cpu := Cpu true [] [Context Idle []].

(** ** The invariant *)

(** Only the oldest guard remembers how interrupts were when its context had none. *)
Definition saved_ok (base : bool) (gs : list InterruptMutexGuard) : Prop :=
  ∀ i g, gs !! i = Some g → saved_int g = base && (S i =? length gs)%nat.

(** The running context's flag, from what it is doing; [base] is the flag it began with. *)
Definition flag_ok (base flag : bool) (ctx : context) : Prop :=
  saved_ok base (guards ctx) ∧
  match at_ ctx with
  | Idle => flag = if decide (guards ctx = []) then base else false
  | Acquiring _ saved | Restoring saved =>
      flag = false ∧ saved = if decide (guards ctx = []) then base else false
  end.

(** An interrupted context holds nothing. *)
Definition parked (ctx : context) : Prop := at_ ctx = Idle ∧ guards ctx = [].

Definition cpu_ok (c : cpu) : Prop :=
  match contexts c with
  | [] => False
  | ctx :: cs =>
      flag_ok (bool_decide (cs = [])) (enabled c) ctx ∧ Forall parked cs ∧ (length cs ≤ 1)%nat ∧
      locked c = map mutex (guards ctx) ∧ NoDup (locked c)
  end.

Lemma boot_ok : cpu_ok boot.
Proof. split_and!; try done; cbn; [lia|by constructor]. Qed.

Lemma saved_ok_push base g gs :
  saved_ok base gs → saved_int g = (if decide (gs = []) then base else false) →
  saved_ok base (g :: gs).
Proof.
  intros Hs Hg [|i] g' Hi; cbn in *.
  - injection Hi as <-. rewrite Hg. destruct gs; cbn; by rewrite ?andb_true_r, ?andb_false_r.
  - by apply Hs in Hi.
Qed.

(** The oldest guard stays the oldest if it is not the one dropped. *)
Lemma saved_ok_delete base i g gs :
  saved_ok base gs → gs !! i = Some g → (saved_int g = true → gs = [g]) →
  saved_ok base (delete i gs) ∧ saved_int g = (if decide (delete i gs = []) then base else false).
Proof.
  intros Hs Hi Ho. pose proof (Hs i g Hi) as Hg. pose proof (lookup_lt_Some _ _ _ Hi) as Hlt.
  assert (length (delete i gs) = length gs - 1)%nat as Hl by (by apply length_delete).
  split.
  - intros j g' Hj. destruct base; [|cbn; destruct (decide (j < i)%nat);
      [rewrite list_lookup_delete_lt in Hj by done|rewrite list_lookup_delete_ge in Hj by lia];
      by rewrite (Hs _ _ Hj)].
    assert (S i ≠ length gs ∨ gs = [g]) as [Hne| ->].
    { destruct (decide (S i = length gs)) as [He|]; [|by left]. right. apply Ho. rewrite Hg, He.
      by rewrite Nat.eqb_refl. }
    + rewrite Hl, andb_true_l. destruct (decide (j < i)%nat).
      * rewrite list_lookup_delete_lt in Hj by done. rewrite (Hs _ _ Hj), andb_true_l.
        apply eq_true_iff_eq. rewrite !Nat.eqb_eq. lia.
      * rewrite list_lookup_delete_ge in Hj by lia. rewrite (Hs _ _ Hj), andb_true_l.
        apply eq_true_iff_eq. rewrite !Nat.eqb_eq. lia.
    + destruct i; [|cbn in Hlt; lia]. done.
  - destruct (decide (delete i gs = [])) as [He|He].
    + rewrite He in Hl. cbn in Hl. rewrite Hg. replace (S i) with (length gs) by lia.
      by rewrite Nat.eqb_refl, andb_true_r.
    + destruct (saved_int g) eqn:Et; [|done]. specialize (Ho eq_refl) as ->.
      destruct i; [done|cbn in Hlt; lia].
Qed.

Lemma filter_fresh (m : nat) (l : list nat) : m ∉ l → filter (λ x, x ≠ m) l = l.
Proof.
  intros Hm. induction l as [|x l IH]; [done|].
  rewrite filter_cons_True by set_solver. f_equal. apply IH. set_solver.
Qed.

(** Releasing a lock leaves those of the other guards. *)
Lemma filter_delete i g (gs : list InterruptMutexGuard) :
  NoDup (map mutex gs) → gs !! i = Some g →
  filter (λ m, m ≠ mutex g) (map mutex gs) = map mutex (delete i gs).
Proof.
  revert i. induction gs as [|g' gs IH]; intros i Hnd Hi; [done|]. cbn in Hnd.
  apply NoDup_cons in Hnd as [Hm Hnd]. destruct i as [|i]; cbn in Hi; cbn [map].
  - injection Hi as ->. rewrite filter_cons_False by auto. by apply filter_fresh.
  - change (delete (S i) (g' :: gs)) with (g' :: delete i gs). cbn [map].
    rewrite filter_cons_True; [by f_equal; apply IH|]. intros He. apply Hm. rewrite He.
    apply list_elem_of_fmap. exists g. split; [done|]. by eapply list_elem_of_lookup_2.
Qed.

Lemma lock_disable_ok m c c' : lock_disable m c = Some c' → cpu_ok c → cpu_ok c'.
Proof.
  destruct c as [e l [|[p gs] cs]]; [done|]. unfold lock_disable. cbn. destruct p; try done.
  intros [= <-] ([Hsv Hflag] & Hrest). split; [|done]. split; [done|]. cbn in *.
  split; [by destruct e|done].
Qed.

Lemma lock_acquire_ok c c' : lock_acquire c = Some c' → cpu_ok c → cpu_ok c'.
Proof.
  destruct c as [e l [|[p gs] cs]]; [done|]. unfold lock_acquire. cbn.
  destruct p as [|m saved|]; try done. destruct (decide (m ∈ l)) as [|Hm]; [done|].
  intros [= <-] ([Hsv [He Hs]] & Hpark & Hn & Hl & Hnd). cbn in *. split_and!; try done; cbn.
  - split; [by apply saved_ok_push|done].
  - by rewrite Hl.
  - by constructor.
Qed.

Lemma drop_release_ok i c c' : orderly i c → drop_release i c = Some c' → cpu_ok c → cpu_ok c'.
Proof.
  destruct c as [e l [|[p gs] cs]]; [done|]. unfold drop_release, orderly. cbn.
  destruct p; try done. destruct (gs !! i) as [g|] eqn:Hg; [|done]. intros Ho [= <-].
  intros ([Hsv He] & Hpark & Hn & Hl & Hnd). cbn in *. subst l.
  destruct (saved_ok_delete _ _ _ _ Hsv Hg (Ho g eq_refl)) as [Hsv' Hs].
  rewrite (filter_delete i) by done. split_and!; cbn [contexts locked at_ guards enabled]; try done.
  - split; [done|]. split; [|done]. rewrite decide_False in He; [done|]. by destruct gs.
  - rewrite <- (filter_delete i g) by done. by apply NoDup_filter.
Qed.

Lemma drop_restore_ok c c' : drop_restore c = Some c' → cpu_ok c → cpu_ok c'.
Proof.
  destruct c as [e l [|[p gs] cs]]; [done|]. unfold drop_restore. cbn. destruct p as [| |saved]; try done.
  intros [= <-] ([Hsv [He Hs]] & Hrest). split; [|done]. split; [done|]. cbn in *. subst e.
  destruct (decide (gs = [])); subst saved; [|done].
  by destruct (bool_decide (cs = [])).
Qed.

(** With interrupts enabled, nothing is locked and the kernel itself is running. *)
Lemma enabled_free c :
  cpu_ok c → enabled c = true → contexts c = [Context Idle []] ∧ locked c = [].
Proof.
  destruct c as [e l [|[p gs] cs]]; [done|]. intros ([Hsv Hflag] & Hpark & _ & Hl & _) He.
  cbn in *. subst e. destruct p as [|m s|s]; [|by destruct Hflag..].
  destruct (decide (gs = [])) as [->|]; [|done]. symmetry in Hflag.
  apply bool_decide_eq_true in Hflag as ->. done.
Qed.

Lemma mutex_interrupt_ok c c' : interrupt c = Some c' → cpu_ok c → cpu_ok c'.
Proof.
  unfold interrupt. destruct (enabled c) eqn:He; [|done]. intros [= <-] Hok.
  destruct (enabled_free c Hok He) as [-> ->].
  split_and!; cbn; try done; [|by constructor]. by apply Forall_singleton.
Qed.

Lemma iret_ok c c' : iret c = Some c' → cpu_ok c → cpu_ok c'.
Proof.
  unfold iret. destruct c as [e l [|[[] []] [|[p gs] cs]]]; try done. cbn.
  intros [= <-] (_ & Hpark & Hn & Hl & Hnd). apply Forall_cons in Hpark as [[Hp Hg] Hpark].
  cbn in *. subst p gs l. destruct cs as [|]; [|cbn in Hn; lia].
  split_and!; cbn; try done. lia.
Qed.

Lemma mutex_step_ok c c' : step orderly c c' → cpu_ok c → cpu_ok c'.
Proof.
  intros []; eauto using lock_disable_ok, lock_acquire_ok, drop_release_ok, drop_restore_ok,
    mutex_interrupt_ok, iret_ok.
Qed.

Lemma steps_ok c : rtc (step orderly) boot c → cpu_ok c.
Proof.
  intros Hr. pose proof boot_ok as Hb. revert Hb. induction Hr; eauto using mutex_step_ok.
Qed.

(** A guard that found interrupts enabled is not alone, and is dropped: the others' locks
    are left held with interrupts enabled. *)
Lemma disorderly_drop i c c' :
  cpu_ok c → ¬ orderly i c → drop_release i c = Some c' →
  ∃ c2, drop_restore c' = Some c2 ∧ enabled c2 = true ∧ locked c2 ≠ [].
Proof.
  destruct c as [e l [|[p gs] cs]]; [done|]. unfold drop_release, orderly. cbn.
  intros ([Hsv _] & _ & _ & Hl & Hnd) Hn. cbn in *. destruct p; try done.
  destruct (gs !! i) as [g|] eqn:Hg; [|done]. intros [= <-]. subst l.
  assert (saved_int g = true ∧ gs ≠ [g]) as [Ht Hne].
  { destruct (saved_int g) eqn:Ht; [|destruct Hn; intros ? [= <-]; congruence].
    split; [done|]. intros ->. destruct Hn. by intros ? [= <-]. }
  eexists. split; [reflexivity|]. cbn. rewrite Ht. split; [done|]. rewrite (filter_delete i) by done.
  intros Hnil. apply map_eq_nil in Hnil. apply (f_equal length) in Hnil.
  rewrite length_delete in Hnil by done. cbn in Hnil. pose proof (lookup_lt_Some _ _ _ Hg).
  destruct gs as [|g1 [|]]; cbn in *; [lia| |lia]. destruct i; [|lia]. by injection Hg as ->.
Qed.

(** C16.  A handler never spins on a lock its victim holds, as long as the guard that found
    interrupts enabled is dropped after the other guards of its context; guards may be
    dropped in any order otherwise.  Wherever interrupts fall: interrupts are only ever
    enabled while no lock is taken, so a handler finds them all free; the running context
    waits for a lock only if it holds that very lock itself; and dropping the last guard
    leaves interrupts as they were before the first lock.  The condition is needed: the
    first drop against it enables interrupts with a lock held, and a handler that wants
    that lock spins on it for ever. *)
Theorem interrupt_mutex_spec (c : cpu) (Hr : rtc (step orderly) boot c) :
  (enabled c = true → locked c = []) ∧
  (∀ c', interrupt c = Some c' → ∀ m, ∃ c1 c2, lock_disable m c' = Some c1 ∧ lock_acquire c1 = Some c2) ∧
  (∀ m saved gs cs, contexts c = Context (Acquiring m saved) gs :: cs →
     lock_acquire c = None → m ∈ map mutex gs) ∧
  (∀ cs, contexts c = Context Idle [] :: cs → enabled c = bool_decide (cs = [])) ∧
  (∀ i c', ¬ orderly i c → drop_release i c = Some c' →
     ∃ c1 m c2 c3, drop_restore c' = Some c1 ∧ m ∈ locked c1 ∧ interrupt c1 = Some c2 ∧
       lock_disable m c2 = Some c3 ∧ lock_acquire c3 = None).
Proof.
  apply steps_ok in Hr as Hok. split_and!.
  - intros He. by apply enabled_free.
  - intros c' Hi m. unfold interrupt in Hi. destruct (enabled c) eqn:He; [|done].
    injection Hi as <-. destruct (enabled_free c Hok He) as [-> ->]. eexists _, _.
    split; [reflexivity|]. unfold lock_acquire. cbn. by rewrite decide_False by (apply not_elem_of_nil).
  - intros m saved gs cs Hc Ha. unfold cpu_ok, lock_acquire in *. rewrite Hc in *.
    destruct (decide (m ∈ locked c)) as [Hm|]; [|done]. destruct Hok as (_ & _ & _ & Hl & _).
    by rewrite Hl in Hm.
  - intros cs Hc. unfold cpu_ok in Hok. rewrite Hc in Hok. by destruct Hok as [[_ Hflag] _].
  - intros i c' Hn Hd. destruct (disorderly_drop i c c' Hok Hn Hd) as ([e [|m l] cs] & E & He & Hl); [done|].
    cbn in He. subst e. exists (Cpu true (m :: l) cs), m. do 2 eexists. split; [done|]. split; [left|].
    split; [reflexivity|]. split; [reflexivity|]. unfold lock_acquire. cbn. by rewrite decide_True by left.
Qed.

(** The kernel holds lock 1, taken inside lock 0. *)
Definition nested : cpu :=
  Cpu false [1%nat; 0%nat]
    [Context Idle [{| mutex := 1; saved_int := false |}; {| mutex := 0; saved_int := true |}]].
Lemma nested_reachable : rtc (step orderly) boot nested.
Proof.
  eapply rtc_l; [by apply (step_disable _ 0)|].
  eapply rtc_l; [apply step_acquire; reflexivity|].
  eapply rtc_l; [by apply (step_disable _ 1)|].
  eapply rtc_l; [apply step_acquire; reflexivity|]. apply rtc_refl.
Qed.

(** Dropping lock 0 first lets a handler in that waits for lock 1. *)
Lemma interrupt_mutex_spec_witness :
  rtc (step orderly) boot nested ∧
  ∃ c' c1 m, drop_release 1 nested = Some c' ∧ drop_restore c' = Some c1 ∧ m ∈ locked c1.
Proof.
  split; [exact nested_reachable|].
  destruct (interrupt_mutex_spec nested nested_reachable) as (_ & _ & _ & _ & Hd).
  destruct (Hd 1%nat (Cpu false [1%nat] [Context (Restoring true) [{| mutex := 1; saved_int := false |}]]))
    as (c1 & m & _ & _ & E & Hm & _); [|reflexivity|].
  - intros Ho. specialize (Ho _ eq_refl eq_refl). discriminate Ho.
  - exists (Cpu false [1%nat] [Context (Restoring true) [{| mutex := 1; saved_int := false |}]]), c1, m.
    split; [reflexivity|]. split; [exact E|exact Hm].
Defined.
