(* ===== verification/Exceptions.v ===== *)
(** * Exceptions and panics: the handlers of [kernel/src/interrupts.rs], the panic
      handler of [kernel/src/main.rs] and [println!] of [kernel/src/vga.rs]

    They report on the screen and on the serial line, each behind its lock, and either
    return or stop the kernel for good. *)

From S2P Require Import Prelude Vga Serial.
From Stdlib Require Import String Ascii.
Local Open Scope Z_scope.

Definition text (s : string) : list Z := map (λ c, Z.of_N (N_of_ascii c)) (list_ascii_of_string s).
Definition newline : list Z := [10].

(** How the kernel stops: spinning on a lock that its own context holds, in [loop {}], or
    in the loop around [hlt]. *)
Inductive stop := Deadlock | Loop | Hlt.

Section Exceptions.
Context {U : Type} `{HT : Tty U}.

(** The two statics behind their locks, whether each is held, and the interrupt flag. *)
Record console := Console {
  WRITER : Writer;
  writer_held : bool;
  SERIAL_TTY : U;
  tty_held : bool;
  enabled : bool;
}.

(** A handler: it goes on with a value, or stops the kernel. *)
Definition M (A : Type) : Type := console → outcome ((A + stop) * console).
Definition stops {A} (e : stop) : M A := λ c, Ret (inr e, c).
Definition bind {A B} (m : M A) (k : A → M B) : M B := λ c,
  '(r, c) ← m c;
  match r with inl a => k a c | inr e => Ret (inr e, c) end.

(** [WRITER.lock().write_fmt(args).unwrap()]: [lock] disables interrupts, then spins. *)
Definition _print (s : list Z) : M unit := λ c,
  if writer_held c then Ret (inr Deadlock, Console (WRITER c) true (SERIAL_TTY c) (tty_held c) false)
  else
    w ← write_str s (WRITER c);
    Ret (inl tt, Console w false (SERIAL_TTY c) (tty_held c) (enabled c)).
Definition println (s : list Z) : M unit := _print (s ++ newline).

(** [serial::print] *)
Definition serial_print (s : list Z) : M unit := λ c,
  if tty_held c then Ret (inr Deadlock, Console (WRITER c) (writer_held c) (SERIAL_TTY c) true false)
  else
    u ← print s (SERIAL_TTY c);
    Ret (inl tt, Console (WRITER c) (writer_held c) u false (enabled c)).

(** [fn panic(info)], on the text of [info] *)
Definition panic (info : list Z) : M False :=
  bind (println info) (λ _,
  bind (serial_print (text "PANIC: " ++ info ++ newline)) (λ _,
  stops Loop)).

(** The text of a panic's [PanicInfo], which adds the location to the message. *)
Context (panic_info : list Z → list Z).

(** The handlers, on the texts of what they are given. *)

Definition breakpoint_handler (stack_frame : list Z) : M unit :=
  println (text "EXCEPTION: BREAKPOINT" ++ newline ++ stack_frame).

Definition double_fault_handler (stack_frame : list Z) : M False :=
  panic (panic_info (text "EXCEPTION: DOUBLE FAULT" ++ newline ++ stack_frame)).

Definition page_fault_handler (stack_frame error_code cr2 : list Z) : M unit :=
  bind (println (text "EXCEPTION: PAGE FAULT")) (λ _,
  bind (println (text "Accessed Address: " ++ cr2)) (λ _,
  bind (println (text "Error Code: " ++ error_code)) (λ _,
  bind (println stack_frame) (λ _,
  stops Hlt)))).

Definition gp_fault_handler (frame error_code : list Z) : M unit :=
  bind (panic (panic_info (text "GENERAL PROTECTION FAULT (Error Code: " ++ error_code ++
                           text "):" ++ newline ++ frame)))
    (λ r, match r with end).
End Exceptions.
Arguments console : clear implicits.

Section Proofs.
Context {U : Type} `{HTok : TtyOk U} (panic_info : list Z → list Z).
Implicit Types c : console U.

(** The console after [s] was written to the screen. *)
Definition shown (s : list Z) c c' : Prop :=
  write_str s (WRITER c) = Ret (WRITER c') ∧ writer_ok (WRITER c') ∧ writer_held c' = false ∧
  SERIAL_TTY c' = SERIAL_TTY c ∧ tty_held c' = tty_held c ∧ enabled c' = enabled c.

Lemma _print_eq s c :
  writer_ok (WRITER c) → writer_held c = false → ∃ c', _print s c = Ret (inl tt, c') ∧ shown s c c'.
Proof.
  intros Hok Hh. destruct (write_str_ok s _ Hok) as (w & E & Hw). unfold _print. rewrite Hh, E, bind_Ret.
  eexists. split; [done|]. by split_and!.
Qed.

Lemma write_str_app s s' w w1 : write_str s w = Ret w1 → write_str (s ++ s') w = write_str s' w1.
Proof.
  revert w. induction s as [|b s IH]; intros w; cbn [write_str app]; [by intros [= <-]|].
  intros E. apply bind_returns in E as (w2 & E1 & E2). rewrite E1, bind_Ret. by apply IH.
Qed.

Lemma shown_trans s s' c1 c2 c3 : shown s c1 c2 → shown s' c2 c3 → shown (s ++ s') c1 c3.
Proof.
  intros (E & _ & _ & ? & ? & ?) (E' & ? & ? & ? & ? & ?). split_and!; try congruence.
  by rewrite (write_str_app _ _ _ _ E).
Qed.

Lemma bind_inl {A B} (m : M A) (k : A → M B) c a c' : m c = Ret (inl a, c') → bind m k c = k a c'.
Proof. intros E. unfold bind. by rewrite E, bind_Ret. Qed.
Lemma bind_inr {A B} (m : M A) (k : A → M B) c e c' : m c = Ret (inr e, c') → bind m k c = Ret (inr e, c').
Proof. intros E. unfold bind. by rewrite E, bind_Ret. Qed.

(** A report that has the screen: the whole of it is there, and then on the serial line
    too, or the kernel spins. *)
Lemma panic_eq info c :
  writer_ok (WRITER c) → writer_held c = false →
  ∃ c1 c', shown (info ++ newline) c c1 ∧ WRITER c' = WRITER c1 ∧
    if tty_held c
    then panic info c = Ret (inr Deadlock, c') ∧ SERIAL_TTY c' = SERIAL_TTY c ∧ enabled c' = false
    else panic info c = Ret (inr Loop, c') ∧ enabled c' = enabled c ∧
      output (SERIAL_TTY c') = output (SERIAL_TTY c) ++ text "PANIC: " ++ info ++ newline.
Proof.
  intros Hok Hh. destruct (_print_eq (info ++ newline) c Hok Hh) as (c1 & E & Hs).
  destruct (Hs) as (_ & _ & _ & Ht & Hth & He). unfold panic, println. erewrite bind_inl by exact E.
  destruct (tty_held c) eqn:Eh.
  - exists c1. eexists. split; [done|]. split; [|erewrite bind_inr by (unfold serial_print; rewrite Hth; done); done]. done.
  - destruct (print_eq (text "PANIC: " ++ info ++ newline) (SERIAL_TTY c1)) as (u & Eu & Hu).
    exists c1. eexists. split; [done|]. split; [|erewrite bind_inl by (unfold serial_print; rewrite Hth, Eu; done);
      split; [done|]; split; [done|by rewrite <- Ht, <- Hu]]. done.
Qed.

(** What a panic leaves behind: the report, on the screen and, unless its lock is held, on
    the serial line. *)
Definition reported (info : list Z) c (e : stop) c' : Prop :=
  write_str (info ++ newline) (WRITER c) = Ret (WRITER c') ∧
  e = (if tty_held c then Deadlock else Loop) ∧
  output (SERIAL_TTY c') = output (SERIAL_TTY c) ++
    (if tty_held c then [] else text "PANIC: " ++ info ++ newline).

Lemma panic_reported info c :
  writer_ok (WRITER c) → writer_held c = false →
  ∃ e c', panic info c = Ret (inr e, c') ∧ reported info c e c'.
Proof.
  intros Hok Hh. destruct (panic_eq info c Hok Hh) as (c1 & c' & (Hs & _) & Hw & Hp). unfold reported.
  rewrite <- Hw in Hs. destruct (tty_held c).
  - destruct Hp as (Hp & Ht & _). eexists _, c'. by rewrite Ht, app_nil_r.
  - destruct Hp as (Hp & _ & Ht). by eexists _, c'.
Qed.

(** C28.  Every fault is reported, and none goes on.  With the screen's lock free: a breakpoint
    prints its line and returns to the code it interrupted, touching nothing else; a page
    fault prints its four lines and halts for good; a double fault, a general protection
    fault and every other panic print the whole report on the screen, then the same on the
    serial line and loop, or, if the serial line's lock is held, stop there with the report
    on the screen.  With the screen's lock held, each of them spins with interrupts off
    and reports nothing anywhere. *)
Theorem faults_reported (frame code cr2 info : list Z) c (Hok : writer_ok (WRITER c)) :
  if writer_held c then
    ∃ c', WRITER c' = WRITER c ∧ SERIAL_TTY c' = SERIAL_TTY c ∧ enabled c' = false ∧
      breakpoint_handler frame c = Ret (inr Deadlock, c') ∧
      page_fault_handler frame code cr2 c = Ret (inr Deadlock, c') ∧
      double_fault_handler panic_info frame c = Ret (inr Deadlock, c') ∧
      gp_fault_handler panic_info frame code c = Ret (inr Deadlock, c') ∧
      panic info c = Ret (inr Deadlock, c')
  else
    (∃ c', breakpoint_handler frame c = Ret (inl tt, c') ∧
       shown (text "EXCEPTION: BREAKPOINT" ++ newline ++ frame ++ newline) c c') ∧
    (∃ c', page_fault_handler frame code cr2 c = Ret (inr Hlt, c') ∧
       shown (text "EXCEPTION: PAGE FAULT" ++ newline ++ text "Accessed Address: " ++ cr2 ++ newline ++
              text "Error Code: " ++ code ++ newline ++ frame ++ newline) c c') ∧
    (∃ e c', double_fault_handler panic_info frame c = Ret (inr e, c') ∧
       reported (panic_info (text "EXCEPTION: DOUBLE FAULT" ++ newline ++ frame)) c e c') ∧
    (∃ e c', gp_fault_handler panic_info frame code c = Ret (inr e, c') ∧
       reported (panic_info (text "GENERAL PROTECTION FAULT (Error Code: " ++ code ++ text "):" ++
                             newline ++ frame)) c e c') ∧
    (∃ e c', panic info c = Ret (inr e, c') ∧ reported info c e c').
Proof.
  destruct (writer_held c) eqn:Hh.
  { assert (∀ s, _print s c = Ret (inr Deadlock, Console (WRITER c) true (SERIAL_TTY c) (tty_held c) false)) as Hd
      by (intros s; unfold _print; by rewrite Hh).
    eexists. do 3 (split; [shelve|]). unfold gp_fault_handler, double_fault_handler, page_fault_handler, panic.
    unfold breakpoint_handler, println. split_and!; repeat (erewrite bind_inr; [|apply Hd || by eapply bind_inr]); apply Hd || done.
    Unshelve. all: done. }
  split_and!; try by apply panic_reported.
  - destruct (_print_eq ((text "EXCEPTION: BREAKPOINT" ++ newline ++ frame) ++ newline) c Hok Hh) as (c' & E & Hs).
    exists c'. split; [done|]. by rewrite <- !app_assoc in Hs.
  - destruct (_print_eq (text "EXCEPTION: PAGE FAULT" ++ newline) c Hok Hh) as (c1 & E1 & S1).
    destruct (S1) as (_ & Hok1 & Hh1 & _).
    destruct (_print_eq ((text "Accessed Address: " ++ cr2) ++ newline) c1 Hok1 Hh1) as (c2 & E2 & S2).
    destruct (S2) as (_ & Hok2 & Hh2 & _).
    destruct (_print_eq ((text "Error Code: " ++ code) ++ newline) c2 Hok2 Hh2) as (c3 & E3 & S3).
    destruct (S3) as (_ & Hok3 & Hh3 & _). destruct (_print_eq (frame ++ newline) c3 Hok3 Hh3) as (c4 & E4 & S4).
    exists c4. split.
    + unfold page_fault_handler, println. erewrite bind_inl by exact E1. erewrite bind_inl by exact E2.
      erewrite bind_inl by exact E3. by erewrite bind_inl by exact E4.
    + pose proof (shown_trans _ _ _ _ _ S1 (shown_trans _ _ _ _ _ S2 (shown_trans _ _ _ _ _ S3 S4))) as Hs.
      by rewrite <- !app_assoc in Hs.
  - destruct (panic_reported (panic_info (text "GENERAL PROTECTION FAULT (Error Code: " ++ code ++ text "):" ++
      newline ++ frame)) c Hok Hh) as (e & c' & E & Hr).
    exists e, c'. split; [|done]. unfold gp_fault_handler. by erewrite bind_inr by exact E.
Qed.
End Proofs.

(** A panic with nothing held, and one while the serial line is. *)
Definition example_console (held : bool) : console (list Z) :=
  Console ExampleScreen.w0 false [62; 32] held true.

Lemma faults_reported_witness :
  (∃ c', panic (text "out of memory") (example_console false) = Ret (inr Loop, c') ∧
     SERIAL_TTY c' = text "> PANIC: out of memory" ++ newline) ∧
  (∃ c', panic (text "out of memory") (example_console true) = Ret (inr Deadlock, c') ∧
     SERIAL_TTY c' = text "> ").
Proof.
  split.
  - destruct (faults_reported (λ m, m) [] [] [] (text "out of memory") (example_console false)
      ExampleScreen.w0_ok) as (_ & _ & _ & _ & e & c' & E & _ & -> & Ho).
    exists c'. split; [exact E|exact Ho].
  - destruct (faults_reported (λ m, m) [] [] [] (text "out of memory") (example_console true)
      ExampleScreen.w0_ok) as (_ & _ & _ & _ & e & c' & E & _ & -> & Ho).
    exists c'. split; [exact E|exact Ho].
Defined.
