(* ===== verification/Apic.v ===== *)
(** * Interrupt routing and the timer: [kernel/src/acpi_handling.rs]'s tables,
      [kernel/src/apic.rs] and the calibration of [kernel/src/time.rs] *)

From S2P Require Import Prelude Pci.
Local Open Scope Z_scope.

(** ** What the files are built on *)

(** Volatile 32-bit loads and stores at a virtual address. *)
Class Mmio (H : Type) := {
  mmio_read : Z → H → Z * H;
  mmio_write : Z → Z → H → H;
}.

(** [Msr::read] and [Msr::write], and [ChainedPics::disable] of [pic8259]. *)
Class Legacy (H : Type) := {
  msr_read : Z → H → Z * H;
  msr_write : Z → Z → H → H;
  pics_disable : Z → Z → H → H;
}.

(** The [x2apic] crate: redirection entries, and an I/O APIC at an address. *)
Class IoApicHw (H : Type) := {
  RedirectionTableEntry : Type;
  rte_default : RedirectionTableEntry;
  set_vector : Z → RedirectionTableEntry → RedirectionTableEntry;
  set_dest : Z → RedirectionTableEntry → RedirectionTableEntry;
  set_level_low : RedirectionTableEntry → RedirectionTableEntry;
  ioapic_init : Z → Z → H → H;
  set_table_entry : Z → Z → RedirectionTableEntry → H → H;
  enable_irq : Z → Z → H → H;
}.

(** ** The tables *)

Record IoApicInfo := { io_apic_id : Z; phys_addr : Z; gsi_base : Z }.
Record Iso := { isa_irq : Z; gsi : Z; flags : Z }.

(** [MadtEntry] of the [acpi] crate. *)
Inductive MadtEntry :=
| IoApicEntry (id address base : Z)
| InterruptSourceOverride (irq gsi flags : Z)
| OtherEntry.

(** The statics the interrupt code shares, the machine and what is printed. *)
Record platform (H : Type) := Platform {
  hw : H;
  IO_APICS : option (list IoApicInfo);
  ISOS : option (list Iso);
  OFFSET : option Z;
  LAPIC_BASE : option Z;
}.
Arguments Platform {H} _ _ _ _ _.
Arguments hw {H} _.
Arguments IO_APICS {H} _.
Arguments ISOS {H} _.
Arguments OFFSET {H} _.
Arguments LAPIC_BASE {H} _.

Definition set_hw {H} (h : H) (p : platform H) : platform H :=
  Platform h (IO_APICS p) (ISOS p) (OFFSET p) (LAPIC_BASE p).

(** The loop of [init_acpi]. *)
Fixpoint read_entries (entries : list MadtEntry) (isos : list Iso) (apics : list IoApicInfo) :
    list Iso * list IoApicInfo :=
  match entries with
  | [] => (isos, apics)
  | IoApicEntry i a b :: es =>
      read_entries es isos (apics ++ [{| io_apic_id := i; phys_addr := a; gsi_base := b |}])
  | InterruptSourceOverride irq g f :: es =>
      read_entries es (isos ++ [{| isa_irq := irq; gsi := g; flags := f |}]) apics
  | OtherEntry :: es => read_entries es isos apics
  end.

(** [init_acpi], from the entries of the table found. *)
Definition init_acpi {H} (entries : list MadtEntry) (p : platform H) : platform H :=
  let '(isos, apics) := read_entries entries [] [] in
  Platform (hw p) (call_once (IO_APICS p) apics) (call_once (ISOS p) isos) (OFFSET p) (LAPIC_BASE p).

(** ** The local APIC *)

Definition IA32_APIC_BASE_MSR : Z := 0x1B.
Definition GLOBAL_APIC_ENABLE_BIT : Z := 2 ^ 11.
Definition LAPIC_PHYS_ADDR : Z := 0xFEE00000.
Definition PIC_1_OFFSET : Z := 32.
Definition PIC_2_OFFSET : Z := PIC_1_OFFSET + 8.
Definition REG_LAPIC_ID : Z := 0x020.
Definition REG_EOI : Z := 0x0B0.
Definition REG_SPURIOUS : Z := 0x0F0.

Section Apic.
Context {H : Type} `{HM : Mmio H} `{HL : Legacy H} `{HI : IoApicHw H}.
Abbreviation M := (prog (platform H)).

(** Access to the machine. *)
Definition ask_hw {A} (f : H → A * H) : M A := λ p,
  let '(a, h) := f (hw p) in Ret (a, set_hw h p).
Definition do_hw (f : H → H) : M unit := λ p, Ret (tt, set_hw (f (hw p)) p).

Definition get_offset : M Z := λ p, o ← expect (OFFSET p); Ret (o, p).
Definition get_io_apics : M (list IoApicInfo) := λ p, l ← expect (IO_APICS p); Ret (l, p).
Definition get_isos : M (list Iso) := λ p, l ← expect (ISOS p); Ret (l, p).

Definition isa_irq_to_gsi (irq : Z) : M Z :=
  isos ← get_isos;
  mret (default irq (gsi <$> List.find (λ iso, isa_irq iso =? irq) isos)).

Definition base : M Z := λ p, b ← expect (LAPIC_BASE p); Ret (b, p).

Definition read_register (offset : Z) : M Z :=
  b ← base; a ← lift (add_w 64 b offset);
  ask_hw (mmio_read a).
Definition write_register (offset value : Z) : M unit :=
  b ← base; a ← lift (add_w 64 b offset);
  do_hw (mmio_write a value).

Definition enable : M unit := write_register REG_SPURIOUS (Z.lor 0x100 0xFF).
Definition end_of_interrupt : M unit := write_register REG_EOI 0.
Definition lapic_id : M Z := v ← read_register REG_LAPIC_ID; mret (wrap 8 (Z.shiftr v 24)).

(** The first I/O APIC, and its virtual address. *)
Definition first_io_apic : M (IoApicInfo * Z) :=
  apics ← get_io_apics;
  info ← lift (expect (head apics));
  offset ← get_offset;
  addr ← lift (add_w 64 (phys_addr info) offset);
  mret (info, addr).

(** The common end of the two routing functions. *)
Definition route (rte : RedirectionTableEntry) (gsi : Z) (info : IoApicInfo) (addr : Z) : M unit :=
  index ← lift (sub_w 8 gsi (wrap 8 (gsi_base info)));
  do_hw (set_table_entry addr index rte);;
  do_hw (enable_irq addr index).

Definition route_pci_interrupt (gsi vector : Z) : M unit :=
  '(info, addr) ← first_io_apic;
  let rte := set_level_low (set_dest 0 (set_vector vector rte_default)) in
  route rte gsi info addr.

Definition route_interrupt (gsi vector : Z) : M unit :=
  '(info, addr) ← first_io_apic;
  let rte := set_dest 0 (set_vector vector rte_default) in
  route rte gsi info addr.

(** [LAPIC_BASE.call_once] *)
Definition set_lapic_base (b : Z) : M unit := λ p,
  Ret (tt, Platform (hw p) (IO_APICS p) (ISOS p) (OFFSET p) (call_once (LAPIC_BASE p) b)).

Definition init_apic : M unit :=
  reg ← ask_hw (msr_read IA32_APIC_BASE_MSR);
  do_hw (msr_write IA32_APIC_BASE_MSR (Z.lor reg GLOBAL_APIC_ENABLE_BIT));;
  do_hw (pics_disable PIC_1_OFFSET PIC_2_OFFSET);;
  offset ← get_offset;
  b ← lift (add_w 64 LAPIC_PHYS_ADDR offset);
  set_lapic_base b;;
  enable;;
  lapic_id;;
  '(_, addr) ← first_io_apic;
  do_hw (ioapic_init addr 32);;
  g ← isa_irq_to_gsi 4;
  route_interrupt (wrap 8 g) 36.
End Apic.

(** ** The timer *)

Definition TICK_HZ : Z := 1000.
Definition DIVIDE_BY_16 : Z := 3.
Definition LVT_TIMER : Z := 0x320.
Definition INITIAL_COUNT : Z := 0x380.
Definition CURRENT_COUNT : Z := 0x390.
Definition DIVIDE_CONFIG : Z := 0x3E0.
Definition LVT_MASKED : Z := 2 ^ 16.
Definition LVT_PERIODIC : Z := 2 ^ 17.
Definition PIT_FREQ : Z := 1193182.
Definition CALIBRATION_MS : Z := 10.
Definition TIMER_VECTOR : Z := 0x40.
Definition U32_MAX : Z := 2 ^ 32 - 1.

Section Timer.
Context {H : Type} `{HM : Mmio H} `{HP : PortIo H}.
Abbreviation M := (prog (platform H)).

(** [while port61.read() & 0x20 == 0 {}] *)
Fixpoint wait_out (fuel : nat) : M unit :=
  match fuel with
  | O => λ _, OutOfFuel
  | S fuel =>
      v ← ask_hw (port_read 8 0x61);
      if Z.land v 0x20 =? 0 then wait_out fuel else mret tt
  end.

Definition calibrate (fuel : nat) : M Z :=
  v ← ask_hw (port_read 8 0x61);
  let speaker_disable := Z.land v 0xFC in
  do_hw (port_write 8 0x61 speaker_disable);;
  do_hw (port_write 8 0x43 0xB0);;
  m ← lift (mul_w 32 PIT_FREQ CALIBRATION_MS);
  let divisor := wrap 16 (m / 1000) in
  do_hw (port_write 8 0x42 (wrap 8 divisor));;
  do_hw (port_write 8 0x42 (wrap 8 (Z.shiftr divisor 8)));;
  write_register DIVIDE_CONFIG DIVIDE_BY_16;;
  write_register LVT_TIMER LVT_MASKED;;
  v ← ask_hw (port_read 8 0x61);
  let start_pit := Z.lor v 0x01 in
  do_hw (port_write 8 0x61 start_pit);;
  write_register INITIAL_COUNT U32_MAX;;
  wait_out fuel;;
  remaining ← read_register CURRENT_COUNT;
  write_register INITIAL_COUNT 0;;
  v ← ask_hw (port_read 8 0x61);
  let gate_low := Z.land v 0xFE in
  do_hw (port_write 8 0x61 gate_low);;
  elapsed ← lift (sub_w 32 U32_MAX remaining);
  m ← lift (mul_w 64 elapsed 1000);
  mret (wrap 32 (m / CALIBRATION_MS)).

Definition init_timer (fuel : nat) : M unit :=
  hz ← calibrate fuel;
  let count := hz / TICK_HZ in
  lift (if 0 <? count then Ret tt else Panic);;
  write_register DIVIDE_CONFIG DIVIDE_BY_16;;
  write_register LVT_TIMER (Z.lor TIMER_VECTOR LVT_PERIODIC);;
  write_register INITIAL_COUNT count.
End Timer.

Section Registers.
Context {H : Type} `{HM : Mmio H}.
Implicit Types p : platform H.

(** The registers are mapped, below the top of the address space. *)
Definition mapped (b : Z) p : Prop := LAPIC_BASE p = Some b ∧ 0 ≤ b ∧ b + 0x1000 ≤ 2 ^ 64.

Lemma mapped_hw b p h : mapped b p → mapped b (set_hw h p).
Proof. done. Qed.

Lemma write_register_eq b off v p :
  mapped b p → 0 ≤ off < 0x1000 →
  write_register off v p = Ret (tt, set_hw (mmio_write (b + off) v (hw p)) p).
Proof.
  intros (Hb & H0 & H1) Ho. unfold write_register, base.
  erewrite prog_bind_Ret by (rewrite Hb; done).
  by erewrite lift_bind by (unfold add_w; apply checked_ok; unfold urange; lia).
Qed.

Lemma read_register_eq b off p :
  mapped b p → 0 ≤ off < 0x1000 →
  read_register off p =
  Ret ((mmio_read (b + off) (hw p)).1, set_hw (mmio_read (b + off) (hw p)).2 p).
Proof.
  intros (Hb & H0 & H1) Ho. unfold read_register, base.
  erewrite prog_bind_Ret by (rewrite Hb; done).
  erewrite lift_bind by (unfold add_w; apply checked_ok; unfold urange; lia).
  unfold ask_hw. by destruct (mmio_read _ _).
Qed.

Lemma ask_hw_eq {A} (f : H → A * H) p : ask_hw f p = Ret ((f (hw p)).1, set_hw (f (hw p)).2 p).
Proof. unfold ask_hw. by destruct (f (hw p)). Qed.

End Registers.

(** ** Routing *)

Definition apic_of (e : MadtEntry) : option IoApicInfo :=
  match e with
  | IoApicEntry i a b => Some {| io_apic_id := i; phys_addr := a; gsi_base := b |}
  | _ => None
  end.
Definition iso_of (e : MadtEntry) : option Iso :=
  match e with
  | InterruptSourceOverride irq g f => Some {| isa_irq := irq; gsi := g; flags := f |}
  | _ => None
  end.

Lemma read_entries_eq es isos apics :
  read_entries es isos apics = (isos ++ omap iso_of es, apics ++ omap apic_of es).
Proof.
  revert isos apics. induction es as [|e es IH]; intros isos apics; cbn; [by rewrite !app_nil_r|].
  destruct e; cbn; rewrite IH; by rewrite <- ?app_assoc.
Qed.

(** The global interrupt an ISA interrupt is wired to: the first override of it, or
    itself. *)
Fixpoint override (irq : Z) (es : list MadtEntry) : Z :=
  match es with
  | [] => irq
  | InterruptSourceOverride i g _ :: es => if i =? irq then g else override irq es
  | _ :: es => override irq es
  end.

Lemma find_override irq es :
  default irq (gsi <$> List.find (λ iso, isa_irq iso =? irq) (omap iso_of es)) = override irq es.
Proof.
  induction es as [|e es IH]; [done|]. destruct e as [i a b|i g f|]; cbn; [done| |done].
  destruct (i =? irq); done.
Qed.

Section Routing.
Context {H : Type} `{HI : IoApicHw H}.
Implicit Types p : platform H.

Lemma first_io_apic_eq info rest o p :
  IO_APICS p = Some (info :: rest) → OFFSET p = Some o → urange 64 (phys_addr info + o) →
  first_io_apic p = Ret ((info, phys_addr info + o), p).
Proof.
  intros Ha Ho Hr. unfold first_io_apic, get_io_apics, get_offset.
  erewrite prog_bind_Ret by (rewrite Ha; done). erewrite lift_bind by done.
  erewrite prog_bind_Ret by (rewrite Ho; done).
  by erewrite lift_bind by (unfold add_w; by apply checked_ok).
Qed.

Lemma route_eq rte g info addr p :
  u8 g →
  route rte g info addr p =
  if decide (wrap 8 (gsi_base info) ≤ g)
  then let i := g - wrap 8 (gsi_base info) in
       Ret (tt, set_hw (enable_irq addr i (set_table_entry addr i rte (hw p))) p)
  else Panic.
Proof.
  intros Hg. pose proof (wrap_range 8 (gsi_base info)) as Hb. unfold urange in *. unfold route.
  destruct (decide _) as [Hle|Hgt].
  - erewrite lift_bind by (unfold sub_w; apply checked_ok; unfold urange; lia). done.
  - unfold sub_w, checked. rewrite (proj2 (Z.leb_gt _ _)) by lia. done.
Qed.

(** Interrupts are routed where the firmware's table says.  With the table read,
    [isa_irq_to_gsi] follows the first override of an ISA interrupt and is the identity
    without one; the routing functions program and then enable the same entry of the
    first I/O APIC, numbered from its base, for CPU 0: level triggered and active low
    for PCI, the default for ISA.  A number below the base panics, as does a machine
    without an I/O APIC. *)
Theorem routing_spec (entries : list MadtEntry) (irq g v o : Z) (p : platform H)
    (Hfresh : IO_APICS p = None ∧ ISOS p = None) (Ho : OFFSET p = Some o) (Hg : u8 g)
    (Hmap : ∀ info, Some info ∈ apic_of <$> entries → urange 64 (phys_addr info + o)) :
  let p1 := init_acpi entries p in
  let entry := set_dest 0 (set_vector v rte_default) in
  isa_irq_to_gsi irq p1 = Ret (override irq entries, p1) ∧
  match omap apic_of entries with
  | [] => route_interrupt g v p1 = Panic ∧ route_pci_interrupt g v p1 = Panic
  | info :: _ =>
      let a := phys_addr info + o in
      let i := g - wrap 8 (gsi_base info) in
      let routed rte := set_hw (enable_irq a i (set_table_entry a i rte (hw p))) p1 in
      if decide (wrap 8 (gsi_base info) ≤ g)
      then route_interrupt g v p1 = Ret (tt, routed entry) ∧
           route_pci_interrupt g v p1 = Ret (tt, routed (set_level_low entry))
      else route_interrupt g v p1 = Panic ∧ route_pci_interrupt g v p1 = Panic
  end.
Proof.
  destruct Hfresh as [Ha Hi]. cbn zeta. unfold init_acpi. rewrite read_entries_eq, Ha, Hi. cbn [app call_once].
  split; [unfold isa_irq_to_gsi, get_isos; erewrite prog_bind_Ret by done; by rewrite find_override|].
  destruct (omap apic_of entries) as [|info rest] eqn:E; [done|].
  assert (urange 64 (phys_addr info + o)) as Hr.
  { apply Hmap. assert (info ∈ omap apic_of entries) as Hin by (rewrite E; left).
    apply list_elem_of_omap in Hin as (e & He & Hee). apply list_elem_of_fmap. by exists e. }
  unfold route_interrupt, route_pci_interrupt.
  erewrite !prog_bind_Ret by (by eapply first_io_apic_eq).
  rewrite !route_eq by done. by destruct (decide _).
Qed.
End Routing.

(** ** A machine that logs its stores *)

Module ExampleApic.
(** Address and value of every store, the latest first. *)
Definition t : Type := list (Z * Z).
#[global] Instance mmio : Mmio t := {|
  mmio_read := λ a h, (U32_MAX - 625000, h); mmio_write := λ a v h, (a, v) :: h |}.
(** An entry: vector and destination, and whether it is level triggered. *)
#[global] Instance ioapic : IoApicHw t := {|
  RedirectionTableEntry := Z * Z * bool; rte_default := (0, 0, false);
  set_vector := λ v r, (v, r.1.2, r.2); set_dest := λ d r, (r.1.1, d, r.2);
  set_level_low := λ r, (r.1.1, r.1.2, true);
  ioapic_init := λ a o h, h; set_table_entry := λ a i r h, (a + i, r.1.1) :: h;
  enable_irq := λ a i h, (a + i, 1) :: h |}.

Definition p0 : platform t := Platform [] None None (Some 0x1000) (Some 0xFEE01000).
Definition madt : list MadtEntry :=
  [OtherEntry; IoApicEntry 0 0xFEC00000 0; InterruptSourceOverride 0 2 0].
Lemma p0_mapped : mapped 0xFEE01000 p0.
Proof. split; [done|]. lia. Qed.
End ExampleApic.

Lemma routing_spec_witness :
  isa_irq_to_gsi 0 (init_acpi ExampleApic.madt ExampleApic.p0) =
    Ret (2, init_acpi ExampleApic.madt ExampleApic.p0) ∧
  route_pci_interrupt 11 0x60 (init_acpi ExampleApic.madt ExampleApic.p0) =
    Ret (tt, set_hw [(0xFEC0100B, 1); (0xFEC0100B, 0x60)] (init_acpi ExampleApic.madt ExampleApic.p0)).
Proof.
  destruct (routing_spec ExampleApic.madt 0 11 0x60 0x1000 ExampleApic.p0) as [Hi Hr];
    [split; reflexivity|reflexivity|unfold urange; lia| |].
  - intros info. cbn. rewrite !elem_of_cons. intros [[=]|[[= ->]|[[=]|[]%elem_of_nil]]].
    unfold urange. cbn. lia.
  - split; [exact Hi|]. exact (proj2 Hr).
Defined.
