(* ===== verification/Calibration.v ===== *)
(** * The timer's calibration: [calibrate] and [init_timer] of [kernel/src/time.rs]

    The two clocks involved, as their manuals describe them: channel 2 of the PIT, behind
    the ports 0x42, 0x43 and 0x61, and the timer of the local APIC, behind its registers.
    What a machine has of them is a view of its state; the laws say what an access does to
    the view, and that it takes some time.  The theorem is about the rate the kernel ends
    up with. *)

From S2P Require Import Prelude Pci Apic.
Local Open Scope Z_scope.

(** ** The clocks *)

(** Channel 2 in mode 0: set up in some way, told to expect the low and then the high byte
    of its count, held by its gate, or counting until a time. *)
Inductive pit_state :=
| PitUnknown
| PitWantsLow
| PitWantsHigh (lo : Z)
| PitHeld (count : Z)
| PitCounts (expiry : Z).

(** The time, in a unit of the machine's; the PIT's gate and channel; the registers of the
    local APIC's timer, and when its count was started. *)
Record clocks := Clocks {
  time : Z;
  gate : bool;
  pit : pit_state;
  divide : Z;
  lvt : Z;
  initial : Z;
  since : Z;
}.

Definition at_time (t : Z) (c : clocks) : clocks :=
  Clocks t (gate c) (pit c) (divide c) (lvt c) (initial c) (since c).
Definition set_pit (g : bool) (p : pit_state) (c : clocks) : clocks :=
  Clocks (time c) g p (divide c) (lvt c) (initial c) (since c).

Section Clocks.
(** How long a step of the PIT takes. *)
Context (pit_period : Z).

(** Port 0x43: channel 2, low byte and high byte, mode 0, binary. *)
Definition write_control (v : Z) (c : clocks) : clocks :=
  set_pit (gate c) (if v =? 0xB0 then PitWantsLow else PitUnknown) c.

(** A count is held, or starts, as the gate says; zero stands for 65536. *)
Definition load (n : Z) (c : clocks) : pit_state :=
  let n := if n =? 0 then 65536 else n in
  if gate c then PitCounts (time c + n * pit_period) else PitHeld n.

(** Port 0x42 *)
Definition write_count (v : Z) (c : clocks) : clocks :=
  set_pit (gate c)
    match pit c with
    | PitWantsLow => PitWantsHigh v
    | PitWantsHigh lo => load (lo + 256 * v) c
    | _ => PitUnknown
    end c.

(** Port 0x61: bit 0 is the gate, and a rising gate starts the count. *)
Definition write_gate (v : Z) (c : clocks) : clocks :=
  let g := Z.testbit v 0 in
  set_pit g
    match pit c, g with
    | PitHeld n, true => PitCounts (time c + n * pit_period)
    | PitCounts _, false => PitUnknown
    | p, _ => p
    end c.

(** The output is low from the control word until the count expires. *)
Definition out (c : clocks) : option bool :=
  match pit c with
  | PitUnknown => None
  | PitCounts expiry => Some (expiry <=? time c)
  | _ => Some false
  end.
End Clocks.

(** The registers of the local APIC.  Its counter runs down from the initial count, which
    is the last register written. *)
Definition write_divide (v : Z) (c : clocks) : clocks :=
  Clocks (time c) (gate c) (pit c) v (lvt c) (initial c) (since c).
Definition write_lvt (v : Z) (c : clocks) : clocks :=
  Clocks (time c) (gate c) (pit c) (divide c) v (initial c) (since c).
Definition write_initial (v : Z) (c : clocks) : clocks :=
  Clocks (time c) (gate c) (pit c) (divide c) (lvt c) v (time c).
Definition current (count_period : Z → Z) (c : clocks) : Z :=
  Z.max 0 (initial c - (time c - since c) / count_period (divide c)).

(** An access goes from [h] to [h'] and does [f], after some of the time it may take. *)
Definition after {H} (clocks_of : H → clocks) (latency : Z) (f : clocks → clocks) (h h' : H) : Prop :=
  ∃ t, time (clocks_of h) < t ≤ time (clocks_of h) + latency ∧ clocks_of h' = f (at_time t (clocks_of h)).

(** A machine that has these clocks, the local APIC's registers at [b]: steps of the PIT
    take [pit_period], counts of the other timer [count_period] of the divide
    configuration, and an access [latency] at the most. *)
Class TimerHwOk (H : Type) `{Mmio H} `{PortIo H} (b : Z) := {
  clocks_of : H → clocks;
  pit_period : Z;
  count_period : Z → Z;
  latency : Z;
  periods_pos : 0 < pit_period ∧ ∀ v, 0 < count_period v;
  read_61 : ∀ h, let '(v, h') := port_read 8 0x61 h in
    after clocks_of latency id h h' ∧ ∀ o, out (clocks_of h') = Some o → Z.testbit v 5 = o;
  write_61 : ∀ v h, after clocks_of latency (write_gate pit_period v) h (port_write 8 0x61 v h);
  write_43 : ∀ v h, after clocks_of latency (write_control v) h (port_write 8 0x43 v h);
  write_42 : ∀ v h, after clocks_of latency (write_count pit_period v) h (port_write 8 0x42 v h);
  write_3e0 : ∀ v h, after clocks_of latency (write_divide v) h (mmio_write (b + DIVIDE_CONFIG) v h);
  write_320 : ∀ v h, after clocks_of latency (write_lvt v) h (mmio_write (b + LVT_TIMER) v h);
  write_380 : ∀ v h, after clocks_of latency (write_initial v) h (mmio_write (b + INITIAL_COUNT) v h);
  read_390 : ∀ h, let '(v, h') := mmio_read (b + CURRENT_COUNT) h in
    after clocks_of latency id h h' ∧
    (Z.testbit (lvt (clocks_of h')) 17 = false → v = current count_period (clocks_of h'));
}.

Section Proofs.
Context {H : Type} `{HM : Mmio H} `{HP : PortIo H} (b : Z) `{HT : !TimerHwOk H b}.
Implicit Types p : platform H.

(** The steps of the PIT in 10 ms, and what they take. *)
Definition STEPS : Z := 11931.
Definition window : Z := STEPS * pit_period.

Lemma wait_out_eq fuel p e :
  pit (clocks_of (hw p)) = PitCounts e → (Z.to_nat (e - time (clocks_of (hw p))) < fuel)%nat →
  ∃ h t, wait_out fuel p = Ret (tt, set_hw h p) ∧ clocks_of h = at_time t (clocks_of (hw p)) ∧
    time (clocks_of (hw p)) < t ∧ e ≤ t ≤ Z.max e (time (clocks_of (hw p))) + latency.
Proof.
  revert p. induction fuel as [|fuel IH]; intros p Hp Hf; [lia|]. cbn [wait_out].
  erewrite prog_bind_Ret by apply ask_hw_eq. pose proof (read_61 (hw p)) as Hr.
  destruct (port_read 8 0x61 (hw p)) as [v h1]. cbn [fst snd].
  destruct Hr as [(t & Ht & Hc) Ho]. cbn in Hc. rewrite Hc in Ho. specialize (Ho (e <=? t)).
  pose proof (land_pow2_test v 5 ltac:(lia)) as Hb. change (2 ^ 5) with 0x20 in Hb.
  rewrite Ho in Hb by (unfold out; cbn; by rewrite Hp).
  destruct (Z.leb_spec e t) as [Hle|Hgt].
  - apply negb_true_iff in Hb. rewrite Hb. exists h1, t. split_and!; [done|done|lia..].
  - apply negb_false_iff in Hb. rewrite Hb.
    destruct (IH (set_hw h1 p)) as (h & t' & E & Hc' & Ht'); [cbn; by rewrite Hc|cbn; rewrite Hc; cbn; lia|].
    exists h, t'. split; [exact E|]. cbn in Hc', Ht'. rewrite Hc in Hc', Ht'. cbn in Hc', Ht'.
    split; [exact Hc'|lia].
Qed.
(** Runs the next operation on [set_hw h p], names the machine it leaves [h'], and keeps of
    it what [law] says. *)
Ltac next_op p law h' t Ht Hc :=
  first
    [ erewrite prog_bind_Ret by apply ask_hw_eq
    | erewrite prog_bind_Ret by (eapply (write_register_eq b); done)
    | erewrite prog_bind_Ret by (eapply (read_register_eq b); done)
    | erewrite prog_bind_Ret by reflexivity ];
  cbn beta zeta;
  repeat change (set_hw ?x (set_hw ?y p)) with (set_hw x p);
  repeat change (hw (set_hw ?x p)) with x;
  let L := fresh in pose proof law as L;
  match type of L with
  | after _ _ _ _ ?x => set (h' := x) in *; clearbody h'
  | _ => idtac
  end;
  destruct L as (t & Ht & Hc).

(** The second half of [calibrate]: both clocks are set up. *)
Definition stopwatch (fuel : nat) : prog (platform H) Z :=
  v ← ask_hw (port_read 8 0x61);
  let start_pit := Z.lor v 0x01 in
  do_hw (port_write 8 0x61 start_pit);;
  write_register INITIAL_COUNT U32_MAX;;
  wait_out fuel;;
  remaining ← read_register CURRENT_COUNT;
  write_register INITIAL_COUNT 0;;
  v ← ask_hw (port_read 8 0x61);
  let gate_low := Z.land v 0xFE in
  do_hw (port_write 8 0x61 gate_low);;
  elapsed ← lift (sub_w 32 U32_MAX remaining);
  m ← lift (mul_w 64 elapsed 1000);
  mret (wrap 32 (m / CALIBRATION_MS)).

Definition set_up (c : clocks) : Prop :=
  pit c = PitHeld STEPS ∧ divide c = DIVIDE_BY_16 ∧ lvt c = LVT_MASKED.

Lemma calibrate_sets_up fuel p :
  mapped b p → ∃ h, set_up (clocks_of h) ∧ calibrate fuel p = stopwatch fuel (set_hw h p).
Proof using HT.
  intros Hm. unfold calibrate. erewrite prog_bind_Ret by apply ask_hw_eq. cbn zeta.
  set (h0 := (port_read 8 0x61 (hw p)).2). clearbody h0.
  set (low := Z.land _ 0xFC). assert (Z.testbit low 0 = false) as Hlow
    by (unfold low; rewrite Z.land_spec; apply andb_false_r). clearbody low.
  next_op p (write_61 low h0) h1 t1 Ht1 Hc1.
  next_op p (write_43 0xB0 h1) h2 t2 Ht2 Hc2.
  erewrite lift_bind by reflexivity. cbn zeta.
  change (wrap 8 (wrap 16 (PIT_FREQ * CALIBRATION_MS / 1000))) with 155.
  change (wrap 8 (Z.shiftr (wrap 16 (PIT_FREQ * CALIBRATION_MS / 1000)) 8)) with 46.
  next_op p (write_42 155 h2) h3 t3 Ht3 Hc3.
  next_op p (write_42 46 h3) h4 t4 Ht4 Hc4.
  next_op p (write_3e0 DIVIDE_BY_16 h4) h5 t5 Ht5 Hc5.
  next_op p (write_320 LVT_MASKED h5) h6 t6 Ht6 Hc6.
  exists h6. split; [|reflexivity].
  rewrite Hc6, Hc5, Hc4, Hc3, Hc2, Hc1. unfold write_gate. by rewrite Hlow.
Qed.

(** The counts made in the window: those of a duration [d], which is the window up to the
    time the accesses at its ends take. *)
Lemma stopwatch_eq fuel p :
  mapped b p → (Z.to_nat window < fuel)%nat → set_up (clocks_of (hw p)) →
  ∃ d h, 0 < d ∧ window - latency < d < window + 2 * latency ∧ gate (clocks_of h) = false ∧
    let elapsed := Z.min U32_MAX (d / count_period DIVIDE_BY_16) in
    stopwatch fuel p = Ret (wrap 32 (elapsed * 1000 / CALIBRATION_MS), set_hw h p).
Proof using HT.
  intros Hm Hf (Hpit & Hdiv & Hlvt). destruct periods_pos as [Hpp Hcp]. unfold stopwatch.
  assert (0 < window) as Hwin by (unfold window, STEPS; lia).
  erewrite prog_bind_Ret by apply ask_hw_eq. cbn zeta.
  pose proof (read_61 (hw p)) as Hr. destruct (port_read 8 0x61 (hw p)) as [v h7]. cbn [fst snd].
  destruct Hr as [(t7 & Ht7 & Hc7) _]. cbn in Hc7.
  set (high := Z.lor v 0x01). assert (Z.testbit high 0 = true) as Hhigh
    by (unfold high; rewrite Z.lor_spec; apply orb_true_r). clearbody high.
  next_op p (write_61 high h7) h8 t8 Ht8 Hc8.
  next_op p (write_380 U32_MAX h8) h9 t9 Ht9 Hc9.
  unfold write_gate, set_pit in Hc8. rewrite Hhigh, Hc7 in Hc8. cbn in Hc8. rewrite Hpit, Hdiv, Hlvt in Hc8.
  rewrite Hc8 in Hc9, Ht9. cbn in Hc9, Ht9.
  destruct (wait_out_eq fuel (set_hw h9 p) (t8 + window)) as (h10 & t10 & Ew & Hc10 & Ht10);
    [cbn; by rewrite Hc9|cbn; rewrite Hc9; cbn; lia|].
  erewrite prog_bind_Ret by exact Ew. clear Ew.
  change (set_hw ?x (set_hw ?y p)) with (set_hw x p). cbn [hw set_hw] in Hc10, Ht10.
  rewrite Hc9 in Hc10, Ht10. cbn in Hc10, Ht10.
  erewrite prog_bind_Ret by (eapply (read_register_eq b); done).
  change (set_hw ?x (set_hw ?y p)) with (set_hw x p). change (hw (set_hw h10 p)) with h10.
  pose proof (read_390 h10) as Hr. destruct (mmio_read (b + CURRENT_COUNT) h10) as [remaining h11]. cbn [fst snd].
  destruct Hr as [(t11 & Ht11 & Hc11) Hcount]. cbn in Hc11. rewrite Hc10 in Hc11, Ht11. cbn in Hc11, Ht11.
  specialize (Hcount ltac:(by rewrite Hc11)). rewrite Hc11 in Hcount. unfold current in Hcount. cbn in Hcount.
  assert (0 ≤ (t11 - t9) / count_period DIVIDE_BY_16) as Hq by (apply Z.div_pos; [lia|done]).
  next_op p (write_380 0 h11) h12 t12 Ht12 Hc12. clear Hc12.
  erewrite prog_bind_Ret by apply ask_hw_eq. cbn zeta.
  change (set_hw ?x (set_hw ?y p)) with (set_hw x p).
  set (h13 := (port_read 8 0x61 _).2). clearbody h13.
  set (low := Z.land _ 0xFE). assert (Z.testbit low 0 = false) as Hlow
    by (unfold low; rewrite Z.land_spec; apply andb_false_r). clearbody low.
  next_op p (write_61 low h13) h14 t14 Ht14 Hc14.
  exists (t11 - t9), h14. split; [lia|]. split; [lia|]. split; [rewrite Hc14; exact Hlow|].
  erewrite lift_bind by (unfold sub_w; apply checked_ok; unfold urange, U32_MAX in *; lia).
  erewrite lift_bind by (unfold mul_w; apply checked_ok; unfold urange, U32_MAX in *; lia).
  cbn zeta. replace (U32_MAX - remaining) with (Z.min U32_MAX ((t11 - t9) / count_period DIVIDE_BY_16)); [done|].
  unfold DIVIDE_BY_16, U32_MAX in *. lia.
Qed.

(** The part of [init_timer] after the calibration. *)
Lemma program_timer count p :
  mapped b p →
  ∃ h, (write_register DIVIDE_CONFIG DIVIDE_BY_16;;
        write_register LVT_TIMER (Z.lor TIMER_VECTOR LVT_PERIODIC);;
        write_register INITIAL_COUNT count) p = Ret (tt, set_hw h p) ∧
    gate (clocks_of h) = gate (clocks_of (hw p)) ∧ divide (clocks_of h) = DIVIDE_BY_16 ∧
    lvt (clocks_of h) = Z.lor TIMER_VECTOR LVT_PERIODIC ∧ initial (clocks_of h) = count.
Proof using HT.
  intros Hm.
  next_op p (write_3e0 DIVIDE_BY_16 (hw p)) h1 t1 Ht1 Hc1.
  next_op p (write_320 (Z.lor TIMER_VECTOR LVT_PERIODIC) h1) h2 t2 Ht2 Hc2.
  rewrite (write_register_eq b) by done. eexists. split; [reflexivity|].
  destruct (write_380 count h2) as (t3 & Ht3 & Hc3). change (hw (set_hw h2 p)) with h2.
  by rewrite Hc3, Hc2, Hc1.
Qed.

Lemma init_timer_eq fuel p :
  mapped b p → (Z.to_nat window < fuel)%nat →
  ∃ d, 0 < d ∧ window - latency < d < window + 2 * latency ∧
    (d * 100 < 2 ^ 32 * count_period DIVIDE_BY_16 →
     let count := d / count_period DIVIDE_BY_16 / 10 in
     if decide (0 < count)
     then ∃ h, init_timer fuel p = Ret (tt, set_hw h p) ∧ gate (clocks_of h) = false ∧
       divide (clocks_of h) = DIVIDE_BY_16 ∧ lvt (clocks_of h) = Z.lor TIMER_VECTOR LVT_PERIODIC ∧
       initial (clocks_of h) = count
     else init_timer fuel p = Panic).
Proof using HT.
  intros Hm Hf. destruct periods_pos as [Hpp Hcp]. specialize (Hcp DIVIDE_BY_16).
  destruct (calibrate_sets_up fuel p Hm) as (h0 & Hset & E0).
  destruct (stopwatch_eq fuel (set_hw h0 p) Hm Hf Hset) as (d & h & H0 & Hd & Hg & E).
  exists d. split; [done|]. split; [done|]. intros Hsmall. cbn zeta in *.
  set (P := count_period DIVIDE_BY_16) in *. set (q := d / P) in *.
  assert (0 ≤ q ∧ q * 100 < 2 ^ 32) as [Hq0 Hq1].
  { split; [apply Z.div_pos; lia|]. apply (Z.mul_lt_mono_pos_r P); [done|].
    pose proof (Z.mul_div_le d P Hcp). lia. }
  rewrite Z.min_r in E by (unfold U32_MAX; lia).
  assert (wrap 32 (q * 1000 / CALIBRATION_MS) / TICK_HZ = q / 10) as Hcount.
  { unfold CALIBRATION_MS, TICK_HZ. replace (q * 1000) with (q * 100 * 10) by ring.
    rewrite Z.div_mul, wrap_id by (done || (unfold urange; lia)).
    replace 1000 with (10 * 100) by done. rewrite Z.div_mul_cancel_r; done. }
  unfold init_timer. erewrite prog_bind_Ret by (rewrite E0; exact E). cbn zeta. rewrite Hcount.
  destruct (decide _) as [Hpos|Hneg].
  - rewrite (proj2 (Z.ltb_lt _ _)) by done. erewrite lift_bind by reflexivity.
    destruct (program_timer (q / 10) (set_hw h p) Hm) as (h2 & E2 & Hg2 & Hrest).
    exists h2. split; [exact E2|]. by rewrite Hg2.
  - rewrite (proj2 (Z.ltb_ge _ _)) by lia. done.
Qed.

Lemma init_timer_runs fuel p :
  mapped b p → (Z.to_nat window < fuel)%nat → 10 * count_period DIVIDE_BY_16 + latency ≤ window →
  (window + 2 * latency) * 100 ≤ 2 ^ 32 * count_period DIVIDE_BY_16 →
  ∃ h, init_timer fuel p = Ret (tt, set_hw h p).
Proof using HT.
  intros Hm Hf H10 H32. destruct periods_pos as [_ Hcp]. specialize (Hcp DIVIDE_BY_16).
  destruct (init_timer_eq fuel p Hm Hf) as (d & H0 & Hd & E). specialize (E ltac:(lia)). cbn zeta in E.
  rewrite decide_True in E.
  - destruct E as (h & E & _). by exists h.
  - assert (10 ≤ d / count_period DIVIDE_BY_16) by (apply Z.div_le_lower_bound; lia).
    apply Z.div_str_pos. lia.
Qed.

(** C38.  The timer ticks at 1 kHz.  The reload count is measured against the PIT: where the
    measurement can be made (ten counts take no longer than the 10 ms window, and the
    frequency fits in 32 bits), [init_timer] ends with the timer in periodic mode on its
    vector, with the divisor it was calibrated with and the PIT's gate low again, and with
    a count of which a thousand periods make a second by the PIT's clock: too short by no
    more than a thousand counts, a hundred accesses and what the 10 ms are rounded by, too
    long by no more than two hundred accesses.  Where the timer is too slow for a count of
    one it panics instead.  Polling the PIT ends: a poll for each unit of the window is
    fuel enough. *)
Theorem init_timer_spec (fuel : nat) (p : platform H) (Hm : mapped b p) (Hf : (Z.to_nat window < fuel)%nat) :
  let P := count_period DIVIDE_BY_16 in
  (10 * P + latency ≤ window → (window + 2 * latency) * 100 ≤ 2 ^ 32 * P →
   ∃ h, init_timer fuel p = Ret (tt, set_hw h p) ∧ gate (clocks_of h) = false ∧
     divide (clocks_of h) = DIVIDE_BY_16 ∧ lvt (clocks_of h) = Z.lor TIMER_VECTOR LVT_PERIODIC ∧
     0 < initial (clocks_of h) ∧
     PIT_FREQ * pit_period - (82 * pit_period + 100 * latency + 1000 * P) ≤ 1000 * (initial (clocks_of h) * P)
       ≤ PIT_FREQ * pit_period + 200 * latency) ∧
  (window + 2 * latency ≤ 10 * P → init_timer fuel p = Panic).
Proof using HT.
  destruct periods_pos as [Hpp Hcp]. specialize (Hcp DIVIDE_BY_16). cbn zeta.
  destruct (init_timer_eq fuel p Hm Hf) as (d & H0 & Hd & E). cbn zeta in E.
  set (P := count_period DIVIDE_BY_16) in *. unfold window, STEPS, PIT_FREQ in *.
  pose proof (Z.div_mod d P ltac:(lia)). pose proof (Z.mod_pos_bound d P Hcp).
  pose proof (Z.div_mod (d / P) 10 ltac:(lia)). pose proof (Z.mod_pos_bound (d / P) 10 ltac:(lia)).
  split.
  - intros H10 H32. specialize (E ltac:(lia)). rewrite decide_True in E by nia.
    destruct E as (h & E & Hg & Hdiv & Hl & Hi). exists h. rewrite Hi. split_and!; try done; nia.
  - intros H10. rewrite decide_False in E by nia. apply E. lia.
Qed.
End Proofs.

(** ** A machine that is its clocks

    An access takes one unit, and so do a step of the PIT and a count. *)
Module ExampleClocks.
Definition tick (c : clocks) : clocks := at_time (time c + 1) c.
Definition port_read (port : Z) (c : clocks) : Z * clocks :=
  (if bool_decide (out (tick c) = Some true) then 0x20 else 0, tick c).
Definition port_write (port v : Z) (c : clocks) : clocks :=
  (if port =? 0x61 then write_gate 1 v else if port =? 0x43 then write_control v
   else if port =? 0x42 then write_count 1 v else id) (tick c).
Definition mmio_read (c : clocks) : Z * clocks := (current (λ _, 1) (tick c), tick c).
Definition mmio_write (b a v : Z) (c : clocks) : clocks :=
  (if a =? b + DIVIDE_CONFIG then write_divide v else if a =? b + LVT_TIMER then write_lvt v
   else if a =? b + INITIAL_COUNT then write_initial v else id) (tick c).

(** The registers at [b]. *)
Definition t (b : Z) : Type := clocks.
#[global] Instance mmio b : Mmio (t b) := {|
  Apic.mmio_read := λ a c, mmio_read c; Apic.mmio_write := mmio_write b |}.
#[global] Instance ports b : PortIo (t b) := {|
  Pci.port_read := λ w, port_read; Pci.port_write := λ w, port_write |}.

Lemma mmio_write_at b off f v (c : clocks) :
  f ∈ [(DIVIDE_CONFIG, write_divide); (LVT_TIMER, write_lvt); (INITIAL_COUNT, write_initial)] →
  f.1 = off → mmio_write b (b + off) v c = f.2 v (tick c).
Proof.
  intros Hf <-. unfold mmio_write. rewrite !elem_of_cons in Hf.
  destruct Hf as [->|[->|[->|[]%elem_of_nil]]]; cbn [fst snd];
    repeat first [rewrite Z.eqb_refl; done|rewrite (proj2 (Z.eqb_neq _ _)) by
      (unfold DIVIDE_CONFIG, LVT_TIMER, INITIAL_COUNT; lia)].
Qed.

Lemma out_bit (o : bool) (c : clocks) :
  out c = Some o → Z.testbit (if bool_decide (out c = Some true) then 0x20 else 0) 5 = o.
Proof. intros ->. by destruct o. Qed.

Lemma after_tick (f : clocks → clocks) c c' : c' = f (tick c) → after id 1 f c c'.
Proof. intros ->. exists (time c + 1). split; [cbn; lia|done]. Qed.

#[global] Instance timer_ok b : TimerHwOk (t b) b.
Proof.
  refine {| clocks_of := λ c : t b, c; pit_period := 1; count_period := λ _, 1; latency := 1 |}.
  - split; [|intros _]; lia.
  - intros c. split; [by apply after_tick|]. intros o. apply out_bit.
  - intros v c. by apply after_tick.
  - intros v c. by apply after_tick.
  - intros v c. by apply after_tick.
  - intros v c. apply after_tick. apply (mmio_write_at b _ (DIVIDE_CONFIG, write_divide)); [set_solver|done].
  - intros v c. apply after_tick. apply (mmio_write_at b _ (LVT_TIMER, write_lvt)); [set_solver|done].
  - intros v c. apply after_tick. apply (mmio_write_at b _ (INITIAL_COUNT, write_initial)); [set_solver|done].
  - intros c. split; [by apply after_tick|]. done.
Defined.

Definition c0 : clocks := Clocks 0 true PitUnknown 0 0 0 0.
Definition p0 : platform (t 0xFEE01000) := Platform c0 None None None (Some 0xFEE01000).
Lemma clocks_mapped : mapped 0xFEE01000 p0.
Proof. split; [done|]. lia. Qed.
End ExampleClocks.

(** A thousand periods, in steps of the PIT: a second has 1193182. *)
Lemma init_timer_spec_witness :
  ∃ h : clocks, init_timer (Z.to_nat 20000) ExampleClocks.p0 = Ret (tt, set_hw h ExampleClocks.p0) ∧
    lvt h = 0x20040 ∧ 1192000 ≤ 1000 * (initial h * 1) ≤ 1193382.
Proof.
  destruct (init_timer_spec 0xFEE01000 (Z.to_nat 20000) ExampleClocks.p0 ExampleClocks.clocks_mapped)
    as [Hs _]; [unfold window, STEPS; cbn; lia|].
  destruct Hs as (h & E & _ & _ & Hl & _ & H1 & H2);
    [unfold window, STEPS; cbn; lia|unfold window, STEPS; cbn; lia|].
  exists h. split; [exact E|]. split; [exact Hl|]. unfold PIT_FREQ in *. cbn in *. lia.
Defined.
