(* ===== verification/Acpi.v ===== *)
(** * The rest of the ACPI handler: [AcpiHandler] in [kernel/src/acpi_handling.rs]

    Its accesses to physical memory and to ports; those to configuration space are in
    [Pci.v].  Physical memory is mapped as a whole at [OFFSET]. *)

From S2P Require Import Prelude Pci Apic.
Local Open Scope Z_scope.

(** Volatile accesses of [w] bits at a virtual address. *)
Class Ram (H : Type) := {
  read_volatile : Z → Z → H → Z * H;
  write_volatile : Z → Z → Z → H → H;
}.

(** [PhysicalMapping] of the [acpi] crate. *)
Record PhysicalMapping := {
  physical_start : Z; virtual_start : Z; region_length : Z; mapped_length : Z }.

Module AcpiAccess.
Section Access.
Context {H : Type} `{HR : Ram H} `{HP : PortIo H}.
Abbreviation M := (prog (platform H)).

(** [get_offset() + address] *)
Definition virt (address : Z) : M Z := offset ← get_offset; lift (add_w 64 offset address).

Definition map_physical_region (physical_address size : Z) : M PhysicalMapping :=
  ptr ← virt physical_address;
  ptr ← lift (if ptr =? 0 then Panic else Ret ptr);
  mret {| physical_start := physical_address; virtual_start := ptr;
          region_length := size; mapped_length := size |}.
Definition unmap_physical_region (region : PhysicalMapping) : M unit := mret tt.

Definition read (w address : Z) : M Z := p ← virt address; ask_hw (read_volatile w p).
Definition read_u8 : Z → M Z := read 8.
Definition read_u16 : Z → M Z := read 16.
Definition read_u32 : Z → M Z := read 32.
Definition read_u64 : Z → M Z := read 64.

Definition write (w address value : Z) : M unit := p ← virt address; do_hw (write_volatile w p value).
Definition write_u8 : Z → Z → M unit := write 8.
Definition write_u16 : Z → Z → M unit := write 16.
Definition write_u32 : Z → Z → M unit := write 32.
Definition write_u64 : Z → Z → M unit := write 64.

Definition read_io_u8 (port : Z) : M Z := ask_hw (port_read 8 port).
Definition read_io_u16 (port : Z) : M Z := ask_hw (port_read 16 port).
Definition read_io_u32 (port : Z) : M Z := ask_hw (port_read 32 port).
Definition write_io_u8 (port value : Z) : M unit := do_hw (port_write 8 port value).
Definition write_io_u16 (port value : Z) : M unit := do_hw (port_write 16 port value).
Definition write_io_u32 (port value : Z) : M unit := do_hw (port_write 32 port value).

(** [unimplemented!] *)
Definition nanos_since_boot : M Z := lift Panic.
Definition stall (microseconds : Z) : M unit := lift Panic.
Definition sleep (milliseconds : Z) : M unit := lift Panic.
Definition create_mutex : M unit := lift Panic.
Definition acquire (timeout : Z) : M unit := lift Panic.
Definition release : M unit := lift Panic.
End Access.
End AcpiAccess.
Import AcpiAccess.

(** ** Plain memory *)

(** Little-endian bytes; an access touches those it covers. *)
Class RamOk (H : Type) `{Ram H} := {
  byte_at : H → Z → Z;
  read_ok : ∀ n a h, read_volatile (8 * Z.of_nat n) a h =
    (from_le_bytes (map (byte_at h) (seqZ a (Z.of_nat n))), h);
  write_in : ∀ n a v h i, (i < n)%nat →
    byte_at (write_volatile (8 * Z.of_nat n) a v h) (a + Z.of_nat i) = default 0 (to_le_bytes n v !! i);
  write_out : ∀ n a v h x, x < a ∨ a + Z.of_nat n ≤ x →
    byte_at (write_volatile (8 * Z.of_nat n) a v h) x = byte_at h x;
}.

Section Proofs.
Context {H : Type} `{HR : Ram H} `{HRok : !RamOk H}.
Implicit Types p : platform H.

Lemma virt_eq o a p : Apic.OFFSET p = Some o → urange 64 (o + a) → virt a p = Ret (o + a, p).
Proof.
  intros Ho Ha. unfold virt, get_offset. erewrite prog_bind_Ret by (cbn; rewrite Ho; done).
  unfold lift, add_w. by rewrite checked_ok.
Qed.

Lemma virt_panics o a p : Apic.OFFSET p = Some o → 2 ^ 64 ≤ o + a → virt a p = Panic.
Proof.
  intros Ho Ha. unfold virt, get_offset. erewrite prog_bind_Ret by (cbn; rewrite Ho; done).
  unfold lift, add_w, checked. by rewrite (proj2 (Z.ltb_ge _ _)), andb_false_r by done.
Qed.

Lemma written_bytes n a v h :
  map (byte_at (write_volatile (8 * Z.of_nat n) a v h)) (seqZ a (Z.of_nat n)) = to_le_bytes n v.
Proof using HRok.
  apply list_eq. intros i. rewrite list_lookup_fmap.
  destruct (decide (i < n)%nat) as [Hi|Hi].
  - rewrite (lookup_seqZ_lt a (Z.of_nat n) i) by lia. cbn. rewrite write_in by done.
    destruct (lookup_lt_is_Some_2 (to_le_bytes n v) i) as [b Hb]; [by rewrite length_to_le|].
    by rewrite Hb.
  - rewrite lookup_seqZ_ge by lia. symmetry. apply lookup_ge_None_2. rewrite length_to_le. lia.
Qed.

(** The handler's memory is the physical memory.  An access of one, two, four or eight bytes
    goes to the address plus the offset, which is where a mapping of it starts: what is
    written is what is read back and nothing else changes.  An address that overflows
    panics. *)
Theorem acpi_memory_spec (n : nat) (a v o size : Z) (p : platform H)
    (Ho : Apic.OFFSET p = Some o) (Hpos : 0 < o) (Ha : 0 ≤ a) (Hv : urange (8 * Z.of_nat n) v) :
  let w := 8 * Z.of_nat n in
  (urange 64 (o + a) →
     (∃ h, write w a v p = Ret (tt, set_hw h p) ∧ read w a (set_hw h p) = Ret (v, set_hw h p) ∧
       ∀ x, x < o + a ∨ o + a + Z.of_nat n ≤ x → byte_at h x = byte_at (hw p) x) ∧
     map_physical_region a size p = Ret ({| physical_start := a; virtual_start := o + a;
       region_length := size; mapped_length := size |}, p)) ∧
  (2 ^ 64 ≤ o + a → read w a p = Panic ∧ write w a v p = Panic ∧ map_physical_region a size p = Panic).
Proof.
  split.
  - intros Hr. split.
    + exists (write_volatile (8 * Z.of_nat n) (o + a) v (hw p)). split_and!.
      * unfold write. by erewrite prog_bind_Ret by (by apply virt_eq).
      * unfold read. erewrite prog_bind_Ret by (by apply (virt_eq o)). rewrite ask_hw_eq. cbn.
        rewrite read_ok, written_bytes. by rewrite from_to_le.
      * intros x Hx. by apply write_out.
    + unfold map_physical_region. erewrite prog_bind_Ret by (by apply virt_eq).
      erewrite lift_bind by (rewrite (proj2 (Z.eqb_neq _ _)) by lia; done). done.
  - intros Hr. unfold read, write, map_physical_region, mbind, prog_bind.
    by rewrite (virt_panics o).
Qed.
End Proofs.

(** ** Memory as a function *)

Module ExampleRam.
#[global] Instance ram : Ram (Z → Z) := {|
  read_volatile := λ w a h, (from_le_bytes (map h (seqZ a (w / 8))), h);
  write_volatile := λ w a v h x,
    if (a <=? x) && (x <? a + w / 8)
    then default 0 (to_le_bytes (Z.to_nat (w / 8)) v !! Z.to_nat (x - a)) else h x |}.
Lemma width n : 8 * Z.of_nat n / 8 = Z.of_nat n.
Proof. rewrite Z.mul_comm. by apply Z.div_mul. Qed.
#[global] Instance ram_ok : RamOk (Z → Z).
Proof.
  refine {| byte_at := λ h, h |}.
  - intros n a h. cbn [read_volatile ram]. by rewrite width.
  - intros n a v h i Hi. cbn [write_volatile ram]. rewrite width, Nat2Z.id.
    rewrite (proj2 (Z.leb_le _ _)), (proj2 (Z.ltb_lt _ _)) by lia. cbn [andb].
    by replace (Z.to_nat (a + Z.of_nat i - a)) with i by lia.
  - intros n a v h x Hx. cbn [write_volatile ram]. rewrite width.
    destruct (Z.leb_spec a x), (Z.ltb_spec x (a + Z.of_nat n)); try done. lia.
Defined.
Definition p0 : platform (Z → Z) := Platform (λ _, 0) None None (Some 0x1000) None.
End ExampleRam.

Lemma acpi_memory_spec_witness :
  ∃ h, write_u16 0x40E 0x9FC0 ExampleRam.p0 = Ret (tt, set_hw h ExampleRam.p0) ∧
    read_u16 0x40E (set_hw h ExampleRam.p0) = Ret (0x9FC0, set_hw h ExampleRam.p0).
Proof.
  destruct (acpi_memory_spec 2 0x40E 0x9FC0 0x1000 0 ExampleRam.p0) as [[(h & Hw & Hr & _) _] _];
    [reflexivity|lia|lia|unfold urange; lia|unfold urange; lia|].
  exists h. split; [exact Hw|exact Hr].
Defined.
