(* ===== verification/Device.v ===== *)
(** * The network card's bring-up, and the interrupt vectors:
      [kernel/src/network/device.rs] and [kernel/src/interrupts.rs] *)

From S2P Require Import Prelude Utils Pci Probe Apic.
Local Open Scope Z_scope.

Definition COM1_VECTOR : Z := 36.
Definition VIRTIO_NET_VECTOR : Z := 0x60.

(** Ports of a machine whose interrupt tables are kept beside it. *)
#[export] Instance platform_ports {H} `{PortIo H} : PortIo (platform H) := {|
  port_read := λ w a p, let '(v, h) := port_read w a (hw p) in (v, set_hw h p);
  port_write := λ w a v p, set_hw (port_write w a v (hw p)) p |}.

Section Device.
Context {H V : Type} `{HP : PortIo H} `{HV : VirtioPci} `{HI : IoApicHw H}.
Context `{HD : !VirtioDriver (platform H) V}.
Abbreviation M := (prog (Probe.t (platform H) V)).

(** Runs an operation of [apic.rs] on the machine of the scan. *)
Definition on_platform {A} (m : prog (platform H) A) : M A := λ s,
  '(a, p) ← m (machine s); Ret (a, set_machine p s).

Definition get_net_driver (s : Probe.t (platform H) V) : outcome V := expect (slot s).

(** The scan's step for the network card. *)
Definition init_net_from_df (df : DeviceFunction) : M (result unit DeviceErr) := init_from_df df.

(** After a success: the line register gives the global interrupt, which is routed.
    (The pin is only printed.) *)
Definition net_ready (df : DeviceFunction) : M unit :=
  pci_reg ← on_platform (λ p, Ret (pci_read_u32 (bus df) (device df) (function df) 0x3C p));
  let gsi := wrap 8 (Z.land pci_reg 0xff) in
  on_platform (route_pci_interrupt gsi VIRTIO_NET_VECTOR).

Definition init_virtio_net_pci : M bool := init_pci Network net_ready.
End Device.

#[export] Instance platform_host {H} `{PciHost H} : PciHost (platform H).
Proof.
  refine {| config := λ p a, config (hw p) a |}.
  - intros p a. apply config_byte.
  - intros n i a p Hi Hn Hin. cbn.
    destruct (host_read n i a (hw p) Hi Hn Hin) as (h' & E & Hs). cbn in E.
    exists (set_hw h' p). split; [|done]. cbn. by rewrite E.
Defined.

Section Spec.
Context {H V : Type} `{HP : PortIo H} `{HH : !PciHost H} `{HV : VirtioPci} `{HI : IoApicHw H}.
Context (ready up : platform H → Prop).
Context `{HD : !VirtioDriver (platform H) V} `{HDok : !VirtioDriverOk (platform H) V ready up}.
Abbreviation state := (Probe.t (platform H) V).

(** The interrupt line register of a function: byte 0x3C of its space. *)
Definition interrupt_line (df : DeviceFunction) (p : platform H) : Z := space df p 0x3C.

Lemma net_ready_eq df (s : state) :
  df_ok df → up (machine s) →
  ∃ p, same_config (machine s) p ∧ up p ∧ transports p = transports (machine s) ∧
    net_ready df s =
    on_platform (route_pci_interrupt (interrupt_line df (machine s)) VIRTIO_NET_VECTOR) (set_machine p s).
Proof using HDok.
  intros Hdf Hup. unfold net_ready.
  destruct (pci_read_eq df 0x3C (machine s) Hdf) as (p & E & Hs); [unfold urange; lia|done|].
  pose proof (pci_read_keeps up (bus df) (device df) (function df) 0x3C _ Hup) as Hup'.
  pose proof (pci_read_keeps (λ p, transports p = transports (machine s)) (bus df) (device df) (function df)
    0x3C (machine s) eq_refl) as Ht. rewrite E in Hup', Ht.
  exists p. split_and!; [done..|]. erewrite prog_bind_Ret by (unfold on_platform; rewrite E; reflexivity).
  destruct (register_fields _ _ _ _ (space_bytes df (machine s) 0x3C)) as (_ & _ & R & _).
  unfold wrap in R. cbn zeta. change 0xff with (2 ^ 8 - 1). rewrite land_ones_mod by done.
  unfold wrap. rewrite Zmod_mod. fold (register df (machine s) 0x3C) in R. by rewrite R.
Qed.

(** C26.  Bringing up the network card disturbs no other device, and routes its interrupt.
    The functions a transport is built for, each of which it resets, are network cards, in
    the order of the scan.  When one comes up the scan stops, and what remains is to route
    the line its configuration space names to the card's vector; otherwise every card was
    tried and failed, and none is installed. *)
Theorem init_virtio_net_spec (s : state) (Hs : slot s = None) (Hr : ready (machine s)) :
  ∃ lines s', log s' = log s ++ lines ∧ Forall failed lines ∧
    same_headers (machine s) (machine s') ∧
    ((init_virtio_net_pci s = Ret (false, s') ∧ slot s' = None ∧
      transports (machine s') = transports (machine s) ++ map line_df lines ∧
      map line_df lines = filter (is_a Network (machine s)) pci_functions) ∨
     (∃ df rest p, same_config (machine s') p ∧ is_Some (slot s') ∧
      transports p = transports (machine s) ++ map line_df lines ++ [df] ∧
      map line_df lines ++ df :: rest = filter (is_a Network (machine s)) pci_functions ∧
      init_virtio_net_pci s =
      (on_platform (route_pci_interrupt (interrupt_line df (machine s')) VIRTIO_NET_VECTOR);; mret true)
        (set_machine p (print (Initialized df) s')))).
Proof using HDok.
  unfold init_virtio_net_pci, init_pci. rewrite Hs.
  destruct (probe_spec ready up Network net_ready pci_functions s Hs Hr df_ok_functions)
    as (lines & s' & Hl & Hf & Hh & [(-> & Hn & _ & Ht & Hm)|(df & rest & -> & Hn & Hu & Ht & Hm)]).
  - exists lines, s'. split_and!; try done. by left.
  - assert (df_ok df) as Hdf.
    { apply elem_of_pci_functions. apply (list_elem_of_filter (is_a Network (machine s))).
      rewrite <- Hm. set_solver. }
    destruct (net_ready_eq df (print (Initialized df) s') Hdf Hu) as (p & Hp & _ & Htp & E).
    exists lines, s'. split_and!; try done. right. exists df, rest, p.
    split_and!; try done; [by rewrite Htp|]. unfold mbind, prog_bind. rewrite E. done.
Qed.
End Spec.

(** ** A machine with a network card at 00:03.0, on interrupt 11 *)

Module ExampleDevice.
Import ExampleBridge.
(** The I/O APIC's enabled entries go to the latch of the bridge. *)
#[global] Instance ioapic : IoApicHw t := {|
  RedirectionTableEntry := unit; rte_default := tt;
  set_vector := λ v r, r; set_dest := λ d r, r; set_level_low := λ r, r;
  ioapic_init := λ a o h, h; set_table_entry := λ a i r h, h;
  enable_irq := λ a i h, Machine (a + i, (bridge h).2) (built h) |}.
#[global] Instance driver : VirtioDriver (platform t) unit := {|
  Transport := unit; VirtioPciError := unit; DriverError := unit;
  transport_new := λ df p, Ret (Ok tt, set_hw (Machine (bridge (hw p)) (built (hw p) ++ [df])) p);
  driver_new := λ t p, Ret (Ok tt, p); enable_interrupts := λ v p, (v, p) |}.
#[global] Instance driver_ok : VirtioDriverOk (platform t) unit (λ _, True) (λ _, True).
Proof.
  refine {| transports := λ p : platform t, built (hw p) |}.
  - intros df p _. by eexists _, _.
  - intros [] p _. by eexists _, _.
  - done.
  - exact always_ports.
  - exact always_ports.
  - intros l. split; [done|]. intros p <-. unfold port_read. cbn. by destruct (ExampleHost.ports).
Defined.
Definition bytes_of_card : list Z :=
  <[2%nat := 0x41]> ExampleHost.header ++ replicate 44 0 ++ [11; 1; 0; 0].
Definition h0 : ExampleHost.t := (0, λ a, default 0xff (get bytes_of_card (a - ExampleHost.base))).
Definition s0 : Probe.t (platform t) unit :=
  State (Platform (Machine h0 []) (Some [{| io_apic_id := 0; phys_addr := 0xFEC00000; gsi_base := 0 |}])
           (Some []) (Some 0) None) None [].

(** Of what the bring-up leaves, what can be compared. *)
Definition seen (r : outcome (bool * Probe.t (platform t) unit)) : option (bool * list attempt_line * list DeviceFunction * Z) :=
  match r with
  | Ret (b, s) => Some (b, log s, built (hw (machine s)), (bridge (hw (machine s))).1)
  | _ => None
  end.
Lemma seen_eq : seen (init_virtio_net_pci s0) = Some (true, [Initialized ExampleHost.df], [ExampleHost.df], 0xFEC0000B).
Proof. vm_compute. reflexivity. Qed.

(** Routing prints nothing. *)
Lemma seen_log (m : prog (platform t) unit) s r :
  seen ((on_platform m;; mret true) s) = Some r → r.1.1.2 = log s.
Proof.
  unfold mbind, prog_bind, on_platform. destruct (m (machine s)) as [[[] p]| |]; [|done..]. by intros [= <-].
Qed.
End ExampleDevice.

(** The card is found, no transport is built for anything else, and entry 11 is enabled. *)
Lemma init_virtio_net_spec_witness :
  ∃ s' p, init_virtio_net_pci ExampleDevice.s0 =
    (on_platform (route_pci_interrupt (interrupt_line ExampleHost.df (machine s')) VIRTIO_NET_VECTOR);; mret true)
      (set_machine p (print (Initialized ExampleHost.df) s')) ∧
    ExampleBridge.built (hw p) = [ExampleHost.df] ∧
    ExampleDevice.seen (init_virtio_net_pci ExampleDevice.s0) =
      Some (true, [Initialized ExampleHost.df], [ExampleHost.df], 0xFEC0000B).
Proof.
  destruct (init_virtio_net_spec (λ _, True) (λ _, True) ExampleDevice.s0 eq_refl I)
    as (lines & s' & Hl & _ & _ & [(E & _)|(df & rest & p & _ & _ & Ht & _ & E)]).
  - pose proof ExampleDevice.seen_eq as Hr. rewrite E in Hr. discriminate Hr.
  - pose proof ExampleDevice.seen_eq as Hr. rewrite E in Hr. apply ExampleDevice.seen_log in Hr.
    cbn [log print set_machine fst snd] in Hr. rewrite Hl in Hr. destruct lines as [|l lines].
    2:{ apply (f_equal length) in Hr. rewrite !length_app in Hr. cbn in Hr. lia. }
    injection Hr as <-. exists s', p. split; [exact E|]. split; [exact Ht|exact ExampleDevice.seen_eq].
Defined.
