(* ===== verification/Hal.v ===== *)
(** * Memory for devices and for the heap: [kernel/src/virtio.rs],
      [kernel/src/allocation/allocator.rs] and [kernel/src/memory.rs]'s offset

    The physical memory is mapped at [OFFSET]; the bytes are a function of the virtual
    address.  The drivers of the [virtio_drivers] crate are handed these operations as
    their [Hal]: a driver is a program over them. *)

From S2P Require Import Prelude Ppa.
Import PhysicalPageAllocator.
Local Open Scope Z_scope.

(** The statics [PMM], [OFFSET] and [ALLOCATOR] (where the heap was put), and memory. *)
Record memory := Memory {
  PMM : option PhysicalPageAllocator.t;
  OFFSET : option Z;
  HEAP : option (Z * Z);
  mem : Z → Z;
}.

(** [ptr.write_bytes(0, n)] *)
Definition write_zeros (ptr n : Z) (m : Z → Z) : Z → Z := λ a,
  if (ptr <=? a) && (a <? ptr + n) then 0 else m a.

(** [NonNull::new(ptr).unwrap()] *)
Definition non_null (ptr : Z) : outcome Z := if ptr =? 0 then Panic else Ret ptr.

Section Hal.
(** [PhysAddr::new] and [VirtAddr::new] of the [x86_64] crate, and
    [OffsetPageTable::translate_addr] on the mapper, when it was made. *)
Context (PhysAddr_new VirtAddr_new : Z → outcome Z) (MAPPER : option (Z → option Z)).

Definition dma_alloc (pages : Z) (s : memory) : outcome (Z * Z * memory) :=
  allocator ← expect (PMM s);
  '(r, allocator) ← alloc_contiguous_pages PhysAddr_new allocator pages;
  addr ← expect r;
  offset ← expect (OFFSET s);
  ptr ← add_w 64 offset addr;
  n ← mul_w 64 pages PAGE_SIZE;
  vaddr ← non_null ptr;
  Ret (addr, vaddr, Memory (Some allocator) (OFFSET s) (HEAP s) (write_zeros ptr n (mem s))).

Definition dma_dealloc (paddr pages : Z) (s : memory) : outcome (Z * memory) :=
  allocator ← expect (PMM s);
  allocator ← dealloc_contiguous_pages allocator paddr pages;
  Ret (0, Memory (Some allocator) (OFFSET s) (HEAP s) (mem s)).

Definition mmio_phys_to_virt (paddr : Z) (s : memory) : outcome Z :=
  offset ← expect (OFFSET s);
  ptr ← add_w 64 offset paddr;
  non_null ptr.

Definition share (buffer : Z) : outcome Z :=
  virt ← VirtAddr_new buffer;
  translate ← expect MAPPER;
  expect (translate virt).

Definition HEAP_PAGES : Z := 4096.

Definition init_heap (s : memory) : outcome memory :=
  allocator ← expect (PMM s);
  '(r, allocator) ← alloc_contiguous_pages PhysAddr_new allocator HEAP_PAGES;
  addr ← expect r;
  offset ← expect (OFFSET s);
  vaddr ← add_w 64 offset addr;
  Ret (Memory (Some allocator) (OFFSET s) (Some (vaddr, HEAP_PAGES * PAGE_SIZE)) (mem s)).
End Hal.

(** ** Drivers over the [Hal]

    What a function of a driver does with the memory of the kernel: the calls it makes,
    each continued with what the call returned. *)
Inductive hal (A : Type) :=
| Return (a : A)
| DmaAlloc (pages : Z) (k : Z → Z → hal A)
| DmaDealloc (paddr pages : Z) (k : hal A)
| MmioPhysToVirt (paddr : Z) (k : Z → hal A)
| Share (buffer : Z) (k : Z → hal A).
Arguments Return {A}.
Arguments DmaAlloc {A}.
Arguments DmaDealloc {A}.
Arguments MmioPhysToVirt {A}.
Arguments Share {A}.

Section Run.
Context (PhysAddr_new VirtAddr_new : Z → outcome Z) (MAPPER : option (Z → option Z)).

Fixpoint run_hal {A} (p : hal A) (s : memory) : outcome (A * memory) :=
  match p with
  | Return a => Ret (a, s)
  | DmaAlloc pages k => '(paddr, vaddr, s) ← dma_alloc PhysAddr_new pages s; run_hal (k paddr vaddr) s
  | DmaDealloc paddr pages k => '(_, s) ← dma_dealloc paddr pages s; run_hal k s
  | MmioPhysToVirt paddr k => vaddr ← mmio_phys_to_virt paddr s; run_hal (k vaddr) s
  | Share buffer k => paddr ← share VirtAddr_new MAPPER buffer; run_hal (k paddr) s
  end.
End Run.

(** ** What they give *)

Section Proofs.
Context (PhysAddr_new : Z → outcome Z).
Context (PhysAddr_new_ok : ∀ a, urange 52 a → PhysAddr_new a = Ret a).

(** The frames fit above the offset. *)
Definition offset_ok (o : Z) (a : PhysicalPageAllocator.t) : Prop :=
  0 < o ∧ o + (num_frames a - 1) * 4096 < 2 ^ 64.

Lemma updates_memory_ok first last used a a' :
  updates first last used a a' → memory_ok a → memory_ok a'.
Proof. intros U [Hp Hn]. split; [by eapply updates_ok|]. by destruct U as (-> & _). Qed.

(** A successful allocation of [count] frames at [s], as all three users of the allocator
    see it. *)
Lemma alloc_at a count :
  memory_ok a → 0 ≤ count < 2 ^ 64 →
  (∃ s a', alloc_contiguous_pages PhysAddr_new a count = Ret (Some (s * 4096), a') ∧
     0 < count ∧ first_fit a count (Some s) ∧ updates s (s + count) true a a' ∧ memory_ok a' ∧
     0 ≤ s ∧ s + count ≤ num_frames a ∧ num_frames a ≤ 2 ^ 40) ∨
  (alloc_contiguous_pages PhysAddr_new a count = Ret (None, a) ∧
     (count = 0 ∨ first_fit a count None)).
Proof using PhysAddr_new_ok.
  intros Ha Hc. destruct (alloc_facts PhysAddr_new PhysAddr_new_ok a count Ha Hc) as (r & a' & E & Ho).
  destruct r as [addr|]; cbn in Ho.
  - left. destruct Ho as (s & -> & Hpos & Hfit & U). exists s, a'.
    pose proof Hfit as [(H0 & Hle & _) _]. destruct (Ha) as [_ Hn].
    split_and!; try done. by eapply updates_memory_ok.
  - right. destruct Ho as [-> Hr]. done.
Qed.

Lemma dma_alloc_eq pages a o h m :
  memory_ok a → offset_ok o a → 0 ≤ pages < 2 ^ 64 →
  (∃ s a', dma_alloc PhysAddr_new pages (Memory (Some a) (Some o) h m) =
     Ret (s * 4096, o + s * 4096,
          Memory (Some a') (Some o) h (write_zeros (o + s * 4096) (pages * 4096) m)) ∧
     alloc_contiguous_pages PhysAddr_new a pages = Ret (Some (s * 4096), a') ∧
     0 < pages ∧ first_fit a pages (Some s) ∧ updates s (s + pages) true a a' ∧ memory_ok a') ∨
  (dma_alloc PhysAddr_new pages (Memory (Some a) (Some o) h m) = Panic ∧
     (pages = 0 ∨ first_fit a pages None)).
Proof using PhysAddr_new_ok.
  intros Ha [Ho0 Ho1] Hp. unfold dma_alloc. cbn [PMM OFFSET HEAP mem expect]. rewrite bind_Ret.
  destruct (alloc_at a pages Ha Hp) as [(s & a' & E & Hpos & Hfit & U & Hok & H0 & Hle & H40)|[E Hr]];
    rewrite E, bind_Ret; cbn [expect]; [|right; done].
  left. exists s, a'. rewrite !bind_Ret. unfold add_w, mul_w, PAGE_SIZE.
  rewrite (checked_ok 64 (o + s * 4096)), bind_Ret by (unfold urange; lia).
  rewrite (checked_ok 64 (pages * 4096)), bind_Ret by (unfold urange; lia).
  unfold non_null. rewrite (proj2 (Z.eqb_neq _ _)) by lia. done.
Qed.

Lemma init_heap_eq a o h m :
  memory_ok a → offset_ok o a →
  (∃ s a', init_heap PhysAddr_new (Memory (Some a) (Some o) h m) =
     Ret (Memory (Some a') (Some o) (Some (o + s * 4096, 16777216)) m) ∧
     alloc_contiguous_pages PhysAddr_new a HEAP_PAGES = Ret (Some (s * 4096), a') ∧
     first_fit a HEAP_PAGES (Some s) ∧ updates s (s + HEAP_PAGES) true a a' ∧ memory_ok a') ∨
  (init_heap PhysAddr_new (Memory (Some a) (Some o) h m) = Panic ∧ first_fit a HEAP_PAGES None).
Proof using PhysAddr_new_ok.
  intros Ha [Ho0 Ho1]. unfold init_heap. cbn [PMM OFFSET HEAP mem expect]. rewrite bind_Ret.
  destruct (alloc_at a HEAP_PAGES Ha) as [(s & a' & E & Hpos & Hfit & U & Hok & H0 & Hle & H40)|[E Hr]];
    [unfold HEAP_PAGES; lia|..]; rewrite E, bind_Ret; cbn [expect].
  - left. exists s, a'. rewrite !bind_Ret. unfold add_w.
    by rewrite (checked_ok 64 (o + s * 4096)), bind_Ret by (unfold urange, HEAP_PAGES in *; lia).
  - right. split; [done|]. destruct Hr as [[=]|]; done.
Qed.

(** *** A driver that stays within its means *)

(** The registers of a device are below 64 TiB. *)
Definition MMIO_LIMIT : Z := 2 ^ 46.

(** Whatever addresses the calls return, the driver asks for [budget] pages at the most,
    gives back only what it holds ([live]), looks for registers where there can be some,
    and shares only buffers of the kernel; when it returns, [done] holds of its result and
    of what it still holds. *)
Fixpoint hal_ok {A} (buffer : Z → Prop) (done : A → list (Z * Z) → Prop) (budget : Z)
    (live : list (Z * Z)) (p : hal A) : Prop :=
  match p with
  | Return a => done a live
  | DmaAlloc pages k => 0 < pages ≤ budget ∧
      ∀ paddr vaddr, hal_ok buffer done (budget - pages) ((paddr, pages) :: live) (k paddr vaddr)
  | DmaDealloc paddr pages k =>
      ∃ l1 l2, live = l1 ++ (paddr, pages) :: l2 ∧ hal_ok buffer done budget (l1 ++ l2) k
  | MmioPhysToVirt paddr k => 0 ≤ paddr < MMIO_LIMIT ∧ ∀ vaddr, hal_ok buffer done budget live (k vaddr)
  | Share b k => buffer b ∧ ∀ paddr, hal_ok buffer done budget live (k paddr)
  end.

(** The lowest fit leaves the rest of any run that was long enough. *)
Lemma fits_alloc a a' pages n s s1 :
  fits a (pages + n) s → 0 < pages → 0 ≤ n → first_fit a pages (Some s1) →
  updates s1 (s1 + pages) true a a' → fits a' n (s + pages).
Proof.
  intros (H0 & Hle & Hfree) Hp Hn [_ Hmin] (Hnf & _ & _ & Hu).
  assert (s1 ≤ s).
  { destruct (decide (s1 ≤ s)); [done|]. destruct (Hmin s); [lia|]. split_and!; [done|lia|].
    intros j Hj. apply Hfree. lia. }
  split_and!; [lia|lia|]. intros j Hj. rewrite Hu by lia. rewrite decide_False by lia. apply Hfree. lia.
Qed.

Lemma fits_dealloc a a' n s s1 last :
  fits a n s → updates s1 last false a a' → fits a' n s.
Proof.
  intros (H0 & Hle & Hfree) (Hnf & _ & _ & Hu). split_and!; [done|lia|]. intros j Hj.
  rewrite Hu by lia. case_decide; [done|by apply Hfree].
Qed.

Lemma fits_less a n m s : fits a n s → 0 ≤ m ≤ n → fits a m s.
Proof. intros (H0 & Hle & Hfree) Hm. split_and!; [done|lia|]. intros j Hj. apply Hfree. lia. Qed.

Section Drivers.
Context (VirtAddr_new : Z → outcome Z) (MAPPER : option (Z → option Z)) (buffer : Z → Prop).
Context (share_ok : ∀ b, buffer b → ∃ paddr, share VirtAddr_new MAPPER b = Ret paddr).

(** Such a driver runs to its end where [budget] pages fit in one piece; what fits beside
    them still does afterwards. *)
Lemma run_hal_ok {A} (done : A → list (Z * Z) → Prop) (p : hal A) budget extra live a0 a o hp m s :
  memory_ok a0 → history PhysAddr_new a0 a live → offset_ok o a0 → o + MMIO_LIMIT ≤ 2 ^ 64 →
  0 ≤ budget → 0 ≤ extra → fits a (budget + extra) s → hal_ok buffer done budget live p →
  ∃ r a' live' m' s', run_hal PhysAddr_new VirtAddr_new MAPPER p (Memory (Some a) (Some o) hp m) =
      Ret (r, Memory (Some a') (Some o) hp m') ∧
    done r live' ∧ history PhysAddr_new a0 a' live' ∧ fits a' extra s'.
Proof using PhysAddr_new_ok share_ok.
  intros H0 Hh Ho Hmm. revert budget live a m s Hh.
  induction p as [r|pages k IH|paddr pages k IH|paddr k IH|b k IH];
    intros budget live a m s Hh Hb Hx Hfit Hp; cbn [run_hal hal_ok] in *.
  - exists r, a, live, m, s. split_and!; try done. eapply fits_less; [done|lia].
  - destruct Hp as [[Hp0 Hpb] Hk]. destruct (history_holds PhysAddr_new PhysAddr_new_ok a0 a live H0 Hh) as (Ha & Hn & _).
    destruct (dma_alloc_eq pages a o hp m Ha) as [(s1 & a' & E & Ea & _ & Hff & U & Ha')|[_ Hr]].
    + unfold offset_ok. by rewrite Hn.
    + destruct Hfit as (? & ? & _). destruct Ha as [_ ?]. lia.
    + rewrite E, bind_Ret. apply (IH _ _ (budget - pages) ((s1 * 4096, pages) :: live) _ _ (s + pages)); [|lia|done| |apply Hk].
      * eapply HAlloc; [done| |exact Ea]. destruct Hfit as (? & ? & _). destruct Ha as [_ ?]. lia.
      * eapply fits_alloc; [|done|lia|done|done]. eapply fits_less; [done|lia].
    + destruct Hr as [->|Hr]; [lia|]. destruct (Hr s). eapply fits_less; [done|lia].
  - destruct Hp as (l1 & l2 & -> & Hk).
    destruct (history_holds PhysAddr_new PhysAddr_new_ok a0 a _ H0 Hh) as (Ha & Hn & _ & _ & Hl).
    apply Forall_app in Hl as [_ [(s1 & Hs1 & Hs0 & Hpos & Hle) _]%Forall_cons]. cbn [fst snd] in *. subst paddr.
    destruct (dealloc_facts a s1 pages) as (a' & E & U); [apply Ha|lia..|].
    assert (dma_dealloc (s1 * 4096) pages (Memory (Some a) (Some o) hp m) =
      Ret (0, Memory (Some a') (Some o) hp m)) as -> by (unfold dma_dealloc; cbn; by rewrite E).
    rewrite bind_Ret. apply (IH budget (l1 ++ l2) a' m s); [by eapply HFree|done|done|by eapply fits_dealloc|done].
  - destruct Hp as [Hp Hk]. destruct (Ho) as [Ho0 _].
    assert (mmio_phys_to_virt paddr (Memory (Some a) (Some o) hp m) = Ret (o + paddr)) as ->.
    { unfold mmio_phys_to_virt, add_w. cbn [OFFSET expect]. rewrite bind_Ret, checked_ok, bind_Ret by (unfold urange; lia).
      unfold non_null. by rewrite (proj2 (Z.eqb_neq _ _)) by lia. }
    rewrite bind_Ret. apply (IH _ budget live a m s); [done..|apply Hk].
  - destruct Hp as [Hp Hk]. destruct (share_ok b Hp) as [paddr ->]. rewrite bind_Ret. apply (IH _ budget live a m s); [done..|apply Hk].
Qed.
End Drivers.

(** Frames that fit are disjoint from frames in use. *)
Lemma fit_disjoint a s1 n1 s2 n2 :
  0 ≤ s1 → (∀ j, s1 ≤ j < s1 + n1 → is_used a j = true) → first_fit a n2 (Some s2) →
  0 < n1 → 0 < n2 → s1 + n1 ≤ s2 ∨ s2 + n2 ≤ s1.
Proof.
  intros H1 Hu [(H2 & _ & Hf) _] Hn1 Hn2.
  destruct (decide (s1 + n1 ≤ s2)) as [|Ha]; [by left|].
  destruct (decide (s2 + n2 ≤ s1)) as [|Hb]; [by right|]. exfalso.
  specialize (Hu (Z.max s1 s2)). specialize (Hf (Z.max s1 s2)).
  rewrite Hu in Hf by lia. discriminate Hf. lia.
Qed.

(** C27.  Memory for a device is its own, contiguous and zeroed.  [dma_alloc] panics exactly
    when no page is asked for or no run of free frames is long enough.  Otherwise it returns
    the physical and the mapped virtual address of the lowest such run; those frames are in
    use afterwards, their bytes are zero, and no other byte changes.  Giving the run back
    restores the allocator. *)
Theorem dma_alloc_spec (pages o : Z) (a : PhysicalPageAllocator.t) (h : option (Z * Z)) (m : Z → Z)
    (Ha : memory_ok a) (Ho : offset_ok o a) (Hp : 0 ≤ pages < 2 ^ 64) :
  (dma_alloc PhysAddr_new pages (Memory (Some a) (Some o) h m) = Panic ↔
     pages = 0 ∨ first_fit a pages None) ∧
  (0 < pages → ¬ first_fit a pages None →
   ∃ s a' m', dma_alloc PhysAddr_new pages (Memory (Some a) (Some o) h m) =
     Ret (s * 4096, o + s * 4096, Memory (Some a') (Some o) h m') ∧
     first_fit a pages (Some s) ∧ (∀ j, s ≤ j < s + pages → is_used a' j = true) ∧
     (∀ x, o + s * 4096 ≤ x < o + s * 4096 + pages * 4096 → m' x = 0) ∧
     (∀ x, x < o + s * 4096 ∨ o + s * 4096 + pages * 4096 ≤ x → m' x = m x) ∧
     ∃ a'', dma_dealloc (s * 4096) pages (Memory (Some a') (Some o) h m') =
       Ret (0, Memory (Some a'') (Some o) h m') ∧ ∀ j, 0 ≤ j → is_used a'' j = is_used a j).
Proof using PhysAddr_new_ok.
  destruct (dma_alloc_eq pages a o h m Ha Ho Hp) as [(s & a' & E & _ & Hpos & Hfit & U & Hok)|[E Hr]].
  2:{ split; [done|]. intros Hpos Hn. destruct Hr as [->|]; [lia|done]. }
  pose proof Hfit as [Hs _]. split.
  { rewrite E. split; [done|]. intros [->|Hn]; [lia|]. by destruct (Hn s). }
  intros _ _. exists s, a', (write_zeros (o + s * 4096) (pages * 4096) m). destruct Hs as (H0 & Hle & Hfree).
  destruct U as (Hn & Hl & Hb & Hu). split_and!; try done.
  - intros j Hj. rewrite Hu by lia. by rewrite decide_True.
  - intros x Hx. unfold write_zeros. by rewrite (proj2 (Z.leb_le _ _)), (proj2 (Z.ltb_lt _ _)) by lia.
  - intros x Hx. unfold write_zeros. destruct (Z.leb_spec (o + s * 4096) x); [|done].
    by rewrite (proj2 (Z.ltb_ge _ _)) by lia.
  - destruct (dealloc_facts a' s pages) as (a'' & Ed & Hn' & Hl' & Hb' & Hu'); [apply Hok|lia|lia|lia|].
    exists a''. unfold dma_dealloc. cbn [PMM OFFSET HEAP mem expect]. rewrite bind_Ret, Ed. split; [done|].
    intros j Hj. rewrite Hu', Hu by lia. destruct (decide (s ≤ j < s + pages)) as [Hin|]; [|done].
    by rewrite (Hfree j Hin).
Qed.

(** The heap's 16 MiB and every buffer given to a device are disjoint. *)
Theorem heap_dma_disjoint (pages o : Z) (a : PhysicalPageAllocator.t) (m : Z → Z) (s1 s2 : memory)
    (paddr vaddr : Z) (Ha : memory_ok a) (Ho : offset_ok o a) (Hp : 0 ≤ pages < 2 ^ 64)
    (Hheap : init_heap PhysAddr_new (Memory (Some a) (Some o) None m) = Ret s1)
    (Hdma : dma_alloc PhysAddr_new pages s1 = Ret (paddr, vaddr, s2)) :
  ∃ heap, HEAP s2 = Some (heap, 16777216) ∧ vaddr = o + paddr ∧
    (heap + 16777216 ≤ vaddr ∨ vaddr + pages * 4096 ≤ heap).
Proof using PhysAddr_new_ok.
  destruct (init_heap_eq a o None m Ha Ho) as [(s & a1 & E1 & _ & Hfit1 & U1 & Hok1)|[E1 _]];
    rewrite E1 in Hheap; [|done]. injection Hheap as <-.
  destruct (dma_alloc_eq pages a1 o (Some (o + s * 4096, 16777216)) m Hok1)
    as [(t & a2 & E2 & _ & Hpos & Hfit2 & _ & _)|[E2 _]]; [destruct U1 as (Hn & _); unfold offset_ok; by rewrite Hn|done|..]; rewrite E2 in Hdma; [|done].
  injection Hdma as <- <- <-. exists (o + s * 4096). split; [done|]. split; [done|].
  pose proof Hfit1 as [(H0 & _ & _) _].
  assert (s + HEAP_PAGES ≤ t ∨ t + pages ≤ s) as Hd.
  { apply (fit_disjoint a1); try done. intros j Hj. destruct U1 as (_ & _ & _ & Hu).
    rewrite Hu by lia. by rewrite decide_True. }
  unfold HEAP_PAGES in Hd. lia.
Qed.
End Proofs.

(** ** Witnesses on the small machine of [Ppa.v], and on one large enough for the heap *)

Module ExampleMemory.
Definition OFF : Z := 0x10000000000.
Lemma OFF_ok a : num_frames a ≤ 2 ^ 40 → offset_ok OFF a.
Proof. unfold offset_ok, OFF. lia. Qed.
Definition large : PhysicalPageAllocator.t :=
  {| bitmap := array 0 1024; num_frames := 8192 |}.
Lemma large_ok : memory_ok large.
Proof.
  split; [split_and!|]; first [apply (bool_decide_unpack _); vm_compute; exact I|
    vm_compute; congruence|reflexivity].
Qed.
Lemma large_free j : 0 ≤ j < 8192 → is_used large j = false.
Proof.
  intros Hj. unfold is_used, large. cbn [bitmap]. rewrite get_lookup by (apply Z.div_pos; lia).
  unfold array. rewrite lookup_replicate_2 by (Z.to_euclidean_division_equations; lia).
  apply Z.testbit_0_l.
Qed.

(** The heap goes to the bottom; two pages still fit above it. *)
Lemma large_heap :
  ∃ a1, init_heap phys_new (Memory (Some large) (Some OFF) None (λ _, 7)) =
      Ret (Memory (Some a1) (Some OFF) (Some (OFF + 0 * 4096, 16777216)) (λ _, 7)) ∧
    memory_ok a1 ∧ fits a1 2 4096.
Proof.
  assert (fits large HEAP_PAGES 0) as Hfit.
  { split_and!; [done|done|]. intros j Hj. apply large_free. unfold HEAP_PAGES in Hj. lia. }
  destruct (init_heap_eq phys_new phys_new_ok large OFF None (λ _, 7) large_ok (OFF_ok _ (proj2 large_ok)))
    as [(s & a1 & E & _ & [(H0 & _) Hmin] & U & Hok)|[_ Hn]]; [|by destruct (Hn 0)].
  assert (s = 0) as ->. { destruct (decide (s = 0)); [done|]. destruct (Hmin 0); [lia|done]. }
  exists a1. split; [exact E|]. split; [done|]. destruct U as (Hn & _ & _ & Hu).
  split_and!; [done|by rewrite Hn|]. intros j Hj. rewrite Hu by lia.
  rewrite decide_False by (unfold HEAP_PAGES; lia). apply large_free. lia.
Qed.
End ExampleMemory.

Lemma dma_alloc_spec_witness :
  dma_alloc phys_new 0 (Memory (Some small) (Some ExampleMemory.OFF) None (λ _, 7)) = Panic ∧
  ∃ s a' m', dma_alloc phys_new 3 (Memory (Some small) (Some ExampleMemory.OFF) None (λ _, 7)) =
    Ret (s * 4096, ExampleMemory.OFF + s * 4096,
         Memory (Some a') (Some ExampleMemory.OFF) None m') ∧
    ∀ j, s ≤ j < s + 3 → is_used a' j = true.
Proof.
  assert (offset_ok ExampleMemory.OFF small) as Ho by (apply ExampleMemory.OFF_ok, small_ok). split.
  - apply (dma_alloc_spec phys_new phys_new_ok 0 ExampleMemory.OFF small None (λ _, 7) small_ok Ho);
      [lia|by left].
  - destruct (dma_alloc_spec phys_new phys_new_ok 3 ExampleMemory.OFF small None (λ _, 7) small_ok Ho)
      as [_ Hs]; [lia|].
    destruct Hs as (s & a' & m' & E & _ & Hu & _); [lia| |exists s, a', m'; split; [exact E|exact Hu]].
    intros Hn. apply (Hn 2). split; [lia|]. split; [vm_compute; congruence|].
    intros j Hj. assert (j = 2 ∨ j = 3 ∨ j = 4) as [->|[->| ->]] by lia; vm_compute; reflexivity.
Defined.

Lemma heap_dma_disjoint_witness :
  ∃ s1 s2 paddr vaddr,
    init_heap phys_new (Memory (Some ExampleMemory.large) (Some ExampleMemory.OFF) None (λ _, 7)) = Ret s1 ∧
    dma_alloc phys_new 2 s1 = Ret (paddr, vaddr, s2) ∧
    ∃ heap, HEAP s2 = Some (heap, 16777216) ∧
      (heap + 16777216 ≤ vaddr ∨ vaddr + 2 * 4096 ≤ heap).
Proof.
  destruct ExampleMemory.large_heap as (a1 & E1 & Hok & Hfit).
  destruct (dma_alloc_eq phys_new phys_new_ok 2 a1 ExampleMemory.OFF
              (Some (ExampleMemory.OFF + 0 * 4096, 16777216)) (λ _, 7) Hok (ExampleMemory.OFF_ok _ (proj2 Hok)))
    as [(t & a2 & E2 & _)|[_ [Hz|Hn]]]; [lia| |discriminate Hz|destruct (Hn 4096 Hfit)].
  destruct (heap_dma_disjoint phys_new phys_new_ok 2 ExampleMemory.OFF ExampleMemory.large (λ _, 7)
              _ _ _ _ ExampleMemory.large_ok (ExampleMemory.OFF_ok _ (proj2 ExampleMemory.large_ok)) ltac:(lia) E1 E2)
    as (heap & Hh & _ & Hd).
  do 4 eexists. split; [exact E1|]. split; [exact E2|]. exists heap. split; [exact Hh|exact Hd].
Defined.
