(* ===== verification/Interrupts.v ===== *)
(** * The interrupt handlers: [kernel/src/interrupts.rs]

    The three handlers that do work, over the streams ([Streams.v]), the clock
    ([Timers.v]) and the local APIC ([Apic.v]).  The exception handlers are in
    [Exceptions.v]. *)

From S2P Require Import Prelude Streams NetTask Timers Apic.
Local Open Scope Z_scope.

(** The UART's receiver: [Uart16550Tty::try_receive_byte]. *)
Class Uart (U : Type) := try_receive_byte : U → option Z * U.

(** [VirtIONet::ack_interrupt]: the bits for the queues and for the configuration. *)
Class NetIrq (D : Type) := ack_interrupt : D → (bool * bool) * D.



Section Handlers.
Context {H U D Qs Qn A Wk : Type} `{HM : Mmio H} `{HU : Uart U} `{HN : NetIrq D}.
Context `{HQs : ArrayQueue Qs Z} `{HQn : ArrayQueue Qn NetworkEvent.t} `{HA : AtomicWaker A Wk}.

(** What the handlers share with the rest of the kernel. *)
Record kernel := Kernel {
  plat : platform H;
  SERIAL_TTY : U;
  VIRTIO_NET : option D;
  serial_in : stream Qs A Wk;
  net_in : stream Qn A Wk;
  timers : clock Wk;
}.
Abbreviation M := (prog kernel).

Definition set_plat (p : platform H) (k : kernel) : kernel :=
  Kernel p (SERIAL_TTY k) (VIRTIO_NET k) (serial_in k) (net_in k) (timers k).
Definition set_serial (u : U) (s : stream Qs A Wk) (k : kernel) : kernel :=
  Kernel (plat k) u (VIRTIO_NET k) s (net_in k) (timers k).
Definition set_net (d : D) (s : stream Qn A Wk) (k : kernel) : kernel :=
  Kernel (plat k) (SERIAL_TTY k) (Some d) (serial_in k) s (timers k).
Definition set_clock (c : clock Wk) (k : kernel) : kernel :=
  Kernel (plat k) (SERIAL_TTY k) (VIRTIO_NET k) (serial_in k) (net_in k) c.

(** [apic::end_of_interrupt()] *)
Definition eoi : M unit := λ k,
  '(_, p) ← end_of_interrupt (plat k); Ret (tt, set_plat p k).

(** [while let Ok(b) = ... try_receive_byte()] *)
Fixpoint drain (fuel : nat) : M unit := λ k,
  match fuel with
  | O => OutOfFuel
  | S fuel =>
      match try_receive_byte (SERIAL_TTY k) with
      | (Some b, u) => drain fuel (set_serial u (add_byte b (serial_in k)) k)
      | (None, u) => Ret (tt, set_serial u (serial_in k) k)
      end
  end.

Definition com1_interrupt_handler (fuel : nat) : M unit := drain fuel;; eoi.

Definition tick_clock : M unit := λ k, c ← tick (timers k); Ret (tt, set_clock c k).
Definition timer_interrupt_handler : M unit := tick_clock;; eoi.

(** The card's part of [virtio_irq]. *)
Definition net_events : M unit := λ k,
  driver ← expect (VIRTIO_NET k);
  let '((queue, config), driver) := ack_interrupt driver in
  let s := net_in k in
  let s := if queue then add_event NetworkEvent.Queue s else s in
  let s := if config then add_event NetworkEvent.ConfigChange s else s in
  Ret (tt, set_net driver s k).
Definition virtio_irq : M unit := net_events;; eoi.
End Handlers.
Arguments kernel : clear implicits.

(** A receiver left alone has [pending] bytes, in order. *)
Class UartOk (U : Type) `{Uart U} := {
  received : U → list Z;
  try_receive_ok : ∀ u,
    match try_receive_byte u with
    | (Some b, u') => received u = b :: received u'
    | (None, u') => received u = [] ∧ received u' = []
    end;
}.

Section Proofs.
Context {H U D Qs Qn A Wk : Type} `{HM : Mmio H} `{HU : Uart U} `{HUok : !UartOk U} `{HN : NetIrq D}.
Context `{HQs : ArrayQueue Qs Z} `{HQn : ArrayQueue Qn NetworkEvent.t} `{HA : AtomicWaker A Wk}.
Abbreviation kernel := (kernel H U D Qs Qn A Wk).

(** One store of zero to the end-of-interrupt register. *)
Definition acknowledged (b : Z) (k : kernel) : kernel :=
  set_plat (set_hw (mmio_write (b + REG_EOI) 0 (hw (plat k))) (plat k)) k.

(** The events of the causes the card reports. *)
Definition causes (queue config : bool) : list NetworkEvent.t :=
  (if queue then [NetworkEvent.Queue] else []) ++ (if config then [NetworkEvent.ConfigChange] else []).

Lemma eoi_eq b (k : kernel) : mapped b (plat k) → eoi k = Ret (tt, acknowledged b k).
Proof.
  intros Hm. unfold eoi, end_of_interrupt. by rewrite (write_register_eq b) by done.
Qed.

Lemma drain_eq fuel (k : kernel) :
  (length (received (SERIAL_TTY k)) < fuel)%nat →
  ∃ u, received u = [] ∧ drain fuel k =
    Ret (tt, set_serial u (foldl (λ s b, add_byte b s) (serial_in k) (received (SERIAL_TTY k))) k).
Proof.
  revert k. induction fuel as [|fuel IH]; intros k Hf; [lia|]. cbn [drain].
  pose proof (try_receive_ok (SERIAL_TTY k)) as Hr.
  destruct (try_receive_byte (SERIAL_TTY k)) as [[x|] u].
  - rewrite Hr in *. cbn [length] in Hf.
    destruct (IH (set_serial u (add_byte x (serial_in k)) k)) as (u' & Hu & E); [cbn; lia|].
    exists u'. split; [done|]. by rewrite E.
  - destruct Hr as [Hr Hu]. exists u. by rewrite Hr.
Qed.

(** The events of an interrupt enter the queue in order, as far as there is room. *)
Lemma add_all_eq {Q E} `{HQ : ArrayQueue Q E} `{HQok : !ArrayQueueOk Q E} (l : list E)
    (s : stream Q A Wk) q :
  queue s = Some q →
  ∃ q', queue (foldl (λ s e, add_event e s) s l) = Some q' ∧ capacity q' = capacity q ∧
    contents q' = contents q ++ take (Z.to_nat (capacity q - len (contents q))) l.
Proof.
  revert s q. induction l as [|e l IH]; intros s q Hq.
  { exists q. by rewrite take_nil, app_nil_r. }
  cbn [foldl]. unfold add_event at 2. rewrite Hq. pose proof (queue_push_ok e q) as Hp.
  destruct (queue_push e q) as [q1|e'].
  - destruct Hp as (Hlt & Hc & Hcap). destruct (IH (Stream (Some q1) (aw_wake (waker s)).2
      (Streams.woken s ++ option_list (aw_wake (waker s)).1) (warnings s)) q1) as (q' & Hq' & Hcap' & Hc');
      [done|].
    exists q'. split_and!; [done|congruence|]. rewrite Hc', Hc, Hcap, len_app, len_cons, len_nil, <- app_assoc.
    replace (Z.to_nat (capacity q - len (contents q)))
      with (S (Z.to_nat (capacity q - (len (contents q) + (1 + 0))))) by lia. done.
  - destruct Hp as [Hfull _]. destruct (IH (Stream (queue s) (waker s) (Streams.woken s)
      (warnings s ++ [QueueFull])) q) as (q' & Hq' & Hcap' & Hc'); [done|].
    exists q'. rewrite Hq in Hq'. split_and!; try done. rewrite Hc'.
    by replace (Z.to_nat (capacity q - len (contents q))) with 0%nat by lia.
Qed.

(** What arrives on the serial line reaches the terminal's queue: one interrupt
    empties the receiver and appends its bytes, in order and without gaps, up to the
    queue's capacity; what does not fit is dropped from the end.  The card, its events
    and the clock are untouched. *)
Theorem keystrokes_queued `{HQsok : !ArrayQueueOk Qs Z} (fuel : nat) (b : Z) (k : kernel) (q : Qs)
    (Hm : mapped b (plat k)) (Hf : (length (received (SERIAL_TTY k)) < fuel)%nat)
    (Hq : queue (serial_in k) = Some q) :
  ∃ k' q', com1_interrupt_handler fuel k = Ret (tt, k') ∧
    received (SERIAL_TTY k') = [] ∧ queue (serial_in k') = Some q' ∧
    contents q' = contents q ++ take (Z.to_nat (capacity q - len (contents q))) (received (SERIAL_TTY k)) ∧
    VIRTIO_NET k' = VIRTIO_NET k ∧ net_in k' = net_in k ∧ timers k' = timers k.
Proof.
  destruct (drain_eq fuel k Hf) as (u & Hu & E).
  destruct (add_all_eq (received (SERIAL_TTY k)) (serial_in k) q Hq) as (q' & Hq' & _ & Hc).
  eexists _, q'. split; [unfold com1_interrupt_handler; erewrite prog_bind_Ret by exact E; by apply eoi_eq|].
  done.
Qed.

End Proofs.

(** ** A receiver that is a list, a card that is its interrupt status *)

Module ExampleIrq.
Import ListQueue.
#[global] Instance uart : Uart (list Z) := λ u, match u with [] => (None, []) | b :: u => (Some b, u) end.
#[global] Instance uart_ok : UartOk (list Z).
Proof. refine {| received := λ u, u |}. by intros [|b u]. Defined.
#[global] Instance net_irq : NetIrq (bool * bool) := λ d, (d, (false, false)).

Definition k0 : kernel ExampleApic.t (list Z) (bool * bool) (Z * list Z) (Z * list NetworkEvent.t) (option Z) Z :=
  Kernel ExampleApic.p0 [104; 105; 13] (Some (true, true))
    (Stream (Some (100, [])) (Some 1) [] []) (Stream (Some (100, [])) None [] [])
    (Clock 4 0 [((5, 0), 7)] []).
End ExampleIrq.


Lemma keystrokes_queued_witness :
  ∃ k' q', com1_interrupt_handler 4 ExampleIrq.k0 = Ret (tt, k') ∧
    queue (serial_in k') = Some q' ∧ contents q' = [104; 105; 13].
Proof.
  destruct (keystrokes_queued 4 0xFEE01000 ExampleIrq.k0 (100, []) ExampleApic.p0_mapped)
    as (k' & q' & E & _ & Hq & Hc & _); [cbn; lia|reflexivity|].
  exists k', q'. split; [exact E|]. split; [exact Hq|exact Hc].
Defined.
