(* ===== verification/Tasks.v ===== *)
(** * The kernel's three tasks as futures: [handle_serial] and [time_task] of
      [kernel/src/main.rs], [network_task] of [kernel/src/task/network.rs]

    An [async fn] is the state machine of its program points.  A task runs from one
    point to the next; where it awaits a stream it goes through the atomic actions of
    [poll_next] ([Streams.v]), so that interrupts can fall between any two.  The futures
    implement the interface the executor is proved against ([Executor.FutureOk]). *)

From S2P Require Import Prelude Utils Interfaces Handler HandlerSpec HandlerTheorems.
From S2P Require Import Streams NetTask Timers Executor Serial Apic Interrupts.
Local Open Scope Z_scope.

(** ** Where the tasks are *)

(** [handle_serial]: before its stream is made, at the head of its loop, or in
    [readline] with its buffer and count, awaiting the next byte. *)
Inductive serial_at := SerialStart | SerialPrompt | SerialAwait (buffer : list Z) (count : Z) (p : Streams.pc Z).

(** [network_task]: before its stream is made, before the interface is, awaiting the next
    event, or in [handle_queue_interrupt] before [receive], or with a buffer it received
    before [process_rx] and before [recycle_rx_buffer]. *)
Inductive net_at (B : Type) :=
| NetStart | NetInit | NetAwait (p : Streams.pc NetworkEvent.t)
| NetReceive | NetProcess (packet : B) | NetRecycle (packet : B).
Arguments NetStart {B}.
Arguments NetInit {B}.
Arguments NetAwait {B} p.
Arguments NetReceive {B}.
Arguments NetProcess {B} packet.
Arguments NetRecycle {B} packet.

(** [time_task]: before the [println!], before the sleep is made, or sleeping. *)
Inductive time_at := TimePrint | TimeNew | TimeAwait (t : Timers.TimeTask).

Inductive fut (B : Type) := HandleSerial (s : serial_at) | NetworkTask (s : net_at B) | TimeTask (s : time_at).
Arguments HandleSerial {B} s.
Arguments NetworkTask {B} s.
Arguments TimeTask {B} s.

(** After an action: the task goes on, or its poll returns [Pending]. *)
Inductive progress (P : Type) := Next (p : P) | Wait (p : P).
Arguments Next {P} p.
Arguments Wait {P} p.
Definition progress_map {P P'} (f : P → P') (r : progress P) : progress P' :=
  match r with Next p => Next (f p) | Wait p => Wait (f p) end.

Section Tasks.
Context {H U D R Qs Qn A : Type} `{HM : Mmio H} `{HU : Uart U} `{HT : Tty U}.
Context `{HD : NetDriver D} `{HR : RandomSource R} `{HN : !NetReceiver D} `{HI : NetIrq D}.
Context `{HQs : ArrayQueue Qs Z} `{HQn : ArrayQueue Qn NetworkEvent.t} `{HA : AtomicWaker A TaskWaker}.

(** What the tasks work on: what they share with the interrupt handlers, the network
    interface with its random source, and what was sent and printed. *)
Record env := Env {
  shared : Interrupts.kernel H U D Qs Qn A TaskWaker;
  NETWORK_INTERFACE : option NetworkInterface.t;
  net_rng : R;
  net_sent : list (list Z);
  net_console : list (line (RandomError (R := R)));
  time_console : list Z;
}.

Definition put_serial (u : U) (st : stream Qs A TaskWaker) (x : env) : env :=
  Env (set_serial u st (shared x)) (NETWORK_INTERFACE x) (net_rng x) (net_sent x) (net_console x)
    (time_console x).
Definition put_clock (c : clock TaskWaker) (printed : list Z) (x : env) : env :=
  Env (set_clock c (shared x)) (NETWORK_INTERFACE x) (net_rng x) (net_sent x) (net_console x)
    (time_console x ++ printed).
Definition put_events (st : stream Qn A TaskWaker) (x : env) : env :=
  let k := shared x in
  Env (Interrupts.Kernel (plat k) (SERIAL_TTY k) (VIRTIO_NET k) (serial_in k) st (timers k))
    (NETWORK_INTERFACE x) (net_rng x) (net_sent x) (net_console x) (time_console x).
(** The interface and its world, which has the card. *)
Definition put_net (s : NetworkInterface.t * world D R) (x : env) : env :=
  Env (set_net (driver s.2) (net_in (shared x)) (shared x)) (Some s.1) (rng s.2) (sent s.2)
    (console s.2) (time_console x).
Definition net_world (d : D) (x : env) : world D R :=
  World d (net_rng x) (net_sent x) (net_console x).

(** The interface's code, on the interface and the card as they are. *)
Definition on_interface {X} (m : prog (NetworkInterface.t * world D R) X) : prog env X := λ x,
  self ← expect (NETWORK_INTERFACE x);
  d ← expect (VIRTIO_NET (shared x));
  '(a, s) ← m (self, net_world d x);
  Ret (a, put_net s x).

(** One action of each task, polled with the waker [cx]. *)

Definition handle_serial_step (cx : TaskWaker) (s : serial_at) : prog env (progress serial_at) := λ x,
  let k := shared x in
  match s with
  | SerialStart =>
      st ← SerialStream_new (serial_in k);
      Ret (Next SerialPrompt, put_serial (SERIAL_TTY k) st x)
  | SerialPrompt =>
      u ← print PROMPT (SERIAL_TTY k);
      Ret (Next (SerialAwait (array 0 1024) 0 AtStart), put_serial u (serial_in k) x)
  | SerialAwait buffer count (AtEnd (Streams.Ready byte)) =>
      '(r, buffer, count, u) ← read_byte byte buffer count (SERIAL_TTY k);
      match r with
      | None => Ret (Next (SerialAwait buffer count AtStart), put_serial u (serial_in k) x)
      | Some r =>
          u ← respond r buffer u;
          Ret (Next SerialPrompt, put_serial u (serial_in k) x)
      end
  | SerialAwait buffer count (AtEnd Streams.Pending) => Ret (Wait (SerialAwait buffer count AtStart), x)
  | SerialAwait buffer count p =>
      '(p, st) ← poll_step cx p (serial_in k);
      Ret (Next (SerialAwait buffer count p), put_serial (SERIAL_TTY k) st x)
  end.

Definition network_task_step (cx : TaskWaker) (s : net_at RxBuffer) : prog env (progress (net_at RxBuffer)) := λ x,
  let k := shared x in
  match s with
  | NetStart =>
      st ← stream_new (E := NetworkEvent.t) (net_in k);
      Ret (Next NetInit, put_events st x)
  | NetInit =>
      match NETWORK_INTERFACE x with
      | Some _ => Ret (Next (NetAwait AtStart), x)
      | None =>
          d ← expect (VIRTIO_NET k);
          s ← init_network_interface (net_world d x);
          Ret (Next (NetAwait AtStart), put_net s x)
      end
  | NetAwait (AtEnd (Streams.Ready NetworkEvent.Queue)) => Ret (Next NetReceive, x)
  | NetAwait (AtEnd (Streams.Ready NetworkEvent.ConfigChange)) =>
      '(_, x) ← on_interface (println ConfigChanged) x;
      Ret (Next (NetAwait AtStart), x)
  | NetAwait (AtEnd Streams.Pending) => Ret (Wait (NetAwait AtStart), x)
  | NetAwait p =>
      '(p, st) ← poll_step cx p (net_in k);
      Ret (Next (NetAwait p), put_events st x)
  | NetReceive =>
      '(r, x) ← on_interface receive x;
      match r with
      | Ok packet => Ret (Next (NetProcess packet), x)
      | Err _ => Ret (Next (NetAwait AtStart), x)
      end
  | NetProcess packet =>
      '(_, x) ← on_interface (process_rx (rx_packet packet)) x;
      Ret (Next (NetRecycle packet), x)
  | NetRecycle packet =>
      '(_, x) ← on_interface (recycle packet) x;
      Ret (Next NetReceive, x)
  end.

Definition time_task_step (cx : TaskWaker) (s : time_at) : prog env (progress time_at) := λ x,
  let c := timers (shared x) in
  match s with
  | TimePrint => now ← now_ms c; Ret (Next TimeNew, put_clock c [now] x)
  | TimeNew => '(t, c) ← TimeTask_new 1000 c; Ret (Next (TimeAwait t), put_clock c [] x)
  | TimeAwait t =>
      '(r, c) ← Timers.poll t cx c;
      match r with
      | Timers.Ready => Ret (Next TimePrint, put_clock (Timers.drop t c) [] x)
      | Timers.Pending => Ret (Wait (TimeAwait t), put_clock c [] x)
      end
  end.

Definition fut_step (cx : TaskWaker) (f : fut RxBuffer) : prog env (progress (fut RxBuffer)) := λ x,
  match f with
  | HandleSerial s => '(r, x) ← handle_serial_step cx s x; Ret (progress_map HandleSerial r, x)
  | NetworkTask s => '(r, x) ← network_task_step cx s x; Ret (progress_map NetworkTask r, x)
  | TimeTask s => '(r, x) ← time_task_step cx s x; Ret (progress_map TimeTask r, x)
  end.

(** A poll that no interrupt falls into: the actions up to the next [Pending]. *)
Fixpoint poll_fut (rounds : nat) (cx : TaskWaker) (f : fut RxBuffer) (x : env) : outcome (fut RxBuffer * env) :=
  match rounds with
  | O => OutOfFuel
  | S rounds =>
      '(r, x) ← fut_step cx f x;
      match r with
      | Next f => poll_fut rounds cx f x
      | Wait f => Ret (f, x)
      end
  end.
End Tasks.
Arguments env : clear implicits.
Arguments env _ _ _ _ _ _ _ {_}.

(** ** Every action returns *)

Definition at_of {P} (r : progress P) : P := match r with Next p | Wait p => p end.

Section Proofs.
Context {H U D R Qs Qn A : Type} `{HM : Mmio H} `{HU : Uart U} `{HT : Tty U} `{HTok : !TtyOk U}.
Context `{HD : NetDriver D} `{HDok : !NetDriverOk D} `{HR : RandomSource R} `{HRok : !RandomSourceOk R}.
Context `{HN : !NetReceiver D} `{HNok : !NetReceiverOk D} `{HI : NetIrq D}.
Context `{HQs : ArrayQueue Qs Z} `{HQsok : !ArrayQueueOk Qs Z}.
Context `{HQn : ArrayQueue Qn NetworkEvent.t} `{HQnok : !ArrayQueueOk Qn NetworkEvent.t}.
Context `{HA : AtomicWaker A TaskWaker} `{HAok : !AtomicWakerOk A TaskWaker}.
Abbreviation env := (env H U D R Qs Qn A).
Abbreviation net_at := (net_at RxBuffer).
Abbreviation fut := (fut RxBuffer).
Implicit Types x : env.

(** What each task relies on, in its own part of the environment. *)

Definition serial_ok (s : serial_at) x : Prop :=
  match s with
  | SerialStart => queue (serial_in (shared x)) = None
  | SerialPrompt => stream_up (serial_in (shared x))
  | SerialAwait buffer count _ =>
      stream_up (serial_in (shared x)) ∧ len buffer = 1024 ∧ 0 ≤ count ≤ 1024
  end.

Definition net_ok (s : net_at) x : Prop :=
  is_Some (VIRTIO_NET (shared x)) ∧ random_ok (net_rng x) ∧
  match s with
  | NetStart => queue (net_in (shared x)) = None ∧ NETWORK_INTERFACE x = None
  | NetInit => stream_up (net_in (shared x)) ∧ NETWORK_INTERFACE x = None
  | NetProcess packet => stream_up (net_in (shared x)) ∧
      (∃ self, NETWORK_INTERFACE x = Some self ∧ iface_ok self) ∧ bytes (rx_packet packet)
  | _ => stream_up (net_in (shared x)) ∧
      ∃ self, NETWORK_INTERFACE x = Some self ∧ iface_ok self
  end.

(** The only sleeper is the task itself. *)
Definition time_ok (cx : TaskWaker) (s : time_at) x : Prop :=
  let c := timers (shared x) in
  clock_ok c ∧
  match s with
  | TimePrint | TimeNew => TIMERS c = []
  | TimeAwait t => TIMERS c = [] ∨ TIMERS c = [((deadline_ms t, Timers.id t), cx)]
  end.

Definition fut_ok (cx : TaskWaker) (f : fut) x : Prop :=
  match f with
  | HandleSerial s => serial_ok s x
  | NetworkTask s => net_ok s x
  | TimeTask s => time_ok cx s x
  end.

(** The packets the card has. *)
Definition packets_left x : nat := match VIRTIO_NET (shared x) with Some d => backlog d | None => 0%nat end.

(** The actions left to a poll. *)
Definition serial_rank (s : serial_at) x : nat :=
  let st := serial_in (shared x) in
  match s with
  | SerialStart => 7
  | SerialPrompt => 6 * length (queued st) + 6
  | SerialAwait _ _ p => poll_rank p st
  end.
Definition net_rank (s : net_at) x : nat :=
  let st := net_in (shared x) in
  3 * packets_left x +
  match s with
  | NetStart => 7
  | NetInit | NetReceive => 6 * length (queued st) + 6
  | NetAwait p => poll_rank p st
  | NetProcess _ => 6 * length (queued st) + 8
  | NetRecycle _ => 6 * length (queued st) + 7
  end.
Definition time_rank (s : time_at) x : nat :=
  match s with
  | TimePrint => 4
  | TimeNew => 3
  | TimeAwait t => if decide (deadline_ms t ≤ TICKS (timers (shared x))) then 5 else 2
  end.
Definition fut_rank (f : fut) x : nat :=
  match f with
  | HandleSerial s => serial_rank s x
  | NetworkTask s => net_rank s x
  | TimeTask s => time_rank s x
  end.

Definition advances {P} (rank : P → env → nat) (r : progress P) (n : nat) x : Prop :=
  match r with Next p => (rank p x < n)%nat | Wait _ => True end.

Lemma put_serial_id x : put_serial (SERIAL_TTY (shared x)) (serial_in (shared x)) x = x.
Proof. by destruct x as [[]]. Qed.
Lemma put_events_id x : put_events (net_in (shared x)) x = x.
Proof. by destruct x as [[]]. Qed.

(** A point of a stream's poll is its end, or one with an action to do. *)
Lemma pc_cases {E} (p : Streams.pc E) :
  (∃ e, p = AtEnd (Streams.Ready e)) ∨ p = AtEnd Streams.Pending ∨ ∀ r, p ≠ AtEnd r.
Proof. destruct p as [| | |?|[]]; eauto. Qed.

Lemma serial_step_ok cx s x :
  serial_ok s x →
  ∃ r u st, handle_serial_step cx s x = Ret (r, put_serial u st x) ∧
    serial_ok (at_of r) (put_serial u st x) ∧
    advances serial_rank r (serial_rank s x) (put_serial u st x) ∧
    Streams.woken st = Streams.woken (serial_in (shared x)).
Proof.
  unfold handle_serial_step. destruct s as [| |buffer count p]; cbn [serial_ok].
  - intros Hq. destruct (stream_new_up _ Hq) as (st & E & Hup & Hqd & Hw).
    unfold SerialStream_new. rewrite E, bind_Ret. eexists _, _, _. split; [done|].
    cbn. rewrite Hqd. split_and!; done || cbn; lia.
  - intros Hup. destruct (print_eq PROMPT (SERIAL_TTY (shared x))) as (u & E & _).
    rewrite E, bind_Ret. eexists _, _, _. split; [done|]. cbn. unfold poll_rank.
    split_and!; done || lia.
  - intros (Hup & Hl & Hc). destruct (pc_cases p) as [[b ->]|[->|Hend]].
    + destruct (read_byte_total b buffer count (SERIAL_TTY (shared x)))
        as (r & buf & n & u & E & Hl' & Hn & Hr); [lia|lia|].
      rewrite E, bind_Ret. destruct r as [r|].
      * destruct (respond_total r buf u) as [u' E'].
        { destruct r as [m|]; [subst m; lia|done]. }
        rewrite E', bind_Ret. eexists _, _, _. split; [done|]. cbn. unfold poll_rank. split_and!; done || lia.
      * eexists _, _, _. split; [done|]. cbn. unfold poll_rank. split_and!; done || lia.
    + eexists _, _, _. split; [by rewrite put_serial_id|]. by rewrite put_serial_id.
    + destruct (poll_step_up cx p _ Hup Hend) as (p' & st & E & Hup' & Hw & Hrank).
      exists (Next (SerialAwait buffer count p')), (SERIAL_TTY (shared x)), st. split; [|done].
      destruct p as [| | |?|r]; [..|by destruct (Hend r)]; by rewrite E.
Qed.

(** Past its start the task has a card, a random source, its stream and its interface. *)
Definition net_runs x : Prop :=
  is_Some (VIRTIO_NET (shared x)) ∧ random_ok (net_rng x) ∧ stream_up (net_in (shared x)) ∧
  ∃ self, NETWORK_INTERFACE x = Some self ∧ iface_ok self.

Lemma net_await_ok p x : net_runs x → net_ok (NetAwait p) x.
Proof. done. Qed.

Lemma put_net_runs s x : net_runs x → state_ok s → net_runs (put_net s x).
Proof. intros (_ & _ & Hup & _) [Hok Hr]. split_and!; [by eexists|done|done|]. by exists s.1. Qed.

(** A piece of the interface's code that is sound there is sound in the task. *)
Lemma on_interface_eq {X} (m : prog (NetworkInterface.t * world D R) X) x self d a s :
  NETWORK_INTERFACE x = Some self → VIRTIO_NET (shared x) = Some d →
  m (self, net_world d x) = Ret (a, s) → on_interface m x = Ret (a, put_net s x).
Proof. intros Hi Hd E. unfold on_interface. rewrite Hi, Hd. cbn [expect]. by rewrite !bind_Ret, E, bind_Ret. Qed.

(** The actions between two polls of the stream. *)
Definition draining (s : net_at) : Prop :=
  match s with NetReceive | NetRecycle _ => True | NetProcess packet => bytes (rx_packet packet) | _ => False end.

Lemma net_drain_ok cx s x :
  net_runs x → draining s →
  ∃ r w, network_task_step cx s x = Ret (Next r, put_net w x) ∧ state_ok w ∧
    (packets_left (put_net w x) ≤ packets_left x)%nat ∧
    (net_rank r (put_net w x) < net_rank s x)%nat ∧ (draining r ∨ r = NetAwait AtStart).
Proof.
  intros ([d Hd] & Hr & Hup & self & Hi & Hok) Hs.
  assert (state_ok (self, net_world d x)) as Hst by done.
  assert (packets_left x = backlog d) as Hl by (unfold packets_left; by rewrite Hd).
  assert (∀ w, packets_left (put_net w x) = backlog (driver w.2)) as Hpl by done.
  assert (∀ w, queued (net_in (shared (put_net w x))) = queued (net_in (shared x))) as Hqd by done.
  destruct s as [| |p| |b|b]; try done; cbn [network_task_step]; unfold net_rank; rewrite Hl.
  - destruct (driver_receive d) as [r d1] eqn:E. set (w := (self, with_driver d1 (net_world d x))).
    rewrite (on_interface_eq _ x self d r w), bind_Ret by (done || (unfold receive; cbn; by rewrite E)).
    destruct r as [b|e].
    + destruct (receive_ok _ _ _ E) as [Hb Hlt].
      exists (NetProcess b), w. rewrite Hpl, Hqd. cbn. split_and!; try done; [lia..|by left].
    + pose proof (receive_none _ _ _ E) as Hle.
      exists (NetAwait AtStart), w. unfold poll_rank. rewrite Hpl, Hqd. cbn. split_and!; try done; [lia..|by right].
  - destruct (process_rx_keeps (rx_packet b) self (net_world d x) Hst Hs) as (w & E & Hok' & _ & _ & Hcard).
    apply card_steps_backlog in Hcard. cbn in Hcard.
    rewrite (on_interface_eq _ x self d tt w), bind_Ret by done.
    exists (NetRecycle b), w. rewrite Hpl, Hqd. split_and!; try done; [lia|by left].
  - destruct (recycle_ok b d) as (d1 & E & Hle). set (w := (self, with_driver d1 (net_world d x))).
    rewrite (on_interface_eq _ x self d tt w), bind_Ret by (done || (unfold recycle; cbn; by rewrite E)).
    exists NetReceive, w. rewrite Hpl, Hqd. cbn. split_and!; try done; [lia..|by left].
Qed.

Lemma draining_ok s x : draining s → net_runs x ↔ net_ok s x.
Proof. intros Hs. unfold net_runs, net_ok. destruct s; cbn in Hs; tauto. Qed.

Lemma net_step_ok cx s x :
  net_ok s x →
  ∃ r x', network_task_step cx s x = Ret (r, x') ∧ net_ok (at_of r) x' ∧
    (packets_left x' ≤ packets_left x)%nat ∧ advances net_rank r (net_rank s x) x' ∧
    ∃ st x1, x' = put_events st x1 ∧ (x1 = x ∨ ∃ w, x1 = put_net w x) ∧
      Streams.woken st = Streams.woken (net_in (shared x)).
Proof.
  intros Hok. destruct (Hok) as ([d Hd] & Hr & Hs).
  assert (packets_left x = backlog d) as Hl by (unfold packets_left; by rewrite Hd).
  assert (draining s → ∃ r x', network_task_step cx s x = Ret (r, x') ∧ net_ok (at_of r) x' ∧
    (packets_left x' ≤ packets_left x)%nat ∧ advances net_rank r (net_rank s x) x' ∧
    ∃ st x1, x' = put_events st x1 ∧ (x1 = x ∨ ∃ w, x1 = put_net w x) ∧
      Streams.woken st = Streams.woken (net_in (shared x))) as Hdrain.
  { intros Hdr. pose proof (proj2 (draining_ok s x Hdr) Hok) as Hrun.
    destruct (net_drain_ok cx s x Hrun Hdr) as (r & w & E & Hst & Hle & Hlt & Hr').
    exists (Next r), (put_net w x). split; [done|]. pose proof (put_net_runs w x Hrun Hst) as Hrun'.
    split; [destruct Hr' as [Hr'| ->]; [by apply draining_ok|done]|]. split; [done|]. split; [done|].
    exists (net_in (shared x)), (put_net w x). split; [done|]. eauto. }
  destruct s as [| |p| |b|b]; [| | |by apply Hdrain|apply Hdrain; by destruct Hs as (_ & _ & ?)|by apply Hdrain];
    clear Hdrain; cbn [network_task_step].
  - destruct Hs as [Hq Hi]. destruct (stream_new_up _ Hq) as (st & E & Hup & Hqd & Hw).
    rewrite E, bind_Ret. eexists _, _. split; [done|]. split; [split_and!; [by eexists|done..]|].
    split; [done|]. split; [cbn; rewrite Hqd; cbn; unfold packets_left; cbn; lia|]. exists st, x. eauto.
  - destruct Hs as [Hup Hi]. rewrite Hi, Hd. cbn [expect]. rewrite bind_Ret.
    destruct (init_network_interface_safe (net_world d x) Hr)
      as (self & w' & f & E & [Hok' Hr'] & _ & Hb & _).
    rewrite E, bind_Ret. eexists _, _. split; [done|].
    split; [apply net_await_ok; unfold net_runs; cbn; split_and!; eauto|].
    split; [unfold packets_left; cbn; rewrite Hd; exact Hb|].
    split; [cbn; unfold poll_rank, packets_left; cbn; rewrite Hd; cbn in Hb; lia|].
    exists (net_in (shared x)), (put_net (self, w') x). split; [done|]. eauto.
  - assert (net_runs x) as Hrun by done. destruct Hs as (Hup & self & Hi & Hiok).
    destruct (pc_cases p) as [[e ->]|[->|Hend]].
    + destruct e.
      * eexists _, x. split; [done|]. split; [done|]. split; [done|].
        split; [cbn; unfold poll_rank; lia|]. exists (net_in (shared x)), x. split; [by rewrite put_events_id|]. eauto.
      * set (w := (self, say ConfigChanged (net_world d x))).
        rewrite (on_interface_eq _ x self d tt w), bind_Ret by done. eexists _, _. split; [done|].
        split; [by apply net_await_ok, put_net_runs|].
        split; [unfold packets_left; cbn; by rewrite Hd|].
        split; [cbn; unfold poll_rank, packets_left; cbn; rewrite Hd; lia|].
        exists (net_in (shared x)), (put_net w x). split; [done|]. eauto.
    + eexists _, x. split; [done|]. split; [done|]. split; [done|]. split; [done|].
      exists (net_in (shared x)), x. split; [by rewrite put_events_id|]. eauto.
    + destruct (poll_step_up cx p _ Hup Hend) as (p' & st & E & Hup' & Hw & Hrank).
      exists (Next (NetAwait p')), (put_events st x). split.
      { destruct p as [| | |?|r]; [..|by destruct (Hend r)]; by rewrite E. }
      split; [apply net_await_ok; unfold net_runs; cbn; split_and!; eauto|]. split; [done|].
      split; [|exists st, x; eauto]. unfold advances, net_rank.
      change (packets_left (put_events st x)) with (packets_left x).
      change (net_in (shared (put_events st x))) with st. lia.
Qed.

Lemma time_step_ok cx s x :
  time_ok cx s x →
  ∃ r c l, time_task_step cx s x = Ret (r, put_clock c l x) ∧
    time_ok cx (at_of r) (put_clock c l x) ∧ advances time_rank r (time_rank s x) (put_clock c l x) ∧
    TICKS c = TICKS (timers (shared x)) ∧ Timers.woken c = Timers.woken (timers (shared x)) ∧
    match r with
    | Wait (TimeAwait t) => TICKS c < deadline_ms t ∧ TIMERS c = [((deadline_ms t, Timers.id t), cx)]
    | Wait _ => False
    | Next _ => True
    end.
Proof.
  intros [Hc Hs]. unfold time_task_step. destruct s as [| |t].
  - rewrite now_ms_eq, bind_Ret by done. eexists _, _, _. split; [done|]. unfold time_ok. cbn. split_and!; done || lia.
  - rewrite new_eq by done. destruct (Hc) as [H0 H1]. rewrite decide_True by (unfold urange; lia).
    rewrite bind_Ret. eexists _, _, _. split; [done|]. unfold time_ok. cbn. rewrite decide_False by lia.
    split_and!; try done; [by left|lia].
  - rewrite poll_eq, bind_Ret by done. cbn [time_rank]. destruct (decide _) as [Hd|Hd].
    + eexists _, _, _. split; [done|]. unfold time_ok. cbn. split_and!; try done; [|lia].
      destruct Hs as [->| ->]; [done|]. unfold BTreeMap.remove. rewrite !filter_cons_False by (cbn; tauto). done.
    + eexists _, _, _. split; [done|]. unfold time_ok. cbn.
      assert (BTreeMap.insert (deadline_ms t, Timers.id t) cx (TIMERS (timers (shared x))) =
        [((deadline_ms t, Timers.id t), cx)]) as ->.
      { destruct Hs as [->| ->]; [done|]. cbn. rewrite decide_False by apply BTreeMap.lt_irrefl.
        by rewrite decide_True. }
      split_and!; try done; [by right|lia].
Qed.

(** ** Each task keeps to its own part *)

(** The tasks in the order they are spawned, which is that of their identifiers. *)
Definition kind (f : fut) : TaskId :=
  match f with HandleSerial _ => 0 | NetworkTask _ => 1 | TimeTask _ => 2 end.

Definition serial_part x : U * stream Qs A TaskWaker :=
  (SERIAL_TTY (shared x), serial_in (shared x)).
Definition net_part x :
    option D * stream Qn A TaskWaker * option NetworkInterface.t * R * list (list Z) * list (line RandomError) :=
  (VIRTIO_NET (shared x), net_in (shared x), NETWORK_INTERFACE x, net_rng x, net_sent x, net_console x).
Definition time_part x : clock TaskWaker * list Z := (timers (shared x), time_console x).

(** Nothing changes but the part of the task of kind [i]. *)
Definition only (i : TaskId) x x' : Prop :=
  (i ≠ 0 → serial_part x' = serial_part x) ∧
  (i ≠ 1 → net_part x' = net_part x) ∧ (i ≠ 2 → time_part x' = time_part x).

Lemma only_trans i x1 x2 x3 : only i x1 x2 → only i x2 x3 → only i x1 x3.
Proof.
  intros (S & N & T) (S' & N' & T'). split_and!; intros;
    [by rewrite S', S|by rewrite N', N|by rewrite T', T].
Qed.

Lemma fut_ok_only i cx g x x' : only i x x' → kind g ≠ i → fut_ok cx g x → fut_ok cx g x'.
Proof.
  intros (S & N & T) Hg. destruct g as [s|s|s]; cbn in *.
  - specialize (S ltac:(lia)). injection S as _ S. unfold serial_ok. by rewrite S.
  - specialize (N ltac:(lia)). injection N as N1 N2 N3 N4 _ _. unfold net_ok. by rewrite N1, N2, N3, N4.
  - specialize (T ltac:(lia)). injection T as T _. unfold time_ok. by rewrite T.
Qed.

Lemma fut_step_ok cx f x :
  fut_ok cx f x →
  ∃ r x', fut_step cx f x = Ret (r, x') ∧ fut_ok cx (at_of r) x' ∧ (packets_left x' ≤ packets_left x)%nat ∧
    advances fut_rank r (fut_rank f x) x' ∧ kind (at_of r) = kind f ∧ only (kind f) x x' ∧
    plat (shared x') = plat (shared x).
Proof.
  intros Hf. destruct f as [s|s|s]; cbn [fut_ok fut_step kind] in *.
  - destruct (serial_step_ok cx s x Hf) as (r & u & st & E & Hok & Hadv & _). rewrite E, bind_Ret.
    eexists _, _. split; [done|]. by destruct r.
  - destruct (net_step_ok cx s x Hf) as (r & x' & E & Hok & Hc' & Hadv & st & x1 & Hx & Hx1 & _).
    rewrite E, bind_Ret. eexists _, _. split; [done|].
    assert (only 1 x x' ∧ plat (shared x') = plat (shared x)) as [? ?]
      by (subst x'; by destruct Hx1 as [->|[w ->]]). by destruct r.
  - destruct (time_step_ok cx s x Hf) as (r & c & l & E & Hok & Hadv & _). rewrite E, bind_Ret.
    eexists _, _. split; [done|]. by destruct r.
Qed.

(** ** A whole poll *)

Lemma poll_fut_ok rounds cx f x :
  fut_ok cx f x → (fut_rank f x < rounds)%nat →
  ∃ f' x', poll_fut rounds cx f x = Ret (f', x') ∧ fut_ok cx f' x' ∧ (packets_left x' ≤ packets_left x)%nat ∧
    kind f' = kind f ∧ only (kind f) x x'.
Proof.
  revert f x. induction rounds as [|rounds IH]; intros f x Hf Hr; [lia|]. cbn [poll_fut].
  destruct (fut_step_ok cx f x Hf) as (r & x1 & E & Hf1 & Hc1 & Hadv & Hk & Ho & _).
  rewrite E, bind_Ret. destruct r as [f1|f1]; cbn in *; [|by eexists _, _].
  destruct (IH f1 x1) as (f' & x' & E' & Hf' & Hc' & Hk' & Ho'); [done|lia|].
  exists f', x'. split_and!; try done; [lia|congruence|]. rewrite Hk in Ho'. by eapply only_trans.
Qed.

(** Draining the card without an interrupt in between is [handle_queue_interrupt]. *)
Lemma poll_drain n cx x self d s :
  NETWORK_INTERFACE x = Some self → VIRTIO_NET (shared x) = Some d →
  handle_queue_interrupt n (self, net_world d x) = Ret (tt, s) →
  rtc (λ a a', network_task_step cx a.1 a.2 = Ret (Next a'.1, a'.2)) (NetReceive, x) (NetAwait AtStart, put_net s x).
Proof.
  revert x self d. induction n as [|n IH]; intros x self d Hi Hd; [done|]. cbn [handle_queue_interrupt].
  unfold mbind, prog_bind. destruct (receive (self, net_world d x)) as [[r s1]| |] eqn:E1; [|done|done].
  pose proof (on_interface_eq _ x self d _ _ Hi Hd E1) as O1. destruct r as [b|e].
  - destruct (process_rx (rx_packet b) s1) as [[[] s2]| |] eqn:E2; [|done|done].
    destruct (recycle b s2) as [[[] s3]| |] eqn:E3; [|done|done]. intros E.
    assert (∀ s : NetworkInterface.t * world D R, s = (s.1, net_world (driver s.2) (put_net s x))) as Hs
      by (by intros [? []]).
    rewrite (Hs s1) in E2. rewrite (Hs s2) in E3. rewrite (Hs s3) in E.
    pose proof (on_interface_eq (process_rx (rx_packet b)) (put_net s1 x) s1.1 (driver s1.2) _ _ eq_refl eq_refl E2) as O2.
    pose proof (on_interface_eq (recycle b) (put_net s2 x) s2.1 (driver s2.2) _ _ eq_refl eq_refl E3) as O3.
    eapply (rtc_l _ _ (NetProcess b, put_net s1 x)); [cbn [network_task_step fst snd]; by rewrite O1|].
    eapply (rtc_l _ _ (NetRecycle b, put_net s2 x)); [cbn [network_task_step fst snd]; by rewrite O2|].
    eapply (rtc_l _ _ (NetReceive, put_net s3 x)); [cbn [network_task_step fst snd]; by rewrite O3|].
    by apply (IH (put_net s3 x) s3.1 (driver s3.2)).
  - intros [= <-]. apply rtc_once. cbn [network_task_step fst snd]. by rewrite O1.
Qed.

(** A queue of 100 makes 608 actions at the most, and every packet three. *)
Definition POLL_ROUNDS : nat := 609.

Lemma queued_bound {Q E} `{HQ : ArrayQueue Q E} `{HQok : !ArrayQueueOk Q E} (st : stream Q A TaskWaker) :
  stream_up st → (length (queued st) ≤ 100)%nat.
Proof. intros (q & Hq & _ & Hl). unfold queued, len, QUEUE_SIZE in *. rewrite Hq. lia. Qed.

Lemma fut_rank_bound cx f x : fut_ok cx f x → (fut_rank f x < POLL_ROUNDS + 3 * packets_left x)%nat.
Proof.
  unfold POLL_ROUNDS. destruct f as [[| |b n p]|s|[| |t]]; cbn [fut_ok fut_rank]; intros Hf; cbn [serial_rank]; try lia.
  - apply queued_bound in Hf. lia.
  - destruct Hf as [Hf%queued_bound _]. unfold poll_rank. destruct p as [| | |?|[]]; lia.
  - destruct Hf as (_ & _ & Hf). unfold net_rank.
    destruct s as [| |p| |b|b]; [lia|..]; destruct Hf as [Hf%queued_bound _]; try lia.
    unfold poll_rank. destruct p as [| | |?|[]]; lia.
  - cbn. lia.
  - cbn. lia.
  - cbn [time_rank]. destruct (decide _); lia.
Qed.

(** ** The executor's interface *)

Context {Q : Type} `{HQ : ArrayQueue Q TaskId} `{HQok : !ArrayQueueOk Q TaskId}.

(** None of the tasks ever ends, and none wakes another.  The card has [packets] at the
    most. *)
Definition kernel_future (packets : nat) : Future fut env Q := λ w f x q,
  '(f, x) ← poll_fut (POLL_ROUNDS + 3 * packets) w f x; Ret (false, f, x, q).

(** Every task has the identifier of its kind, and what it relies on. *)
Definition tasks_ok (packets : nat) (ts : gmap TaskId (Task fut)) x : Prop :=
  (packets_left x ≤ packets)%nat ∧
  ∀ i t, ts !! i = Some t → kind (future t) = i ∧ fut_ok (TaskWaker_new i) (future t) x.

Lemma tasks_ok_poll packets ts i t f x x' :
  tasks_ok packets ts x → ts !! i = Some t → (packets_left x' ≤ packets)%nat → kind f = i →
  fut_ok (TaskWaker_new i) f x' → only i x x' →
  tasks_ok packets (<[i := {| id := id t; future := f |}]> ts) x'.
Proof.
  intros [_ Hts] Hi Hc Hk Hf Ho. split; [done|]. intros j t'. rewrite lookup_insert_Some.
  intros [[<- <-]|[Hne Hj]]; [done|]. destruct (Hts j t' Hj) as [Hkj Hfj]. split; [done|].
  eapply fut_ok_only; [done| |done]. congruence.
Qed.

#[local] Instance kernel_future_ok (packets : nat) : FutureOk (Future0 := kernel_future packets) fut env Q.
Proof.
  refine {| budget := λ _, 0%nat; pool_ok := tasks_ok packets |}.
  intros ts i t [wi] x q Hts Hi Hw. cbn in Hw. subst wi. destruct (Hts) as [Hc Hall].
  destruct (Hall i t Hi) as [Hk Hf]. pose proof (fut_rank_bound _ _ _ Hf) as Hb.
  destruct (poll_fut_ok (POLL_ROUNDS + 3 * packets) (TaskWaker_new i) (future t) x)
    as (f' & x' & E & Hf' & Hc' & Hk' & Ho); [done|lia|].
  exists false, f', x', q, []. change {| task_id := i |} with (TaskWaker_new i).
  unfold poll_future, kernel_future. rewrite E, bind_Ret, app_nil_r.
  split_and!; try done. rewrite Hk in *. eapply tasks_ok_poll; try done. lia.
Defined.
End Proofs.
