(* ===== verification/Processor.v ===== *)
(** * The processor's tables: [kernel/src/gdt.rs], the IDT of
      [kernel/src/interrupts.rs] and the mapper of [kernel/src/memory.rs]

    The tables are types of the [x86_64] crate: an interface, with what its documentation
    says of them.  The processor finds a handler through the table that was loaded, and
    the stack a gate asks for through the task register. *)

From S2P Require Import Prelude Ppa Apic Device.
Local Open Scope Z_scope.

Definition DOUBLE_FAULT_IST_INDEX : Z := 0.
Definition STACK_SIZE : Z := PAGE_SIZE * 5.

(** The functions the IDT points to. *)
Inductive handler_fn :=
| breakpoint_handler | double_fault_handler | page_fault_handler | gp_fault_handler
| com1_interrupt_handler | timer_interrupt_handler | virtio_irq.

(** The entries of [InterruptDescriptorTable], by field or by index. *)
Inductive idt_entry := breakpoint | double_fault | page_fault | general_protection_fault | Index (v : Z).

(** The vector of an entry. *)
Definition vector_of (e : idt_entry) : Z :=
  match e with
  | breakpoint => 3 | double_fault => 8 | general_protection_fault => 13 | page_fault => 14
  | Index v => v
  end.

Class X86 := {
  PhysAddr_new : Z → outcome Z;
  VirtAddr_new : Z → outcome Z;
  VirtAddr_from_ptr : Z → outcome Z;
  VirtAddr_add : Z → Z → outcome Z;
  TaskStateSegment : Type;
  tss_new : TaskStateSegment;
  interrupt_stack_table : TaskStateSegment → list Z;
  set_interrupt_stack_table : list Z → TaskStateSegment → TaskStateSegment;
  Descriptor : Type;
  kernel_code_segment : Descriptor;
  tss_segment : TaskStateSegment → Descriptor;
  GlobalDescriptorTable : Type;
  SegmentSelector : Type;
  gdt_new : GlobalDescriptorTable;
  gdt_append : Descriptor → GlobalDescriptorTable → outcome (SegmentSelector * GlobalDescriptorTable);
  InterruptDescriptorTable : Type;
  idt_new : InterruptDescriptorTable;
  set_handler_fn : idt_entry → handler_fn → InterruptDescriptorTable → outcome InterruptDescriptorTable;
  set_stack_index : idt_entry → Z → InterruptDescriptorTable → InterruptDescriptorTable;
  OffsetPageTable : Type;
  OffsetPageTable_new : Z → Z → OffsetPageTable;
  translate_addr : OffsetPageTable → Z → option Z;
}.

Section Tables.
Context `{HX : X86}.

(** The registers the start-up sets or reads, and [MAPPER]. *)
Record processor := Processor {
  GDTR : option GlobalDescriptorTable;
  CS : option SegmentSelector;
  TR : option SegmentSelector;
  IDTR : option InterruptDescriptorTable;
  Cr3 : Z;
  MAPPER : option OffsetPageTable;
}.

(** [TSS], with the address of its [STACK] *)
Definition TSS (STACK : Z) : outcome TaskStateSegment :=
  let tss := tss_new in
  stack_start ← VirtAddr_from_ptr STACK;
  stack_end ← VirtAddr_add stack_start STACK_SIZE;
  l ← set_index (interrupt_stack_table tss) DOUBLE_FAULT_IST_INDEX stack_end;
  Ret (set_interrupt_stack_table l tss).

Record Selectors := { code_selector : SegmentSelector; tss_selector : SegmentSelector }.

Definition GDT (STACK : Z) : outcome (GlobalDescriptorTable * Selectors) :=
  '(code_selector, gdt) ← gdt_append kernel_code_segment gdt_new;
  tss ← TSS STACK;
  '(tss_selector, gdt) ← gdt_append (tss_segment tss) gdt;
  Ret (gdt, {| code_selector := code_selector; tss_selector := tss_selector |}).

(** [gdt::init] *)
Definition gdt_init (STACK : Z) : prog processor unit := λ p,
  '(gdt, selectors) ← GDT STACK;
  Ret (tt, Processor (Some gdt) (Some (code_selector selectors)) (Some (tss_selector selectors))
             (IDTR p) (Cr3 p) (MAPPER p)).

Definition IDT : outcome InterruptDescriptorTable :=
  let idt := idt_new in
  idt ← set_handler_fn breakpoint breakpoint_handler idt;
  idt ← set_handler_fn double_fault double_fault_handler idt;
  let idt := set_stack_index double_fault DOUBLE_FAULT_IST_INDEX idt in
  idt ← set_handler_fn page_fault page_fault_handler idt;
  idt ← set_handler_fn general_protection_fault gp_fault_handler idt;
  idt ← set_handler_fn (Index COM1_VECTOR) com1_interrupt_handler idt;
  idt ← set_handler_fn (Index TIMER_VECTOR) timer_interrupt_handler idt;
  idt ← set_handler_fn (Index VIRTIO_NET_VECTOR) virtio_irq idt;
  Ret idt.

Definition init_idt : prog processor unit := λ p,
  idt ← IDT;
  Ret (tt, Processor (GDTR p) (CS p) (TR p) (Some idt) (Cr3 p) (MAPPER p)).

(** Where the level 4 table is mapped: the offset is [boot_info.physical_memory_offset]. *)
Definition active_level_4_table (offset : Z) (p : processor) : outcome Z :=
  virt ← VirtAddr_new offset;
  VirtAddr_add virt (Cr3 p).

(** [memory::init], in [MAPPER.call_once] *)
Definition memory_init (offset : Z) (p : processor) : outcome OffsetPageTable :=
  level_4_table ← active_level_4_table offset p;
  virt ← VirtAddr_new offset;
  Ret (OffsetPageTable_new level_4_table virt).
Definition init_mapper (offset : Z) : prog processor unit := λ p,
  match MAPPER p with
  | Some _ => Ret (tt, p)
  | None =>
      mapper ← memory_init offset p;
      Ret (tt, Processor (GDTR p) (CS p) (TR p) (IDTR p) (Cr3 p) (Some mapper))
  end.
End Tables.
Arguments processor {HX}.

(** What the crate documents: physical addresses have 52 bits and virtual addresses are
    canonical; a descriptor stays where [append] put it, and the table of
    eight has seven entries after the null descriptor, of which a task state segment takes
    two and can be found again; a gate has the handler it was given and, if set, a stack; the seven stacks of the
    segment are unset; the exception fields are no indices. *)
Class X86Ok `{HX : X86} := {
  PhysAddr_new_ok : ∀ x, urange 52 x → PhysAddr_new x = Ret x;
  VirtAddr_new_ok : ∀ v, canonical v → VirtAddr_new v = Ret v;
  VirtAddr_from_ptr_ok : ∀ v, canonical v → VirtAddr_from_ptr v = Ret v;
  VirtAddr_add_ok : ∀ v x, canonical v → 0 ≤ x → canonical (v + x) → VirtAddr_add v x = Ret (v + x);
  descriptor_at : GlobalDescriptorTable → SegmentSelector → option Descriptor;
  gdt_room : GlobalDescriptorTable → Z;
  gdt_size : Descriptor → Z;
  gdt_new_ok : gdt_room gdt_new = 7 ∧ ∀ sel, descriptor_at gdt_new sel = None;
  code_size : gdt_size kernel_code_segment = 1;
  segment_of : Descriptor → option TaskStateSegment;
  segment_of_ok : ∀ t, segment_of (tss_segment t) = Some t;
  tss_size : ∀ t, gdt_size (tss_segment t) = 2;
  gdt_append_ok : ∀ d g, gdt_size d ≤ gdt_room g →
    ∃ sel g', gdt_append d g = Ret (sel, g') ∧ gdt_room g' = gdt_room g - gdt_size d ∧
      descriptor_at g sel = None ∧ descriptor_at g' sel = Some d ∧
      ∀ sel', sel' ≠ sel → descriptor_at g' sel' = descriptor_at g sel';
  tss_new_ok : len (interrupt_stack_table tss_new) = 7;
  set_ist_ok : ∀ l t, len l = 7 → interrupt_stack_table (set_interrupt_stack_table l t) = l;
  gate : InterruptDescriptorTable → Z → option (handler_fn * option Z);
  idt_new_ok : ∀ v, gate idt_new v = None;
  set_handler_fn_ok : ∀ e f i, (∀ v, e = Index v → 32 ≤ v < 256) →
    ∃ i', set_handler_fn e f i = Ret i' ∧
      ∀ v, gate i' v = if decide (v = vector_of e) then Some (f, None) else gate i v;
  set_stack_index_ok : ∀ e n i v, 0 ≤ n < 7 →
    gate (set_stack_index e n i) v =
      if decide (v = vector_of e) then (λ g, (g.1, Some n)) <$> gate i v else gate i v;
  table_at : OffsetPageTable → Z;
  mapping_offset : OffsetPageTable → Z;
  OffsetPageTable_new_ok : ∀ t o, table_at (OffsetPageTable_new t o) = t ∧
    mapping_offset (OffsetPageTable_new t o) = o;
}.

(** ** What the processor finds *)

Section Proofs.
Context `{HXok : X86Ok}.

(** The handler for a vector, through the loaded IDT. *)
Definition handler_for (p : processor) (v : Z) : option handler_fn :=
  idt ← IDTR p; fst <$> gate idt v.

(** A stack the processor switches to: its gate names an entry of the table in the
    segment the task register selects. *)
Definition stack_for (p : processor) (v : Z) (top : Z) : Prop :=
  ∃ idt f n gdt sel tss, IDTR p = Some idt ∧ gate idt v = Some (f, Some n) ∧
    GDTR p = Some gdt ∧ TR p = Some sel ∧ (descriptor_at gdt sel ≫= segment_of) = Some tss ∧
    get (interrupt_stack_table tss) n = Some top.

(** The vectors of the kernel. *)
Definition vectors : list (Z * handler_fn) :=
  [(3, breakpoint_handler); (8, double_fault_handler); (14, page_fault_handler);
   (13, gp_fault_handler); (COM1_VECTOR, com1_interrupt_handler);
   (TIMER_VECTOR, timer_interrupt_handler); (VIRTIO_NET_VECTOR, virtio_irq)].

Definition assoc (v : Z) (l : list (Z * handler_fn)) : option handler_fn :=
  head (omap (λ e, if decide (e.1 = v) then Some e.2 else None) l).

(** Only the double fault asks for a stack. *)
Definition stack_index (v : Z) : option Z := if decide (v = 8) then Some DOUBLE_FAULT_IST_INDEX else None.

Lemma IDT_eq : ∃ idt, IDT = Ret idt ∧ ∀ v, gate idt v = (λ f, (f, stack_index v)) <$> assoc v vectors.
Proof.
  unfold IDT.
  destruct (set_handler_fn_ok breakpoint breakpoint_handler idt_new) as (i1 & -> & G1); [done|].
  rewrite bind_Ret.
  destruct (set_handler_fn_ok double_fault double_fault_handler i1) as (i2 & -> & G2); [done|].
  rewrite bind_Ret. cbn zeta. set (i3 := set_stack_index double_fault DOUBLE_FAULT_IST_INDEX i2).
  pose proof (λ v, set_stack_index_ok double_fault DOUBLE_FAULT_IST_INDEX i2 v ltac:(done)) as G3. fold i3 in G3.
  destruct (set_handler_fn_ok page_fault page_fault_handler i3) as (i4 & -> & G4); [done|].
  rewrite bind_Ret.
  destruct (set_handler_fn_ok general_protection_fault gp_fault_handler i4) as (i5 & -> & G5); [done|].
  rewrite bind_Ret.
  destruct (set_handler_fn_ok (Index COM1_VECTOR) com1_interrupt_handler i5) as (i6 & -> & G6);
    [intros v [= <-]; unfold COM1_VECTOR; lia|]. rewrite bind_Ret.
  destruct (set_handler_fn_ok (Index TIMER_VECTOR) timer_interrupt_handler i6) as (i7 & -> & G7);
    [intros v [= <-]; unfold TIMER_VECTOR; lia|]. rewrite bind_Ret.
  destruct (set_handler_fn_ok (Index VIRTIO_NET_VECTOR) virtio_irq i7) as (i8 & -> & G8);
    [intros v [= <-]; unfold VIRTIO_NET_VECTOR; lia|]. rewrite bind_Ret.
  exists i8. split; [done|]. intros v.
  rewrite G8, G7, G6, G5, G4, G3, G2, G1, idt_new_ok. unfold stack_index, assoc, vectors.
  cbn [vector_of omap list_omap head fst snd].
  destruct (decide (v ∈ [3; 8; 14; 13; 36; 64; 96])) as [Hv|Hv]; rewrite !elem_of_cons, elem_of_nil in Hv.
  - by destruct Hv as [->|[->|[->|[->|[->|[->|[->|[]]]]]]]].
  - unfold COM1_VECTOR, TIMER_VECTOR, VIRTIO_NET_VECTOR. rewrite !decide_False by lia. done.
Qed.

Lemma GDT_eq STACK :
  canonical STACK → canonical (STACK + STACK_SIZE) →
  ∃ gdt selectors tss, GDT STACK = Ret (gdt, selectors) ∧
    descriptor_at gdt (code_selector selectors) = Some kernel_code_segment ∧
    descriptor_at gdt (tss_selector selectors) = Some (tss_segment tss) ∧
    get (interrupt_stack_table tss) DOUBLE_FAULT_IST_INDEX = Some (STACK + STACK_SIZE).
Proof.
  intros Hptr Hadd. unfold GDT, TSS. assert (0 ≤ STACK_SIZE) as Hsz by done. destruct gdt_new_ok as [Hroom Hnone].
  destruct (gdt_append_ok kernel_code_segment gdt_new) as (cs & g1 & -> & Hr1 & _ & Hcs & _);
    [rewrite code_size; lia|]. rewrite bind_Ret. cbn zeta.
  rewrite VirtAddr_from_ptr_ok, bind_Ret, VirtAddr_add_ok, bind_Ret by done.
  pose proof tss_new_ok as Hl. set (l := interrupt_stack_table tss_new) in *.
  rewrite set_index_ok, !bind_Ret by (rewrite Hl; done). set (l' := <[_ := _]> l).
  set (tss := set_interrupt_stack_table l' tss_new).
  destruct (gdt_append_ok (tss_segment tss) g1) as (ts & g2 & -> & _ & Hfresh & Hts & Hold);
    [rewrite tss_size, Hr1, code_size; lia|]. rewrite bind_Ret.
  eexists _, _, tss. split; [done|]. split; [|split; [done|]].
  - cbn. rewrite Hold; [done|]. intros ->. congruence.
  - unfold tss. rewrite set_ist_ok by (unfold l', len; by rewrite length_insert).
    rewrite get_lookup by done. apply list_lookup_insert_eq. change (0 < length l)%nat. unfold len in Hl. lia.
Qed.

(** The mapper is over the table the processor uses, where the boot loader mapped it. *)
Lemma memory_init_eq offset (p : processor) :
  canonical offset → 0 ≤ Cr3 p → canonical (offset + Cr3 p) →
  memory_init offset p = Ret (OffsetPageTable_new (offset + Cr3 p) offset).
Proof.
  intros Ho H0 Ha. unfold memory_init, active_level_4_table.
  by rewrite VirtAddr_new_ok, bind_Ret, VirtAddr_add_ok, bind_Ret by done.
Qed.

(** The tables are loaded, and lead where they should. *)
Record tables_ok (STACK : Z) (p : processor) : Prop := {
  vectors_ok : ∀ v, handler_for p v = assoc v vectors;
  stacks_ok : ∀ v top, stack_for p v top ↔ v = 8 ∧ top = STACK + 20480;
  code_ok : ∃ gdt cs, GDTR p = Some gdt ∧ CS p = Some cs ∧ descriptor_at gdt cs = Some kernel_code_segment;
}.

Lemma tables_loaded STACK p :
  canonical STACK → canonical (STACK + STACK_SIZE) →
  ∃ p1 p2, gdt_init STACK p = Ret (tt, p1) ∧ init_idt p1 = Ret (tt, p2) ∧ tables_ok STACK p2 ∧
    Cr3 p2 = Cr3 p ∧ MAPPER p2 = MAPPER p.
Proof.
  intros Hptr Hend. destruct (GDT_eq STACK Hptr Hend) as (gdt & sels & tss & Eg & Hcs & Hts & Hist).
  destruct IDT_eq as (idt & Ei & Hgate). eexists _, _. split; [unfold gdt_init; by rewrite Eg|].
  split; [unfold init_idt; by rewrite Ei|]. split_and!; [|done..]. split.
  - intros v. unfold handler_for. cbn. rewrite Hgate. by destruct (assoc v vectors).
  - intros v top. split.
    + intros (idt' & f & n & gdt' & sel & tss' & [= <-] & Hg & [= <-] & [= <-] & Hd & Htop).
      rewrite Hgate in Hg. apply fmap_Some in Hg as (f' & _ & [= <- Hn]). unfold stack_index in Hn.
      destruct (decide (v = 8)) as [->|]; [|done]. injection Hn as ->.
      rewrite Hts in Hd. cbn in Hd. rewrite segment_of_ok in Hd. injection Hd as <-.
      split; [done|]. rewrite Hist in Htop. by injection Htop as <-.
    + intros [-> ->]. exists idt, double_fault_handler, DOUBLE_FAULT_IST_INDEX, gdt, (tss_selector sels), tss.
      split_and!; done || by rewrite Hgate || (rewrite Hts; apply segment_of_ok).
  - by eexists _, _.
Qed.

(** The tables the start-up loads lead every vector to its handler.  [gdt::init] and
    [init_idt] return whatever was loaded before; after them the processor finds, for
    every vector, exactly the handler the kernel means for it: the four exceptions at their
    architectural vectors, the serial line, the timer and the card at theirs, and nothing
    anywhere else.  The double fault, and no other vector, switches to a stack of its own,
    the end of the 20 KiB set aside for it, through the segment the task register selects;
    the code selector selects a code segment; and no two vectors coincide. *)
Theorem vectors_delivered (STACK : Z) (p : processor)
    (Hptr : canonical STACK) (Hend : canonical (STACK + STACK_SIZE)) :
  ∃ p', (gdt_init STACK;; init_idt) p = Ret (tt, p') ∧
    (∀ v, handler_for p' v = assoc v vectors) ∧ NoDup (map fst vectors) ∧
    (∀ v top, stack_for p' v top ↔ v = 8 ∧ top = STACK + 20480) ∧
    (∃ gdt cs, GDTR p' = Some gdt ∧ CS p' = Some cs ∧ descriptor_at gdt cs = Some kernel_code_segment).
Proof.
  destruct (tables_loaded STACK p Hptr Hend) as (p1 & p2 & E1 & E2 & [Hv Hs Hc] & _).
  exists p2. split; [by erewrite prog_bind_Ret by exact E1|]. split_and!; try done.
  apply (bool_decide_unpack _). by vm_compute.
Qed.
End Proofs.

(** ** Tables as lists and functions *)

Module ExampleX86.
(** A descriptor: the code segment, or a task state segment with its stacks. *)
Definition size (d : option (list Z)) : Z := match d with None => 1 | Some _ => 2 end.
Definition used (g : list (option (list Z))) : Z := foldr (λ d n, size d + n) 0 g.
Lemma used_app g d : used (g ++ [d]) = used g + size d.
Proof. induction g as [|d' g IH]; cbn; [lia|]. unfold used in IH. rewrite IH. lia. Qed.

#[global] Instance x86 : X86 := {|
  PhysAddr_new := phys_new; VirtAddr_new := virt_new; VirtAddr_from_ptr := virt_new;
  VirtAddr_add := λ a b, virt_new (a + b);
  TaskStateSegment := list Z; tss_new := replicate 7 0; interrupt_stack_table := λ t, t;
  set_interrupt_stack_table := λ l _, l;
  Descriptor := option (list Z); kernel_code_segment := None; tss_segment := Some;
  GlobalDescriptorTable := list (option (list Z)); SegmentSelector := nat; gdt_new := [];
  gdt_append := λ d g, if decide (size d ≤ 7 - used g) then Ret (length g, g ++ [d]) else Panic;
  InterruptDescriptorTable := Z → option (handler_fn * option Z); idt_new := λ _, None;
  set_handler_fn := λ e f i, Ret (λ v, if decide (v = vector_of e) then Some (f, None) else i v);
  set_stack_index := λ e n i v, if decide (v = vector_of e) then (λ g, (g.1, Some n)) <$> i v else i v;
  OffsetPageTable := Z * Z; OffsetPageTable_new := pair;
  translate_addr := λ m v, Some (v - m.2) |}.
#[global] Instance x86_ok : X86Ok.
Proof.
  apply (Build_X86Ok x86) with (descriptor_at := λ g n, g !! n) (gdt_room := λ g, 7 - used g)
    (gdt_size := size) (segment_of := λ d, d) (gate := λ i v, i v) (table_at := fst) (mapping_offset := snd);
    try done.
  - exact phys_new_ok.
  - exact virt_new_ok.
  - exact virt_new_ok.
  - intros v x _ _ Hc. by apply virt_new_ok.
  - intros d g Hd. exists (length g), (g ++ [d]). cbn. rewrite decide_True, used_app by done.
    split_and!; [done|lia|by apply lookup_ge_None|by apply list_lookup_middle|].
    intros sel Hne. destruct (decide (sel < length g)%nat); [by apply lookup_app_l|].
    rewrite !lookup_ge_None_2; [done|lia|]. rewrite length_app. cbn. lia.
  - intros e f i _. by eexists.
Defined.
Definition p0 : processor := Processor None None None None 0x1000 None.
End ExampleX86.

Lemma vectors_delivered_witness :
  ∃ p', (gdt_init 0x200000;; init_idt) ExampleX86.p0 = Ret (tt, p') ∧
    handler_for p' 36 = Some com1_interrupt_handler ∧ handler_for p' 32 = None ∧
    stack_for p' 8 (0x200000 + 20480).
Proof.
  destruct (vectors_delivered 0x200000 ExampleX86.p0) as (p' & E & Hv & _ & Hs & _);
    [unfold canonical; lia|unfold canonical, STACK_SIZE, PAGE_SIZE; lia|].
  exists p'. split; [exact E|]. rewrite !Hv. split; [reflexivity|]. split; [reflexivity|].
  apply Hs. split; reflexivity.
Defined.
