(* ===== verification/Board.v ===== *)
(** * The board: a machine, its processor and the memory its drivers are given

    The drivers of the [virtio_drivers] crate call back into the kernel for memory, through
    [KernelHal] of [kernel/src/virtio.rs].  So the machine the start-up works on is the
    hardware with the processor and the memory statics beside it, and a driver of the
    hardware that is a program over the [Hal] is a driver of the board. *)

From S2P Require Import Prelude Utils Pci Probe Rng RngTheorems Ppa Apic Calibration Device Hal Processor.
Import PhysicalPageAllocator.
Local Open Scope Z_scope.

(** ** Drivers of a machine, beside the interrupt code's tables *)

#[export] Instance platform_driver {H V} `{HD : VirtioDriver H V} : VirtioDriver (platform H) V := {|
  Transport := Transport; VirtioPciError := VirtioPciError; DriverError := DriverError;
  transport_new := λ df p, '(r, h) ← transport_new df (hw p); Ret (r, set_hw h p);
  driver_new := λ t p, '(r, h) ← driver_new t (hw p); Ret (r, set_hw h p);
  enable_interrupts := λ v p, let '(v, h) := enable_interrupts v (hw p) in (v, set_hw h p) |}.

#[export] Instance platform_entropy {H V} `{HD : VirtioDriver H V} `{HE : !EntropyHw H V} :
    EntropyHw (platform H) V := {|
  request_entropy := λ buf (v : V) (p : platform H),
    let '(r, out, v, h) := request_entropy buf v (hw p) in (r, out, v, set_hw h p);
  has_rdrand := λ p : platform H, has_rdrand (hw p);
  rdrand64_step := λ p : platform H, let '(s, w, h) := rdrand64_step (hw p) in (s, w, set_hw h p);
  rdtsc := λ p : platform H, let '(t, h) := rdtsc (hw p) in (t, set_hw h p) |}.

#[export] Instance platform_entropy_ok {H V} `{HD : VirtioDriver H V} `{HE : !EntropyHw H V}
    `{HEok : !EntropyHwOk H V} : EntropyHwOk (platform H) V.
Proof.
  constructor.
  - intros buf v p r out v' p' Hb. cbn.
    destruct (request_entropy buf v (hw p)) as [[[r1 out1] v1] h1] eqn:E. intros [= <- <- <- <-].
    by eapply request_entropy_ok.
  - intros p. pose proof (rdrand_ok (hw p)) as E. cbn. by destruct (rdrand64_step (hw p)) as [[] ?].
  - intros p. pose proof (rdtsc_ok (hw p)) as E. cbn. by destruct (rdtsc (hw p)).
Qed.

(** The interrupt code's tables, which no driver touches. *)
Definition tables {H} (p : platform H) :
    option (list IoApicInfo) * option (list Iso) * option Z * option Z :=
  (IO_APICS p, ISOS p, Apic.OFFSET p, LAPIC_BASE p).

Definition with_tables {H} T (P : H → Prop) (p : platform H) : Prop := tables p = T ∧ P (hw p).

#[export] Instance platform_keeps {H} `{HP : PortIo H} T (P : H → Prop) `{HC : !ConfigPorts P} :
  ConfigPorts (with_tables T P).
Proof.
  split.
  - intros v p [HT Hp]. split; [done|]. by apply config_address_keeps.
  - intros p [HT Hp]. apply config_data_keeps in Hp. cbn. by destruct (port_read 32 0xCFC (hw p)).
Qed.

#[export] Instance platform_view_keeps {H A} `{HP : PortIo H} (f : H → A) x `{HC : !ConfigPorts (λ h, f h = x)} :
  ConfigPorts (λ p : platform H, f (hw p) = x).
Proof.
  split.
  - intros v p Hp. by apply (config_address_keeps (P := λ h, f h = x)).
  - intros p Hp. apply (config_data_keeps (P := λ h, f h = x)) in Hp. cbn. by destruct (port_read 32 0xCFC (hw p)).
Qed.

#[export] Instance platform_driver_ok {H V} T (ready up : H → Prop) `{HP : PortIo H} `{HH : !PciHost H}
    `{HV : VirtioPci} `{HD : !VirtioDriver H V} `{HDok : !VirtioDriverOk H V ready up} :
  VirtioDriverOk (platform H) V (with_tables T ready) (with_tables T up).
Proof.
  refine {| transports := λ p : platform H, transports (hw p) |}.
  - intros df p [HT Hp]. destruct (transport_ok df (hw p) Hp) as (r & h & E & Hh & Ht & Hr).
    exists r, (set_hw h p). cbn. by rewrite E.
  - intros t p [HT Hp]. destruct (driver_ok (VirtioDriver0 := HD) t (hw p) Hp) as (r & h & E & Hh & Ht & Hr).
    exists r, (set_hw h p). cbn in t |- *. rewrite E. by destruct r.
  - intros v p [HT Hp]. destruct (enable_ok v (hw p) Hp) as (Hh & Ht & Hu). cbn.
    by destruct (enable_interrupts v (hw p)).
Defined.

(** ** The board *)

Record board (H : Type) `{HX : X86} := Board { host : H; cpu : processor; memory : Hal.memory }.
Arguments Board {H HX} _ _ _.
Arguments host {H HX} _.
Arguments cpu {H HX} _.
Arguments memory {H HX} _.

Section Board.
Context {H : Type} `{HX : X86}.

Definition set_host (h : H) (b : board H) : board H := Board h (cpu b) (memory b).

#[export] Instance board_ports `{PortIo H} : PortIo (board H) := {|
  port_read := λ w a b, ((port_read w a (host b)).1, set_host (port_read w a (host b)).2 b);
  port_write := λ w a v b, set_host (port_write w a v (host b)) b |}.
#[export] Instance board_mmio `{Mmio H} : Mmio (board H) := {|
  mmio_read := λ a b, ((mmio_read a (host b)).1, set_host (mmio_read a (host b)).2 b);
  mmio_write := λ a v b, set_host (mmio_write a v (host b)) b |}.
#[export] Instance board_legacy `{Legacy H} : Legacy (board H) := {|
  msr_read := λ a b, ((msr_read a (host b)).1, set_host (msr_read a (host b)).2 b);
  msr_write := λ a v b, set_host (msr_write a v (host b)) b;
  pics_disable := λ m s b, set_host (pics_disable m s (host b)) b |}.
#[export] Instance board_ioapic `{IoApicHw H} : IoApicHw (board H) := {|
  RedirectionTableEntry := RedirectionTableEntry; rte_default := rte_default;
  set_vector := set_vector; set_dest := set_dest; set_level_low := set_level_low;
  ioapic_init := λ a o b, set_host (ioapic_init a o (host b)) b;
  set_table_entry := λ a i r b, set_host (set_table_entry a i r (host b)) b;
  enable_irq := λ a i b, set_host (enable_irq a i (host b)) b |}.

#[export] Instance board_host `{PciHost H} : PciHost (board H).
Proof.
  refine {| config := λ b a, config (host b) a |}.
  - intros b a. apply config_byte.
  - intros n i a b Hi Hn Hin. cbn.
    destruct (host_read n i a (host b) Hi Hn Hin) as (h' & E & Hs). cbn in E.
    exists (set_host h' b). split; [|done]. cbn. by rewrite E.
Defined.

#[export] Instance board_view_keeps {A} `{HP : PortIo H} (f : H → A) x `{HC : !ConfigPorts (λ h, f h = x)} :
  ConfigPorts (λ b : board H, f (host b) = x).
Proof.
  split.
  - intros v b Hb. by apply (config_address_keeps (P := λ h, f h = x)).
  - intros b Hb. apply (config_data_keeps (P := λ h, f h = x)) in Hb. cbn. by destruct (port_read 32 0xCFC (host b)).
Qed.

#[export] Instance board_timer `{HM : Mmio H} `{HP : PortIo H} lapic `{HT : !TimerHwOk H lapic} :
  TimerHwOk (board H) lapic.
Proof.
  refine {| clocks_of := λ b : board H, clocks_of (host b); pit_period := pit_period;
            count_period := count_period; latency := latency |}.
  - exact periods_pos.
  - intros b. cbn. pose proof (read_61 (host b)) as L. by destruct (port_read 8 0x61 (host b)).
  - intros v b. exact (write_61 v (host b)).
  - intros v b. exact (write_43 v (host b)).
  - intros v b. exact (write_42 v (host b)).
  - intros v b. exact (write_3e0 v (host b)).
  - intros v b. exact (write_320 v (host b)).
  - intros v b. exact (write_380 v (host b)).
  - intros b. cbn. pose proof (read_390 (host b)) as L. by destruct (mmio_read (lapic + CURRENT_COUNT) (host b)).
Defined.
End Board.

(** ** Drivers that are programs over the [Hal] *)

(** The [virtio_drivers] crate on the hardware [H]: [PciTransport::new], the driver's
    constructor and [enable_interrupts], with the calls they make for memory. *)
Class HalDriver (H V : Type) := {
  HalTransport : Type;
  HalPciError : Type;
  HalDriverError : Type;
  hal_transport_new : DeviceFunction → H → hal (result HalTransport HalPciError * H);
  hal_driver_new : HalTransport → H → hal (result V HalDriverError * H);
  hal_enable_interrupts : V → H → V * H;
}.

(** Runs such a program on the board. *)
Definition run_driver {H A} `{HX : X86} (p : hal (A * H)) (b : board H) : outcome (A * board H) :=
  '(r, h, m) ← run_hal PhysAddr_new VirtAddr_new (translate_addr <$> MAPPER (cpu b)) p (memory b);
  Ret (r, Board h (cpu b) m).

#[export] Instance board_driver {H V} `{HX : X86} `{HD : HalDriver H V} : VirtioDriver (board H) V := {|
  Transport := HalTransport; VirtioPciError := HalPciError; DriverError := HalDriverError;
  transport_new := λ df b, run_driver (hal_transport_new df (host b)) b;
  driver_new := λ t b, run_driver (hal_driver_new t (host b)) b;
  enable_interrupts := λ v b, ((hal_enable_interrupts v (host b)).1, set_host (hal_enable_interrupts v (host b)).2 b) |}.

(** What the crate's drivers do: a transport maps the device's registers and resets it; a
    driver allocates its queues, [dma_pages] at the most, and gives them back if it fails;
    buffers they share are the kernel's.  The identification of the functions is left
    alone. *)
Class HalDriverOk (H V : Type) (buffer : Z → Prop) `{PciHost H} `{VirtioIds} `{!HalDriver H V} := {
  dma_pages : Z;
  dma_pages_nonneg : 0 ≤ dma_pages;
  hal_transports : H → list DeviceFunction;
  hal_transport_ok : ∀ df h, hal_ok buffer (λ '(_, h') live,
      (∀ x, header_info x h' = header_info x h) ∧ hal_transports h' = hal_transports h ++ [df] ∧ live = [])
    0 [] (hal_transport_new df h);
  hal_driver_ok : ∀ t h, hal_ok buffer (λ '(r, h') live,
      (∀ x, header_info x h' = header_info x h) ∧ hal_transports h' = hal_transports h ∧
      match r with Ok _ => True | Err _ => live = [] end)
    dma_pages [] (hal_driver_new t h);
  hal_enable_ok : ∀ v h, let h' := (hal_enable_interrupts v h).2 in
    (∀ x, header_info x h' = header_info x h) ∧ hal_transports h' = hal_transports h;
  hal_transports_ports :: ∀ l, ConfigPorts (λ h, hal_transports h = l);
}.
Arguments dma_pages H V {buffer _ _ _ _ _}.

(** *** On a board with memory to spare *)

Section Ready.
Context {H : Type} `{HP : PortIo H} `{HH : !PciHost H} `{HV : VirtioPci} `{HX : X86} `{HXok : !X86Ok}.
(** The kernel's buffers; the allocator as it was built and what was allocated before the
    drivers came, the offset, the heap, and the processor. *)
Context (buffer : Z → Prop) (a0 : PhysicalPageAllocator.t) (before : list (Z * Z)).
Context (o : Z) (hp : option (Z * Z)) (p : processor).

(** The drivers hold [live] of the frames, and [n] more are left in one piece. *)
Definition dma_ready (n : Z) (b : board H) : Prop :=
  cpu b = p ∧ ∃ a live m s, memory b = Hal.Memory (Some a) (Some o) hp m ∧
    history PhysAddr_new a0 a (live ++ before) ∧ fits a n s.

#[export] Instance dma_ready_ports n : ConfigPorts (dma_ready n).
Proof.
  split; [done|]. intros b Hb. cbn. by destruct (port_read 32 0xCFC (host b)).
Qed.

Lemma dma_ready_less n k b : dma_ready n b → 0 ≤ k ≤ n → dma_ready k b.
Proof.
  intros (Hp & a & live & m & s & Hm & Hh & Hf) Hk. split; [done|].
  exists a, live, m, s. split_and!; [done..|by eapply fits_less].
Qed.

Context (Ha0 : memory_ok a0) (Ho : offset_ok o a0) (Hmmio : o + MMIO_LIMIT ≤ 2 ^ 64).
Context (Hshare : ∀ b, buffer b → ∃ paddr, share VirtAddr_new (translate_addr <$> MAPPER p) b = Ret paddr).

Lemma run_driver_ok {A} (done : A * H → list (Z * Z) → Prop) (q : hal (A * H)) n extra b :
  hal_ok buffer done n [] q → 0 ≤ n → 0 ≤ extra → dma_ready (n + extra) b →
  ∃ r b' live, run_driver q b = Ret (r, b') ∧ done (r, host b') live ∧ dma_ready extra b' ∧
    (live = [] → dma_ready (n + extra) b').
Proof using HXok Ha0 Ho Hmmio Hshare.
  intros Hq Hn He (Hp & a & l0 & m & s & Hm & Hh & Hf).
  destruct (history_holds PhysAddr_new PhysAddr_new_ok a0 a _ Ha0 Hh) as (Ha & Hnf & _).
  destruct (run_hal_ok PhysAddr_new PhysAddr_new_ok VirtAddr_new (translate_addr <$> MAPPER p) buffer Hshare
    done q n extra [] a a o hp m s Ha (HStart _ _)) as ([r h] & a' & live & m' & s' & E & Hd & Hh' & Hf');
    [unfold offset_ok; by rewrite Hnf|done..|].
  pose proof (history_trans _ _ _ _ _ _ Hh Hh') as Ht. rewrite app_assoc in Ht.
  unfold run_driver. rewrite Hp, Hm, E, bind_Ret.
  exists r, (Board h p (Hal.Memory (Some a') (Some o) hp m')), live. split; [reflexivity|]. split; [done|].
  split; [split; [done|]; by eexists a', _, m', s'|]. intros ->.
  apply (history_restored PhysAddr_new PhysAddr_new_ok) in Hh' as ->; [|done].
  split; [done|]. by eexists a, l0, m', s.
Qed.

Context {V : Type} `{HD : !HalDriver H V} `{HDok : !HalDriverOk H V buffer}.

Lemma board_driver_ok extra (Hextra : 0 ≤ extra) :
  VirtioDriverOk (board H) V (dma_ready (dma_pages H V + extra)) (dma_ready extra).
Proof using HXok Ha0 Ho Hmmio Hshare HDok.
  refine {| transports := λ b : board H, hal_transports (host b) |}.
  - intros df b Hb. destruct (run_driver_ok _ _ 0 (dma_pages H V + extra) b (hal_transport_ok df (host b)))
      as (r & b' & live & E & (Hh & Ht & _) & Hr & _); [done|pose proof dma_pages_nonneg; lia|done|].
    by exists r, b'.
  - intros t b Hb. destruct (run_driver_ok _ _ (dma_pages H V) extra b (hal_driver_ok t (host b)))
      as (r & b' & live & E & (Hh & Ht & Hl) & Hr & Hback); [apply dma_pages_nonneg|done|done|].
    exists r, b'. split_and!; try done. destruct r; [done|by apply Hback].
  - intros v b Hb. destruct (hal_enable_ok v (host b)) as (Hh & Ht). cbn.
    by destruct (hal_enable_interrupts v (host b)).
Defined.
End Ready.
