(* ===== verification/Boot.v ===== *)
(** * Start-up: [init] and [kernel_main] of [kernel/src/main.rs]

    The components, brought up in the order of the code on one board, down to the tasks
    the executor is given. *)

From S2P Require Import Prelude Utils Tasks Interfaces Pci Probe Rng RngTheorems Streams Executor.
From S2P Require Import Ppa Apic Calibration Device Hal Processor Board.
Import PhysicalPageAllocator.
Local Open Scope Z_scope.

(** [BootInfo] of the [bootloader] crate: what is read of it. *)
Record BootInfo := { memory_map : list MemoryRegion.t; physical_memory_offset : Z }.

Section Boot.
Context {H U Vn Vr B Q : Type} `{HP : PortIo H} `{HM : Mmio H} `{HL : Legacy H} `{HI : IoApicHw H}.
Context `{HX : X86} `{HV : VirtioPci} `{HDn : !HalDriver H Vn} `{HDr : !HalDriver H Vr}.
Context `{HE : !EntropyHw (board H) Vr} `{HC : ChaCha} `{HQ : ArrayQueue Q TaskId}.
(** The card's receive buffers ([B]), the bytes of a slice made from a raw pointer, the
    entries of the MADT the [acpi] crate finds, the UART's initialisation, and where the
    double fault's [STACK] is. *)
Context (raw_bytes : Z → Z → list Z).
Context (find_madt : H → option (list MadtEntry)) (uart_new : H → option (U * H)) (STACK : Z).

(** Every static the start-up sets.  [PMM], [OFFSET], [ALLOCATOR] and [MAPPER] are those of
    the board, [OFFSET] being one static kept there and in [plat]. *)
Record kernel := Kernel {
  plat : platform (board H);
  SERIAL_TTY : option U;
  VIRTIO_NET : option Vn;
  net_log : list (attempt_line (H := platform (board H)) (V := Vn));
  VIRTIO_RNG : option Vr;
  rng_log : list (attempt_line (H := platform (board H)) (V := Vr));
  CSPRNG : option Csprng.t;
  ENTROPY_MODE : option EntropyMode.t;
  FALLBACK : Z;
  interrupts : bool;
}.
Abbreviation M := (prog kernel).

Definition set_plat (p : platform (board H)) (k : kernel) : kernel :=
  Kernel p (SERIAL_TTY k) (VIRTIO_NET k) (net_log k) (VIRTIO_RNG k) (rng_log k) (CSPRNG k)
    (ENTROPY_MODE k) (FALLBACK k) (interrupts k).
Definition set_tty (u : U) (k : kernel) : kernel :=
  Kernel (plat k) (Some u) (VIRTIO_NET k) (net_log k) (VIRTIO_RNG k) (rng_log k) (CSPRNG k)
    (ENTROPY_MODE k) (FALLBACK k) (interrupts k).
Definition the_board (k : kernel) : board H := hw (plat k).
Definition set_board (b : board H) (k : kernel) : kernel := set_plat (set_hw b (plat k)) k.
Definition set_cpu (p : processor) (k : kernel) : kernel :=
  set_board (Board (host (the_board k)) p (memory (the_board k))) k.
Definition set_memory (m : Hal.memory) (k : kernel) : kernel :=
  set_board (Board (host (the_board k)) (cpu (the_board k)) m) k.

(** The views of the kernel that the components work on. *)
Definition net_state (k : kernel) : Probe.t (platform (board H)) Vn :=
  State (plat k) (VIRTIO_NET k) (net_log k).
Definition set_net (s : Probe.t (platform (board H)) Vn) (k : kernel) : kernel :=
  Kernel (machine s) (SERIAL_TTY k) (slot s) (log s) (VIRTIO_RNG k) (rng_log k) (CSPRNG k)
    (ENTROPY_MODE k) (FALLBACK k) (interrupts k).
Definition rng_state (k : kernel) : rng (platform (board H)) Vr :=
  Rng (State (plat k) (VIRTIO_RNG k) (rng_log k)) (CSPRNG k) (ENTROPY_MODE k) (FALLBACK k).
Definition set_rng (r : rng (platform (board H)) Vr) (k : kernel) : kernel :=
  let s := sources r in
  Kernel (machine s) (SERIAL_TTY k) (VIRTIO_NET k) (net_log k) (slot s) (log s) (Rng.CSPRNG r)
    (Rng.ENTROPY_MODE r) (Rng.FALLBACK r) (interrupts k).

Definition on_cpu {A} (m : prog processor A) : M A := λ k,
  '(a, p) ← m (cpu (the_board k)); Ret (a, set_cpu p k).
Definition on_plat {A} (m : prog (platform (board H)) A) : M A := λ k,
  '(a, p) ← m (plat k); Ret (a, set_plat p k).
Definition on_net {A} (m : prog (Probe.t (platform (board H)) Vn) A) : M A := λ k,
  '(a, s) ← m (net_state k); Ret (a, set_net s k).
Definition on_rng {A} (m : prog (rng (platform (board H)) Vr) A) : M A := λ k,
  '(a, r) ← m (rng_state k); Ret (a, set_rng r k).

(** [PMM.call_once(|| Mutex::new(PhysicalPageAllocator::new(boot_info)))] *)
Definition init_pmm (boot_info : BootInfo) : M unit := λ k,
  let m := memory (the_board k) in
  match Hal.PMM m with
  | Some _ => Ret (tt, k)
  | None =>
      a ← PhysicalPageAllocator.new PhysAddr_new VirtAddr_new raw_bytes
            (physical_memory_offset boot_info) (memory_map boot_info);
      Ret (tt, set_memory (Hal.Memory (Some a) (Hal.OFFSET m) (Hal.HEAP m) (Hal.mem m)) k)
  end.

(** [OFFSET.call_once(|| boot_info.physical_memory_offset)] *)
Definition init_offset (boot_info : BootInfo) : M unit := λ k,
  let m := memory (the_board k) in
  let o := call_once (Hal.OFFSET m) (physical_memory_offset boot_info) in
  let k := set_memory (Hal.Memory (Hal.PMM m) o (Hal.HEAP m) (Hal.mem m)) k in
  let p := plat k in
  Ret (tt, set_plat (Platform (hw p) (IO_APICS p) (ISOS p) o (LAPIC_BASE p)) k).

Definition heap : M unit := λ k,
  m ← Hal.init_heap PhysAddr_new (memory (the_board k)); Ret (tt, set_memory m k).

Definition acpi : M unit := on_plat (λ p,
  entries ← expect (find_madt (host (hw p))); Ret (tt, init_acpi entries p)).

(** [lazy_static::initialize(&SERIAL_TTY)] *)
Definition uart : M unit := λ k,
  '(u, h) ← expect (uart_new (host (the_board k)));
  Ret (tt, set_tty u (set_board (set_host h (the_board k)) k)).

Definition enable_interrupts_flag : M unit := λ k,
  Ret (tt, Kernel (plat k) (SERIAL_TTY k) (VIRTIO_NET k) (net_log k) (VIRTIO_RNG k) (rng_log k)
             (CSPRNG k) (ENTROPY_MODE k) (FALLBACK k) true).

(** The four parts of [init]: the processor's tables, memory, the interrupt code, the
    devices. *)
Definition init_tables (boot_info : BootInfo) : M unit :=
  on_cpu (gdt_init STACK);; on_cpu init_idt;; on_cpu (init_mapper (physical_memory_offset boot_info)).
Definition init_memory (boot_info : BootInfo) : M unit :=
  init_pmm boot_info;; init_offset boot_info;; heap.
Definition init_interrupts : M unit := acpi;; uart;; on_plat init_apic.
Definition init_devices (fuel : nat) : M unit :=
  on_plat (init_timer fuel);; on_net init_virtio_net_pci;; on_rng init_entropy;;
  enable_interrupts_flag.

Definition init (fuel : nat) (boot_info : BootInfo) : M unit :=
  init_tables boot_info;; init_memory boot_info;; init_interrupts;; init_devices fuel.

(** [kernel_main] up to [executor.run()]: the executor it runs, from the first task
    identifier on. *)
Definition start_tasks (NEXT_ID : Z) : outcome (Executor (fut B) Q) :=
  let '(t1, NEXT_ID) := Task_new (HandleSerial SerialStart) NEXT_ID in
  e ← spawn t1 Executor_new;
  let '(t2, NEXT_ID) := Task_new (NetworkTask NetStart) NEXT_ID in
  e ← spawn t2 e;
  let '(t3, NEXT_ID) := Task_new (TimeTask TimePrint) NEXT_ID in
  spawn t3 e.

Definition kernel_main (fuel : nat) (boot_info : BootInfo) : M (Executor (fut B) Q) :=
  init fuel boot_info;;
  (λ k, d ← get_net_driver (net_state k); Ret (d, k));;
  lift (start_tasks 0).
End Boot.

(** ** What the devices leave alone *)

(** The entropy sources share a buffer of the kernel's at the most: the processor and the
    allocator stay as they are. *)
Class EntropyLocal {H V} `{HX : X86} `{HD : !HalDriver H V} `{HE : !EntropyHw (board H) V} := {
  request_local : ∀ buf v (b : board H), let b' := (request_entropy buf v b).2 in
    cpu b' = cpu b ∧ memory b' = memory b;
  rdrand_local : ∀ b : board H, let b' := (rdrand64_step b).2 in cpu b' = cpu b ∧ memory b' = memory b;
}.

Section Kept.
Context {H V : Type} `{HP : PortIo H} `{HV : VirtioPci} `{HX : X86} `{HD : !HalDriver H V}.
Abbreviation state := (Probe.t (platform (board H)) V).
Implicit Types p : platform (board H).

(** Everything on the board but the hardware. *)
Definition kept p := (tables p, cpu (hw p), memory (hw p)).

Lemma kept_parts p p' :
  kept p' = kept p → tables p' = tables p ∧ cpu (hw p') = cpu (hw p) ∧ memory (hw p') = memory (hw p).
Proof.
  intros E. split_and!; [exact (f_equal (λ x, x.1.1) E)|exact (f_equal (λ x, x.1.2) E)|exact (f_equal snd E)].
Qed.

Lemma kept_ready p p' T a0 l o hp c n :
  kept p' = kept p → with_tables T (dma_ready a0 l o hp c n) p → with_tables T (dma_ready a0 l o hp c n) p'.
Proof.
  intros (Et & Ec & Em)%kept_parts. unfold with_tables, dma_ready. by rewrite Et, Ec, Em.
Qed.

(** Operations that leave it alone. *)
Definition keeps {A} (m : prog (platform (board H)) A) : Prop :=
  ∀ p a p', m p = Ret (a, p') → kept p' = kept p.

Lemma keeps_bind {A C} (m : prog (platform (board H)) A) (f : A → prog (platform (board H)) C) :
  keeps m → (∀ a, keeps (f a)) → keeps (m ≫= f).
Proof.
  intros Hm Hf p c p' E. apply bind_returns in E as ([a p1] & E1 & E2).
  by rewrite (Hf a _ _ _ E2), (Hm _ _ _ E1).
Qed.
Lemma keeps_lift {A} (m : outcome A) : keeps (lift m).
Proof. intros p a p'. unfold lift. destruct m; [|done..]. by intros [= _ <-]. Qed.
Lemma keeps_ret {A} (a : A) : keeps (mret a).
Proof. by intros p a' p' [= _ <-]. Qed.
Lemma keeps_base : keeps base.
Proof. intros p a p' E. apply bind_returns in E as (b & _ & E). by injection E as _ <-. Qed.
Lemma keeps_ask {A} (f : board H → A * board H) :
  (∀ b, cpu (f b).2 = cpu b ∧ memory (f b).2 = memory b) → keeps (ask_hw f).
Proof.
  intros Hf p a p' E. rewrite ask_hw_eq in E. injection E as _ <-. destruct (Hf (hw p)) as [Hc Hm].
  unfold kept, tables. cbn. by rewrite Hc, Hm.
Qed.
Lemma keeps_do (f : board H → board H) :
  (∀ b, cpu (f b) = cpu b ∧ memory (f b) = memory b) → keeps (do_hw f).
Proof.
  intros Hf p a p' [= _ <-]. destruct (Hf (hw p)) as [Hc Hm]. unfold kept, tables. cbn. by rewrite Hc, Hm.
Qed.
#[local] Hint Resolve keeps_lift keeps_ret keeps_base keeps_ask keeps_do : core.

Lemma init_timer_keeps `{HM : Mmio H} fuel : keeps (init_timer fuel).
Proof.
  assert (keeps (wait_out fuel)) as Hw.
  { induction fuel as [|fuel IH]; cbn [wait_out]; [by intros p a p'|].
    apply keeps_bind; [by apply keeps_ask|]. intros v. by destruct (_ =? _). }
  unfold init_timer, calibrate, read_register, write_register.
  repeat first [progress intros|apply keeps_bind|by auto|apply keeps_ask; done|apply keeps_do; done|exact Hw].
Qed.

Lemma net_ready_kept `{HI : IoApicHw H} df (s : state) info rest isos o b :
  tables (machine s) = (Some (info :: rest), isos, Some o, b) →
  wrap 8 (gsi_base info) = 0 → urange 64 (phys_addr info + o) →
  ∃ s', net_ready df s = Ret (tt, s') ∧ kept (machine s') = kept (machine s).
Proof.
  intros HT Hbase Haddr. unfold net_ready.
  assert (kept (pci_read_u32 (bus df) (device df) (function df) 0x3C (machine s)).2 = kept (machine s)) as E.
  { unfold pci_read_u32. cbn. by destruct (port_read 32 0xCFC _) as [v h]. }
  destruct (pci_read_u32 (bus df) (device df) (function df) 0x3C (machine s)) as [v p] eqn:Er.
  erewrite prog_bind_Ret by (unfold on_platform; rewrite Er; done). cbn zeta. cbn [snd] in E.
  unfold on_platform, route_pci_interrupt. cbn [machine set_machine].
  destruct (kept_parts _ _ E) as (Et & _). rewrite <- Et in HT. injection HT as H1 H2 H3 H4.
  erewrite prog_bind_Ret by (by eapply first_io_apic_eq).
  cbv beta iota. rewrite route_eq by (by apply wrap_range). rewrite Hbase.
  destruct (decide _) as [|Hn]; [|destruct Hn; by apply (wrap_range 8)].
  eexists. split; [done|]. exact E.
Qed.

Context `{HE : !EntropyHw (board H) V} `{HEl : !EntropyLocal}.

Lemma rdrand_any_kept n w p : kept (rdrand_any n w p).2 = kept p.
Proof using HEl.
  revert w p. induction n as [|n IH]; intros w p; [done|]. cbn [rdrand_any]. cbn.
  destruct (rdrand_local (hw p)) as [Hc Hm]. destruct (rdrand64_step (hw p)) as [[st w'] h]. cbn in Hc, Hm.
  assert (kept (set_hw h p) = kept p) as E by (unfold kept, tables; cbn; congruence).
  destruct (st =? 1); [exact E|]. by rewrite IH.
Qed.

Lemma rdrand_chunks_kept n p : kept (rdrand_chunks n p).2 = kept p.
Proof using HEl.
  revert p. induction n as [|n IH]; intros p; [done|]. cbn [rdrand_chunks].
  pose proof (rdrand_any_kept 10 0 p) as E. destruct (rdrand_any 10 0 p) as [[[] w] p1]; [|done].
  cbn [negb snd] in *. rewrite <- E, <- (IH p1). by destruct (rdrand_chunks n p1).
Qed.

Lemma gather_seed_kept (s : state) : kept (machine (gather_seed s).2) = kept (machine s).
Proof using HEl.
  assert (kept (machine (virtio_bytes s).2) = kept (machine s)) as E1.
  { unfold virtio_bytes. destruct (slot s) as [v|]; [|done]. cbn.
    destruct (request_local (array 0 32) v (hw (machine s))) as [Hc Hm].
    destruct (request_entropy _ v (hw (machine s))) as [[[r out] v'] h]. cbn in Hc, Hm.
    unfold kept, tables. cbn. congruence. }
  assert (∀ s1 : state, kept (machine (rdrand_bytes s1).2) = kept (machine s1)) as E2.
  { intros s1. unfold rdrand_bytes, rdrand_bytes_unchecked. destruct (negb _); [done|].
    rewrite <- (rdrand_chunks_kept 4 (machine s1)). by destruct (rdrand_chunks 4 (machine s1)). }
  unfold gather_seed. destruct (virtio_bytes s) as [a s1]. specialize (E2 s1).
  destruct (rdrand_bytes s1) as [b s2]. cbn [snd] in *. rewrite <- E1, <- E2. by destruct a, b.
Qed.
End Kept.

(** ** A machine that can be started *)

Section Proofs.
Context {H U Vn Vr B Q : Type} `{HP : PortIo H} `{HM : Mmio H} `{HL : Legacy H} `{HI : IoApicHw H}.
Context `{HH : !PciHost H} `{HX : X86} `{HXok : !X86Ok} `{HV : VirtioPci} (buffer : Z → Prop).
Context `{HDn : !HalDriver H Vn} `{HDnok : !HalDriverOk H Vn buffer}.
Context `{HDr : !HalDriver H Vr} `{HDrok : !HalDriverOk H Vr buffer}.
Context `{HE : !EntropyHw (board H) Vr} `{HEok : !EntropyHwOk (board H) Vr} `{HEl : !EntropyLocal}.
Context `{HC : ChaCha} `{HCok : !ChaChaOk} `{HQ : ArrayQueue Q TaskId} `{HQok : !ArrayQueueOk Q TaskId}.
Context (raw_bytes : Z → Z → list Z).
Context (find_madt : H → option (list MadtEntry)) (uart_new : H → option (U * H)) (STACK : Z).
Context (bi : BootInfo) `{HT : !TimerHwOk H (LAPIC_PHYS_ADDR + physical_memory_offset bi)}.
Abbreviation kernel := (kernel (H := H) (U := U) (Vn := Vn) (Vr := Vr)).
Abbreviation o := (physical_memory_offset bi).

(** The memory the two drivers allocate. *)
Definition driver_pages : Z := dma_pages H Vn + dma_pages H Vr.

(** The double fault's stack has addresses; all of the physical memory, and the first 64 TiB
    of the bus, are mapped at the offset; the level 4 table is in memory, and under it the
    kernel's buffers are mapped; the map has room for the bitmap and, elsewhere and in one
    piece, for the heap and the drivers' queues.  The machine is in the state [h] when it
    is started: the firmware lists an I/O APIC that starts at interrupt 0, and the UART
    answers.  Ten counts of the local APIC's timer are no longer than the PIT's 10 ms, and
    its frequency fits in 32 bits. *)
Record boot_ok (cr3 : Z) (h : H) (max : Z) (entries : list MadtEntry) (info : IoApicInfo) : Prop := {
  stack_ok : canonical STACK ∧ canonical (STACK + STACK_SIZE);
  raw_ok : ∀ p n, 0 ≤ n → len (raw_bytes p n) = n;
  offset_pos : 0 < o;
  offset_fits : ∀ x, 0 ≤ x < max → canonical (o + x);
  mmio_fits : o + MMIO_LIMIT ≤ 2 ^ 64;
  cr3_fits : 0 ≤ cr3 < max;
  buffers_mapped : ∀ b, buffer b → canonical b ∧ is_Some (translate_addr (OffsetPageTable_new (o + cr3) o) b);
  map_fits : map_ok (memory_map bi) max;
  heap_fits : ∃ s, 0 ≤ s ∧ s + (HEAP_PAGES + driver_pages) ≤ frames_of max ∧
    ∀ j, s ≤ j < s + (HEAP_PAGES + driver_pages) → usable_frame (memory_map bi) j ∧
      ∀ r, r ∈ memory_map bi →
        ¬ touches (MemoryRegion.start_addr r) (MemoryRegion.start_addr r + bitmap_size max) j;
  madt_found : find_madt h = Some entries;
  io_apic_first : head (omap apic_of entries) = Some info;
  io_apic_base : wrap 8 (gsi_base info) = 0;
  io_apic_addr : 0 ≤ phys_addr info < MMIO_LIMIT;
  uart_ok : is_Some (uart_new h);
  timer_fits : 10 * count_period DIVIDE_BY_16 + latency ≤ window (LAPIC_PHYS_ADDR + o) ∧
    (window (LAPIC_PHYS_ADDR + o) + 2 * latency) * 100 ≤ 2 ^ 32 * count_period DIVIDE_BY_16;
}.

#[local] Arguments Hal.init_heap : simpl never.

(** Everything unset, interrupts off. *)
Definition cold (cr3 : Z) (h : H) (m : Z → Z) : kernel :=
  Kernel (Platform (Board h (Processor None None None None cr3 None) (Hal.Memory None None None m))
            None None None None) None None [] None [] None None 0 false.

Context (cr3 : Z) (h : H) (max : Z) (entries : list MadtEntry) (info : IoApicInfo).
Context (Hbi : boot_ok cr3 h max entries info).

(** The processor's tables, and the mapper over the level 4 table. *)
Definition cpu_up (p : processor) : Prop :=
  tables_ok STACK p ∧ ∃ mapper, MAPPER p = Some mapper ∧ table_at mapper = o + cr3 ∧ mapping_offset mapper = o.

Lemma max_pos : 0 < max.
Proof using Hbi. by destruct (map_fits _ _ _ _ _ Hbi) as (_ & _ & ? & _). Qed.

Lemma tables_up (k : kernel) :
  cpu (the_board k) = Processor None None None None cr3 None →
  ∃ p, init_tables STACK bi k = Ret (tt, set_cpu p k) ∧ cpu_up p ∧
    MAPPER p = Some (OffsetPageTable_new (o + cr3) o).
Proof using Hbi HXok.
  intros Hk. destruct (stack_ok _ _ _ _ _ Hbi) as [Hptr Hend].
  destruct (cr3_fits _ _ _ _ _ Hbi) as [Hc0 Hc1]. pose proof max_pos as Hm0.
  destruct (tables_loaded STACK (cpu (the_board k)) Hptr Hend) as (p1 & p2 & E1 & E2 & Hok & Hc3 & Hm).
  unfold init_tables, on_cpu. erewrite prog_bind_Ret by (rewrite E1; done).
  erewrite prog_bind_Ret by (cbn; rewrite E2; done). cbn. unfold init_mapper.
  rewrite Hm, Hk. cbn. rewrite Hk in Hc3. cbn in Hc3. rewrite memory_init_eq; rewrite ?Hc3.
  - rewrite bind_Ret. eexists. split; [done|]. split; [|done]. split; [|eexists; split; [done|]].
    + destruct Hok as [Hv Hs Hc]. by split.
    + apply OffsetPageTable_new_ok.
  - rewrite <- (Z.add_0_r o). apply (offset_fits _ _ _ _ _ Hbi). lia.
  - done.
  - by apply (offset_fits _ _ _ _ _ Hbi).
Qed.

Lemma new_offset_ok a : num_frames a = frames_of max → offset_ok o a.
Proof using Hbi.
  intros Hn. pose proof (offset_pos _ _ _ _ _ Hbi). pose proof max_pos as Hm0. split; [done|].
  assert (0 ≤ (frames_of max - 1) * 4096 < max) as Hf.
  { unfold frames_of, PAGE_SIZE. pose proof (div_ceil_bounds max 4096). lia. }
  destruct (offset_fits _ _ _ _ _ Hbi _ Hf) as [Hc|Hc]; rewrite Hn; lia.
Qed.

Lemma memory_up (k : kernel) b m :
  plat k = Platform b None None None None → memory b = Hal.Memory None None None m →
  ∃ a0 a s, PhysicalPageAllocator.new PhysAddr_new VirtAddr_new raw_bytes o (memory_map bi) = Ret a0 ∧
    memory_ok a0 ∧ offset_ok o a0 ∧ history PhysAddr_new a0 a [(s * 4096, HEAP_PAGES)] ∧
    (∃ s', fits a driver_pages s') ∧
    init_memory raw_bytes bi k =
    Ret (tt, set_plat (Platform (Board (host b) (cpu b)
        (Hal.Memory (Some a) (Some o) (Some (o + s * 4096, 16777216)) m)) None None (Some o) None) k).
Proof using Hbi HXok HDnok HDrok.
  intros Hp Hm.
  destruct (new_facts PhysAddr_new VirtAddr_new raw_bytes PhysAddr_new_ok VirtAddr_new_ok (raw_ok _ _ _ _ _ Hbi)
    o (memory_map bi) max (map_fits _ _ _ _ _ Hbi) (offset_fits _ _ _ _ _ Hbi))
    as (a0 & r & E & Hr & Hu & _ & Ha & Hn & Hfree).
  assert (0 ≤ driver_pages) as Hdp by (apply Z.add_nonneg_nonneg; apply dma_pages_nonneg).
  destruct (heap_fits _ _ _ _ _ Hbi) as (s0 & Hs0 & Hs1 & Hrun).
  assert (fits a0 (HEAP_PAGES + driver_pages) s0) as Hfit0.
  { split_and!; [done|by rewrite Hn|]. intros j Hj. apply Hfree; [lia|].
    destruct (Hrun j Hj) as [Huse Hbit]. split; [done|by apply Hbit]. }
  pose proof (new_offset_ok a0 Hn) as Ho.
  unfold init_memory, init_pmm, the_board. 
  erewrite prog_bind_Ret by (cbn zeta; rewrite Hp; cbn; rewrite Hm; cbn; rewrite E; done).
  unfold init_offset. erewrite prog_bind_Ret by done. unfold heap. cbn. rewrite Hp. cbn.
  destruct (init_heap_eq PhysAddr_new PhysAddr_new_ok a0 o None m Ha Ho)
    as [(s & a' & E2 & Eal & Hfit & Hup & Ha')|[_ Hnone]].
  - rewrite E2. exists a0, a', s. split_and!; try done.
    + eapply HAlloc; [apply HStart| |exact Eal]. unfold HEAP_PAGES. lia.
    + exists (s0 + HEAP_PAGES). by eapply fits_alloc.
    + unfold set_memory, set_board, the_board. cbn. by rewrite Hp.
  - destruct (Hnone s0). eapply fits_less; [done|]. unfold HEAP_PAGES. lia.
Qed.

Lemma io_apic_fits : urange 64 (phys_addr info + o).
Proof using Hbi.
  pose proof (offset_pos _ _ _ _ _ Hbi). pose proof (mmio_fits _ _ _ _ _ Hbi). pose proof (io_apic_addr _ _ _ _ _ Hbi).
  unfold urange. lia.
Qed.

Lemma lapic_fits : 0 ≤ LAPIC_PHYS_ADDR + o ∧ LAPIC_PHYS_ADDR + o + 0x1000 ≤ 2 ^ 64.
Proof using Hbi.
  pose proof (offset_pos _ _ _ _ _ Hbi). pose proof (mmio_fits _ _ _ _ _ Hbi).
  unfold LAPIC_PHYS_ADDR, MMIO_LIMIT in *. lia.
Qed.

Lemma apic_up (p : platform (board H)) rest isos :
  IO_APICS p = Some (info :: rest) → ISOS p = Some isos → Apic.OFFSET p = Some o → LAPIC_BASE p = None →
  ∃ h', init_apic p = Ret (tt, Platform (set_host h' (hw p)) (IO_APICS p) (ISOS p) (Apic.OFFSET p)
    (Some (LAPIC_PHYS_ADDR + o))).
Proof using Hbi.
  intros Hio Hisos Hoff Hbase. pose proof lapic_fits as [Hl0 Hl1]. unfold init_apic.
  erewrite prog_bind_Ret by apply ask_hw_eq. erewrite prog_bind_Ret by done. erewrite prog_bind_Ret by done.
  erewrite prog_bind_Ret by (unfold get_offset; cbn; rewrite Hoff; done).
  erewrite lift_bind by (unfold add_w; rewrite checked_ok by (unfold urange; lia); done).
  erewrite prog_bind_Ret by done. cbn [IO_APICS ISOS Apic.OFFSET LAPIC_BASE hw set_hw]. rewrite Hbase.
  assert (∀ h : board H, mapped (LAPIC_PHYS_ADDR + o) (Platform h (IO_APICS p) (ISOS p) (Apic.OFFSET p)
    (Some (LAPIC_PHYS_ADDR + o)))) as Hmap by done.
  unfold enable. erewrite prog_bind_Ret by (by apply write_register_eq).
  unfold lapic_id. erewrite prog_bind_Ret.
  2:{ erewrite prog_bind_Ret by (by apply (read_register_eq (LAPIC_PHYS_ADDR + o)); [apply Hmap|]). done. }
  erewrite prog_bind_Ret by (eapply first_io_apic_eq; cbn; [exact Hio|exact Hoff|exact io_apic_fits]).
  cbv beta iota. erewrite prog_bind_Ret by done.
  erewrite prog_bind_Ret by (unfold isa_irq_to_gsi, get_isos; erewrite prog_bind_Ret by (cbn; rewrite Hisos; done); done).
  unfold route_interrupt.
  erewrite prog_bind_Ret by (eapply first_io_apic_eq; cbn; [exact Hio|exact Hoff|exact io_apic_fits]).
  cbv beta iota. rewrite route_eq by (by apply wrap_range). rewrite (io_apic_base _ _ _ _ _ Hbi).
  destruct (decide _) as [|Hn]; [|destruct Hn; by apply (wrap_range 8)].
  rewrite Hisos. by eexists.
Qed.

Lemma interrupts_up (k : kernel) b :
  plat k = Platform b None None (Some o) None → host b = h →
  ∃ u h' rest isos, init_interrupts find_madt uart_new k =
    Ret (tt, set_plat (Platform (set_host h' b) (Some (info :: rest)) (Some isos) (Some o)
                         (Some (LAPIC_PHYS_ADDR + o))) (set_tty u k)).
Proof using Hbi.
  intros Hp Hb. destruct (proj1 (head_Some _ _) (io_apic_first _ _ _ _ _ Hbi)) as [rest Hio].
  unfold init_interrupts, acpi, uart, on_plat.
  erewrite prog_bind_Ret by (rewrite Hp; cbn [hw]; rewrite Hb, (madt_found _ _ _ _ _ Hbi); done).
  unfold init_acpi. rewrite read_entries_eq, Hio. cbn.
  destruct (uart_ok _ _ _ _ _ Hbi) as [[u h1] Hu].
  erewrite prog_bind_Ret by (unfold the_board; cbn; rewrite Hb, Hu; done). cbn.
  edestruct (apic_up (set_hw (set_host h1 b) (Platform b (Some (info :: rest)) (Some (omap iso_of entries)) (Some o) None)))
    as (h2 & E); [done..|].
  unfold the_board. cbn [plat hw set_plat set_tty set_board] in E |- *. rewrite E. cbn. by eexists u, h2, rest, _.
Qed.

(** The devices, on a board whose memory and interrupt code are up. *)
Section Devices.
Context (a0 : PhysicalPageAllocator.t) (before : list (Z * Z)) (hp : option (Z * Z)) (c : processor).
Context (rest : list IoApicInfo) (isos : option (list Iso)).
Context (Ha0 : memory_ok a0) (Ho : offset_ok o a0) (Hmapper : MAPPER c = Some (OffsetPageTable_new (o + cr3) o)).
Abbreviation T := (Some (info :: rest), isos, Some o, Some (LAPIC_PHYS_ADDR + o)).
(** The interrupt code's tables are set, and the drivers may allocate [n] pages. *)
Abbreviation board_up n := (with_tables T (dma_ready (H := H) a0 before o hp c n)).

Lemma buffers_shared b : buffer b → ∃ paddr, share VirtAddr_new (translate_addr <$> MAPPER c) b = Ret paddr.
Proof using Hbi HXok Hmapper.
  intros Hb. destruct (buffers_mapped _ _ _ _ _ Hbi b Hb) as [Hc [paddr Ht]]. exists paddr.
  unfold share. rewrite VirtAddr_new_ok, bind_Ret, Hmapper by done. cbn. by rewrite Ht.
Qed.

#[local] Instance net_driver_ok :
  VirtioDriverOk (platform (board H)) Vn (board_up driver_pages) (board_up (dma_pages H Vr)) :=
  platform_driver_ok _ _ _ (HDok := board_driver_ok buffer a0 before o hp c Ha0 Ho (mmio_fits _ _ _ _ _ Hbi)
    buffers_shared (dma_pages H Vr) dma_pages_nonneg).
#[local] Instance rng_driver_ok :
  VirtioDriverOk (platform (board H)) Vr (board_up (dma_pages H Vr + 0)) (board_up 0) :=
  platform_driver_ok _ _ _ (HDok := board_driver_ok buffer a0 before o hp c Ha0 Ho (mmio_fits _ _ _ _ _ Hbi)
    buffers_shared 0 (Z.le_refl 0)).

Lemma board_up_less n k p : board_up n p → 0 ≤ k ≤ n → board_up k p.
Proof. intros [HT' Hr] Hk. split; [done|]. by eapply dma_ready_less. Qed.


Lemma net_up (s : Probe.t (platform (board H)) Vn) :
  slot s = None → board_up driver_pages (machine s) →
  ∃ b s', init_virtio_net_pci s = Ret (b, s') ∧ board_up (dma_pages H Vr + 0) (machine s').
Proof using Hbi HXok HDnok HDrok Ha0 Ho Hmapper.
  intros Hs Hr.
  pose proof (dma_pages_nonneg (V := Vn)) as Hn0. pose proof (dma_pages_nonneg (V := Vr)) as Hr0.
  destruct (init_pci_ready (board_up driver_pages) (board_up (dma_pages H Vr)) Network net_ready s)
    as (b & s' & E & Hb); [|done|done|].
  - intros df s1 Hu. pose proof Hu as [HT' _].
    destruct (net_ready_kept df s1 _ _ _ _ _ HT' (io_apic_base _ _ _ _ _ Hbi) io_apic_fits) as (s2 & E & Hk).
    exists s2. split; [done|]. by eapply kept_ready.
  - exists b, s'. split; [exact E|]. rewrite Z.add_0_r. destruct b; [done|].
    eapply board_up_less; [done|]. unfold driver_pages. lia.
Qed.

Lemma rng_up (r : rng (platform (board H)) Vr) :
  slot (sources r) = None → fresh r → board_up (dma_pages H Vr + 0) (machine (sources r)) →
  ∃ m r', init_entropy r = Ret (m, r') ∧ board_up 0 (machine (sources r')) ∧
    (entropy_is_cryptographic r' = true ↔ is_Some (Rng.CSPRNG r')).
Proof using Hbi HXok HDrok HEok HEl HCok Ha0 Ho Hmapper.
  intros Hs Hf Hr. pose proof (dma_pages_nonneg (V := Vr)) as Hr0.
  destruct (init_pci_ready (board_up (dma_pages H Vr + 0)) (board_up 0) EntropySource
      (λ _, mret (M := prog (Probe.t (platform (board H)) Vr)) tt) (sources r))
    as (b & s & E & Hb); [by eexists|done|done|].
  destruct (init_entropy_fresh r b s Hf E) as (x & s1 & y & s2 & m & r' & _ & _ & Er & _ & _ & _ & Hcs & Hyes).
  destruct (init_entropy_eq r b s E) as (m' & r'' & Er' & _ & Hsrc & _). rewrite Er in Er'. injection Er' as <- <-.
  exists m, r'. split; [done|]. split.
  - rewrite Hsrc. eapply kept_ready; [apply gather_seed_kept|]. destruct b; [done|].
    eapply board_up_less; [done|lia].
  - rewrite Hyes, Hcs, fmap_is_Some. unfold is_Some. destruct x, y; cbn; naive_solver.
Qed.

Lemma devices_up fuel (k : kernel) :
  board_up driver_pages (plat k) → (Z.to_nat (window (LAPIC_PHYS_ADDR + o)) < fuel)%nat →
  VIRTIO_NET k = None → VIRTIO_RNG k = None → fresh (rng_state k) →
  ∃ k', init_devices fuel k = Ret (tt, k') ∧ board_up 0 (plat k') ∧ interrupts k' = true ∧
    SERIAL_TTY k' = SERIAL_TTY k ∧ rng_ok (rng_state k') ∧
    (entropy_is_cryptographic (rng_state k') = true ↔ is_Some (CSPRNG k')) ∧
    ∃ p b s, init_virtio_net_pci (State p None (net_log k)) = Ret (b, s) ∧ VIRTIO_NET k' = slot s.
Proof using Hbi HT HXok HDnok HDrok HEok HEl HCok Ha0 Ho Hmapper.
  intros Hup Hf Hnet Hrng Hfresh. unfold init_devices.
  assert (mapped (LAPIC_PHYS_ADDR + o) (plat k)) as Hm.
  { destruct Hup as [HT' _]. injection HT' as _ _ _ Hb. split; [done|apply lapic_fits]. }
  destruct (timer_fits _ _ _ _ _ Hbi) as [Ht1 Ht2].
  destruct (init_timer_runs (HT := board_timer (LAPIC_PHYS_ADDR + o)) (LAPIC_PHYS_ADDR + o) fuel (plat k) Hm Hf Ht1 Ht2)
    as [b1 E1].
  erewrite prog_bind_Ret by (unfold on_plat; rewrite E1; done).
  pose proof (kept_ready _ _ _ _ _ _ _ _ _ (init_timer_keeps fuel _ _ _ E1) Hup) as Hup1.
  set (p1 := set_hw b1 (plat k)) in *. clearbody p1.
  destruct (net_up (net_state (set_plat p1 k))) as (b & s & E2 & Hup2); [exact Hnet|done|].
  erewrite prog_bind_Ret by (unfold on_net; rewrite E2; done).
  set (k2 := set_net s (set_plat p1 k)).
  destruct (rng_up (rng_state k2)) as (m & [[mc sl lg] cs md fb] & E3 & Hup3 & Hyes); [exact Hrng|exact Hfresh|done|].
  assert (rng_ok (rng_state k2)) as Hok.
  { destruct Hfresh as (Hc0 & _ & Hf0). split; cbn in *; rewrite ?Hc0, ?Hf0; [done|by unfold urange]. }
  apply (init_entropy_ok _ _ _ Hok) in E3 as Hok3.
  erewrite prog_bind_Ret by (unfold on_rng; rewrite E3; done).
  eexists. split; [done|]. split_and!; try done.
  exists p1, b, s. split; [|done]. rewrite <- E2. unfold net_state. cbn. by rewrite Hnet.
Qed.
End Devices.

Lemma start_tasks_eq :
  ∃ e : Executor (fut B) Q, start_tasks 0 = Ret e ∧ exec_ok e ∧ contents (task_queue e) = ([0; 1; 2] : list TaskId) ∧
    tasks e = <[2 := {| id := 2; future := TimeTask TimePrint |}]> (<[1 := {| id := 1; future := NetworkTask NetStart |}]>
      (<[0 := {| id := 0; future := HandleSerial SerialStart |}]> ∅)).
Proof using HQok.
  unfold start_tasks, Task_new, TaskId_new. cbn zeta. destruct (queue_new_ok (Q := Q) (E := TaskId) 100) as [Hq _].
  destruct (spawn_ok {| id := 0; future := HandleSerial (B := B) SerialStart |} (Executor_new (Q := Q)) executor_new_ok)
    as (e1 & -> & Ok1 & T1 & Q1); [done|cbn; by rewrite Hq|].
  cbn in Q1. rewrite Hq in Q1. rewrite bind_Ret.
  destruct (spawn_ok {| id := 1; future := NetworkTask NetStart |} e1 Ok1) as (e2 & E2 & Ok2 & T2 & Q2);
    [by rewrite T1|by rewrite Q1|]. change (wrap 64 (0 + 1)) with 1. rewrite E2, bind_Ret.
  destruct (spawn_ok {| id := 2; future := TimeTask TimePrint |} e2 Ok2) as (e3 & E3 & Ok3 & T3 & Q3);
    [by rewrite T2, T1|by rewrite Q2, Q1|]. change (wrap 64 (1 + 1)) with 2.
  exists e3. split; [exact E3|]. split; [done|]. by rewrite Q3, T3, Q2, T2, Q1, T1.
Qed.

(** The allocator has handed out the heap at [heap] and, to the drivers, [dma], every frame
    to one of them. *)
Definition memory_is_up (m : Hal.memory) (heap : Z) (dma : list (Z * Z)) : Prop :=
  ∃ a0 a bytes, PhysicalPageAllocator.new PhysAddr_new VirtAddr_new raw_bytes o (memory_map bi) = Ret a0 ∧
    m = Hal.Memory (Some a) (Some o) (Some (o + heap, HEAP_PAGES * PAGE_SIZE)) bytes ∧
    history_inv a0 a (dma ++ [(heap, HEAP_PAGES)]).

Lemma init_eq (fuel : nat) m :
  (Z.to_nat (window (LAPIC_PHYS_ADDR + o)) < fuel)%nat →
  ∃ k heap dma,
    init raw_bytes find_madt uart_new STACK fuel bi (cold cr3 h m) = Ret (tt, k) ∧
    cpu_up (cpu (the_board k)) ∧ is_Some (SERIAL_TTY k) ∧
    interrupts k = true ∧ mapped (LAPIC_PHYS_ADDR + o) (plat k) ∧
    memory_is_up (memory (the_board k)) heap dma ∧ rng_ok (rng_state k) ∧
    (entropy_is_cryptographic (rng_state k) = true ↔ is_Some (CSPRNG k)) ∧
    ∃ p b s, init_virtio_net_pci (State p None []) = Ret (b, s) ∧ VIRTIO_NET k = slot s.
Proof using Hbi HT HXok HDnok HDrok HEok HEl HCok.
  intros Hf. destruct (tables_up (cold cr3 h m)) as (p & E0 & Hcpu & Hmap); [done|].
  unfold init. erewrite prog_bind_Ret by exact E0. set (k0 := set_cpu p (cold cr3 h m)).
  destruct (memory_up k0 (Board h p (Hal.Memory None None None m)) m)
    as (a0 & a & s & Enew & Ha0 & Ho & Hh & [s' Hfit] & E1); [done|done|].
  erewrite prog_bind_Ret by exact E1. match type of E1 with _ = Ret (_, ?k) => set (k1 := k) end.
  destruct (interrupts_up k1 (hw (plat k1))) as (u & h' & rest & isos & E2); [done|done|].
  erewrite prog_bind_Ret by exact E2. match type of E2 with _ = Ret (_, ?k) => set (k2 := k) end.
  destruct (devices_up a0 [(s * 4096, HEAP_PAGES)] (Some (o + s * 4096, 16777216)) p rest (Some isos) Ha0 Ho Hmap fuel k2)
    as (k & E3 & [Ht (Hc & a' & dma & m' & s2 & Hm & Hh' & _)] & Hi & Htty & Hr & Hyes & Hcard);
    [|done|done|done|done|].
  { split; [done|]. split; [done|]. by exists a, [], m, s'. }
  exists k, (s * 4096), dma. rewrite Htty. unfold the_board at 1. rewrite Hc.
  split_and!; try done; [|exists a0, a', m'|by apply Hyes..].
  - injection Ht as _ _ _ Hb. split; [done|apply lapic_fits].
  - split_and!; try done. by eapply history_holds, Hh'; [apply PhysAddr_new_ok|].
Qed.

(** [kernel_main] after [init]. *)
Lemma kernel_main_eq (fuel : nat) (k0 k : kernel) :
  init raw_bytes find_madt uart_new STACK fuel bi k0 = Ret (tt, k) →
  match VIRTIO_NET k with
  | None => kernel_main (B := B) (Q := Q) raw_bytes find_madt uart_new STACK fuel bi k0 = Panic
  | Some _ => ∃ e : Executor (fut B) Q,
      kernel_main raw_bytes find_madt uart_new STACK fuel bi k0 = Ret (e, k) ∧
      exec_ok e ∧ contents (task_queue e) = ([0; 1; 2] : list TaskId) ∧
      tasks e = <[2 := {| id := 2; future := TimeTask TimePrint |}]>
        (<[1 := {| id := 1; future := NetworkTask NetStart |}]>
          (<[0 := {| id := 0; future := HandleSerial SerialStart |}]> ∅))
  end.
Proof using HQok.
  intros E. unfold kernel_main. erewrite !prog_bind_Ret by exact E.
  destruct (VIRTIO_NET k) as [d|] eqn:Ev; [|unfold mbind, prog_bind, get_net_driver; cbn; by rewrite Ev].
  destruct start_tasks_eq as (e & Ee & Hok & Hq & Ht). exists e.
  erewrite prog_bind_Ret by (unfold get_net_driver; cbn; rewrite Ev; done). unfold lift. by rewrite Ee.
Qed.

(** C9.  A machine that can be started is started.  On any machine and memory map that meet
    [boot_ok], [init] runs to its end from nothing: no step finds a static unset, no
    address overflows or is not canonical, and nothing is out of memory, the drivers' queues
    included.  It leaves the processor's tables leading every vector to its handler, the
    mapper over the table the processor uses, the terminal ready, interrupts enabled, the
    local APIC mapped where the handlers look for it, a heap of 16 MiB and the drivers'
    memory, with every frame in use because the map reserves it or because exactly one of
    them holds it, and a random source that says truthfully whether it is seeded.
    [kernel_main] then panics exactly if no network card came up, and otherwise runs an
    executor with the terminal, the network and the time task, each queued once, in that
    order. *)
Theorem kernel_starts (fuel : nat) (m : Z → Z)
    (Hf : (Z.to_nat (window (LAPIC_PHYS_ADDR + o)) < fuel)%nat) :
  ∃ k heap dma,
    init raw_bytes find_madt uart_new STACK fuel bi (cold cr3 h m) = Ret (tt, k) ∧
    cpu_up (cpu (the_board k)) ∧ is_Some (SERIAL_TTY k) ∧
    interrupts k = true ∧ mapped (LAPIC_PHYS_ADDR + o) (plat k) ∧
    memory_is_up (memory (the_board k)) heap dma ∧
    rng_ok (rng_state k) ∧ (entropy_is_cryptographic (rng_state k) = true ↔ is_Some (CSPRNG k)) ∧
    match VIRTIO_NET k with
    | None => kernel_main (B := B) (Q := Q) raw_bytes find_madt uart_new STACK fuel bi (cold cr3 h m) = Panic
    | Some _ => ∃ e : Executor (fut B) Q,
        kernel_main raw_bytes find_madt uart_new STACK fuel bi (cold cr3 h m) = Ret (e, k) ∧
        exec_ok e ∧ contents (task_queue e) = ([0; 1; 2] : list TaskId) ∧
        tasks e = <[2 := {| id := 2; future := TimeTask TimePrint |}]>
          (<[1 := {| id := 1; future := NetworkTask NetStart |}]>
            (<[0 := {| id := 0; future := HandleSerial SerialStart |}]> ∅))
    end.
Proof using Hbi HT HXok HDnok HDrok HEok HEl HCok HQok.
  destruct (init_eq fuel m Hf) as (k & heap & dma & E & Hcpu & Htty & Hi & Hm & Hmem & Hr & Hc & _).
  exists k, heap, dma. split_and!; try done; [by apply Hc..|]. by apply kernel_main_eq.
Qed.
End Proofs.

(** ** A machine with 64 MiB, one I/O APIC and an entropy source *)

Module ExampleBoot.
(** A PCI host, the clocks, and the functions a transport was built for. *)
Record t := Machine { bridge : ExampleHost.t; clock : clocks; built : list DeviceFunction }.
Definition LAPIC : Z := LAPIC_PHYS_ADDR + ExampleMemory.OFF.
Definition is_clock (port : Z) : bool := (port =? 0x61) || (port =? 0x43) || (port =? 0x42).
#[global] Instance ports : PortIo t := {|
  port_read := λ w p x,
    if is_clock p then ((ExampleClocks.port_read p (clock x)).1, Machine (bridge x) (ExampleClocks.port_read p (clock x)).2 (built x))
    else ((port_read w p (bridge x)).1, Machine (port_read w p (bridge x)).2 (clock x) (built x));
  port_write := λ w p v x,
    if is_clock p then Machine (bridge x) (ExampleClocks.port_write p v (clock x)) (built x)
    else Machine (port_write w p v (bridge x)) (clock x) (built x) |}.
Lemma not_clock p : 0xCF8 ≤ p → is_clock p = false.
Proof. intros Hp. unfold is_clock. by rewrite !(proj2 (Z.eqb_neq _ _)) by lia. Qed.
#[global] Instance pci : PciHost t.
Proof.
  refine {| config := λ x a, config (bridge x) a |}.
  - intros x a. apply config_byte.
  - intros n i a x Hi Hn Hin. destruct (host_read n i a (bridge x) Hi Hn Hin) as (h' & E & Hs).
    exists (Machine h' (clock x) (built x)). split; [|done]. unfold port_read, port_write. cbn [ports].
    rewrite !not_clock by lia. cbn [bridge clock built]. by rewrite E.
Defined.
#[global] Instance mmio : Mmio t := {|
  mmio_read := λ a x, ((ExampleClocks.mmio_read (clock x)).1,
    Machine (bridge x) (ExampleClocks.mmio_read (clock x)).2 (built x));
  mmio_write := λ a v x, Machine (bridge x) (ExampleClocks.mmio_write LAPIC a v (clock x)) (built x) |}.
#[global] Instance legacy : Legacy t := {|
  msr_read := λ a x, (0, x); msr_write := λ a v x, x; pics_disable := λ a b x, x |}.
#[global] Instance ioapic : IoApicHw t := {|
  RedirectionTableEntry := unit; rte_default := tt; set_vector := λ _ r, r; set_dest := λ _ r, r;
  set_level_low := λ r, r; ioapic_init := λ _ _ x, x; set_table_entry := λ _ _ _ x, x;
  enable_irq := λ _ _ x, x |}.

(** The clocks are those of [Calibration.v]. *)
#[global] Instance timer : TimerHwOk t LAPIC.
Proof.
  pose (c := ExampleClocks.timer_ok LAPIC).
  refine {| clocks_of := clock; pit_period := 1; count_period := λ _, 1; latency := 1 |}.
  - exact (periods_pos (TimerHwOk := c)).
  - intros x. exact (read_61 (TimerHwOk := c) (clock x)).
  - intros v x. exact (write_61 (TimerHwOk := c) v (clock x)).
  - intros v x. exact (write_43 (TimerHwOk := c) v (clock x)).
  - intros v x. exact (write_42 (TimerHwOk := c) v (clock x)).
  - intros v x. exact (write_3e0 (TimerHwOk := c) v (clock x)).
  - intros v x. exact (write_320 (TimerHwOk := c) v (clock x)).
  - intros v x. exact (write_380 (TimerHwOk := c) v (clock x)).
  - intros x. exact (read_390 (TimerHwOk := c) (clock x)).
Defined.

(** A device of four pages whose registers are at 0xFE000000; the driver shares a buffer. *)
Definition buffer (b : Z) : Prop := 0 ≤ b < 2 ^ 47.
Definition driver {V} (v : V) : HalDriver t V := {|
  HalTransport := unit; HalPciError := unit; HalDriverError := unit;
  hal_transport_new := λ df x, MmioPhysToVirt 0xFE000000 (λ _,
    Return (Ok tt, Machine (bridge x) (clock x) (built x ++ [df])));
  hal_driver_new := λ _ x, DmaAlloc 3 (λ _ _, DmaAlloc 1 (λ _ _, Share 0x200000 (λ _, Return (Ok v, x))));
  hal_enable_interrupts := λ v x, (v, x) |}.
Lemma hal_driver_is_ok {V} (v : V) : HalDriverOk t V buffer (HalDriver0 := driver v).
Proof.
  assert (∀ l, ConfigPorts (λ x : t, built x = l)) as Hports by (intros l; by split).
  refine {| dma_pages := 4; hal_transports := built |}.
  - done.
  - intros df x. cbn. split; [unfold MMIO_LIMIT; lia|done].
  - intros [] x. cbn. split; [lia|]. intros _ _. split; [lia|]. intros _ _. split; [unfold buffer; lia|done].
  - done.
Defined.
#[global] Instance source : HalDriver t unit := driver tt.
#[global] Instance source_ok : HalDriverOk t unit buffer := hal_driver_is_ok tt.
#[global] Instance entropy : EntropyHw (board t) unit := {|
  request_entropy := λ buf v x, (Ok (len buf), buf, v, x);
  has_rdrand := λ x, true; rdrand64_step := λ x, (1, 7, x); rdtsc := λ x, (0, x) |}.
#[global] Instance entropy_ok : EntropyHwOk (board t) unit.
Proof.
  split.
  - intros buf v h r out v' h' Hb [= <- <- <- <-]. done.
  - intros h. unfold urange. cbn. lia.
  - intros h. unfold urange. cbn. lia.
Defined.
#[global] Instance entropy_local : EntropyLocal (H := t) (V := unit).
Proof. by split. Defined.

Definition bi : BootInfo := {|
  memory_map := [
    {| MemoryRegion.start_addr := 0; MemoryRegion.end_addr := 0x100000; MemoryRegion.usable := false |};
    {| MemoryRegion.start_addr := 0x100000; MemoryRegion.end_addr := 0x4000000; MemoryRegion.usable := true |}];
  physical_memory_offset := ExampleMemory.OFF |}.
Definition info : IoApicInfo := {| io_apic_id := 0; phys_addr := 0xFEC00000; gsi_base := 0 |}.
Definition raw (p n : Z) : list Z := replicate (Z.to_nat n) 0.
Definition uart_new (x : t) : option (list Z * t) := Some ([], x).
Definition h0 : t := Machine ExampleHost.h0 ExampleClocks.c0 [].

Lemma bi_fits {U V} (new : t → option (U * t)) (v : V) :
  is_Some (new h0) →
  boot_ok (Vn := V) (HDn := driver v) (HDnok := hal_driver_is_ok v) buffer raw (λ _ : t, Some ExampleApic.madt) new
    0x200000 bi (HT := timer) 0x1000 h0 0x4000000 ExampleApic.madt info.
Proof.
  intros Hnew. constructor; try done.
  - unfold canonical, STACK_SIZE, PAGE_SIZE. lia.
  - intros p n Hn. by apply (len_array 0).
  - intros x Hx. left. cbn. unfold ExampleMemory.OFF. lia.
  - intros b Hb. split; [by left|]. by eexists.
  - split_and!; [reflexivity| |lia|].
    + repeat constructor; vm_compute; congruence.
    + eexists. split; [right; left|]. split; [reflexivity|]. vm_compute. congruence.
  - exists 257. split_and!; [lia|vm_compute; congruence|]. change (HEAP_PAGES + _) with 4104. intros j Hj. split.
    + eexists. split; [right; left|]. split; [reflexivity|]. unfold touches.
      change (256 ≤ j < 16384). lia.
    + intros r. cbn [bi memory_map]. rewrite !elem_of_cons, elem_of_nil. intros [->|[->|[]]].
      * change (¬ (0 ≤ j < 1)). lia.
      * change (¬ (256 ≤ j < 257)). lia.
Qed.
End ExampleBoot.

Lemma kernel_starts_witness :
  ∃ k dma, init (Vn := unit) (Vr := unit) ExampleBoot.raw (λ _, Some ExampleApic.madt)
      ExampleBoot.uart_new 0x200000 (Z.to_nat 20000) ExampleBoot.bi
      (cold 0x1000 ExampleBoot.h0 (λ _, 0)) = Ret (tt, k) ∧
    interrupts k = true ∧ ∃ heap, memory_is_up ExampleBoot.raw ExampleBoot.bi (memory (the_board k)) heap dma.
Proof.
  destruct (kernel_starts (Vn := unit) (Vr := unit) (B := unit) (Q := Z * list Z) ExampleBoot.buffer ExampleBoot.raw
    (λ _, Some ExampleApic.madt) ExampleBoot.uart_new 0x200000 ExampleBoot.bi (HT := ExampleBoot.timer) 0x1000
    ExampleBoot.h0 0x4000000 ExampleApic.madt ExampleBoot.info (ExampleBoot.bi_fits ExampleBoot.uart_new tt ltac:(by eexists))
    (Z.to_nat 20000) (λ _, 0))
    as (k & heap & dma & E & _ & _ & Hi & _ & Hm & _); [unfold window, STEPS; cbn; lia|].
  exists k, dma. split; [exact E|]. split; [exact Hi|]. exists heap. exact Hm.
Defined.
