(* ===== verification/System.v ===== *)
(** * The running kernel: tasks, executor, interrupts and the processor together

    [executor.run()] over the tasks of [Tasks.v], one action at a time, with the handlers
    of [Interrupts.v] running between any two actions while interrupts are enabled.  A
    handler runs with interrupts disabled, so it is one step; so is what is done under an
    [InterruptMutex].  A task handles a byte in one step, and a packet in three (receive,
    process, recycle): what it works on in between is the task's own. *)

From S2P Require Import Prelude Utils Interfaces Handler HandlerSpec HandlerTheorems.
From S2P Require Import Streams NetTask Timers Executor Serial Apic Interrupts Tasks.
Local Open Scope Z_scope.

(** The device interrupts. *)
Inductive irq := Com1 | Timer | VirtioNet.

(** Where [run] is: popping a task off the queue, polling one, or in [sleep_if_idle]
    before [disable()], before the look at the queue, or halted. *)
Inductive run_at (B : Type) := AtPop | Polling (i : TaskId) (f : fut B) | AtDisable | AtCheck | Halted.
Arguments AtPop {B}.
Arguments Polling {B} i f.
Arguments AtDisable {B}.
Arguments AtCheck {B}.
Arguments Halted {B}.

Section System.
Context {H U D R Qs Qn A Q : Type} `{HM : Mmio H} `{HU : Uart U} `{HT : Tty U}.
Context `{HD : NetDriver D} `{HR : RandomSource R} `{HN : !NetReceiver D} `{HI : NetIrq D}.
Context `{HQs : ArrayQueue Qs Z} `{HQn : ArrayQueue Qn NetworkEvent.t} `{HA : AtomicWaker A TaskWaker}.
Context `{HQ : ArrayQueue Q TaskId}.
Abbreviation shared_state := (Interrupts.kernel H U D Qs Qn A TaskWaker).
Abbreviation env := (env H U D R Qs Qn A).

Record system := System {
  at_run : run_at RxBuffer;
  flag : bool;
  executor : Executor (fut RxBuffer) Q;
  environment : env;
}.

(** ** Interrupts *)

Definition handler (fuel : nat) (v : irq) : prog shared_state unit :=
  match v with
  | Com1 => com1_interrupt_handler fuel
  | Timer => timer_interrupt_handler
  | VirtioNet => virtio_irq
  end.

(** The wakers a handler woke, in order. *)
Definition wakes (k k' : shared_state) : list TaskWaker :=
  skipn (length (Streams.woken (serial_in k))) (Streams.woken (serial_in k')) ++
  skipn (length (Streams.woken (net_in k))) (Streams.woken (net_in k')) ++
  skipn (length (Timers.woken (timers k))) (Timers.woken (timers k')).

Definition set_shared (k : shared_state) (x : env) : env :=
  Env k (NETWORK_INTERFACE x) (net_rng x) (net_sent x) (net_console x) (time_console x).

(** A handler, with the pushes of the wakers it wakes onto the executor's queue. *)
Definition serve (fuel : nat) (v : irq) (x : env) (q : Q) : outcome (env * Q) :=
  '(_, k) ← handler fuel v (shared x);
  q ← wake_all (wakes (shared x) k) q;
  Ret (set_shared k x, q).

(** An interrupt is taken, and [hlt] returns. *)
Definition interrupt (fuel : nat) (v : irq) (s : system) : outcome system :=
  '(x, q) ← serve fuel v (environment s) (task_queue (executor s));
  Ret (System (match at_run s with Halted => AtPop | p => p end) (flag s)
         (set_queue q (executor s)) x).

(** ** The run loop *)

(** The next action of [run]. *)
Definition run_step (s : system) : outcome system :=
  let e := executor s in
  match at_run s with
  | AtPop =>
      match queue_pop (task_queue e) with
      | None => Ret (System AtDisable (flag s) e (environment s))
      | Some (i, q) =>
          match tasks e !! i with
          | None => Ret (System AtPop (flag s) (set_queue q e) (environment s))
          | Some task =>
              let waker := default (TaskWaker_new i) (waker_cache e !! i) in
              Ret (System (Polling i (future task)) (flag s)
                     {| tasks := tasks e; task_queue := q; waker_cache := <[i := waker]> (waker_cache e) |}
                     (environment s))
          end
      end
  | Polling i f =>
      let waker := default (TaskWaker_new i) (waker_cache e !! i) in
      '(r, x) ← fut_step waker f (environment s);
      match r with
      | Next f => Ret (System (Polling i f) (flag s) e x)
      | Wait f =>
          Ret (System AtPop (flag s)
                 {| tasks := <[i := {| id := i; future := f |}]> (tasks e); task_queue := task_queue e;
                    waker_cache := waker_cache e |} x)
      end
  | AtDisable => Ret (System AtCheck false e (environment s))
  | AtCheck =>
      if queue_is_empty (task_queue e) then Ret (System Halted true e (environment s))
      else Ret (System AtPop true e (environment s))
  | Halted => Ret s
  end.

(** What the hardware writes: the UART receives, the card delivers. *)
Definition on_wire (u : U) (d : D) (s : system) : system :=
  let x := environment s in
  let k := shared x in
  System (at_run s) (flag s) (executor s)
    (set_shared (Interrupts.Kernel (plat k) u (Some d) (serial_in k) (net_in k) (timers k)) x).

Inductive step : system → system → Prop :=
| step_run s s' : at_run s ≠ Halted → run_step s = Ret s' → step s s'
| step_interrupt fuel v s s' : flag s = true → interrupt fuel v s = Ret s' → step s s'
| step_wire u d s : step s (on_wire u d s).
End System.
Arguments system : clear implicits.
Arguments system _ _ _ _ _ _ _ _ {_ _ _}.

(** ** Who waits for what *)

Section Invariant.
Context {H U D R Qs Qn A Q : Type} `{HM : Mmio H} `{HU : Uart U} `{HT : Tty U} `{HTok : !TtyOk U}.
Context `{HD : NetDriver D} `{HDok : !NetDriverOk D} `{HR : RandomSource R} `{HRok : !RandomSourceOk R}.
Context `{HN : !NetReceiver D} `{HNok : !NetReceiverOk D} `{HI : NetIrq D}.
Context `{HQs : ArrayQueue Qs Z} `{HQsok : !ArrayQueueOk Qs Z}.
Context `{HQn : ArrayQueue Qn NetworkEvent.t} `{HQnok : !ArrayQueueOk Qn NetworkEvent.t}.
Context `{HA : AtomicWaker A TaskWaker} `{HAok : !AtomicWakerOk A TaskWaker}.
Context `{HQ : ArrayQueue Q TaskId} `{HQok : !ArrayQueueOk Q TaskId}.
Abbreviation shared_state := (Interrupts.kernel H U D Qs Qn A TaskWaker).
Abbreviation env := (env H U D R Qs Qn A).
Abbreviation system := (system H U D R Qs Qn A Q).
Abbreviation fut := (fut RxBuffer).
Implicit Types (x : env) (s : system) (k : shared_state).

(** A stream of task [i] at a point of its poll, or not being polled: whoever looks at
    the queue for the last time has its waker registered or is queued again. *)
Definition stream_waits {Qe E} `{HQe : ArrayQueue Qe E} `{HQeok : !ArrayQueueOk Qe E} (i : TaskId)
    (p : option (Streams.pc E)) (st : stream Qe A TaskWaker) (tq : list TaskId) : Prop :=
  match p with
  | None | Some (AtEnd Streams.Pending) =>
      (queued st = [] ∧ registered (waker st) = Some (TaskWaker_new i)) ∨ i ∈ tq
  | Some AtSecondPop => registered (waker st) = Some (TaskWaker_new i) ∨ i ∈ tq
  | Some _ => True
  end.

(** A task that is being polled ([polling]), or that is stored and will be polled again. *)
Definition waits (polling : bool) (f : fut) x (tq : list TaskId) : Prop :=
  match f with
  | HandleSerial (SerialAwait _ _ p) =>
      (polling = false → p = AtStart) ∧
      stream_waits 0 (if polling then Some p else None) (serial_in (shared x)) tq
  | NetworkTask (NetAwait p) =>
      (polling = false → p = AtStart) ∧
      stream_waits 1 (if polling then Some p else None) (net_in (shared x)) tq
  | TimeTask (TimeAwait t) =>
      let c := timers (shared x) in
      polling = true ∨ 2 ∈ tq ∨
      (TICKS c < deadline_ms t ∧ TIMERS c = [((deadline_ms t, Timers.id t), TaskWaker_new 2)])
  | _ => polling = true ∨ kind f ∈ tq
  end.

Definition task_ok (i : TaskId) (pf : bool * fut) x (tq : list TaskId) : Prop :=
  kind pf.2 = i ∧ fut_ok (TaskWaker_new i) pf.2 x ∧ waits pf.1 pf.2 x tq.

(** Task [i]: whether it is being polled, and where it is. *)
Definition current s (i : TaskId) : option (bool * fut) :=
  match at_run s with
  | Polling j f => if decide (i = j) then Some (true, f)
                   else (λ t, (false, future t)) <$> tasks (executor s) !! i
  | _ => (λ t, (false, future t)) <$> tasks (executor s) !! i
  end.

Abbreviation tq s := (contents (E := TaskId) (task_queue (executor s))).

Record sys_ok (b : Z) s : Prop := {
  ok_exec : exec_ok (executor s);
  ok_tasks : ∀ i : TaskId, is_Some (tasks (executor s) !! i) ↔ 0 ≤ i ≤ 2;
  ok_polling : ∀ (i : TaskId) f, at_run s = Polling i f → is_Some (tasks (executor s) !! i);
  ok_flag : flag s = match at_run s with AtCheck => false | _ => true end;
  ok_mapped : mapped b (plat (shared (environment s)));
  ok_current : ∀ (i : TaskId) pf, current s i = Some pf → task_ok i pf (environment s) (tq s);
  ok_halted : at_run s = Halted → tq s = [];
}.

(** *** What keeps a task waiting *)

Lemma stream_waits_mono {Qe E} `{HQe : ArrayQueue Qe E} `{HQeok : !ArrayQueueOk Qe E} i
    (p : option (Streams.pc E)) (st : stream Qe A TaskWaker) l l' :
  (i ∈ l → i ∈ l') → stream_waits i p st l → stream_waits i p st l'.
Proof. intros Hl. destruct p as [[| | |?|[]]|]; cbn; tauto. Qed.

Lemma waits_mono polling f x l l' :
  (kind f ∈ l → kind f ∈ l') → waits polling f x l → waits polling f x l'.
Proof.
  intros Hl. destruct f as [[| |b n p]|[| |p| | |]|[| |t]]; cbn in *; try tauto;
    (intros [Hp Hw]; split; [done|by eapply stream_waits_mono]).
Qed.

Lemma task_ok_mono i pf x l l' : (i ∈ l → i ∈ l') → task_ok i pf x l → task_ok i pf x l'.
Proof. intros Hl (<- & Hf & Hw). split_and!; try done. by eapply waits_mono. Qed.

Lemma waits_only j polling f x x' l : only j x x' → kind f ≠ j → waits polling f x l → waits polling f x' l.
Proof.
  intros (S & N & T) Hk. destruct f as [s|s|s]; cbn in Hk.
  - specialize (S ltac:(lia)). injection S as _ S. unfold waits. by rewrite S.
  - specialize (N ltac:(lia)). injection N as _ N _ _ _ _. unfold waits. by rewrite N.
  - specialize (T ltac:(lia)). injection T as T _. unfold waits. by rewrite T.
Qed.

Lemma task_ok_only j i pf x x' l : only j x x' → i ≠ j → task_ok i pf x l → task_ok i pf x' l.
Proof.
  intros Ho Hij (<- & Hf & Hw). split_and!; [done|by eapply fut_ok_only|by eapply waits_only].
Qed.

(** *** The task's own actions *)

Lemma poll_step_waits {Qe E} `{HQe : ArrayQueue Qe E} `{HQeok : !ArrayQueueOk Qe E} i
    (p p' : Streams.pc E) (st st' : stream Qe A TaskWaker) l :
  (∀ r, p ≠ AtEnd r) → poll_step (TaskWaker_new i) p st = Ret (p', st') →
  stream_waits i (Some p) st l → stream_waits i (Some p') st' l.
Proof.
  intros Hend Hs Hw. unfold poll_step in Hs. destruct p as [| | |e|r]; [..|by destruct (Hend r)].
  - destruct (queue st) as [q|] eqn:Eq; [|done]. cbn in Hs.
    destruct (queue_pop q) as [[e q']|]; by injection Hs as <- <-.
  - injection Hs as <- <-. left. apply aw_register_ok.
  - destruct (queue st) as [q|] eqn:Eq; [|done]. cbn in Hs. pose proof (queue_pop_ok q) as Hp.
    destruct (queue_pop q) as [[e q']|]; injection Hs as <- <-; [done|].
    cbn in Hw |- *. unfold queued. rewrite Eq. tauto.
  - by injection Hs as <- <-.
Qed.

Lemma fut_step_waits i f x r x' l :
  task_ok i (true, f) x l → fut_step (TaskWaker_new i) f x = Ret (r, x') →
  waits (match r with Next _ => true | Wait _ => false end) (at_of r) x' l.
Proof.
  intros (<- & Hf & Hw) E. cbn [fst snd] in *. destruct f as [s|s|s]; cbn [fut_step kind fut_ok] in *.
  - apply bind_returns in E as ([r1 x1] & E & [= <- <-]). destruct s as [| |b n p]; cbn in E.
    + apply bind_returns in E as (st & _ & [= <- <-]). by left.
    + apply bind_returns in E as (u & _ & [= <- <-]). by split.
    + destruct (pc_cases p) as [[y ->]|[->|Hend]].
      * apply bind_returns in E as ([[[r b1] n1] u] & _ & E). destruct r as [r|].
        -- apply bind_returns in E as (u1 & _ & [= <- <-]). by left.
        -- injection E as <- <-. by split.
      * injection E as <- <-. by split; [|apply Hw].
      * assert (∃ p' st, poll_step (TaskWaker_new 0) p (serial_in (shared x)) = Ret (p', st) ∧
          r1 = Next (SerialAwait b n p') ∧ x1 = put_serial (SERIAL_TTY (shared x)) st x) as (p' & st & Ep & -> & ->).
        { destruct p as [| | |?|r0]; [..|by destruct (Hend r0)];
            apply bind_returns in E as ([p' st] & Ep & [= <- <-]); eauto. }
        cbn. split; [done|]. eapply poll_step_waits; [done|done|]. by destruct Hw.
  - apply bind_returns in E as ([r1 x1] & E & [= <- <-]). destruct s as [| |p| |b|b]; cbn in E.
    + apply bind_returns in E as (st & _ & [= <- <-]). by left.
    + destruct (NETWORK_INTERFACE x); [by injection E as <- <-|].
      apply bind_returns in E as (d & _ & E). by apply bind_returns in E as (s & _ & [= <- <-]).
    + destruct (pc_cases p) as [[y ->]|[->|Hend]].
      * destruct y; [injection E as <- <-; by left|]. by apply bind_returns in E as ([[] x2] & _ & [= <- <-]).
      * injection E as <- <-. by split; [|apply Hw].
      * assert (∃ p' st, poll_step (TaskWaker_new 1) p (net_in (shared x)) = Ret (p', st) ∧
          r1 = Next (NetAwait p') ∧ x1 = put_events st x) as (p' & st & Ep & -> & ->).
        { destruct p as [| | |?|r0]; [..|by destruct (Hend r0)];
            apply bind_returns in E as ([p' st] & Ep & [= <- <-]); eauto. }
        cbn. split; [done|]. eapply poll_step_waits; [done|done|]. by destruct Hw.
    + apply bind_returns in E as ([r x2] & _ & E). destruct r; injection E as <- <-; [by left|done].
    + apply bind_returns in E as ([r x2] & _ & [= <- <-]). by left.
    + apply bind_returns in E as ([r x2] & _ & [= <- <-]). by left.
  - destruct (time_step_ok (TaskWaker_new 2) s x Hf) as (r1 & c & l1 & E1 & _ & _ & _ & _ & Hwait).
    rewrite E1 in E. injection E as <- <-. destruct r1 as [[| |t]|[| |t]]; cbn in *; try done; eauto.
Qed.

(** *** The handlers *)

(** An event: its task is woken, or nothing it waits for changed. *)
Lemma add_event_waits {Qe E} `{HQe : ArrayQueue Qe E} `{HQeok : !ArrayQueueOk Qe E} i
    (e : E) (p : option (Streams.pc E)) (st : stream Qe A TaskWaker) l :
  stream_up st → stream_waits i p st l →
  ∃ ws, Streams.woken (add_event e st) = Streams.woken st ++ ws ∧ stream_up (add_event e st) ∧
    stream_waits i p (add_event e st) (l ++ map task_id ws) ∧
    (length ws + length (option_list (registered (waker (add_event e st)))) ≤
     length (option_list (registered (waker st))))%nat.
Proof.
  intros (q & Hq & Hcap & Hlen) Hw. unfold add_event. rewrite Hq.
  pose proof (queue_push_ok e q) as Hp. destruct (queue_push e q) as [q'|e'].
  - destruct Hp as (Hlt & Hc & Hc'). destruct (aw_wake_ok (waker st)) as [Hr Hr'].
    eexists. split; [reflexivity|]. cbn. rewrite Hr, Hr'. split.
    { exists q'. cbn. split_and!; [done|congruence|]. rewrite Hc, len_app, len_cons, len_nil. lia. }
    split; [|cbn; lia].
    assert (registered (waker st) = Some (TaskWaker_new i) ∨ i ∈ l →
      i ∈ l ++ map task_id (option_list (registered (waker st)))) as Hin.
    { intros [->|Hin]; apply elem_of_app; [right; by left|by left]. }
    destruct p as [[| | |?|[]]|]; cbn in *; try done; right; apply Hin; tauto.
  - exists []. rewrite !app_nil_r. cbn. split_and!; [done|by exists q| |lia].
    unfold stream_waits, queued in *. cbn. by rewrite Hq in *.
Qed.

Lemma add_events_waits {Qe E} `{HQe : ArrayQueue Qe E} `{HQeok : !ArrayQueueOk Qe E} i
    (es : list E) (p : option (Streams.pc E)) (st : stream Qe A TaskWaker) l :
  stream_up st → stream_waits i p st l →
  ∃ ws, Streams.woken (foldl (λ t e, add_event e t) st es) = Streams.woken st ++ ws ∧
    stream_up (foldl (λ t e, add_event e t) st es) ∧
    stream_waits i p (foldl (λ t e, add_event e t) st es) (l ++ map task_id ws) ∧ (length ws ≤ 1)%nat.
Proof.
  intros Hup Hw. assert (∃ ws, Streams.woken (foldl (λ t e, add_event e t) st es) = Streams.woken st ++ ws ∧
    stream_up (foldl (λ t e, add_event e t) st es) ∧
    stream_waits i p (foldl (λ t e, add_event e t) st es) (l ++ map task_id ws) ∧
    (length ws ≤ length (option_list (registered (waker st))))%nat) as (ws & H1 & H2 & H3 & H4).
  { revert st l Hup Hw. induction es as [|e es IH]; intros st l Hup Hw.
    { exists []. rewrite !app_nil_r. split_and!; try done. cbn. lia. }
    cbn [foldl]. destruct (add_event_waits i e p st l Hup Hw) as (w1 & E1 & U1 & W1 & L1).
    destruct (IH _ _ U1 W1) as (w2 & E2 & U2 & W2 & L2). exists (w1 ++ w2).
    rewrite E2, E1, map_app, !app_assoc, length_app. split_and!; try done. lia. }
  exists ws. split_and!; try done. destruct (registered (waker st)); cbn in H4; lia.
Qed.

(** Before the stream is made, events are only reported. *)
Lemma add_events_down {Qe E} `{HQe : ArrayQueue Qe E} (es : list E) (st : stream Qe A TaskWaker) :
  queue st = None →
  queue (foldl (λ t e, add_event e t) st es) = None ∧
  Streams.woken (foldl (λ t e, add_event e t) st es) = Streams.woken st.
Proof.
  revert st. induction es as [|e es IH]; intros st Hq; [done|]. cbn [foldl].
  assert (queue (add_event e st) = None ∧ Streams.woken (add_event e st) = Streams.woken st) as [E1 E2]
    by (unfold add_event; by rewrite Hq).
  rewrite <- E2. by apply IH.
Qed.

Lemma skipn_self {B} (l : list B) : skipn (length l) l = [].
Proof. apply drop_ge. lia. Qed.
Lemma skipn_app {B} (l l' : list B) : skipn (length l) (l ++ l') = l'.
Proof. apply drop_app_length. Qed.

Lemma drain_inv fuel k k' : drain fuel k = Ret (tt, k') →
  ∃ u l, k' = set_serial u (foldl (λ t e, add_event e t) (serial_in k) l) k.
Proof.
  revert k. induction fuel as [|fuel IH]; intros k; [done|]. cbn [drain].
  destruct (try_receive_byte (SERIAL_TTY k)) as [[y|] u].
  - intros (u' & l & ->)%IH. by exists u', (y :: l).
  - intros [= <-]. by exists u, [].
Qed.

Lemma eoi_inv b k k1 (m : prog shared_state unit) k' :
  m k = Ret (tt, k1) → mapped b (plat k1) → (m;; eoi) k = Ret (tt, k') → k' = acknowledged b k1.
Proof. intros Hm Hb. rewrite (prog_bind_Ret _ _ _ _ _ Hm), (eoi_eq b) by done. by intros [= <-]. Qed.

(** What each handler does when it returns. *)
Lemma handler_inv b fuel v k k' :
  mapped b (plat k) → handler fuel v k = Ret (tt, k') →
  match v with
  | Com1 => ∃ u l, k' = acknowledged b (set_serial u (foldl (λ t e, add_event e t) (serial_in k) l) k)
  | Timer => ∃ c, tick (timers k) = Ret c ∧ k' = acknowledged b (set_clock c k)
  | VirtioNet => ∃ d l, k' = acknowledged b (set_net d (foldl (λ t e, add_event e t) (net_in k) l) k)
  end.
Proof.
  intros Hb. destruct v; cbn [handler].
  - unfold com1_interrupt_handler. intros E. pose proof E as E'. unfold mbind, prog_bind in E'.
    destruct (drain fuel k) as [[[] k1]| |] eqn:Ed; try done. destruct (drain_inv _ _ _ Ed) as (u & l & ->).
    exists u, l. eapply eoi_inv; [exact Ed|done|exact E].
  - unfold timer_interrupt_handler, tick_clock. intros E. pose proof E as E'. unfold mbind, prog_bind in E'.
    destruct (tick (timers k)) as [c| |] eqn:Ec; try done. exists c. split; [done|].
    refine (eoi_inv b k (set_clock c k) _ k' _ _ E); [by rewrite Ec|done].
  - unfold virtio_irq, net_events. intros E. pose proof E as E'. unfold mbind, prog_bind in E'.
    destruct (VIRTIO_NET k) as [d|] eqn:Ed; [|done]. cbn in E'.
    destruct (ack_interrupt d) as [[q c] d'] eqn:Ea. exists d', (causes q c).
    refine (eoi_inv b k _ _ k' _ _ E); [|done]. rewrite Ed. cbn. rewrite Ea. by destruct q, c.
Qed.

Lemma wakes_serial b k u st ws :
  Streams.woken st = Streams.woken (serial_in k) ++ ws → wakes k (acknowledged b (set_serial u st k)) = ws.
Proof. intros E. unfold wakes. cbn. by rewrite E, skipn_app, !skipn_self, !app_nil_r. Qed.
Lemma wakes_net b k d st ws :
  Streams.woken st = Streams.woken (net_in k) ++ ws → wakes k (acknowledged b (set_net d st k)) = ws.
Proof. intros E. unfold wakes. cbn. by rewrite E, skipn_app, !skipn_self, app_nil_r. Qed.
Lemma wakes_clock b k c ws :
  Timers.woken c = Timers.woken (timers k) ++ ws → wakes k (acknowledged b (set_clock c k)) = ws.
Proof. intros E. unfold wakes. cbn. by rewrite E, skipn_app, !skipn_self. Qed.

(** The timer interrupt wakes the clock task exactly at its deadline. *)
Lemma tick_task polling (a : time_at) x c l :
  task_ok 2 (polling, TimeTask a) x l → tick (timers (shared x)) = Ret c →
  ∃ ws, Timers.woken c = Timers.woken (timers (shared x)) ++ ws ∧ (length ws ≤ 1)%nat ∧
    ∀ b, task_ok 2 (polling, TimeTask a) (set_shared (acknowledged b (set_clock c (shared x))) x)
           (l ++ map task_id ws).
Proof.
  intros (_ & [Hc Ht] & Hw) E. pose proof (tick_runs _ _ Hc E) as Hr. destruct (Hr) as [H0 H1].
  assert (BTreeMap.sorted (TIMERS (timers (shared x)))) as Hs.
  { destruct a as [| |t]; [rewrite Ht|rewrite Ht|destruct Ht as [->| ->]]; repeat constructor. }
  rewrite tick_eq in E by done. injection E as <-. eexists. split; [reflexivity|].
  assert (TIMERS (timers (shared x)) = [] ∨ ∃ t, a = TimeAwait t ∧
    TIMERS (timers (shared x)) = [((deadline_ms t, Timers.id t), TaskWaker_new 2)]) as [He|(t & -> & He)].
  { destruct a as [| |t]; [by left|by left|]. destruct Ht as [?|?]; eauto. }
  - rewrite He. cbn. split; [lia|]. intros b. rewrite !app_nil_r. split; [done|]. cbn. split.
    + split; [split; cbn; lia|]. destruct a; cbn; eauto.
    + destruct a as [| |t]; cbn in Hw |- *; try done. rewrite He in Hw.
      destruct Hw as [?|[?|[_ ?]]]; [by left|by right; left|done].
  - rewrite He, !filter_cons. cbn [fst snd]. destruct (decide (TICKS _ + 1 < _)) as [Hd|Hd].
    + rewrite decide_False by lia. cbn. split; [lia|]. intros b. rewrite !app_nil_r. split; [done|]. cbn. split.
      * split; [split; cbn; lia|]. by right.
      * destruct Hw as [?|[?|_]]; [by left|by right; left|right; right]. done.
    + rewrite decide_True by lia. cbn. split; [lia|]. intros b. split; [done|]. cbn. split.
      * split; [split; cbn; lia|]. by left.
      * right; left. apply elem_of_app. right. by left.
Qed.

(** Every task is as it should be after a handler and its wake-ups. *)
Lemma handler_task b fuel v i pf x l k' :
  mapped b (plat (shared x)) → handler fuel v (shared x) = Ret (tt, k') → task_ok i pf x l →
  task_ok i pf (set_shared k' x) (l ++ map task_id (wakes (shared x) k')).
Proof.
  intros Hb E Hi. apply (handler_inv b) in E; [|done].
  assert (∀ j ws, i ≠ j → only j x (set_shared k' x) → task_ok i pf (set_shared k' x) (l ++ ws)) as Hother.
  { intros j ws Hj Ho. eapply task_ok_mono; [|by eapply task_ok_only]. set_solver. }
  destruct v.
  - destruct E as (u & es & ->). destruct pf as [polling [a|a|a]];
      [|apply (Hother 0); [destruct Hi as (<- & _); cbn; lia|done]..].
    destruct Hi as (<- & Hf & Hw). cbn [fst snd fut_ok kind] in *.
    destruct a as [| |buf n p].
    + destruct (add_events_down es _ Hf) as [Hq Hws].
      rewrite (wakes_serial _ _ _ _ []) by (by rewrite app_nil_r). by rewrite app_nil_r.
    + destruct (add_events_waits 0 es (Some AtStart) (serial_in (shared x)) l Hf I) as (ws & Hws & Hup & _).
      rewrite (wakes_serial _ _ _ _ ws) by done. split_and!; try done. cbn in *. set_solver.
    + destruct Hf as (Hup & Hl & Hn). destruct Hw as [Hp Hw].
      destruct (add_events_waits 0 es _ _ l Hup Hw) as (ws & Hws & Hup' & Hw' & _).
      rewrite (wakes_serial _ _ _ _ ws) by done. by split_and!.
  - destruct E as (c & Ec & ->). destruct pf as [polling [a|a|a]];
      [apply (Hother 2); [destruct Hi as (<- & _); cbn; lia|done]..|].
    destruct (Hi) as (<- & _). destruct (tick_task polling a x c l Hi Ec) as (ws & Hws & _ & Hok).
    rewrite (wakes_clock _ _ _ ws) by done. apply Hok.
  - destruct E as (d & es & ->). destruct pf as [polling [a|a|a]];
      [apply (Hother 1); [destruct Hi as (<- & _); cbn; lia|done]| |
       apply (Hother 1); [destruct Hi as (<- & _); cbn; lia|done]].
    destruct Hi as (<- & (Hd & Hr & Hf) & Hw). cbn [fst snd fut_ok kind] in *.
    destruct a as [| |p| |packet|packet].
    1:{ destruct Hf as [Hf Hn]. destruct (add_events_down es _ Hf) as [Hq Hws].
      rewrite (wakes_net _ _ _ _ []) by (by rewrite app_nil_r). rewrite app_nil_r.
      split_and!; done. }
    2:{ destruct Hf as [Hup Hn]. destruct Hw as [Hp Hw].
      destruct (add_events_waits 1 es _ _ l Hup Hw) as (ws & Hws & Hup' & Hw' & _).
      rewrite (wakes_net _ _ _ _ ws) by done. by split_and!. }
    all: destruct Hf as [Hup Hn];
      destruct (add_events_waits 1 es (Some AtStart) (net_in (shared x)) l Hup I) as (ws & Hws & Hup' & _);
      rewrite (wakes_net _ _ _ _ ws) by done; split_and!; try done; try (cbn in *; set_solver).
Qed.

(** ** Every step keeps the invariant *)

Lemma waker_of s i :
  exec_ok (executor s) → default (TaskWaker_new i) (waker_cache (executor s) !! i) = TaskWaker_new i.
Proof.
  intros (_ & Hw & _). destruct (waker_cache (executor s) !! i) as [[j]|] eqn:E; [|done].
  apply Hw in E as [Hj _]. cbn in *. by rewrite Hj.
Qed.

Lemma exec_ok_queue (e : Executor fut Q) q :
  exec_ok e → capacity q = capacity (task_queue e) → len (contents q) ≤ 100 → exec_ok (set_queue q e).
Proof. intros (Ht & Hw & Hcap & _) Hq Hl. split_and!; cbn; try done. congruence. Qed.

Lemma interrupt_ok b fuel v s s' : sys_ok b s → interrupt fuel v s = Ret s' → sys_ok b s'.
Proof.
  intros [He Ht Hp Hf Hm Hc Hh] E. unfold interrupt, serve in E.
  apply bind_returns in E as ([x q] & E & [= <-]). apply bind_returns in E as ([[] k] & Eh & E).
  apply bind_returns in E as (q1 & Ew & [= <- <-]). destruct (wake_all_inv _ _ _ Ew) as (Hq & Hcap & Hle).
  destruct (He) as (_ & _ & H100 & Hl). rewrite H100 in Hle.
  split; cbn [at_run flag executor environment set_queue tasks task_queue].
  - apply exec_ok_queue; [done|congruence|by apply Hle].
  - done.
  - intros i f. by destruct (at_run s) eqn:Ea; try done; intros [= <- <-]; eapply Hp.
  - rewrite Hf. by destruct (at_run s).
  - apply (handler_inv b) in Eh; [|done]. cbn.
    destruct v; [destruct Eh as (u & l & ->)|destruct Eh as (c & _ & ->)|destruct Eh as (d & l & ->)]; done.
  - intros i pf Hi. rewrite Hq. eapply handler_task; [done|done|]. apply Hc. unfold current in *. cbn in Hi.
    by destruct (at_run s).
  - by destruct (at_run s).
Qed.

(** Popping a task that waits starts its poll. *)
Lemma resume_waits i f x l l' : task_ok i (false, f) x l → task_ok i (true, f) x l'.
Proof.
  intros (Hk & Hf & Hw). split_and!; try done. cbn in *.
  destruct f as [[| |b n p]|[| |p| | |]|[| |t]]; cbn in *; try by left.
  all: destruct Hw as [Hp _]; rewrite (Hp eq_refl); done.
Qed.

Lemma pop_task_ok b s i q t :
  sys_ok b s → at_run s = AtPop → queue_pop (task_queue (executor s)) = Some (i, q) →
  tasks (executor s) !! i = Some t →
  sys_ok b (System (Polling i (future t)) (flag s)
    {| tasks := tasks (executor s); task_queue := q;
       waker_cache := <[i := default (TaskWaker_new i) (waker_cache (executor s) !! i)]>
                        (waker_cache (executor s)) |} (environment s)).
Proof.
  intros [He Ht Hp Hf Hm Hc Hh] Ea Eq Ei. destruct (pop_ok _ _ _ He Eq) as [(H1 & H2 & H3 & H4) Hq].
  split; cbn [at_run flag executor environment tasks task_queue waker_cache].
  - split_and!; try done. cbn [waker_cache tasks]. intros j w. rewrite lookup_insert_Some. cbn in H2.
    rewrite waker_of by done. intros [[<- <-]|[_ Hj]]; [|by apply H2]. split; [done|by eexists].
  - done.
  - intros j f [= <- <-]. by eexists.
  - by rewrite Hf, Ea.
  - done.
  - intros j pf. unfold current in *. cbn. rewrite Ea in Hc. destruct (decide (j = i)) as [->|Hne].
    + intros [= <-]. eapply resume_waits, Hc. by rewrite Ei.
    + intros Hj. eapply task_ok_mono; [|by apply Hc]. rewrite Hq. set_solver.
  - done.
Qed.

Lemma fut_step_facts cx f x r x' :
  fut_ok cx f x → fut_step cx f x = Ret (r, x') →
  fut_ok cx (at_of r) x' ∧ kind (at_of r) = kind f ∧ only (kind f) x x' ∧
  plat (shared x') = plat (shared x).
Proof.
  intros Hf E. destruct (fut_step_ok cx f x Hf) as (r1 & x1 & E1 & Hf1 & _ & _ & Hk & Ho & Hp).
  rewrite E in E1. by injection E1 as <- <-.
Qed.

Lemma poll_action_ok b s i f s' :
  sys_ok b s → at_run s = Polling i f → run_step s = Ret s' → sys_ok b s'.
Proof.
  intros Hok Ea E. pose proof Hok as [He Ht Hp Hf Hm Hc Hh]. unfold run_step in E. rewrite Ea, waker_of in E by done.
  apply bind_returns in E as ([r x] & Ex & E). destruct (Hp i f Ea) as [t Ei].
  assert (task_ok i (true, f) (environment s) (tq s)) as Hi.
  { apply Hc. unfold current. rewrite Ea. by rewrite decide_True. }
  pose proof (fut_step_waits _ _ _ _ _ _ Hi Ex) as Hw. destruct Hi as (Hk & Hfi & _). cbn in Hk, Hfi.
  destruct (fut_step_facts _ _ _ _ _ Hfi Ex) as (Hfr & Hkr & Ho & Hpl). rewrite Hk in *.
  assert (∀ j pf, j ≠ i → (λ t, (false, future t)) <$> tasks (executor s) !! j = Some pf →
    task_ok j pf x (tq s)) as Hrest.
  { intros j pf Hj Hpf. eapply task_ok_only; [exact Ho|done|]. apply Hc. unfold current. rewrite Ea.
    by rewrite decide_False. }
  destruct r as [f'|f']; injection E as <-; cbn in Hfr, Hkr, Hw; split;
    cbn [at_run flag executor environment tasks task_queue waker_cache]; try done.
  - intros j f0 [= <- <-]. by eexists.
  - by rewrite Hf, Ea.
  - by rewrite Hpl.
  - intros j pf. unfold current. cbn. destruct (decide (j = i)) as [->|Hne]; [|by apply Hrest].
    intros [= <-]. done.
  - destruct He as (H1 & H2 & H3 & H4). split_and!; try done.
    + cbn [tasks]. intros j t'. rewrite lookup_insert_Some. intros [[<- <-]|[_ Hj]]; [done|by apply H1].
    + intros j w Hj. destruct (H2 j w Hj) as [? Hs]. split; [done|]. cbn.
      destruct (decide (j = i)) as [->|Hne]; [by rewrite lookup_insert_eq|by rewrite lookup_insert_ne].
  - intros j. rewrite lookup_insert_is_Some'.
    split; [intros [<-|Hj]; apply Ht; eauto|intros Hj%Ht; by right].
  - by rewrite Hf, Ea.
  - by rewrite Hpl.
  - intros j pf. unfold current. cbn. destruct (decide (j = i)) as [->|Hne].
    + rewrite lookup_insert_eq. intros [= <-]. done.
    + rewrite lookup_insert_ne by done. by apply Hrest.
Qed.

(** Only where [run] is changes. *)
Lemma move_ok b s p fl :
  sys_ok b s → (∀ i f, at_run s ≠ Polling i f) → (∀ i f, p ≠ Polling i f) →
  fl = match p with AtCheck => false | _ => true end → (p = Halted → tq s = []) →
  sys_ok b (System p fl (executor s) (environment s)).
Proof.
  intros [He Ht Hp Hf Hm Hc Hh] Ha Hnp Hfl Hhalt. split; cbn; try done.
  - intros i f ->. by destruct (Hnp i f).
  - intros i pf Hi. apply Hc. unfold current in *. cbn in Hi.
    destruct (at_run s) eqn:Ea; destruct p eqn:Epp; try done;
      first [by destruct (Ha i0 f)|by destruct (Hnp i0 f)].
Qed.

(** A task that no longer exists is skipped. *)
Lemma skip_ok b s i q :
  sys_ok b s → at_run s = AtPop → queue_pop (task_queue (executor s)) = Some (i, q) →
  tasks (executor s) !! i = None →
  sys_ok b (System AtPop (flag s) (set_queue q (executor s)) (environment s)).
Proof.
  intros [He Ht Hp Hf Hm Hc Hh] Ea Eq Ei. destruct (pop_ok _ _ _ He Eq) as [He' Hq].
  split; cbn [at_run flag executor environment set_queue tasks task_queue]; try done.
  - by rewrite Hf, Ea.
  - intros j pf Hj. unfold current in *. rewrite Ea in Hc. cbn in Hj.
    eapply task_ok_mono; [|by apply Hc]. rewrite Hq, elem_of_cons. intros [->|?]; [|done].
    by rewrite Ei in Hj.
Qed.

Lemma run_step_ok b s s' : sys_ok b s → run_step s = Ret s' → sys_ok b s'.
Proof.
  intros Hok E. destruct (at_run s) as [|i f| | |] eqn:Ea.
  - unfold run_step in E. rewrite Ea in E.
    destruct (queue_pop (task_queue (executor s))) as [[i q]|] eqn:Eq.
    + destruct (tasks (executor s) !! i) as [t|] eqn:Ei; injection E as <-;
        [by apply pop_task_ok|by eapply skip_ok].
    + injection E as <-. apply move_ok; try done; [by rewrite Ea|by rewrite (ok_flag _ _ Hok), Ea].
  - by eapply poll_action_ok.
  - unfold run_step in E. rewrite Ea in E. injection E as <-. apply move_ok; try done. by rewrite Ea.
  - unfold run_step in E. rewrite Ea in E. destruct (queue_is_empty _) eqn:Eq; injection E as <-;
      apply move_ok; try done; try by rewrite Ea. intros _. by apply queue_is_empty_ok.
  - unfold run_step in E. rewrite Ea in E. by injection E as <-.
Qed.

Lemma wire_ok b u d s : sys_ok b s → sys_ok b (on_wire u d s).
Proof.
  intros [He Ht Hp Hf Hm Hc Hh]. split; try done. intros i pf Hi. destruct (Hc i pf Hi) as (Hk & Hfi & Hw).
  split_and!; try done. destruct pf as [polling [a|a|a]]; try done. cbn in *.
  destruct Hfi as (_ & Hr & Ha). by split_and!.
Qed.

Lemma step_ok b s s' : step s s' → sys_ok b s → sys_ok b s'.
Proof. intros [? ? _ E|fuel v ? ? _ E|u d ?] Hok; [by eapply run_step_ok|by eapply interrupt_ok|by apply wire_ok]. Qed.

(** ** From the start *)

(** [executor.run()] is entered with the three tasks at their beginnings, all queued,
    nothing the tasks make is made, and interrupts are enabled. *)
Record started (b : Z) s : Prop := {
  start_at : at_run s = AtPop;
  start_flag : flag s = true;
  start_exec : exec_ok (executor s);
  start_queue : tq s = ([0; 1; 2] : list TaskId);
  start_tasks : tasks (executor s) =
    <[2 := {| id := 2; future := TimeTask TimePrint |}]>
      (<[1 := {| id := 1; future := NetworkTask NetStart |}]>
        (<[0 := {| id := 0; future := HandleSerial SerialStart |}]> ∅));
  start_mapped : mapped b (plat (shared (environment s)));
  start_serial : queue (serial_in (shared (environment s))) = None;
  start_net : net_ok NetStart (environment s);
  start_time : time_ok (TaskWaker_new 2) TimePrint (environment s);
}.

Lemma started_ok b s : started b s → sys_ok b s.
Proof.
  intros [Ha Hf He Hq Ht Hm Hs Hn Hti]. split; try done.
  - intros i. rewrite Ht, !lookup_insert_is_Some', lookup_empty. split; [|lia].
    intros [<-|[<-|[<-|[? [=]]]]]; lia.
  - by rewrite Ha.
  - by rewrite Ha.
  - intros i pf. unfold current. rewrite Ha, Ht, Hq. intros Hi.
    apply fmap_Some in Hi as (t & Hi & ->). rewrite !lookup_insert_Some, lookup_empty in Hi.
    destruct Hi as [[<- <-]|[_ [[<- <-]|[_ [[<- <-]|[_ [=]]]]]]]; (split_and!; [done|done|right; cbn; set_solver]).
  - by rewrite Ha.
Qed.

Definition reachable b s : Prop := ∃ s0, started b s0 ∧ rtc step s0 s.

Lemma reachable_ok b s : reachable b s → sys_ok b s.
Proof.
  intros (s0 & Hs0%started_ok & Hr). induction Hr; [done|]. eauto using step_ok.
Qed.

Lemma current_some b s (i : TaskId) : sys_ok b s → 0 ≤ i ≤ 2 → ∃ pf, current s i = Some pf ∧ task_ok i pf (environment s) (tq s).
Proof.
  intros Hok Hi. destruct (proj2 (ok_tasks _ _ Hok i) Hi) as [t Et].
  assert (∃ pf, current s i = Some pf) as [pf Hpf].
  { unfold current. rewrite Et. destruct (at_run s); try by eexists. destruct (decide _); by eexists. }
  exists pf. split; [done|]. by apply Hok.
Qed.

(** ** Left alone, the run loop is the executor's *)

(** An action of [run], without an interrupt. *)
Definition goes s s' : Prop := at_run s ≠ Halted ∧ run_step s = Ret s'.

Lemma goes_ok b s s' : rtc goes s s' → sys_ok b s → sys_ok b s'.
Proof. induction 1 as [|s1 s2 s3 [_ E] _ IH]; [done|]. intros Hok. apply IH. by eapply run_step_ok. Qed.

Lemma goes_steps s s' : rtc goes s s' → rtc step s s'.
Proof. induction 1 as [|s1 s2 s3 [Ha E] _ IH]; [done|]. eapply rtc_l; [by eapply step_run|done]. Qed.

Definition stored (i : TaskId) (f : fut) (e : Executor fut Q) : Executor fut Q :=
  {| tasks := <[i := {| id := i; future := f |}]> (tasks e); task_queue := task_queue e;
     waker_cache := waker_cache e |}.

(** A whole poll, action by action. *)
Lemma poll_goes rounds i f fl (e : Executor fut Q) x f' x' :
  default (TaskWaker_new i) (waker_cache e !! i) = TaskWaker_new i →
  poll_fut rounds (TaskWaker_new i) f x = Ret (f', x') →
  rtc goes (System (Polling i f) fl e x) (System AtPop fl (stored i f' e) x').
Proof.
  intros Hw. revert f x. induction rounds as [|rounds IH]; intros f x; [done|]. cbn [poll_fut].
  intros E. apply bind_returns in E as ([r x1] & E & Er).
  assert (run_step (System (Polling i f) fl e x) =
    Ret (match r with Next f1 => System (Polling i f1) fl e x1 | Wait f1 => System AtPop fl (stored i f1 e) x1 end))
    as Hs by (unfold run_step; cbn; rewrite Hw, E, bind_Ret; by destruct r).
  destruct r as [f1|f1]; [|injection Er as <- <-; by apply rtc_once].
  eapply rtc_l; [by split|]. by apply IH.
Qed.

#[local] Existing Instance kernel_future_ok.

(** [run_ready_tasks], action by action. *)
Lemma run_ready_goes b n packets s l r :
  sys_ok b s → at_run s = AtPop →
  run_ready_tasks (HF := kernel_future packets) n (Running (executor s) (environment s) l) = Ret r →
  rtc goes s (System AtDisable (flag s) (exec r) (Executor.env r)).
Proof.
  revert s l. induction n as [|n IH]; intros s l Hok Ha; [done|]. cbn [run_ready_tasks exec Executor.env polled].
  destruct (queue_pop (task_queue (executor s))) as [[i q]|] eqn:Eq.
  2:{ intros [= <-]. apply rtc_once. split; [by rewrite Ha|]. unfold run_step. by rewrite Ha, Eq. }
  intros E. apply bind_returns in E as (r1 & E1 & E).
  unfold run_task in E1. cbn [exec set_queue tasks waker_cache task_queue Executor.env polled] in E1.
  destruct (tasks (executor s) !! i) as [t|] eqn:Ei.
  - rewrite waker_of in E1 by apply Hok. apply bind_returns in E1 as ([[[ready f] x] q'] & Ep & E1).
    apply bind_returns in Ep as ([f1 x1] & Ep & Ef). injection Ef as <- <- <- <-. injection E1 as <-.
    assert (id t = i) as Hid by (by apply (ok_exec _ _ Hok)).
    pose proof (pop_task_ok b s i q t Hok Ha Eq Ei) as Hok1. rewrite waker_of in Hok1 by apply Hok.
    set (s1 := System _ _ _ _) in Hok1.
    assert (rtc goes s (System AtPop (flag s) (stored i f1 (executor s1)) x1)) as Hgo.
    { apply (rtc_l _ _ s1).
      - split; [by rewrite Ha|]. unfold run_step. rewrite Ha, Eq, Ei, waker_of by apply Hok. done.
      - eapply poll_goes; [|done]. apply (waker_of s1), Hok1. }
    etrans; [exact Hgo|]. rewrite Hid in E. change (flag s) with (flag (System AtPop (flag s) (stored i f1 (executor s1)) x1)).
    eapply IH; [by eapply goes_ok|done|exact E].
  - injection E1 as <-. eapply rtc_l; [split; [by rewrite Ha|unfold run_step; by rewrite Ha, Eq, Ei]|].
    eapply (IH (System AtPop (flag s) (set_queue q (executor s)) (environment s))); [by eapply skip_ok|done|exact E].
Qed.

Lemma tasks_in_order b packets s :
  sys_ok b s → at_run s = AtPop → (packets_left (environment s) ≤ packets)%nat →
  tasks_ok packets (tasks (executor s)) (environment s).
Proof.
  intros Hok Ha Hc. split; [done|]. intros i t Hi.
  destruct (ok_current _ _ Hok i (false, future t)) as (Hk & Hf & _); [|done].
  unfold current. by rewrite Ha, Hi.
Qed.

(** From the head of the loop to [hlt]. *)
Lemma settles_from_pop b s :
  sys_ok b s → at_run s = AtPop →
  ∃ s', rtc goes s s' ∧ at_run s' = Halted.
Proof.
  intros Hok Ha. set (packets := packets_left (environment s)).
  pose proof (tasks_in_order b packets s Hok Ha (Nat.le_refl _)) as Hts.
  destruct (run_ready_tasks_eq (HF := kernel_future packets) (S (work (HF := kernel_future packets) (Running (executor s) (environment s) [])))
    (Running (executor s) (environment s) [])) as (r & l & E & _ & _ & Hq & _); [apply Hok|done|lia|].
  pose proof (run_ready_goes b _ packets s [] r Hok Ha E) as Hgo.
  eexists. split; [|shelve]. etrans; [exact Hgo|].
  eapply rtc_l; [by split|]. cbn. apply rtc_once. split; [done|]. unfold run_step. cbn.
  rewrite (proj2 (queue_is_empty_ok (task_queue (exec r))) Hq). reflexivity. Unshelve. done.
Qed.

Lemma settles_from_check b s :
  sys_ok b s → at_run s = AtCheck →
  ∃ s', rtc goes s s' ∧ at_run s' = Halted.
Proof.
  intros Hok Ha. destruct (queue_is_empty (task_queue (executor s))) eqn:Eq.
  - eexists. split; [|shelve]. apply rtc_once. split; [by rewrite Ha|].
    unfold run_step. rewrite Ha, Eq. reflexivity. Unshelve. done.
  - edestruct (settles_from_pop b (System AtPop true (executor s) (environment s)))
      as (s' & Hgo & Hh); [by apply move_ok; try done; rewrite Ha|done|].
    exists s'. split; [|done]. eapply rtc_l; [split; [by rewrite Ha|]|exact Hgo].
    unfold run_step. by rewrite Ha, Eq.
Qed.

Lemma settles b s : sys_ok b s → ∃ s', rtc goes s s' ∧ at_run s' = Halted.
Proof.
  intros Hok. destruct (at_run s) as [|i f| | |] eqn:Ea.
  - by eapply settles_from_pop.
  - assert (task_ok i (true, f) (environment s) (tq s)) as (Hk & Hf & _).
    { apply (ok_current _ _ Hok). unfold current. rewrite Ea. by rewrite decide_True. }
    destruct (poll_fut_ok _ (TaskWaker_new i) f (environment s) Hf (fut_rank_bound _ _ _ Hf))
      as (f' & x' & E & _ & Hc & _).
    apply (poll_goes _ _ _ (flag s) (executor s)) in E; [|apply waker_of, Hok].
    destruct s as [p fl e x]. cbn in *. subst p.
    edestruct (settles_from_pop b) as (s' & Hgo & Hh); [by eapply goes_ok|done|].
    exists s'. split; [by etrans|done].
  - edestruct (settles_from_check b (System AtCheck false (executor s) (environment s)))
      as (s' & Hgo & Hh); [by apply move_ok; try done; rewrite Ea|done|].
    exists s'. split; [|done]. eapply rtc_l; [split; [by rewrite Ea|]|exact Hgo].
    unfold run_step. by rewrite Ea.
  - by eapply settles_from_check.
  - by exists s.
Qed.

(** A task that is not being polled waits. *)
Lemma unpolled b s (i : TaskId) :
  sys_ok b s → 0 ≤ i ≤ 2 → (∀ f, at_run s ≠ Polling i f) →
  ∃ f, task_ok i (false, f) (environment s) (tq s).
Proof.
  intros Hok Hi Ha. destruct (current_some b s i Hok Hi) as ([polling f] & Hc & Ht).
  exists f. replace false with polling; [done|]. unfold current in Hc.
  destruct (at_run s) as [|j g| | |]; [|destruct (decide _) as [->|]; [by destruct (Ha g)|]|..];
    by apply fmap_Some in Hc as (t & _ & [= -> _]).
Qed.

Lemma unpolled_serial b s :
  sys_ok b s → (∀ f, at_run s ≠ Polling 0 f) →
  0 ∈ tq s ∨ (queued (serial_in (shared (environment s))) = [] ∧
              registered (waker (serial_in (shared (environment s)))) = Some (TaskWaker_new 0)).
Proof.
  intros Hok Ha. destruct (unpolled b s 0 Hok ltac:(lia) Ha) as (f & Hk & _ & Hw).
  destruct f as [[| |b0 n p]|a|a]; cbn in *; try lia; [by destruct Hw; [|left]..|].
  destruct Hw as [_ Hw]. tauto.
Qed.

Lemma unpolled_net b s :
  sys_ok b s → (∀ f, at_run s ≠ Polling 1 f) →
  1 ∈ tq s ∨ (queued (net_in (shared (environment s))) = [] ∧
              registered (waker (net_in (shared (environment s)))) = Some (TaskWaker_new 1)).
Proof.
  intros Hok Ha. destruct (unpolled b s 1 Hok ltac:(lia) Ha) as (f & Hk & _ & Hw).
  destruct f as [a|[| |p| | |]|a]; cbn in *; try lia; try by destruct Hw; [|left].
  destruct Hw as [_ Hw]. tauto.
Qed.

Lemma unpolled_time b s :
  sys_ok b s → (∀ f, at_run s ≠ Polling 2 f) →
  2 ∈ tq s ∨ ∃ t, TICKS (timers (shared (environment s))) < deadline_ms t ∧
    TIMERS (timers (shared (environment s))) = [((deadline_ms t, Timers.id t), TaskWaker_new 2)].
Proof.
  intros Hok Ha. destruct (unpolled b s 2 Hok ltac:(lia) Ha) as (f & Hk & _ & Hw).
  destruct f as [a|a|[| |t]]; cbn in *; try lia; [by destruct Hw; [|left]..|].
  destruct Hw as [?|[?|?]]; [done|by left|right; by exists t].
Qed.

(** ** Theorems *)

(** C3.  The running kernel forgets nothing and sleeps only when there is nothing to do.
    However the device interrupts and the arrivals on the wire fall between the actions of
    the run loop: a byte on the serial queue, or an event on the card's, has its task
    queued or being polled; and while the processor is halted, interrupts are enabled,
    both queues are empty with their tasks' wakers registered, and the clock task is
    filed under a deadline that is still ahead. *)
Theorem halted_kernel_idle (b : Z) s (Hr : reachable b s) :
  let k := shared (environment s) in
  ((∀ f, at_run s ≠ Polling 0 f) → queued (serial_in k) ≠ [] → 0 ∈ tq s) ∧
  ((∀ f, at_run s ≠ Polling 1 f) → queued (net_in k) ≠ [] → 1 ∈ tq s) ∧
  (at_run s = Halted →
     flag s = true ∧ tq s = [] ∧
     queued (serial_in k) = [] ∧ registered (waker (serial_in k)) = Some (TaskWaker_new 0) ∧
     queued (net_in k) = [] ∧ registered (waker (net_in k)) = Some (TaskWaker_new 1) ∧
     ∃ t, TICKS (timers k) < deadline_ms t ∧
       TIMERS (timers k) = [((deadline_ms t, Timers.id t), TaskWaker_new 2)]).
Proof.
  apply reachable_ok in Hr as Hok. cbn zeta. split_and!.
  - intros Ha Hq. destruct (unpolled_serial b s Hok Ha) as [?|[? _]]; done.
  - intros Ha Hq. destruct (unpolled_net b s Hok Ha) as [?|[? _]]; done.
  - intros Ha. pose proof (ok_halted _ _ Hok Ha) as Hq.
    destruct (unpolled_serial b s Hok) as [Hs|[Hs1 Hs2]]; [by rewrite Ha|rewrite Hq in Hs; set_solver|].
    destruct (unpolled_net b s Hok) as [Hn|[Hn1 Hn2]]; [by rewrite Ha|rewrite Hq in Hn; set_solver|].
    destruct (unpolled_time b s Hok) as [Ht|Ht]; [by rewrite Ha|rewrite Hq in Ht; set_solver|].
    split_and!; try done. by rewrite (ok_flag _ _ Hok), Ha.
Qed.

(** C11.  Left alone, the kernel settles: from every state it can be in, the run loop on its own
    comes to the [hlt] in finitely many actions, in another state it can be in. *)
Theorem kernel_settles (b : Z) s (Hr : reachable b s) :
  ∃ s', rtc goes s s' ∧ at_run s' = Halted ∧ reachable b s'.
Proof.
  pose proof (reachable_ok _ _ Hr) as Hok. destruct (settles b s Hok) as (s' & Hgo & Hh).
  exists s'. split_and!; try done. destruct Hr as (s0 & Hs0 & Hs). exists s0. split; [done|].
  etrans; [done|by eapply goes_steps].
Qed.

(** C14.  The run loop, action by action, is the executor's: from every state it can be in at
    the head of its loop, [run_ready_tasks] over whole polls returns, with the queue
    empty, and the actions lead to the state it returns. *)
Theorem run_loop_refines (b : Z) (packets : nat) s (Hr : reachable b s) (Ha : at_run s = AtPop)
    (Hc : (packets_left (environment s) ≤ packets)%nat) :
  ∃ n r, run_ready_tasks (HF := kernel_future packets) n (Running (executor s) (environment s) []) = Ret r ∧
    contents (task_queue (exec r)) = [] ∧
    rtc goes s (System AtDisable (flag s) (exec r) (Executor.env r)).
Proof.
  apply reachable_ok in Hr as Hok. pose proof (tasks_in_order b packets s Hok Ha Hc) as Hts.
  destruct (run_ready_tasks_eq (HF := kernel_future packets) (S (work (HF := kernel_future packets) (Running (executor s) (environment s) [])))
    (Running (executor s) (environment s) [])) as (r & l & E & _ & _ & Hq & _); [apply Hok|done|lia|].
  eexists _, r. split; [exact E|]. split; [done|]. by eapply run_ready_goes.
Qed.

(** A handler wakes one task at the most. *)
Lemma handler_wakes b fuel v s k' :
  sys_ok b s → handler fuel v (shared (environment s)) = Ret (tt, k') →
  (length (wakes (shared (environment s)) k') ≤ 1)%nat.
Proof.
  intros Hok E. apply (handler_inv b) in E; [|apply Hok]. destruct v.
  - destruct E as (u & l & ->).
    destruct (current_some b s 0 Hok ltac:(lia)) as ([polling [a|a|a]] & _ & Hk & Hf & _); cbn in Hk; try lia.
    destruct a as [| |buf n p].
    + destruct (add_events_down l _ Hf) as [_ Hw]. rewrite (wakes_serial _ _ _ _ []) by (by rewrite app_nil_r). cbn. lia.
    + destruct (add_events_waits 0 l (Some AtStart) _ [] Hf I) as (ws & Hw & _ & _ & Hl).
      by rewrite (wakes_serial _ _ _ _ ws).
    + destruct Hf as [Hf _]. destruct (add_events_waits 0 l (Some AtStart) _ [] Hf I) as (ws & Hw & _ & _ & Hl).
      by rewrite (wakes_serial _ _ _ _ ws).
  - destruct E as (c & Ec & ->).
    destruct (current_some b s 2 Hok ltac:(lia)) as ([polling [a|a|a]] & _ & Ht); try by destruct Ht as [[=] _].
    destruct (tick_task _ _ _ _ _ Ht Ec) as (ws & Hw & Hl & _). by rewrite (wakes_clock _ _ _ ws).
  - destruct E as (d & l & ->).
    destruct (current_some b s 1 Hok ltac:(lia)) as ([polling [a|a|a]] & _ & Hk & Hf & _); cbn in Hk; try lia.
    destruct Hf as (_ & _ & Hf). destruct a as [| |p| |packet|packet]; destruct Hf as [Hf _].
    1:{ destruct (add_events_down l _ Hf) as [_ Hw]. rewrite (wakes_net _ _ _ _ []) by (by rewrite app_nil_r). cbn. lia. }
    all: destruct (add_events_waits 1 l (Some AtStart) _ [] Hf I) as (ws & Hw & _ & _ & Hl);
      by rewrite (wakes_net _ _ _ _ ws).
Qed.

Context `{HUok : !UartOk U}.

Lemma handler_returns b v s :
  sys_ok b s → clock_runs (timers (shared (environment s))) →
  ∃ fuel k', handler fuel v (shared (environment s)) = Ret (tt, k').
Proof.
  intros Hok Hr. pose proof (ok_mapped _ _ Hok) as Hm. set (k := shared (environment s)) in *.
  destruct v; cbn [handler].
  - destruct (drain_eq (S (length (received (SERIAL_TTY k)))) k) as (u & _ & E); [lia|].
    eexists _, _. unfold com1_interrupt_handler. erewrite prog_bind_Ret by exact E. by apply (eoi_eq b).
  - destruct (current_some b s 2 Hok ltac:(lia)) as ([polling [a|a|a]] & _ & Ht); try by destruct Ht as [[=] _].
    destruct Ht as (_ & [_ Ht] & _). exists 0%nat. eexists. unfold timer_interrupt_handler, tick_clock.
    erewrite prog_bind_Ret by (rewrite tick_eq; [done|done|destruct a as [| |t]; fold k in Ht;
      [rewrite Ht|rewrite Ht|destruct Ht as [->| ->]]; repeat constructor]). by apply (eoi_eq b).
  - destruct (current_some b s 1 Hok ltac:(lia)) as ([polling [a|a|a]] & _ & Hk & Hf & _); cbn in Hk; try lia.
    destruct Hf as ([d Hd] & _). fold k in Hd. destruct (ack_interrupt d) as [[q c] d'] eqn:Ea.
    exists 0%nat. eexists. unfold virtio_irq, net_events.
    erewrite prog_bind_Ret by (rewrite Hd; cbn; rewrite Ea; done). by apply (eoi_eq b).
Qed.

(** C2.  Nothing in the running kernel panics but a wake-up that finds the executor's queue
    full.  In every state it can be in, the next action of the run loop returns, whatever
    was typed or received; and every device interrupt is served, as long as the clock
    does not overflow and the queue of 100 has room for the one task it wakes at the
    most. *)
Theorem only_overflow_panics (b : Z) s (Hr : reachable b s)
    (Hclock : clock_runs (timers (shared (environment s)))) :
  (at_run s ≠ Halted → ∃ s', run_step s = Ret s') ∧
  (∀ v, ∃ fuel, (∃ s', interrupt fuel v s = Ret s') ∨ (interrupt fuel v s = Panic ∧ len (tq s) = 100)).
Proof.
  apply reachable_ok in Hr as Hok. split.
  - intros Ha. destruct (settles b s Hok) as (s' & Hgo & Hh).
    destruct Hgo as [s'|s1 s2 s3 [_ E] _]; [done|by exists s2].
  - intros v. destruct (handler_returns b v s Hok Hclock) as (fuel & k' & E). exists fuel.
    pose proof (handler_wakes b fuel v s k' Hok E) as Hw. destruct (ok_exec _ _ Hok) as (_ & _ & Hcap & Hl).
    unfold interrupt, serve. rewrite E, bind_Ret.
    destruct (decide (len (tq s) < 100)) as [Hlt|Hge].
    + left. destruct (wake_all_fits (wakes (shared (environment s)) k') (task_queue (executor s))) as [q Eq].
      { rewrite Hcap. unfold len in *. lia. }
      rewrite Eq, bind_Ret. by eexists.
    + destruct (wakes (shared (environment s)) k') as [|w [|? ?]]; cbn in Hw; [left; by eexists|right|lia].
      split; [|lia]. change [w] with (replicate 1 w). rewrite wake_all_overflow by (rewrite Hcap; lia). done.
Qed.
End Invariant.
