(* ===== verification/EndToEnd.v ===== *)
(** * From the wire to the wire

    What the whole kernel does with what arrives while it sleeps: the interrupt, its
    handler, the wake-up, the run loop and the task, down to what is sent back and the
    next [hlt]. *)

From S2P Require Import Prelude Utils Addr Checksum Ipv4 Arp Udp Dhcp Ethernet Interfaces Icmp.
From S2P Require Import Handler HandlerSpec HandlerStep HandlerTheorems.
From S2P Require Import Streams NetTask Timers Executor Serial Apic Interrupts Tasks System.
Local Open Scope Z_scope.

(** Receiving from the UART does not write to it. *)
Class UartTtyOk (U : Type) `{HU : Uart U} `{HT : Tty U} `{HTok : !TtyOk U} :=
  receive_silent : ∀ u, output (try_receive_byte u).2 = output u.

Section Wire.
Context {H U D R Qs Qn A Q : Type} `{HM : Mmio H} `{HU : Uart U} `{HUok : !UartOk U}.
Context `{HT : Tty U} `{HTok : !TtyOk U} `{HUT : !UartTtyOk U}.
Context `{HD : NetDriver D} `{HDok : !NetDriverOk D} `{HR : RandomSource R} `{HRok : !RandomSourceOk R}.
Context `{HN : !NetReceiver D} `{HNok : !NetReceiverOk D} `{HI : NetIrq D}.
Context `{HQs : ArrayQueue Qs Z} `{HQsok : !ArrayQueueOk Qs Z}.
Context `{HQn : ArrayQueue Qn NetworkEvent.t} `{HQnok : !ArrayQueueOk Qn NetworkEvent.t}.
Context `{HA : AtomicWaker A TaskWaker} `{HAok : !AtomicWakerOk A TaskWaker}.
Context `{HQ : ArrayQueue Q TaskId} `{HQok : !ArrayQueueOk Q TaskId}.
Abbreviation env := (env H U D R Qs Qn A).
Abbreviation system := (system H U D R Qs Qn A Q).
Abbreviation fut := (fut RxBuffer).
Abbreviation tq s := (contents (E := TaskId) (task_queue (executor s))).
Implicit Types (x : env) (s : system).

(** ** Actions of one poll *)

(** Actions within a poll with the waker [cx]. *)
Definition runs (cx : TaskWaker) (a a' : fut * env) : Prop :=
  fut_step cx a.1 a.2 = Ret (Next a'.1, a'.2).

Lemma runs_goes i fl (e : Executor fut Q) a a' :
  default (TaskWaker_new i) (waker_cache e !! i) = TaskWaker_new i →
  rtc (runs (TaskWaker_new i)) a a' →
  rtc goes (System (Polling i a.1) fl e a.2) (System (Polling i a'.1) fl e a'.2).
Proof.
  intros Hw. induction 1 as [|a a1 a2 Ha _ IH]; [done|]. eapply rtc_l; [|exact IH].
  split; [done|]. unfold run_step. cbn. unfold runs in Ha. by rewrite Hw, Ha, bind_Ret.
Qed.

(** The stream's queue holds [l], and its waker is [w]. *)
Definition has {Qe E} `{HQe : ArrayQueue Qe E} `{HQeok : !ArrayQueueOk Qe E} (l : list E) (w : option TaskWaker)
    (st : stream Qe A TaskWaker) : Prop :=
  (∃ q, queue st = Some q ∧ contents q = l) ∧ registered (waker st) = w.

(** The first pop finds the next event. *)
Lemma poll_first {Qe E} `{HQe : ArrayQueue Qe E} `{HQeok : !ArrayQueueOk Qe E} cx (e : E) l w
    (st : stream Qe A TaskWaker) :
  has (e :: l) w st → ∃ st', poll_step cx AtStart st = Ret (AtEnd (Streams.Ready e), st') ∧ has l w st'.
Proof.
  intros [(q & Hq & Hc) Hw]. unfold poll_step. rewrite Hq. cbn [expect]. rewrite bind_Ret.
  pose proof (queue_pop_ok q) as Hp. destruct (queue_pop q) as [[e' q']|]; [|congruence].
  destruct Hp as [Hp _]. rewrite Hc in Hp. injection Hp as <- Hl. eexists. split; [done|].
  split; [|done]. eauto.
Qed.

(** With nothing queued, a poll registers its waker and returns [Pending]. *)
Lemma poll_none {Qe E} `{HQe : ArrayQueue Qe E} `{HQeok : !ArrayQueueOk Qe E} cx w (st : stream Qe A TaskWaker) :
  has (E := E) [] w st →
  ∃ st1, poll_step (E := E) cx AtStart st = Ret (AtRegister, st) ∧
    poll_step (E := E) cx AtRegister st = Ret (AtSecondPop, st1) ∧
    poll_step (E := E) cx AtSecondPop st1 = Ret (AtEnd Streams.Pending, st1) ∧ has (E := E) [] (Some cx) st1.
Proof.
  intros [(q & Hq & Hc) Hw]. pose proof (queue_pop_ok q) as Hp.
  destruct (queue_pop q) as [[e' q']|] eqn:Eq; [destruct Hp as [Hp _]; congruence|].
  exists (Stream (queue st) (aw_register cx (waker st)) (Streams.woken st) (warnings st)).
  unfold poll_step. cbn. rewrite Hq. cbn. rewrite Eq. split_and!; try done.
  split; [eauto|apply aw_register_ok].
Qed.

(** ** The terminal *)

Abbreviation serial x := (serial_in (shared x)).
Abbreviation tty x := (SERIAL_TTY (shared x)).

(** Opens an action of the task, up to the code it calls. *)
Ltac action :=
  unfold runs; cbn [fst snd]; unfold fut_step, handle_serial_step, network_task_step;
  cbn [shared put_serial put_events put_net set_serial set_net SERIAL_TTY serial_in net_in].

Lemma serial_pop cx b l w buffer count x :
  has (b :: l) w (serial x) →
  ∃ st, has l w st ∧ runs cx (HandleSerial (SerialAwait buffer count AtStart), x)
    (HandleSerial (SerialAwait buffer count (AtEnd (Streams.Ready b))), put_serial (tty x) st x).
Proof.
  intros Hh. destruct (poll_first cx b l w _ Hh) as (st & E & Hh'). exists st. split; [done|].
  action. by rewrite E.
Qed.

(** A run of keys within the line. *)
Lemma type_keys cx body rest w buffer line x :
  has (body ++ rest) w (serial x) → holds buffer line → Forall (λ b, is_newline b = false) body →
  fits (len buffer) line body → len buffer = 1024 →
  ∃ buffer' u st,
    rtc (runs cx) (HandleSerial (SerialAwait buffer (len line) AtStart), x)
      (HandleSerial (SerialAwait buffer' (len (foldl edit line body)) AtStart), put_serial u st x) ∧
    has rest w st ∧ holds buffer' (foldl edit line body) ∧ len buffer' = 1024 ∧
    output u = output (tty x) ++ echoes line body.
Proof.
  revert buffer line x. induction body as [|b body IH]; intros buffer line x Hst Hh Hb Hf Hl.
  { exists buffer, (tty x), (serial x). rewrite put_serial_id, app_nil_r. by split_and!. }
  apply Forall_cons in Hb as [Hb Hbody].
  destruct (serial_pop cx b (body ++ rest) w buffer (len line) x Hst) as (st & Hst1 & Hpop).
  destruct (read_byte_key b buffer line (tty x)) as (buf1 & u1 & E1 & Hh1 & Hl1 & Ho1);
    [done|done|apply (Hf 1%nat)|lia|].
  destruct (IH buf1 (edit line b) (put_serial u1 st x)) as (buf2 & u2 & st2 & Hgo & Hst2 & Hh2 & Hl2 & Ho2);
    [done|done|done| |lia|].
  { intros n. rewrite Hl1. apply (Hf (S n)). }
  cbn [shared put_serial set_serial SERIAL_TTY] in Ho2.
  exists buf2, u2, st2. split; [|split_and!; try done; by rewrite Ho2, Ho1, <- app_assoc].
  eapply rtc_l; [exact Hpop|]. eapply rtc_l; [|exact Hgo]. action. by rewrite E1.
Qed.

(** With nothing typed, the task goes to sleep at its line. *)
Lemma serial_idle cx w buffer count x :
  has [] w (serial x) →
  ∃ st, has [] (Some cx) st ∧ rtc (runs cx) (HandleSerial (SerialAwait buffer count AtStart), x)
    (HandleSerial (SerialAwait buffer count (AtEnd Streams.Pending)), put_serial (tty x) st x).
Proof.
  intros Hst. destruct (poll_none cx w _ Hst) as (st & P1 & P2 & P3 & Hst1). exists st. split; [done|].
  apply (rtc_l _ _ (HandleSerial (SerialAwait buffer count AtRegister), x));
    [action; rewrite P1; cbn; by rewrite put_serial_id|].
  apply (rtc_l _ _ (HandleSerial (SerialAwait buffer count AtSecondPop), put_serial (tty x) st x));
    [action; by rewrite P2|].
  apply rtc_once. action. by rewrite P3.
Qed.

(** The prompt, with nothing typed. *)
Lemma serial_prompt cx w x :
  has [] w (serial x) →
  ∃ u st, has [] (Some cx) st ∧ output u = output (tty x) ++ PROMPT ∧
    rtc (runs cx) (HandleSerial SerialPrompt, x)
      (HandleSerial (SerialAwait (array 0 1024) 0 (AtEnd Streams.Pending)), put_serial u st x).
Proof.
  intros Hst. destruct (print_eq PROMPT (tty x)) as (u & E & O).
  destruct (serial_idle cx w (array 0 1024) 0 (put_serial u (serial x) x) Hst) as (st & Hst1 & Hgo).
  exists u, st. split; [done|]. split; [done|]. eapply rtc_l; [|exact Hgo]. action. by rewrite E.
Qed.

(** The newline, and back to the prompt with the waker registered. *)
Lemma type_newline cx nl w buffer line x :
  has [nl] w (serial x) → holds buffer line → is_newline nl = true → len buffer = 1024 →
  Forall (λ b, 32 ≤ b ≤ 126) line →
  ∃ u st,
    rtc (runs cx) (HandleSerial (SerialAwait buffer (len line) AtStart), x)
      (HandleSerial (SerialAwait (array 0 1024) 0 (AtEnd Streams.Pending)), put_serial u st x) ∧
    has [] (Some cx) st ∧ output u = output (tty x) ++ [10] ++ (line ++ [10]) ++ PROMPT.
Proof.
  intros Hst [rest ->] Hnl Hl Hline.
  destruct (serial_pop cx nl [] w (line ++ rest) (len line) x Hst) as (st & Hst1 & Hpop).
  destruct (tty_write_ok [10] (tty x)) as (u1 & E1 & O1).
  destruct (print_eq (line ++ [10]) u1) as (u2 & E2 & O2).
  destruct (serial_prompt cx w (put_serial u2 st x) Hst1) as (u3 & st1 & Hst2 & O3 & Hgo).
  exists u3, st1. cbn in O3. split; [|split; [done|by rewrite O3, O2, O1, <- !app_assoc]].
  eapply rtc_l; [exact Hpop|]. eapply rtc_l; [|exact Hgo]. action. unfold read_byte.
  rewrite Hnl, E1, bind_Ret. cbn beta iota. unfold respond.
  pose proof (len_nonneg line) as H0. pose proof (len_nonneg rest) as H1.
  rewrite slice_ok, bind_Ret by (rewrite ?len_app; lia).
  rewrite sub_app_l, sub_all by (done || lia). rewrite ascii_utf8 by done. by rewrite E2.
Qed.

(** ** One wake-up, from [hlt] to [hlt] *)

(** The poll of the task at the head of the queue. *)
Lemma poll_one b s i l t a f' x' :
  sys_ok b s → at_run s = AtPop → tq s = i :: l → tasks (executor s) !! i = Some t →
  rtc (runs (TaskWaker_new i)) (future t, environment s) a →
  fut_step (TaskWaker_new i) a.1 a.2 = Ret (Wait f', x') →
  ∃ s', rtc goes s s' ∧ sys_ok b s' ∧ at_run s' = AtPop ∧ tq s' = l ∧ environment s' = x' ∧
    tasks (executor s') = <[i := {| id := i; future := f' |}]> (tasks (executor s)).
Proof.
  intros Hok Ha Hq Hi Hruns Hwait. pose proof (queue_pop_ok (task_queue (executor s))) as Hp.
  destruct (queue_pop (task_queue (executor s))) as [[j q]|] eqn:Eq; [|congruence].
  destruct Hp as [Hp _]. rewrite Hq in Hp. injection Hp as <- Hq'.
  pose proof (pop_task_ok b s i q t Hok Ha Eq Hi) as Hok1. set (s1 := System _ _ _ _) in Hok1.
  pose proof (waker_of s1 i (ok_exec _ _ Hok1)) as Hw1.
  pose proof (runs_goes i (flag s) (executor s1) _ _ Hw1 Hruns) as Hgo.
  assert (rtc goes s (System AtPop (flag s) (stored i f' (executor s1)) x')) as Hall.
  { apply (rtc_l _ _ s1).
    { split; [by rewrite Ha|]. unfold run_step. by rewrite Ha, Eq, Hi. }
    etrans; [exact Hgo|]. apply rtc_once. split; [done|]. unfold run_step. cbn [at_run executor environment].
    by rewrite Hw1, Hwait, bind_Ret. }
  eexists. split; [exact Hall|]. split; [by eapply goes_ok|]. done.
Qed.

(** The run loop with nothing to do. *)
Lemma serve_none s :
  at_run s = AtPop → tq s = [] →
  ∃ s', rtc goes s s' ∧ at_run s' = Halted ∧ environment s' = environment s ∧
    tasks (executor s') = tasks (executor s).
Proof.
  intros Ha Hq. pose proof (queue_pop_ok (task_queue (executor s))) as Hp.
  destruct (queue_pop (task_queue (executor s))) as [[? ?]|] eqn:Eq; [destruct Hp; congruence|].
  eexists. split; [|shelve].
  eapply rtc_l; [split; [by rewrite Ha|unfold run_step; rewrite Ha, Eq; reflexivity]|].
  eapply rtc_l; [split; [done|reflexivity]|]. apply rtc_once. split; [done|].
  unfold run_step. cbn. rewrite (proj2 (queue_is_empty_ok (task_queue (executor s)))) by done. reflexivity.
  Unshelve. done.
Qed.

(** An interrupt that wakes task [i] alone, and the poll that follows. *)
Lemma serve_one b s i t a f' x' :
  sys_ok b s → at_run s = AtPop → tq s = [i] → tasks (executor s) !! i = Some t →
  rtc (runs (TaskWaker_new i)) (future t, environment s) a →
  fut_step (TaskWaker_new i) a.1 a.2 = Ret (Wait f', x') →
  ∃ s', rtc goes s s' ∧ at_run s' = Halted ∧ environment s' = x' ∧
    tasks (executor s') = <[i := {| id := i; future := f' |}]> (tasks (executor s)).
Proof.
  intros Hok Ha Hq Hi Hruns Hwait.
  destruct (poll_one b s i [] t a f' x' Hok Ha Hq Hi Hruns Hwait) as (s1 & Hgo & _ & Ha1 & Hq1 & Hx1 & Ht1).
  destruct (serve_none s1 Ha1 Hq1) as (s2 & Hgo2 & Hh & Hx2 & Ht2).
  exists s2. rewrite Hx2, Ht2. split; [by etrans|]. done.
Qed.

Lemma drain_silent fuel (k k' : Interrupts.kernel H U D Qs Qn A TaskWaker) :
  drain fuel k = Ret (tt, k') → output (SERIAL_TTY k') = output (SERIAL_TTY k).
Proof.
  revert k. induction fuel as [|fuel IH]; intros k; [done|]. cbn [drain].
  pose proof (receive_silent (SERIAL_TTY k)) as Hs. destruct (try_receive_byte (SERIAL_TTY k)) as [[y|] u].
  - intros E%IH. cbn in *. congruence.
  - by intros [= <-].
Qed.

(** The woken task is the one whose queue was filled. *)
Lemma one_waker b fuel v s s' (i : TaskId) :
  sys_ok b s → tq s = [] → interrupt fuel v s = Ret s' → i ∈ tq s' → tq s' = [i].
Proof.
  intros Hok Hq E Hi. unfold interrupt, serve in E. apply bind_returns in E as ([x q] & E & [= <-]).
  apply bind_returns in E as ([[] k] & Eh & E). apply bind_returns in E as (q1 & Ew & [= <- <-]).
  destruct (wake_all_inv _ _ _ Ew) as (Hc & _). pose proof (handler_wakes b fuel v s k Hok Eh) as Hl.
  cbn in *. rewrite Hq in Hc. cbn in Hc. rewrite Hc in *.
  destruct (wakes _ _) as [|w [|? ?]]; cbn in *; [set_solver| |lia]. by apply list_elem_of_singleton in Hi as ->.
Qed.

(** An interrupt that is served while the kernel sleeps ends the [hlt]. *)
Lemma wake_from_halt b fuel v s k' :
  sys_ok b s → at_run s = Halted → handler fuel v (shared (environment s)) = Ret (tt, k') →
  ∃ s1, interrupt fuel v s = Ret s1 ∧ sys_ok b s1 ∧ at_run s1 = AtPop ∧
    tasks (executor s1) = tasks (executor s) ∧ environment s1 = set_shared k' (environment s) ∧
    (∀ i : TaskId, i ∈ tq s1 → tq s1 = [i]) ∧
    (wakes (shared (environment s)) k' = [] → tq s1 = []).
Proof.
  intros Hok Ha Eh. pose proof (ok_halted _ _ Hok Ha) as Hq. pose proof (handler_wakes b fuel v s _ Hok Eh) as Hl.
  destruct (wake_all_fits (wakes (shared (environment s)) k') (task_queue (executor s))) as [q1 Ew].
  { destruct (ok_exec _ _ Hok) as (_ & _ & -> & _). rewrite Hq, len_nil. unfold len. lia. }
  assert (interrupt fuel v s = Ret (System AtPop (flag s) (set_queue q1 (executor s)) (set_shared k' (environment s)))) as E1.
  { unfold interrupt, serve. by rewrite Eh, bind_Ret, Ew, bind_Ret, Ha. }
  eexists. split; [exact E1|]. split; [by eapply interrupt_ok|]. split_and!; try done.
  - intros i Hi. by eapply one_waker.
  - intros Hw. rewrite Hw in Ew. by injection Ew as <-.
Qed.

(** A serial interrupt while the kernel sleeps. *)
Lemma keys_arrive b s :
  sys_ok b s → at_run s = Halted → received (tty (environment s)) ≠ [] →
  len (received (tty (environment s))) ≤ 100 →
  let fuel := S (length (received (tty (environment s)))) in
  ∃ s1 u st w, interrupt fuel Com1 s = Ret s1 ∧ at_run s1 = AtPop ∧ tq s1 = ([0] : list TaskId) ∧
    tasks (executor s1) = tasks (executor s) ∧ serial_part (environment s1) = (u, st) ∧
    has (received (tty (environment s))) w st ∧ received u = [] ∧ output u = output (tty (environment s)) ∧
    net_part (environment s1) = net_part (environment s) ∧
    time_part (environment s1) = time_part (environment s).
Proof.
  intros Hok Ha Hne Hle fuel. set (k := shared (environment s)) in *.
  pose proof (ok_halted _ _ Hok Ha) as Hq.
  destruct (unpolled_serial b s Hok) as [Hin|[Hs1 Hs2]]; [by rewrite Ha|rewrite Hq in Hin; set_solver|].
  assert (stream_up (serial_in k)) as (q & Eq & Hcap & Hlq).
  { destruct (unpolled b s 0 Hok ltac:(lia)) as (f & Hk & Hf & Hw); [by rewrite Ha|].
    destruct f as [[| |buf n p]|a|a]; cbn in *; try lia; [rewrite Hq in Hw; by destruct Hw as [|?%elem_of_nil]..|].
    by destruct Hf. }
  destruct (drain_eq fuel k) as (u & Hu & Ed); [lia|].
  pose proof (drain_silent _ _ _ Ed) as Ho. cbn in Ho.
  destruct (add_all_eq (received (SERIAL_TTY k)) (serial_in k) q Eq) as (q' & Eq' & _ & Hc').
  change (queue (foldl (λ st e, add_byte e st) (serial_in k) (received (SERIAL_TTY k))) = Some q') in Eq'.
  fold k in Hs1. unfold queued in Hs1. rewrite Eq in Hs1. rewrite Hs1, Hcap, len_nil in Hc'.
  rewrite take_ge in Hc' by (unfold len, QUEUE_SIZE in *; lia). cbn in Hc'.
  assert (handler fuel Com1 k = Ret (tt, acknowledged b (set_serial u
    (foldl (λ st e, add_byte e st) (serial_in k) (received (SERIAL_TTY k))) k))) as Eh.
  { cbn. unfold com1_interrupt_handler. erewrite prog_bind_Ret by exact Ed. apply (eoi_eq b), Hok. }
  destruct (wake_from_halt b fuel Com1 s _ Hok Ha Eh) as (s1 & E1 & Hok1 & Ha1 & Ht1 & Hx1 & Hone & _).
  set (st1 := foldl (λ st e, add_byte e st) (serial_in k) (received (SERIAL_TTY k))) in *.
  exists s1, u, st1, (registered (waker st1)). split; [exact E1|]. rewrite Hx1. split_and!; try done.
  - apply Hone. destruct (unpolled_serial b s1 Hok1) as [?|[Hn _]]; [by rewrite Ha1|done|].
    rewrite Hx1 in Hn. cbn in Hn. unfold queued in Hn. rewrite Eq' in Hn. congruence.
  - split; [by exists q'|done].
Qed.

(** C5.  A line typed while the kernel sleeps is answered.  The terminal's task is at a fresh
    prompt and the UART receives a line of up to 99 keys and its newline: the interrupt is
    served without a panic, the run loop comes back to the [hlt], and in between the
    terminal has put out the echo of every key, a newline, the line as edited, a newline
    and the next prompt.  The task is at a fresh prompt again; the network and the clock
    are as they were. *)
Theorem line_answered (b : Z) s (buffer body : list Z) (nl : Z)
    (Hr : reachable b s) (Ha : at_run s = Halted)
    (Htask : tasks (executor s) !! (0 : TaskId) =
       Some {| id := 0; future := HandleSerial (SerialAwait buffer 0 AtStart) |})
    (Hrx : received (tty (environment s)) = body ++ [nl]) (Hlen : len body < 100)
    (Hbody : Forall (λ k, is_newline k = false) body) (Hnl : is_newline nl = true) :
  ∃ fuel s1 s2, interrupt fuel Com1 s = Ret s1 ∧ rtc goes s1 s2 ∧ at_run s2 = Halted ∧
    output (tty (environment s2)) =
      output (tty (environment s)) ++ echoes [] body ++ [10] ++ (typed body ++ [10]) ++ PROMPT ∧
    tasks (executor s2) !! (0 : TaskId) =
      Some {| id := 0; future := HandleSerial (SerialAwait (array 0 1024) 0 AtStart) |} ∧
    net_part (environment s2) = net_part (environment s) ∧
    time_part (environment s2) = time_part (environment s).
Proof.
  apply reachable_ok in Hr as Hok. pose proof (len_nonneg body) as H0.
  destruct (keys_arrive b s Hok Ha) as (s1 & u & st & w & E1 & Ha1 & Hq1 & Ht1 & Hs1 & Hh1 & _ & Ho1 & Hn1 & Hc1);
    [rewrite Hrx; by destruct body|rewrite Hrx, len_app, len_cons, len_nil; lia|].
  set (fuel := S (length (received (tty (environment s))))) in *.
  pose proof (interrupt_ok b _ _ _ _ Hok E1) as Hok1. unfold serial_part in Hs1. injection Hs1 as Hu Hst.
  assert (len buffer = 1024) as Hbuf.
  { assert (current s 0 = Some (false, HandleSerial (SerialAwait buffer 0 AtStart))) as Hcur
      by (unfold current; by rewrite Ha, Htask).
    by destruct (ok_current _ _ Hok _ _ Hcur) as (_ & (_ & ? & _) & _). }
  rewrite Hrx in Hh1. rewrite <- Hst in Hh1.
  destruct (type_keys (TaskWaker_new 0) body [nl] w buffer [] (environment s1))
    as (buf & u1 & st1 & Hgo1 & Hst1 & Hb1 & Hl1 & O1);
    [done|by exists buffer|done|apply fits_short; rewrite len_nil; lia|done|].
  destruct (type_newline (TaskWaker_new 0) nl w buf (typed body) (put_serial u1 st1 (environment s1)))
    as (u2 & st2 & Hgo2 & Hst2 & O2); [done|done|done|done|by apply typed_printable|].
  edestruct (serve_one b s1 0) as (s2 & Hgo & Hh & Henv & Hts); [done|done|done|by rewrite Ht1| | |].
  { cbn [future]. etrans; [exact Hgo1|exact Hgo2]. }
  { reflexivity. }
  exists fuel, s1, s2. split; [done|]. split; [done|]. split; [done|]. rewrite Henv, Hts, Ht1. split_and!.
  - cbn. cbn in O2. rewrite O2, O1, Hu, Ho1. by rewrite <- !app_assoc.
  - by rewrite lookup_insert_eq.
  - by rewrite <- Hn1.
  - by rewrite <- Hc1.
Qed.

(** ** The network *)

Abbreviation card x := (VIRTIO_NET (shared x)).
Abbreviation events x := (net_in (shared x)).

(** While the kernel sleeps, the network's task awaits an event. *)
Lemma net_waiting b s :
  sys_ok b s → at_run s = Halted →
  ∃ t, tasks (executor s) !! (1 : TaskId) = Some t ∧ future t = NetworkTask (NetAwait AtStart) ∧
    net_ok (NetAwait AtStart) (environment s).
Proof.
  intros Hok Ha. pose proof (ok_halted _ _ Hok Ha) as Hq.
  destruct (current_some b s 1 Hok ltac:(lia)) as ([polling f] & Hc & Hk & Hf & Hw).
  unfold current in Hc. rewrite Ha in Hc. apply fmap_Some in Hc as (t & Ht & [= -> ->]). exists t. split; [done|].
  destruct (future t) as [a|[| |p| | |]|a]; cbn in Hk, Hw; try lia;
    try (rewrite Hq in Hw; by destruct Hw as [|?%elem_of_nil]).
  destruct Hw as [-> _]; [|done]. done.
Qed.

(** The card's interrupt while the kernel sleeps, for received packets. *)
Lemma packets_arrive b fuel s d d' :
  sys_ok b s → at_run s = Halted → card (environment s) = Some d → ack_interrupt d = ((true, false), d') →
  ∃ s1 st w, interrupt fuel VirtioNet s = Ret s1 ∧ sys_ok b s1 ∧ at_run s1 = AtPop ∧
    tq s1 = ([1] : list TaskId) ∧ tasks (executor s1) = tasks (executor s) ∧
    has [NetworkEvent.Queue] w st ∧
    net_part (environment s1) = (Some d', st, NETWORK_INTERFACE (environment s), net_rng (environment s),
      net_sent (environment s), net_console (environment s)) ∧
    serial_part (environment s1) = serial_part (environment s) ∧
    time_part (environment s1) = time_part (environment s).
Proof.
  intros Hok Ha Hd Hack. set (k := shared (environment s)) in *. pose proof (ok_halted _ _ Hok Ha) as Hq.
  destruct (unpolled_net b s Hok) as [Hin|[Hs1 Hs2]]; [by rewrite Ha|rewrite Hq in Hin; set_solver|].
  assert (stream_up (net_in k)) as (q & Eq & Hcap & Hlq).
  { by destruct (net_waiting b s Hok Ha) as (_ & _ & _ & _ & _ & ? & _). }
  set (st1 := add_event NetworkEvent.Queue (net_in k)).
  assert (handler fuel VirtioNet k = Ret (tt, acknowledged b (set_net d' st1 k))) as Eh.
  { cbn. unfold virtio_irq, net_events.
    erewrite prog_bind_Ret by (rewrite Hd; cbn; rewrite Hack; done). apply (eoi_eq b), Hok. }
  destruct (wake_from_halt b fuel VirtioNet s _ Hok Ha Eh) as (s1 & E1 & Hok1 & Ha1 & Ht1 & Hx1 & Hone & _).
  destruct (add_all_eq [NetworkEvent.Queue] (net_in k) q Eq) as (q' & Eq' & _ & Hc').
  fold k in Hs1. unfold queued in Hs1. rewrite Eq in Hs1. rewrite Hs1, Hcap, len_nil in Hc'.
  rewrite take_ge in Hc' by (cbn; unfold QUEUE_SIZE; lia). cbn in Hc'.
  exists s1, st1, (registered (waker st1)). split; [exact E1|]. split; [done|]. split; [done|].
  rewrite Hx1. split_and!; try done; [|by split; [exists q'|]].
  apply Hone. destruct (unpolled_net b s1 Hok1) as [?|[Hn _]]; [by rewrite Ha1|done|].
  rewrite Hx1 in Hn. change (queued st1 = []) in Hn. unfold queued in Hn.
  change (queue st1 = Some q') in Eq'. rewrite Eq' in Hn. congruence.
Qed.

(** With no event, the task goes to sleep. *)
Lemma net_idle cx w x :
  has (E := NetworkEvent.t) [] w (events x) →
  ∃ st, has (E := NetworkEvent.t) [] (Some cx) st ∧ rtc (runs cx) (NetworkTask (NetAwait AtStart), x)
    (NetworkTask (NetAwait (AtEnd Streams.Pending)), put_events st x).
Proof.
  intros Hst. destruct (poll_none cx w _ Hst) as (st & P1 & P2 & P3 & Hst1). exists st. split; [done|].
  apply (rtc_l _ _ (NetworkTask (NetAwait AtRegister), x)); [action; rewrite P1; cbn; by rewrite put_events_id|].
  apply (rtc_l _ _ (NetworkTask (NetAwait AtSecondPop), put_events st x)); [action; by rewrite P2|].
  apply rtc_once. action. by rewrite P3.
Qed.

(** The poll that drains the card. *)
Lemma packets_polled n cx w x self d r :
  has [NetworkEvent.Queue] w (events x) → NETWORK_INTERFACE x = Some self → card x = Some d →
  handle_queue_interrupt n (self, net_world d x) = Ret (tt, r) →
  ∃ st, rtc (runs cx) (NetworkTask (NetAwait AtStart), x)
      (NetworkTask (NetAwait (AtEnd Streams.Pending)), put_events st (put_net r x)) ∧ has [] (Some cx) st.
Proof.
  intros Hst Hi Hd Er. destruct (poll_first cx NetworkEvent.Queue [] w _ Hst) as (st & P0 & Hst1).
  destruct (net_idle cx w (put_net r (put_events st x)) Hst1) as (st1 & Hst2 & Hgo).
  exists st1. split; [|done].
  apply (rtc_l _ _ (NetworkTask (NetAwait (AtEnd (Streams.Ready NetworkEvent.Queue))), put_events st x));
    [action; by rewrite P0|].
  apply (rtc_l _ _ (NetworkTask NetReceive, put_events st x)); [done|]. etrans; [|exact Hgo].
  pose proof (poll_drain n cx (put_events st x) self d r Hi Hd Er) as Hdrain. clear -Hdrain.
  set (P := λ a : net_at RxBuffer * env, (NetworkTask a.1, a.2)).
  change (rtc (runs cx) (P (NetReceive, put_events st x)) (P (NetAwait AtStart, put_net r (put_events st x)))).
  revert Hdrain. generalize (NetReceive (B := RxBuffer), put_events st x) (NetAwait (B := RxBuffer) AtStart, put_net r (put_events st x)).
  intros a a'. induction 1 as [|a1 a2 a3 E _ IH]; [done|]. eapply rtc_l; [|exact IH].
  unfold runs, P, fut_step. cbn [fst snd]. by rewrite E.
Qed.

(** C4.  A ping received while the kernel sleeps is answered.  The card reports received
    packets and has one, an echo request for our hardware and protocol address with a right
    checksum and whatever padding, and the way back is in the cache: the interrupt is
    served without a panic, the run loop comes back to the [hlt], and in between exactly
    one frame was sent, which parses as the reply: from us to the sender, with the same
    identification and payload and a checksum that verifies.  The interface, the terminal
    and the clock are as they were. *)
Theorem ping_answered (b : Z) s (self : NetworkInterface.t) (d d' d1 : D) (buf : RxBuffer)
    (src m : MacAddress) (p : Ipv4Packet.t) (pad : list Z) (me hop : Ipv4Addr)
    (Hr : reachable b s) (Ha : at_run s = Halted)
    (Hi : NETWORK_INTERFACE (environment s) = Some self) (Hd : card (environment s) = Some d)
    (Hack : ack_interrupt d = ((true, false), d')) (Hrx : driver_receive d' = (Ok buf, d1))
    (Hone : backlog d' = 1%nat)
    (Hf : rx_packet buf = eth_wire (NetworkInterface.mac self) src 0x0800 (ipv4_wire p) ++ pad)
    (He : echo_request self p me hop m) :
  ∃ fuel s1 s2 f q, interrupt fuel VirtioNet s = Ret s1 ∧ rtc goes s1 s2 ∧ at_run s2 = Halted ∧
    net_sent (environment s2) = net_sent (environment s) ++ [f] ∧
    sub f 0 6 = mac_addr m ∧ EthernetFrame.new f = Ret (Ok (EthernetFrame.Ipv4 q)) ∧
    Ipv4Packet.source q = me ∧ Ipv4Packet.dest q = Ipv4Packet.source p ∧
    Ipv4Packet.id q = Ipv4Packet.id p ∧ take 2 (Ipv4Packet.data q) = [0; 0] ∧
    skipn 4 (Ipv4Packet.data q) = skipn 4 (Ipv4Packet.data p) ∧
    internet_checksum [Ipv4Packet.data q] = Ret 0 ∧
    NETWORK_INTERFACE (environment s2) = Some self ∧
    serial_part (environment s2) = serial_part (environment s) ∧
    time_part (environment s2) = time_part (environment s).
Proof.
  apply reachable_ok in Hr as Hok.
  destruct (packets_arrive b 2 s d d' Hok Ha Hd Hack) as (s1 & st & w & E1 & Hok1 & Ha1 & Hq1 & Ht1 & Hst & Hn1 & Hs1 & Hc1).
  unfold net_part in Hn1. injection Hn1 as Hd1 Hst1 Hi1 Hr1 Hse1 Hco1.
  destruct (net_waiting b s Hok Ha) as (t & Ht & Hft & Hnet).
  destruct Hnet as (_ & Hrng & _ & self' & Hi' & Hiok). rewrite Hi in Hi'. injection Hi' as <-.
  destruct (handle_queue_echo (net_world d' (environment s1)) buf d1 src p pad self me hop m)
    as (w' & Eq & Hsent); [split; [done|cbn; by rewrite Hr1]|done|done|done|done|].
  edestruct (packets_polled 2 (TaskWaker_new 1) w (environment s1) self d') as (st2 & Hgo & _);
    [by rewrite Hst1|by rewrite Hi1|done|exact Eq|].
  edestruct (serve_one b s1 1 t) as (s2 & Hgo2 & Hh & Henv & _); [done|done|done|by rewrite Ht1| | |].
  { rewrite Hft. exact Hgo. }
  { reflexivity. }
  destruct (echo_frame_facts self p me hop m Hiok He) as (F1 & F2 & _ & F3 & F4 & F5).
  exists 2%nat, s1, s2, (echo_frame self p me m), (echo_parsed p me). rewrite Henv. split_and!; try done.
  cbn. rewrite Hsent. cbn. by rewrite Hse1.
Qed.

(** ** The clock *)

Abbreviation clk x := (timers (shared x)).

(** While the kernel sleeps, the clock's task sleeps until a time ahead. *)
Definition sleeps_until s (d : Z) : Prop :=
  ∃ t tm, tasks (executor s) !! (2 : TaskId) = Some t ∧ future t = TimeTask (TimeAwait tm) ∧ deadline_ms tm = d.

Lemma time_waiting b s :
  sys_ok b s → at_run s = Halted →
  ∃ t tm, tasks (executor s) !! (2 : TaskId) = Some t ∧ future t = TimeTask (TimeAwait tm) ∧
    clock_ok (clk (environment s)) ∧ TICKS (clk (environment s)) < deadline_ms tm ∧
    TIMERS (clk (environment s)) = [((deadline_ms tm, Timers.id tm), TaskWaker_new 2)].
Proof.
  intros Hok Ha. pose proof (ok_halted _ _ Hok Ha) as Hq.
  destruct (current_some b s 2 Hok ltac:(lia)) as ([polling f] & Hc & Hk & Hf & Hw).
  unfold current in Hc. rewrite Ha in Hc. apply fmap_Some in Hc as (t & Ht & [= -> ->]). exists t.
  rewrite Hq in Hw. destruct (future t) as [a|a|[| |tm]] eqn:Ef; cbn in Hk, Hw; try lia;
    [by destruct Hw as [|?%elem_of_nil]..|].
  destruct Hw as [?|[?%elem_of_nil|[? ?]]]; [done|done|]. exists tm. by destruct Hf.
Qed.

(** The time is printed, and a sleep of a second begins. *)
Lemma time_printed cx x :
  clock_ok (clk x) → TIMERS (clk x) = [] →
  ∃ tm x1 x2, rtc (runs cx) (TimeTask TimePrint, x) (TimeTask (TimeAwait tm), x1) ∧
    fut_step cx (TimeTask (TimeAwait tm)) x1 = Ret (Wait (TimeTask (TimeAwait tm)), x2) ∧
    deadline_ms tm = TICKS (clk x) + 1000 ∧ TICKS (clk x2) = TICKS (clk x) ∧
    time_console x2 = time_console x ++ [TICKS (clk x)] ∧
    serial_part x2 = serial_part x ∧ net_part x2 = net_part x.
Proof.
  intros Hc Ht. set (c := clk x) in *. destruct (Hc) as [H0 H1].
  set (tm := {| deadline_ms := TICKS c + 1000; Timers.id := NEXT_ID c |}).
  set (c2 := Clock (TICKS c) (wrap 64 (NEXT_ID c + 1)) (TIMERS c) (Timers.woken c)).
  set (c3 := set_timers (BTreeMap.insert (deadline_ms tm, Timers.id tm) cx (TIMERS c2)) c2).
  set (x1 := put_clock c2 [] (put_clock c [TICKS c] x)).
  exists tm, x1, (put_clock c3 [] x1). split_and!; try done; [..|cbn; by rewrite !app_nil_r].
  - apply (rtc_l _ _ (TimeTask TimeNew, put_clock c [TICKS c] x)).
    { action. unfold time_task_step. fold c. by rewrite now_ms_eq by done. }
    apply rtc_once. action. unfold time_task_step. cbn [shared put_clock set_clock timers].
    rewrite new_eq, decide_True by (done || (unfold urange; lia)). done.
  - unfold fut_step, time_task_step, x1. cbn [shared put_clock set_clock timers].
    rewrite poll_eq, decide_False by (done || (cbn; lia)). done.
Qed.

(** The poll after the deadline. *)
Lemma clock_polled cx tm x :
  clock_ok (clk x) → TIMERS (clk x) = [] → deadline_ms tm ≤ TICKS (clk x) →
  ∃ tm' x1 x2, rtc (runs cx) (TimeTask (TimeAwait tm), x) (TimeTask (TimeAwait tm'), x1) ∧
    fut_step cx (TimeTask (TimeAwait tm')) x1 = Ret (Wait (TimeTask (TimeAwait tm')), x2) ∧
    deadline_ms tm' = TICKS (clk x) + 1000 ∧ TICKS (clk x2) = TICKS (clk x) ∧
    time_console x2 = time_console x ++ [TICKS (clk x)] ∧
    serial_part x2 = serial_part x ∧ net_part x2 = net_part x.
Proof.
  intros Hc Ht Hd. set (x0 := put_clock (clk x) [] x).
  assert (Timers.drop tm (set_timers (BTreeMap.remove (deadline_ms tm, Timers.id tm) (TIMERS (clk x))) (clk x)) = clk x) as Ec.
  { unfold Timers.drop, set_timers. destruct (clk x). cbn in *. by subst. }
  destruct (time_printed cx x0 Hc Ht) as (tm' & x1 & x2 & Hgo & Hrest).
  exists tm', x1, x2. cbn [x0 put_clock time_console] in Hrest. rewrite app_nil_r in Hrest. split; [|exact Hrest].
  eapply rtc_l; [|exact Hgo]. action. unfold time_task_step. rewrite poll_eq, decide_True by done.
  rewrite bind_Ret. cbn beta iota. by rewrite Ec.
Qed.

(** A tick while the kernel sleeps, and back to the [hlt]. *)
Definition ticked s s' : Prop :=
  ∃ fuel s1, interrupt fuel Timer s = Ret s1 ∧ rtc goes s1 s' ∧ at_run s' = Halted.

Lemma tick_arrives b s d :
  sys_ok b s → at_run s = Halted → sleeps_until s d → clock_runs (clk (environment s)) →
  let now := TICKS (clk (environment s)) + 1 in
  now ≤ d ∧ ∃ s', ticked s s' ∧ sys_ok b s' ∧ TICKS (clk (environment s')) = now ∧
    sleeps_until s' (if decide (now = d) then d + 1000 else d) ∧
    time_console (environment s') = time_console (environment s) ++ (if decide (now = d) then [d] else []) ∧
    serial_part (environment s') = serial_part (environment s) ∧
    net_part (environment s') = net_part (environment s).
Proof.
  intros Hok Ha (t & tm & Ht & Hft & Hd) Hrun now. set (k := shared (environment s)) in *.
  destruct (time_waiting b s Hok Ha) as (t' & tm' & Ht' & Hft' & Hc & Hlt & Htm).
  rewrite Ht in Ht'. injection Ht' as <-. rewrite Hft in Hft'. injection Hft' as <-. rewrite Hd in *.
  fold k in Hc, Hlt, Htm. split; [unfold now; lia|].
  pose proof (tick_eq (timers k) Hrun ltac:(rewrite Htm; repeat constructor)) as Et. rewrite Htm in Et.
  set (c := Clock _ _ _ _) in Et.
  assert (handler 0 Timer k = Ret (tt, acknowledged b (set_clock c k))) as Eh.
  { cbn. unfold timer_interrupt_handler, tick_clock.
    erewrite prog_bind_Ret by (rewrite Et; done). apply (eoi_eq b), Hok. }
  destruct (wake_from_halt b 0 Timer s _ Hok Ha Eh) as (s1 & E1 & Hok1 & Ha1 & Ht1 & Hx1 & Hone & Hnone).
  assert (TICKS (clk (environment s1)) = now) as Hnow by by rewrite Hx1.
  destruct (decide (now = d)) as [Hnd|Hnd].
  - assert (TIMERS (clk (environment s1)) = []) as Hnil.
    { rewrite Hx1. cbn. by rewrite decide_False by lia. }
    destruct (clock_polled (TaskWaker_new 2) tm (environment s1))
      as (tm2 & x1 & x2 & Hgo & Hst & Hd2 & Ht2 & Ho2 & Hs2 & Hn2); [|done|lia|].
    { rewrite Hx1. unfold clock_runs, clock_ok in *. cbn. lia. }
    edestruct (serve_one b s1 2 t) as (s2 & Hgo2 & Hh & Henv & Hts); [done|done| |by rewrite Ht1| | |].
    { apply Hone. destruct (unpolled_time b s1 Hok1) as [?|(t' & _ & Htm')]; [by rewrite Ha1|done|].
      rewrite Hnil in Htm'. done. }
    { rewrite Hft. exact Hgo. }
    { exact Hst. }
    exists s2. rewrite Henv. split; [by exists 0%nat, s1|]. split; [by eapply goes_ok|].
    rewrite Ht2, Ho2, Hs2, Hn2, Hnow, Hx1, Hnd. split_and!; try done.
    unfold sleeps_until. rewrite Hts. eexists _, tm2. rewrite lookup_insert_eq. split; [done|]. split; [done|]. by rewrite Hd2, Hnow, Hnd.
  - destruct (serve_none s1 Ha1) as (s2 & Hgo & Hh & Henv & Hts).
    { apply Hnone. rewrite (wakes_clock _ _ _ []); [done|]. cbn. by rewrite decide_False by lia. }
    exists s2. rewrite Henv, Hx1. split; [by exists 0%nat, s1|]. split; [by eapply goes_ok|].
    cbn. rewrite app_nil_r. split_and!; try done. exists t, tm. by rewrite Hts, Ht1.
Qed.

(** The times at which a sleeper with the deadline [d] wakes up by the time [now]. *)
Definition strikes (d now : Z) : list Z :=
  map (λ i, d + 1000 * Z.of_nat i) (seq 0 (Z.to_nat ((now - d) / 1000 + 1))).

Lemma strikes_before d now : now < d → strikes d now = [].
Proof.
  intros Hlt. unfold strikes. assert ((now - d) / 1000 < 0) by (apply Z.div_lt_upper_bound; lia).
  by replace (Z.to_nat _) with 0%nat by lia.
Qed.

Lemma strikes_at d now : d ≤ now → strikes d now = d :: strikes (d + 1000) now.
Proof.
  intros Hle. unfold strikes.
  replace (now - d) with ((now - (d + 1000)) + 1 * 1000) at 1 by lia. rewrite Z.div_add by lia.
  assert (0 ≤ (now - (d + 1000)) / 1000 + 1).
  { assert (-1 ≤ (now - (d + 1000)) / 1000); [apply Z.div_le_lower_bound; lia|lia]. }
  rewrite (Z2Nat.inj_add _ 1), Nat.add_comm by lia. change (Z.to_nat 1) with 1%nat.
  cbn [Nat.add seq map]. f_equal; [lia|]. rewrite <- seq_shift, map_map. apply map_ext. lia.
Qed.

(** C12.  The clock strikes every second, and nothing else happens.  The kernel sleeps with the
    clock's task waiting for the time [d], and [n] ticks pass, each with the run loop back
    at its [hlt] before the next: no tick panics while the milliseconds fit 64 bits, the
    clock is [n] ahead, and what was printed is exactly the times [d], [d + 1000], ... up
    to now.  The terminal and the network are as they were. *)
Theorem clock_strikes (b : Z) (n : nat) s (d : Z)
    (Hr : reachable b s) (Ha : at_run s = Halted) (Hd : sleeps_until s d)
    (Hfit : (TICKS (clk (environment s)) + Z.of_nat n) * 1000 < 2 ^ 64) :
  ∃ s', nsteps ticked n s s' ∧ at_run s' = Halted ∧
    TICKS (clk (environment s')) = TICKS (clk (environment s)) + Z.of_nat n ∧
    time_console (environment s') =
      time_console (environment s) ++ strikes d (TICKS (clk (environment s)) + Z.of_nat n) ∧
    serial_part (environment s') = serial_part (environment s) ∧
    net_part (environment s') = net_part (environment s).
Proof.
  apply reachable_ok in Hr as Hok. clear Hr. revert s d Ha Hd Hfit Hok.
  induction n as [|n IH]; intros s d Ha Hd Hfit Hok.
  { exists s. destruct (time_waiting b s Hok Ha) as (t & tm & Ht & Hft & _ & Hlt & _).
    destruct Hd as (t' & tm' & Ht' & Hft' & <-). rewrite Ht in Ht'. injection Ht' as <-.
    rewrite Hft in Hft'. injection Hft' as <-.
    rewrite strikes_before, app_nil_r by lia. split_and!; [constructor|done|lia|done..]. }
  assert (0 ≤ TICKS (clk (environment s))) as H0
    by (by destruct (time_waiting b s Hok Ha) as (_ & _ & _ & _ & [? _] & _)).
  destruct (tick_arrives b s d Hok Ha Hd) as (Hle & s1 & Htick & Hok1 & Hnow & Hd1 & Ho1 & Hs1 & Hn1);
    [unfold clock_runs; lia|].
  destruct (IH s1 _ ltac:(by destruct Htick as (_ & _ & _ & _ & ?)) Hd1) as (s2 & Hst & Ha2 & Hnow2 & Ho2 & Hs2 & Hn2);
    [lia|done|].
  exists s2. rewrite Ho2, Ho1, Hs2, Hs1, Hn2, Hn1, Hnow2, Hnow, <- app_assoc.
  split; [by econstructor|]. split; [done|]. split; [lia|]. split; [|done]. f_equal.
  replace (TICKS (clk (environment s)) + 1 + Z.of_nat n) with (TICKS (clk (environment s)) + Z.of_nat (S n)) by lia.
  destruct (decide _) as [<-|Hne]; [|done]. by rewrite (strikes_at (TICKS _ + 1)) by lia.
Qed.

(** ** The first run *)

Lemma stream_made {Qe E} `{HQe : ArrayQueue Qe E} `{HQeok : !ArrayQueueOk Qe E} (st : stream Qe A TaskWaker) :
  queue st = None → ∃ st' w, stream_new (E := E) st = Ret st' ∧ has (E := E) [] w st'.
Proof.
  intros Hq. destruct (stream_new_up (E := E) st Hq) as (st' & E1 & (q & Hq' & _) & Hqd & _).
  exists st', (registered (waker st')). split; [done|]. split; [|done]. exists q. split; [done|].
  unfold queued in Hqd. by rewrite Hq' in Hqd.
Qed.

Lemma serial_first cx x :
  queue (serial x) = None →
  ∃ u st, output u = output (tty x) ++ PROMPT ∧ rtc (runs cx) (HandleSerial SerialStart, x)
    (HandleSerial (SerialAwait (array 0 1024) 0 (AtEnd Streams.Pending)), put_serial u st x).
Proof.
  intros Hq. destruct (stream_made (E := Z) (serial x) Hq) as (st & w & E & Hst).
  destruct (serial_prompt cx w (put_serial (tty x) st x) Hst) as (u & st' & _ & O & Hgo).
  exists u, st'. split; [done|]. eapply rtc_l; [|exact Hgo]. action. unfold SerialStream_new. by rewrite E.
Qed.

Lemma net_first cx x d r :
  queue (events x) = None → NETWORK_INTERFACE x = None → card x = Some d →
  init_network_interface (net_world d x) = Ret r →
  ∃ st, rtc (runs cx) (NetworkTask NetStart, x)
    (NetworkTask (NetAwait (AtEnd Streams.Pending)), put_events st (put_net r x)).
Proof.
  intros Hq Hi Hd Er. destruct (stream_made (E := NetworkEvent.t) (events x) Hq) as (st & w & E & Hst).
  destruct (net_idle cx w (put_events st (put_net r x)) Hst) as (st' & _ & Hgo).
  exists st'. apply (rtc_l _ _ (NetworkTask NetInit, put_events st x)); [action; by rewrite E|].
  eapply rtc_l; [|exact Hgo]. action. cbn. rewrite Hi, Hd. cbn.
  change (net_world d (put_events st x)) with (net_world d x). by rewrite Er.
Qed.

(** Every task is polled once, and the kernel sleeps. *)
Lemma first_run b s d self w :
  started b s → card (environment s) = Some d →
  init_network_interface (net_world d (environment s)) = Ret (self, w) →
  ∃ s', rtc goes s s' ∧ at_run s' = Halted ∧
    output (tty (environment s')) = output (tty (environment s)) ++ PROMPT ∧
    tasks (executor s') !! (0 : TaskId) =
      Some {| id := 0; future := HandleSerial (SerialAwait (array 0 1024) 0 AtStart) |} ∧
    NETWORK_INTERFACE (environment s') = Some self ∧ card (environment s') = Some (driver w) ∧
    net_sent (environment s') = sent w ∧
    sleeps_until s' (TICKS (clk (environment s)) + 1000) ∧
    TICKS (clk (environment s')) = TICKS (clk (environment s)) ∧
    time_console (environment s') = time_console (environment s) ++ [TICKS (clk (environment s))].
Proof.
  intros Hst Hd Er. pose proof (started_ok _ _ Hst) as Hok. destruct Hst as [Ha _ _ Hq Ht _ Hs Hn Hc].
  set (x := environment s) in *. destruct Hn as (_ & _ & Hnq & Hni). destruct Hc as [Hc Htm].
  destruct (serial_first (TaskWaker_new 0) x Hs) as (u & st & O & G0).
  edestruct (poll_one b s 0 [1; 2]) as (s1 & Hgo1 & Hok1 & Ha1 & Hq1 & Hx1 & Ht1);
    [done|done|done|by rewrite Ht| | |]; [exact G0|reflexivity|].
  edestruct (net_first (TaskWaker_new 1) (environment s1) d (self, w)) as (st1 & G1);
    [by rewrite Hx1|by rewrite Hx1|by rewrite Hx1|by rewrite Hx1|].
  edestruct (poll_one b s1 1 [2]) as (s2 & Hgo2 & Hok2 & Ha2 & Hq2 & Hx2 & Ht2);
    [done|done|done|by rewrite Ht1, Ht| | |]; [exact G1|reflexivity|].
  destruct (time_printed (TaskWaker_new 2) (environment s2)) as (tm & x1 & x2 & G2 & Gw & Hdl & Htk & Hto & Hsp & Hnp);
    [by rewrite Hx2, Hx1|by rewrite Hx2, Hx1|].
  edestruct (serve_one b s2 2) as (s3 & Hgo3 & Hh & Hx3 & Ht3);
    [done|done|done|by rewrite Ht2, Ht1, Ht| | |]; [exact G2|exact Gw|].
  exists s3. rewrite Hx3, Hto, Htk. unfold serial_part in Hsp. injection Hsp as Hs1 _.
  unfold net_part in Hnp. injection Hnp as Hn1 _ Hn3 _ Hn5 _. rewrite Hs1, Hn1, Hn3, Hn5, Hx2, Hx1.
  split; [etrans; [exact Hgo1|]; by etrans|]. split_and!; try done; [by rewrite Ht3, Ht2, Ht1, !lookup_insert_ne, lookup_insert_eq by done|].
  eexists _, tm. rewrite Ht3, lookup_insert_eq. split; [done|]. split; [done|]. by rewrite Hdl, Hx2, Hx1.
Qed.
End Wire.
