(* ===== verification/Startup.v ===== *)
(** * From the first instruction to the first [hlt]

    What [kernel_main] of [Boot.v] leaves is a state [System.v] starts from, whatever
    interrupts fall between [interrupts::enable()] and [executor.run()]; and the first run
    of the executor brings the terminal, the network and the clock up. *)

From S2P Require Import Prelude Utils Addr Dhcp Boot Interfaces Pci Probe Rng RngTheorems Ppa Apic Calibration Device Hal Processor Board.
From S2P Require Import Handler HandlerSpec HandlerStep HandlerTheorems.
From S2P Require Import Streams NetTask Timers Executor Serial Interrupts Tasks System EndToEnd.
Local Open Scope Z_scope.

Section Startup.
Context {H U Vn Vr Qs Qn A Q : Type} `{HP : PortIo H} `{HM : Mmio H} `{HL : Legacy H} `{HIo : IoApicHw H}.
Context `{HH : !PciHost H} `{HX : X86} `{HXok : !X86Ok} `{HV : VirtioPci} (buffer : Z → Prop).
Context `{HDn : !HalDriver H Vn} `{HDnok : !HalDriverOk H Vn buffer}.
Context `{HDr : !HalDriver H Vr} `{HDrok : !HalDriverOk H Vr buffer}.
Context `{HE : !EntropyHw (board H) Vr} `{HEok : !EntropyHwOk (board H) Vr} `{HEl : !EntropyLocal}.
Context `{HC : ChaCha} `{HCok : !ChaChaOk}.
Context `{HU : Uart U} `{HUok : !UartOk U} `{HT : Tty U} `{HTok : !TtyOk U} `{HUT : !UartTtyOk U}.
Context `{HD : NetDriver Vn} `{HDok : !NetDriverOk Vn}.
Context `{HN : !NetReceiver Vn} `{HNok : !NetReceiverOk Vn} `{HI : NetIrq Vn}.
Context `{HQs : ArrayQueue Qs Z} `{HQsok : !ArrayQueueOk Qs Z}.
Context `{HQn : ArrayQueue Qn NetworkEvent.t} `{HQnok : !ArrayQueueOk Qn NetworkEvent.t}.
Context `{HA : AtomicWaker A TaskWaker} `{HAok : !AtomicWakerOk A TaskWaker}.
Context `{HQ : ArrayQueue Q TaskId} `{HQok : !ArrayQueueOk Q TaskId}.
Abbreviation env := (env (board H) U Vn (Rng.rng (platform (board H)) Vr) Qs Qn A).
Abbreviation booted := (Boot.kernel (H := H) (U := U) (Vn := Vn) (Vr := Vr)).
Implicit Types x : env.

(** The statics of the streams and the clock as the program starts with them, and no
    interface.  The random source keeps the hardware it was started on. *)
Definition entry (k : booted) (u : U) : env :=
  Env (Interrupts.Kernel (Boot.plat k) u (Boot.VIRTIO_NET k) uninit uninit (Clock 0 0 [] []))
    None (rng_state k) [] [] [].

(** What happens before the executor runs: interrupts, and what the hardware writes. *)
Inductive early : env → env → Prop :=
| early_interrupt fuel v x k : handler fuel v (shared x) = Ret (tt, k) → early x (set_shared k x)
| early_wire u d x :
    let k := shared x in
    early x (set_shared (Interrupts.Kernel (plat k) u (Some d) (serial_in k) (net_in k) (timers k)) x).

(** Nothing waits, and nobody is woken. *)
Record waiting (b : Z) x : Prop := {
  wait_mapped : mapped b (plat (shared x));
  wait_serial : queue (serial_in (shared x)) = None;
  wait_net : net_ok NetStart x;
  wait_time : time_ok (TaskWaker_new 2) TimePrint x;
}.

(** A handler wakes nobody, and nothing is set up by it. *)
Lemma early_handler b fuel v x k :
  handler fuel v (shared x) = Ret (tt, k) → waiting b x →
  wakes (shared x) k = [] ∧ waiting b (set_shared k x).
Proof.
  intros E [Hm Hs ([d0 Hd] & Hr & Hn & Hi) [Hc Ht]]. apply (handler_inv b) in E; [|done]. destruct v.
  - destruct E as (u & l & ->). destruct (add_events_down l _ Hs) as [Hs' Hw].
    split; [apply wakes_serial; by rewrite app_nil_r|]. split; [done|done| |done]. split_and!; eauto.
  - destruct E as (c & E & ->). pose proof (tick_runs _ _ Hc E) as Hrun.
    rewrite tick_eq in E by (rewrite ?Ht; done || constructor). injection E as <-. rewrite Ht. cbn.
    split; [apply wakes_clock; done|]. split; [done|done| |]; [split_and!; eauto|].
    split; [|done]. destruct Hrun. split; cbn; lia.
  - destruct E as (d & l & ->). destruct (add_events_down l _ Hn) as [Hn' Hw].
    split; [apply wakes_net; by rewrite app_nil_r|]. split; [done|done| |done]. split_and!; eauto.
Qed.

Lemma early_ok b x x' : rtc early x x' → waiting b x → waiting b x'.
Proof.
  induction 1 as [|x1 x2 x3 Hstep _ IH]; [done|]. intros Hw. apply IH. destruct Hstep as [fuel v x k E|u d x].
  - by eapply early_handler.
  - destruct Hw as [Hm Hs (_ & Hr & Hn & Hi) Ht]. split; [done|done| |done]. split_and!; eauto.
Qed.

Context (raw_bytes : Z → Z → list Z).
Context (find_madt : H → option (list MadtEntry)) (uart_new : H → option (U * H)) (STACK : Z).
Context (bi : BootInfo) `{HTm : !TimerHwOk H (LAPIC_PHYS_ADDR + physical_memory_offset bi)}.
Context (cr3 : Z) (h : H) (max : Z) (entries : list MadtEntry) (info : IoApicInfo).
Context (Hbi : boot_ok buffer raw_bytes find_madt uart_new STACK bi cr3 h max entries info (Vn := Vn) (Vr := Vr)).
Abbreviation base := (LAPIC_PHYS_ADDR + physical_memory_offset bi).

Lemma boot_started fuel m (e : Executor (fut RxBuffer) Q) (k : booted) :
  (Z.to_nat (window base) < fuel)%nat →
  kernel_main raw_bytes find_madt uart_new STACK fuel bi (cold cr3 h m) = Ret (e, k) →
  ∃ u, Boot.SERIAL_TTY k = Some u ∧ ∀ x, rtc early (entry k u) x → started base (System AtPop (Boot.interrupts k) e x).
Proof using Hbi HTm HH HDnok HDrok HEok HEl HCok HXok HQok.
  intros Hf E.
  destruct (init_eq buffer raw_bytes find_madt uart_new STACK bi cr3 h max entries info Hbi fuel m Hf)
    as (k' & heap & dma & Ei & _ & [u Hu] & Hint & Hmap & _ & Hrng & _).
  pose proof (kernel_main_eq (B := RxBuffer) (Q := Q) raw_bytes find_madt uart_new STACK bi fuel _ _ Ei) as Hmain.
  destruct (Boot.VIRTIO_NET k') as [d|] eqn:Ed; [|congruence].
  destruct Hmain as (e' & E' & He & Hq & Ht). rewrite E in E'. injection E' as <- <-.
  exists u. split; [done|]. intros x Hx.
  assert (waiting base (entry k u)) as Hw0.
  { split; [done|done| |]; [split_and!; try done; by eexists|]. split; [|done]. split; cbn; lia. }
  destruct (early_ok _ _ _ Hx Hw0) as [Hm Hs Hn Hti]. by split.
Qed.

(** C6.  The kernel comes up.  On any machine that can be started, once [kernel_main] has its
    executor, and whatever interrupts and arrivals fall before the executor runs: the state
    is one the running kernel starts from, so that everything proved of reachable states
    holds of it; and its first run polls each task once and halts.  By then the terminal
    shows its prompt and waits with an empty line, the interface is up without an address
    and has sent exactly one frame, the DHCP discover for the transaction it waits for, and
    the time was printed once, with the clock's task asleep for a second. *)
Theorem kernel_comes_up (fuel : nat) (m : Z → Z) (e : Executor (fut RxBuffer) Q) (k : booted)
    (Hf : (Z.to_nat (window base) < fuel)%nat)
    (E : kernel_main raw_bytes find_madt uart_new STACK fuel bi (cold cr3 h m) = Ret (e, k)) :
  ∃ u, Boot.SERIAL_TTY k = Some u ∧ ∀ x, rtc early (entry k u) x →
    let s := System AtPop (Boot.interrupts k) e x in
    reachable base s ∧
    ∃ s' self xid id, rtc goes s s' ∧ at_run s' = Halted ∧
      output (SERIAL_TTY (shared (environment s'))) = output (SERIAL_TTY (shared x)) ++ PROMPT ∧
      tasks (executor s') !! (0 : TaskId) =
        Some {| Executor.id := 0; future := HandleSerial (SerialAwait (array 0 1024) 0 AtStart) |} ∧
      NETWORK_INTERFACE (environment s') = Some self ∧ iface_ok self ∧ NetworkInterface.ipv4 self = None ∧
      NetworkInterface.dhcp self = DHCPState.Selecting xid ∧
      net_sent (environment s') = net_sent x ++
        [dhcp_frame (NetworkInterface.mac self)
           (client_message (NetworkInterface.mac self) xid discover_options) id] ∧
      time_console (environment s') = time_console x ++ [TICKS (timers (shared x))] ∧
      sleeps_until s' (TICKS (timers (shared x)) + 1000).
Proof using Hbi HTm HH HDnok HDrok HEok HEl HCok HXok HQok HDok HNok HQsok HQnok HAok HTok.
  destruct (boot_started fuel m e k Hf E) as (u & Hu & Hst). exists u. split; [done|].
  intros x Hx. specialize (Hst x Hx). cbn zeta. split; [by eexists; split|].
  destruct (start_net _ _ Hst) as ([d Hd] & Hr & _). cbn [environment] in Hd, Hr.
  destruct (from_rand_ok U32 (rng (net_world d x)) Hr) as (xid & r & Ex & Hxid & Hr').
  destruct (init_network_interface_eq (net_world d x) xid r Hr Ex Hr') as (mac & id & r' & Hm & _ & _ & _ & Ei).
  destruct (first_run base _ d _ _ Hst Hd Ei) as (s' & Hgo & Hh & O & T0 & Hi & _ & Hs & Hsl & _ & Hto).
  exists s', (NetworkInterface.set_dhcp (DHCPState.Selecting xid) (fresh_interface mac)), xid, id.
  rewrite sent_emit in Hs. split_and!; try done.
Qed.
End Startup.
