(* ===== verification/Machine.v ===== *)
(** * A machine on which the kernel runs

    A UART, a card, a clock and queues to run the whole kernel on, and the theorems of
    [System.v], [EndToEnd.v] and [Startup.v] at states it gets into: after the first run,
    and after a DHCP exchange and an ARP request. *)

From S2P Require Import Prelude Utils Addr Checksum Ipv4 Arp Udp Dhcp Ethernet Boot Interfaces Icmp Pci Probe Rng RngTheorems.
From S2P Require Import Ppa Apic Calibration Device Hal Processor Board Handler HandlerSpec HandlerStep HandlerTheorems.
From S2P Require Import Streams NetTask Timers Executor Serial Interrupts Tasks System EndToEnd Startup.
Local Open Scope Z_scope.

(** ** The run loop as a function *)

Section Play.
Context {H U D R Qs Qn A Q : Type} `{HM : Mmio H} `{HU : Uart U} `{HT : Tty U}.
Context `{HD : NetDriver D} `{HR : RandomSource R} `{HN : !NetReceiver D} `{HI : NetIrq D}.
Context `{HQs : ArrayQueue Qs Z} `{HQn : ArrayQueue Qn NetworkEvent.t} `{HA : AtomicWaker A TaskWaker}.
Context `{HQ : ArrayQueue Q TaskId}.
Abbreviation system := (system H U D R Qs Qn A Q).
Implicit Types s : system.

(** The run loop up to the [hlt]. *)
Fixpoint settle (n : nat) s : outcome system :=
  match at_run s, n with
  | Halted, _ => Ret s
  | _, O => OutOfFuel
  | _, S n => s ← run_step s; settle n s
  end.

(** What the hardware writes, its interrupt, and the run loop. *)
Definition input : Type := irq * (U → U) * (D → D).
Definition arrive (i : input) s : system :=
  let k := shared (environment s) in
  match VIRTIO_NET k with
  | Some d => on_wire (i.1.2 (SERIAL_TTY k)) (i.2 d) s
  | None => s
  end.
Fixpoint play (n fuel : nat) (l : list input) s : outcome system :=
  match l with
  | [] => Ret s
  | i :: l =>
      let s := arrive i s in
      if flag s then s ← interrupt fuel i.1.1 s; s ← settle n s; play n fuel l s else Panic
  end.

Lemma settle_goes n s s' : settle n s = Ret s' → rtc goes s s' ∧ at_run s' = Halted.
Proof.
  revert s. induction n as [|n IH]; intros s; cbn [settle].
  { destruct (at_run s) eqn:Ea; try done. intros [= <-]. by split. }
  destruct (at_run s) eqn:Ea; [..|by intros [= <-]].
  all: intros E; apply bind_returns in E as (s1 & E1 & E); destruct (IH _ E) as [Hgo Hh];
    (split; [|done]); eapply rtc_l; [split; [by rewrite Ea|exact E1]|done].
Qed.

Lemma arrive_step i s : rtc step s (arrive i s).
Proof. unfold arrive. destruct (VIRTIO_NET _); [apply rtc_once, step_wire|done]. Qed.

Lemma play_steps n fuel l s s' : play n fuel l s = Ret s' → rtc step s s'.
Proof.
  revert s. induction l as [|i l IH]; intros s; cbn [play]; [by intros [= <-]|].
  destruct (flag (arrive i s)) eqn:Ef; [|done]. intros E. apply bind_returns in E as (s1 & E1 & E).
  apply bind_returns in E as (s2 & E2 & E). apply settle_goes in E2 as [Hgo _].
  etrans; [apply arrive_step|]. eapply rtc_l; [by eapply step_interrupt|].
  etrans; [by eapply goes_steps|]. by apply IH.
Qed.
End Play.

(** ** The machine *)

Module ExampleMachine.
(** A UART: what it received, and what was sent. *)
Definition uart_t : Type := list Z * list Z.
#[global] Instance uart : Uart uart_t := λ u, match u.1 with [] => (None, u) | b :: l => (Some b, (l, u.2)) end.
#[global] Instance uart_ok : UartOk uart_t.
Proof. refine {| received := λ u : uart_t, u.1 |}. by intros [[|b l] o]. Defined.
#[global] Instance tty : Tty uart_t := λ s u, Ok (u.1, u.2 ++ s).
#[global] Instance tty_ok : TtyOk uart_t.
Proof. refine {| output := λ u : uart_t, u.2 |}. intros s u. by eexists. Defined.
#[global] Instance uart_tty_ok : UartTtyOk uart_t.
Proof. by intros [[|b l] o]. Defined.

(** The local APIC's registers, of which nothing is remembered. *)
#[global] Instance registers : Mmio unit := {| mmio_read := λ _ h, (0, h); mmio_write := λ _ _ h, h |}.

(** The card of [NetTask.v] reports whether it has packets. *)
#[global] Instance net_irq : NetIrq ExampleCard.t := λ d,
  ((match d.1 with [] => false | _ => true end, false), d).

Definition system : Type :=
  System.system unit uart_t ExampleCard.t nat (Z * list Z) (Z * list NetworkEvent.t)
    (option TaskWaker) (Z * list Z).

Definition base : Z := 0xFFFF8000FEE00000.
Definition kernel0 : Interrupts.kernel unit uart_t ExampleCard.t (Z * list Z)
    (Z * list NetworkEvent.t) (option TaskWaker) TaskWaker :=
  Interrupts.Kernel (Platform tt None None None (Some base)) ([], [])
    (Some ([], [])) uninit uninit (Clock 0 0 [] []).
Definition executor0 : Executor (fut (list Z)) (Z * list Z) := {|
  tasks := <[2 := {| id := 2; future := TimeTask TimePrint |}]>
    (<[1 := {| id := 1; future := NetworkTask NetStart |}]>
      (<[0 := {| id := 0; future := HandleSerial SerialStart |}]> ∅));
  task_queue := (100, [0; 1; 2]); waker_cache := ∅ |}.
Definition s0 : system := System AtPop true executor0 (Env kernel0 None 0%nat [] [] []).

Lemma s0_started : started base s0.
Proof.
  split; try done.
  - split_and!; try done. intros i t. cbn. rewrite !lookup_insert_Some, lookup_empty.
    by intros [[<- <-]|[_ [[<- <-]|[_ [[<- <-]|[_ [=]]]]]]].
Qed.

Definition get (s : outcome system) : system := match s with Ret s => s | _ => s0 end.

(** Frames a peer sends. *)
Definition packets (l : list (list Z)) : input (U := uart_t) (D := ExampleCard.t) := (VirtioNet, λ u, u, λ d, (l, d.2)).
Definition from_peer (dst : MacAddress) (p : Ipv4Packet.t) : list Z :=
  eth_wire dst Example.peer_mac 0x0800 (ipv4_wire p).
Definition arp_request : list Z :=
  eth_wire broadcast Example.peer_mac 0x0806 (arp_wire {|
    ArpPacket.hardware_type := 1; ArpPacket.protocol_type := 0x0800;
    ArpPacket.hardware_len := 6; ArpPacket.proto_len := 4;
    ArpPacket.operation := ArpOperation.Request;
    ArpPacket.sender_mac := Example.peer_mac; ArpPacket.sender_addr := Example.peer;
    ArpPacket.target_mac := Mac 0 0 0 0 0 0; ArpPacket.target_addr := Example.me |}).

(** Asleep for the first time, and asleep with an address and a neighbour. *)
Definition s1 : system := get (settle 40 s0).
Definition s2 : system := get (play 40 3
  [packets [from_peer broadcast (Example.server_packet OFFER)];
   packets [from_peer broadcast (Example.server_packet Example.ACK); arp_request]] s1).

Definition returns (s : outcome system) : bool := match s with Ret _ => true | _ => false end.
Lemma get_returns s : returns s = true → s = Ret (get s).
Proof. by destruct s. Qed.

Lemma s1_reachable : reachable base s1.
Proof. exists s0. split; [exact s0_started|]. eapply goes_steps. eapply settle_goes, get_returns. by vm_compute. Qed.

Lemma from_s1 n fuel l s : play n fuel l s1 = Ret s → reachable base s.
Proof.
  intros E. destruct s1_reachable as (s' & Hs' & Hr). exists s'. split; [done|].
  etrans; [done|by eapply play_steps].
Qed.
Lemma s2_reachable : reachable base s2.
Proof. eapply from_s1, get_returns. by vm_compute. Qed.

Lemma arrive_reachable i s : reachable base s → reachable base (arrive i s).
Proof. intros (s' & Hs' & Hr). exists s'. split; [done|]. etrans; [done|apply arrive_step]. Qed.

(** Someone types hi and presses return; the peer sends a ping. *)
Definition s1_keys : system := arrive (Com1, λ u, ([104; 105; 13], u.2), λ d, d) s1.
Definition s2_ping : system := arrive (packets [from_peer Example.the_mac Example.ping]) s2.
Definition self2 : NetworkInterface.t := default Example.iface (NETWORK_INTERFACE (environment s2)).
End ExampleMachine.

Lemma halted_kernel_idle_witness :
  at_run ExampleMachine.s1 = Halted ∧ contents (task_queue (executor ExampleMachine.s1)) = [] ∧
  queued (serial_in (shared (environment ExampleMachine.s1))) = [].
Proof.
  destruct (halted_kernel_idle ExampleMachine.base ExampleMachine.s1 ExampleMachine.s1_reachable) as (_ & _ & Hh).
  destruct Hh as (_ & Hq & Hs & _); [vm_compute; reflexivity|].
  split; [vm_compute; reflexivity|]. split; [exact Hq|exact Hs].
Defined.

Lemma kernel_settles_witness :
  ∃ s', rtc goes ExampleMachine.s1_keys s' ∧ at_run s' = Halted.
Proof.
  destruct (kernel_settles ExampleMachine.base ExampleMachine.s1_keys) as (s' & Hgo & Hh & _).
  { apply ExampleMachine.arrive_reachable, ExampleMachine.s1_reachable. }
  exists s'. split; [exact Hgo|exact Hh].
Defined.

Lemma run_loop_refines_witness :
  ∃ n r, run_ready_tasks (HF := kernel_future 1) n
      (Running (executor ExampleMachine.s0) (environment ExampleMachine.s0) []) = Ret r ∧
    contents (task_queue (exec r)) = [].
Proof.
  destruct (run_loop_refines ExampleMachine.base 1 ExampleMachine.s0) as (n & r & E & Hq & _).
  - exists ExampleMachine.s0. split; [exact ExampleMachine.s0_started|apply rtc_refl].
  - reflexivity.
  - cbn. lia.
  - exists n, r. split; [exact E|exact Hq].
Defined.

Lemma only_overflow_panics_witness :
  ∃ fuel s', interrupt fuel VirtioNet ExampleMachine.s2_ping = Ret s'.
Proof.
  destruct (only_overflow_panics ExampleMachine.base ExampleMachine.s2_ping) as [_ Hv].
  - apply ExampleMachine.arrive_reachable, ExampleMachine.s2_reachable.
  - split; vm_compute; [congruence|reflexivity].
  - destruct (Hv VirtioNet) as [fuel [[s' E]|[_ Hl]]]; [exists fuel, s'; exact E|].
    vm_compute in Hl. discriminate Hl.
Defined.

Lemma line_answered_witness :
  ∃ fuel s1 s2, interrupt fuel Com1 ExampleMachine.s1_keys = Ret s1 ∧ rtc goes s1 s2 ∧
    output (SERIAL_TTY (shared (environment s2))) =
      [62; 32] ++ [104; 105] ++ [10] ++ [104; 105; 10] ++ [62; 32].
Proof.
  destruct (line_answered ExampleMachine.base ExampleMachine.s1_keys (array 0 1024) [104; 105] 13)
    as (fuel & s1 & s2 & E & Hgo & _ & Ho & _).
  - apply ExampleMachine.arrive_reachable, ExampleMachine.s1_reachable.
  - vm_compute. reflexivity.
  - vm_compute. reflexivity.
  - vm_compute. reflexivity.
  - vm_compute. reflexivity.
  - repeat constructor.
  - reflexivity.
  - exists fuel, s1, s2. split; [exact E|]. split; [exact Hgo|]. rewrite Ho. vm_compute. reflexivity.
Defined.

Lemma ping_answered_witness :
  ∃ fuel s1 s2 f q, interrupt fuel VirtioNet ExampleMachine.s2_ping = Ret s1 ∧ rtc goes s1 s2 ∧
    net_sent (environment s2) = net_sent (environment ExampleMachine.s2_ping) ++ [f] ∧
    EthernetFrame.new f = Ret (Ok (EthernetFrame.Ipv4 q)) ∧ Ipv4Packet.dest q = Example.peer.
Proof.
  edestruct (ping_answered ExampleMachine.base ExampleMachine.s2_ping ExampleMachine.self2)
    as (fuel & s1 & s2 & f & q & E & Hgo & _ & Hs & _ & Hf & _ & Hd & _).
  - apply ExampleMachine.arrive_reachable, ExampleMachine.s2_reachable.
  - vm_compute. reflexivity.
  - vm_compute. reflexivity.
  - vm_compute. reflexivity.
  - vm_compute. reflexivity.
  - vm_compute. reflexivity.
  - vm_compute. reflexivity.
  - instantiate (1 := []). instantiate (1 := Example.ping). instantiate (1 := Example.peer_mac).
    vm_compute. reflexivity.
  - split; [exact Example.ping_valid|split; reflexivity|reflexivity| |reflexivity|vm_compute; reflexivity|
      vm_compute; reflexivity|vm_compute; reflexivity]. split; vm_compute; reflexivity.
  - exists fuel, s1, s2, f, q. split; [exact E|]. split; [exact Hgo|]. split; [exact Hs|].
    split; [exact Hf|exact Hd].
Defined.

Lemma clock_strikes_witness :
  ∃ s', nsteps ticked 2500 ExampleMachine.s1 s' ∧ time_console (environment s') = [0; 1000; 2000].
Proof.
  destruct (clock_strikes ExampleMachine.base 2500 ExampleMachine.s1 1000) as (s' & Hn & _ & _ & Ho & _).
  - exact ExampleMachine.s1_reachable.
  - vm_compute. reflexivity.
  - eexists _, _. split; [vm_compute; reflexivity|]. split; reflexivity.
  - vm_compute. reflexivity.
  - exists s'. split; [exact Hn|]. rewrite Ho. vm_compute. reflexivity.
Defined.

(** ** A machine that is started, whose every PCI function is a card *)

Module ExampleStart.
Abbreviation the_platform := (platform (board ExampleBoot.t)).
Definition cards : VirtioPci := λ _, Some Network.
#[global] Instance card : HalDriver ExampleBoot.t ExampleCard.t := ExampleBoot.driver ([], []).
#[global] Instance card_ok : HalDriverOk ExampleBoot.t ExampleCard.t ExampleBoot.buffer :=
  ExampleBoot.hal_driver_is_ok ([], []).
Definition uart_new (x : ExampleBoot.t) : option (ExampleMachine.uart_t * ExampleBoot.t) := Some (([], []), x).

Lemma on_platform_slot {A} (m : prog the_platform A) (s s' : Probe.t the_platform ExampleCard.t) a :
  on_platform m s = Ret (a, s') → slot s' = slot s.
Proof. unfold on_platform. intros E. apply bind_returns in E as ([a' p] & _ & E). by injection E as _ <-. Qed.

(** Where the driver comes up, it comes up as the card. *)
Lemma driver_slot df r (s s' : Probe.t the_platform ExampleCard.t) :
  slot s = None → init_from_df df s = Ret (r, s') → r = Ok tt ∧ slot s' = Some ([], []).
Proof.
  intros Hs E. unfold init_from_df in E. apply bind_returns in E as ([r1 p1] & E1 & E).
  cbn in E1. apply bind_returns in E1 as ([r1' b1] & E1 & [= <- <-]).
  apply bind_returns in E1 as ([[x1 y1] m1] & E1 & [= <- <-]).
  apply bind_returns in E1 as (v & _ & [= <- <- <-]).
  apply bind_returns in E as ([r2 p2] & E2 & E). cbn in E2. apply bind_returns in E2 as ([r2' b2] & E2 & [= <- <-]).
  apply bind_returns in E2 as ([[x2 y2] m2] & E2 & [= <- <-]).
  apply bind_returns in E2 as ([[pa1 va1] m3] & _ & E2). apply bind_returns in E2 as ([[pa2 va2] m4] & _ & E2).
  apply bind_returns in E2 as (v2 & _ & [= <- <- <-]). injection E as <- <-. cbn. by rewrite Hs.
Qed.

Lemma card_found p b (s : Probe.t the_platform ExampleCard.t) :
  init_virtio_net_pci (HV := cards) (State p None []) = Ret (b, s) → slot s = Some ([], []).
Proof.
  unfold init_virtio_net_pci, init_pci. cbn [slot].
  destruct pci_functions as [|df dfs] eqn:Ef.
  { pose proof (proj2 (elem_of_pci_functions ExampleHost.df) ExampleHost.df_is_ok) as Hin.
    rewrite Ef in Hin. by apply elem_of_nil in Hin. }
  cbn [probe]. destruct (virtio_type_at _ _ _ _) as [ty p1] eqn:Et.
  assert (ty = Some Network) as ->.
  { revert Et. unfold virtio_type_at. destruct (pci_read_u32 _ _ _ _ _), (pci_read_u32 _ _ _ _ _).
    destruct (pci_read_u32 _ _ _ _ _). by intros [= <- _]. }
  rewrite bool_decide_true by done. cbn [negb]. intros E. apply bind_returns in E as ([r s1] & E1 & E).
  apply driver_slot in E1 as [-> Hs1]; [|done].
  apply bind_returns in E as ([[] s2] & E2 & E). injection E as _ <-.
  apply bind_returns in E2 as ([v s3] & E3 & E2). apply on_platform_slot in E3. cbv beta zeta in E2.
  apply on_platform_slot in E2. by rewrite E2, E3.
Qed.

Abbreviation main := (kernel_main (Vn := ExampleCard.t) (Vr := unit) (B := list Z) (Q := Z * list Z) (HV := cards)
  ExampleBoot.raw (λ _, Some ExampleApic.madt) uart_new 0x200000 (Z.to_nat 20000) ExampleBoot.bi
  (cold 0x1000 ExampleBoot.h0 (λ _, 0))).

Lemma start_bi_ok : boot_ok (Vn := ExampleCard.t) (Vr := unit) ExampleBoot.buffer ExampleBoot.raw
  (λ _, Some ExampleApic.madt) uart_new 0x200000 ExampleBoot.bi (HT := ExampleBoot.timer) 0x1000 ExampleBoot.h0
  0x4000000 ExampleApic.madt ExampleBoot.info.
Proof. apply ExampleBoot.bi_fits. by eexists. Qed.

Lemma fuel_enough : (Z.to_nat (window ExampleBoot.LAPIC) < Z.to_nat 20000)%nat.
Proof. unfold window, STEPS. cbn. lia. Qed.

Lemma main_returns : ∃ e k, main = Ret (e, k).
Proof.
  destruct (init_eq (HV := cards) (HT := ExampleBoot.timer) _ _ _ _ _ ExampleBoot.bi _ _ _ _ _ start_bi_ok (Z.to_nat 20000) (λ _, 0) fuel_enough)
    as (k & heap & dma & E & Hrest).
  destruct Hrest as (_ & _ & _ & _ & _ & _ & _ & p & b & s & Es & Hv).
  pose proof (kernel_main_eq (B := list Z) (Q := Z * list Z) _ _ _ _ _ _ _ _ E) as Hm. rewrite Hv, (card_found p b s Es) in Hm.
  destruct Hm as (e & Em & _). exists e, k. exact Em.
Qed.
End ExampleStart.

Lemma kernel_comes_up_witness :
  ∃ e k u s', ExampleStart.main = Ret (e, k) ∧ Boot.SERIAL_TTY k = Some u ∧
    rtc (goes (R := Rng.rng ExampleStart.the_platform unit))
      (System (R := Rng.rng ExampleStart.the_platform unit) AtPop (Boot.interrupts k) e
        (entry (Qs := Z * list Z) (Qn := Z * list NetworkEvent.t) (A := option TaskWaker) k u)) s' ∧
    at_run s' = Halted ∧ net_sent (environment s') ≠ [] ∧ time_console (environment s') = [0].
Proof.
  destruct ExampleStart.main_returns as (e & k & E).
  edestruct (kernel_comes_up (HV := ExampleStart.cards) (HN := ExampleCard.receiver) (Vr := unit) (Q := Z * list Z) (Qs := Z * list Z) (Qn := Z * list NetworkEvent.t)
    (A := option TaskWaker) (HTm := ExampleBoot.timer) _ _ _ _ _ ExampleBoot.bi _ _ _ _ _ ExampleStart.start_bi_ok (Z.to_nat 20000)
    (λ _, 0) e k ExampleStart.fuel_enough E) as (u & Hu & Hrun).
  destruct (Hrun (entry k u) (rtc_refl _ _)) as (_ & s' & self & xid & n & Hgo & Hh & _ & _ & _ & _ & _ & _ & Hs & Ht & _).
  exists e, k, u, s'. split; [exact E|]. split; [exact Hu|]. split; [exact Hgo|]. split; [exact Hh|].
  split; [|exact Ht]. intros Hnil. pose proof (eq_trans (eq_sym Hs) Hnil) as Hno. discriminate Hno.
Defined.
