(* ===== verification/TestLink.v ===== *)
(** * The crate's own tests, on the definitions: [utils], [ipv4], [ethernet] and [arp]

    Every [#[test]] of [net/src] is a definition of type [outcome unit], in which a
    failed assertion is a panic; the test passes if it returns.  They say nothing that
    the theorems do not imply, but they are evidence from the source that the
    definitions compute what the code computes.  The two other modules' tests are in
    [TestTransport.v]. *)

From S2P Require Import Prelude Utils Addr Checksum Ipv4 Arp Udp Dhcp Ethernet.
Local Open Scope Z_scope.

(** ** [assert!], [assert_eq!], [expect], [err] and [#[should_panic]] *)

Definition assert_true (b : bool) : outcome unit := if b then Ret tt else Panic.
Definition assert_eq {A} `{EqDecision A} (a b : A) : outcome unit := assert_true (bool_decide (a = b)).
Definition expect_ok {A E} (r : result A E) : outcome A :=
  match r with Ok a => Ret a | Err _ => Panic end.
Definition err {A E} (r : result A E) : option E :=
  match r with Ok _ => None | Err e => Some e end.
Fixpoint for_each {A} (l : list A) (f : A → outcome unit) : outcome unit :=
  match l with [] => Ret tt | a :: l => f a;; for_each l f end.
Definition should_panic {A} (m : outcome A) : outcome unit :=
  match m with Panic => Ret tt | _ => Panic end.
(** [l[i] ^= v] and [l[i] |= v] *)
Definition xor_index (l : list Z) (i v : Z) : outcome (list Z) :=
  x ← index l i; set_index l i (Z.lxor x v).
Definition or_index (l : list Z) (i v : Z) : outcome (list Z) :=
  x ← index l i; set_index l i (Z.lor x v).

Definition passes (t : outcome unit) : bool := bool_decide (t = Ret tt).

(** ** [net/src/utils.rs] *)

Module UtilsTests.
Definition serializes_correct_endian : outcome unit :=
  let arr := [123; 231] in
  a ← from_le_slice U16 arr; assert_eq a (from_le_bytes arr);;
  a ← from_be_slice U16 arr; assert_eq a (from_be_bytes arr);;
  a ← from_ne_slice U16 arr; assert_eq a (from_le_bytes arr).

(** On the little-endian target. *)
Definition native_matches_target_endian : outcome unit :=
  a ← from_ne_slice U32 [0x12; 0x34; 0x56; 0x78]; assert_eq a 0x78563412.

Definition native_all_widths : outcome unit :=
  a ← from_ne_slice U8 [0xAB]; assert_eq a 0xAB;;
  a ← from_ne_slice I8 [0xFF]; assert_eq a (-1);;
  let arr := array 0xFF 8 in
  s ← slice_to arr 2; a ← from_ne_slice U16 s; assert_eq a (2 ^ 16 - 1);;
  s ← slice_to arr 4; a ← from_ne_slice U32 s; assert_eq a (2 ^ 32 - 1);;
  s ← slice_to arr 8; a ← from_ne_slice U64 s; assert_eq a (2 ^ 64 - 1);;
  s ← slice_to arr 2; a ← from_ne_slice I16 s; assert_eq a (-1);;
  s ← slice_to arr 4; a ← from_ne_slice I32 s; assert_eq a (-1);;
  s ← slice_to arr 8; a ← from_ne_slice I64 s; assert_eq a (-1).

Definition native_roundtrips_through_bytes : outcome unit :=
  let value := 0x0123456789ABCDEF in
  a ← from_ne_slice U64 (value_to_le_bytes U64 value); assert_eq a value;;
  let value := -0x12345678 in
  a ← from_ne_slice I32 (value_to_le_bytes I32 value); assert_eq a value.

Definition native_reads_subslice : outcome unit :=
  let buf := [0xDE; 0xAD; 0x12; 0x34; 0xBE; 0xEF] in
  s ← slice buf 2 4; a ← from_ne_slice U16 s; assert_eq a (from_le_bytes [0x12; 0x34]).

Definition native_panics_on_short_slice : outcome unit :=
  should_panic (from_ne_slice U32 [0x01; 0x02]).
Definition native_panics_on_long_slice : outcome unit :=
  should_panic (from_ne_slice U32 [0x01; 0x02; 0x03; 0x04; 0x05]).

Definition all : list (outcome unit) :=
  [serializes_correct_endian; native_matches_target_endian; native_all_widths;
   native_roundtrips_through_bytes; native_reads_subslice; native_panics_on_short_slice;
   native_panics_on_long_slice].
End UtilsTests.

(** ** [net/src/ipv4.rs] *)

Module Ipv4Tests.
Import Ipv4Packet.

(** The macro [check_eq!]. *)
Definition check_eq (parts : list (list Z)) (r : Z) : outcome unit :=
  checksum ← internet_checksum parts; assert_eq checksum r.

Definition test_internet_checksum : outcome unit :=
  check_eq [[0x00; 0x01; 0xf2; 0x03; 0xf4; 0xf5; 0xf6; 0xf7]] 0x220d;;
  check_eq [[0x00; 0x01; 0xf2; 0x03; 0xf4; 0xf5; 0xf6; 0xf7; 0x22; 0x0d]] 0;;
  check_eq [[0x00; 0x01; 0xf2; 0x03; 0xf4; 0xf5; 0xf6]] 0x2304;;
  check_eq [[0xe3; 0x4f; 0x23; 0x96; 0x44; 0x27; 0x99; 0xf3]] 0x1aff;;
  check_eq [[0xff; 0xff; 0xff; 0xff; 0xff; 0xff; 0x02; 0x00]] 0xfdff;;
  check_eq [[]] 0xffff.

Definition get_valid_packet : list Z :=
  [0x45; 0x00; 0x00; 0x18; 0x12; 0x34; 0x40; 0x00; 0x40; 0x11; 0x5c; 0xf7;
   0xc0; 0xa8; 0x01; 0x01; 0x0a; 0x00; 0x00; 0x01; 0xde; 0xad; 0xbe; 0xef].

Definition test_ipv4_parse_and_serialize : outcome unit :=
  let packet_data := get_valid_packet in
  r ← from_packet packet_data; packet ← expect_ok r;
  assert_eq (version_ihl packet) 0x45;; assert_eq (dscp_ecn packet) 0x00;;
  assert_eq (total_length packet) 24;; assert_eq (id packet) 0x1234;;
  assert_true (dont_fragment packet);; assert_true (negb (more_fragments packet));;
  assert_eq (frag_offset packet) 0;; assert_eq (ttl packet) 64;;
  assert_eq (protocol packet) IPProtocol.UDP;; assert_eq (checksum packet) 0x5cf7;;
  assert_eq (source packet) (Ip 192 168 1 1);; assert_eq (dest packet) (Ip 10 0 0 1);;
  assert_eq (len (options packet)) 0;; assert_eq (data packet) [0xde; 0xad; 0xbe; 0xef];;
  serialized ← serialize packet; assert_eq serialized packet_data.

Definition test_ipv4_with_options : outcome unit :=
  let packet_data :=
    [0x46; 0x00; 0x00; 0x1c; 0x12; 0x34; 0x40; 0x00; 0x40; 0x11; 0x59; 0xf1;
     0xc0; 0xa8; 0x01; 0x01; 0x0a; 0x00; 0x00; 0x01; 0x01; 0x01; 0x01; 0x01;
     0xde; 0xad; 0xbe; 0xef] in
  r ← from_packet packet_data; packet ← expect_ok r;
  assert_eq (options packet) [0x01; 0x01; 0x01; 0x01];;
  assert_eq (data packet) [0xde; 0xad; 0xbe; 0xef];;
  serialized ← serialize packet; assert_eq serialized packet_data.

Definition test_ipv4_fragmented : outcome unit :=
  data ← set_index get_valid_packet 6 0x20;
  data ← set_index data 10 0x7c;
  data ← set_index data 11 0xf7;
  r ← from_packet data; packet ← expect_ok r;
  assert_true (more_fragments packet);; assert_true (negb (dont_fragment packet));;
  assert_eq (frag_offset packet) 0.

Definition fix_header_checksum (packet : list Z) : outcome (list Z) :=
  b0 ← index packet 0;
  let header_len := Z.min (Z.max (Z.land b0 0xf * 4) 20) (len packet) in
  packet ← copy_range packet 10 12 [0x0; 0x0];
  header ← slice_to packet header_len;
  checksum ← internet_checksum [header];
  copy_range packet 10 12 (to_be_bytes 2 checksum).

(** [Ipv4Packet::from_packet(&data).err() == Some(e)] *)
Definition refused (data : list Z) (e : Ipv4Error.t) : outcome unit :=
  r ← from_packet data; assert_eq (err r) (Some e).

Definition test_ipv4_invalid_version : outcome unit :=
  for_each [0x0; 0x5; 0x6; 0xf] (λ version,
    data ← set_index get_valid_packet 0 (Z.lor (Z.shiftl version 4) 0x5);
    data ← fix_header_checksum data;
    refused data Ipv4Error.VersionMismatch).

Definition test_ipv4_ihl_below_minimum : outcome unit :=
  for_each [0x0; 0x1; 0x4] (λ ihl,
    data ← set_index get_valid_packet 0 (Z.lor 0x40 ihl);
    data ← fix_header_checksum data;
    refused data Ipv4Error.IHLMismatch).

Definition test_ipv4_header_exceeds_buffer : outcome unit :=
  data ← set_index get_valid_packet 0 0x4f;
  data ← fix_header_checksum data;
  refused data Ipv4Error.HeaderLengthMismatch.

Definition test_ipv4_length_exceeds_buffer : outcome unit :=
  data ← set_index get_valid_packet 2 0x00;
  data ← set_index data 3 0xFF;
  data ← fix_header_checksum data;
  refused data Ipv4Error.TotalLengthMismatch.

Definition test_ipv4_length_below_header : outcome unit :=
  data ← set_index get_valid_packet 0 0x46;
  data ← set_index data 3 0x14;
  data ← fix_header_checksum data;
  refused data Ipv4Error.TotalLengthMismatch.

Definition test_ipv4_evil_bit : outcome unit :=
  data ← or_index get_valid_packet 6 0x80;
  data ← fix_header_checksum data;
  refused data Ipv4Error.EvilBitSet.

Definition test_ipv4_bad_checksum : outcome unit :=
  data ← set_index get_valid_packet 11 0x00;
  refused data Ipv4Error.IncorrectChecksum.

Definition test_ipv4_corrupt_header_field : outcome unit :=
  data ← set_index get_valid_packet 8 0x01;
  refused data Ipv4Error.IncorrectChecksum.

Definition test_ipv4_too_short : outcome unit :=
  for_each [0; 1; 15; 19] (λ n,
    data ← slice_to get_valid_packet n;
    refused data Ipv4Error.LengthOutOfRange).

Definition test_ipv4_ignores_trailing_bytes : outcome unit :=
  let bs := get_valid_packet ++ array 0x00 20 in
  r ← from_packet bs; packet ← expect_ok r;
  assert_eq (total_length packet) 24;;
  assert_eq (data packet) [0xde; 0xad; 0xbe; 0xef].

Definition all : list (outcome unit) :=
  [test_internet_checksum; test_ipv4_parse_and_serialize; test_ipv4_with_options;
   test_ipv4_fragmented; test_ipv4_invalid_version; test_ipv4_ihl_below_minimum;
   test_ipv4_header_exceeds_buffer; test_ipv4_length_exceeds_buffer;
   test_ipv4_length_below_header; test_ipv4_evil_bit; test_ipv4_bad_checksum;
   test_ipv4_corrupt_header_field; test_ipv4_too_short; test_ipv4_ignores_trailing_bytes].
End Ipv4Tests.

(** ** [net/src/ethernet.rs] *)

Module EthernetTests.
Definition SRC_MAC : MacAddress := Mac 0x11 0x22 0x33 0x44 0x55 0x66.
Definition PAYLOAD : list Z := [0xde; 0xad; 0xbe; 0xef].

Definition frame (ethertype : Z) (payload : list Z) : list Z :=
  [] ++ mac_addr broadcast ++ mac_addr SRC_MAC ++ to_be_bytes 2 ethertype ++ payload.

Definition arp_request : ArpPacket.t := {|
  ArpPacket.hardware_type := 1; ArpPacket.protocol_type := 0x0800;
  ArpPacket.hardware_len := 6; ArpPacket.proto_len := 4;
  ArpPacket.operation := ArpOperation.Request; ArpPacket.sender_mac := SRC_MAC;
  ArpPacket.sender_addr := Ip 192 168 1 10; ArpPacket.target_mac := Mac 0 0 0 0 0 0;
  ArpPacket.target_addr := Ip 192 168 1 20 |}.

Definition ipv4_packet (payload : list Z) : outcome (list Z) :=
  Ipv4Packet.serialize {|
    Ipv4Packet.version_ihl := 0x45; Ipv4Packet.dscp_ecn := 0x00;
    Ipv4Packet.total_length := wrap 16 (20 + len payload); Ipv4Packet.id := 0x1234;
    Ipv4Packet.frag_offset := 0; Ipv4Packet.dont_fragment := true;
    Ipv4Packet.more_fragments := false; Ipv4Packet.ttl := 64;
    Ipv4Packet.protocol := IPProtocol.UDP; Ipv4Packet.checksum := 0;
    Ipv4Packet.source := Ip 192 168 1 1; Ipv4Packet.dest := Ip 10 0 0 1;
    Ipv4Packet.options := []; Ipv4Packet.data := payload |}.

(** [EthernetFrame::new(&bytes).err() == Some(e)] *)
Definition refused (bs : list Z) (e : EthernetError.t) : outcome unit :=
  r ← EthernetFrame.new bs; assert_eq (err r) (Some e).

Definition test_ethernet_parses_arp : outcome unit :=
  wire ← ArpPacket.serialize arp_request;
  r ← EthernetFrame.new (frame 0x0806 wire); f ← expect_ok r;
  match f with EthernetFrame.Arp parsed => assert_eq parsed arp_request | _ => Panic end.

Definition test_ethernet_parses_ipv4 : outcome unit :=
  packet ← ipv4_packet PAYLOAD;
  r ← EthernetFrame.new (frame 0x0800 packet); f ← expect_ok r;
  match f with
  | EthernetFrame.Ipv4 packet =>
      assert_eq (Ipv4Packet.protocol packet) IPProtocol.UDP;;
      assert_eq (Ipv4Packet.source packet) (Ip 192 168 1 1);;
      assert_eq (Ipv4Packet.data packet) PAYLOAD
  | _ => Panic
  end.

Definition test_ethernet_unknown_ethertype : outcome unit :=
  r ← EthernetFrame.new (frame 0x86dd PAYLOAD); f ← expect_ok r;
  match f with EthernetFrame.Unknown ethertype _ => assert_eq ethertype 0x86dd | _ => Panic end.

Definition test_ethernet_propagates_arp_error : outcome unit :=
  arp ← ArpPacket.serialize arp_request;
  arp ← copy_range arp 6 8 (to_be_bytes 2 9);
  refused (frame 0x0806 arp) (EthernetError.ArpError ArpError.BadOperation).

Definition test_ethernet_propagates_arp_length_error : outcome unit :=
  arp ← ArpPacket.serialize arp_request; arp ← slice_to arp 20;
  refused (frame 0x0806 arp) (EthernetError.ArpError ArpError.LengthOutOfRange).

Definition test_ethernet_propagates_ipv4_error : outcome unit :=
  packet ← ipv4_packet PAYLOAD;
  packet ← set_index packet 0 0x55;
  refused (frame 0x0800 packet) (EthernetError.Ipv4Err Ipv4Error.VersionMismatch).

Definition test_ethernet_propagates_ipv4_length_error : outcome unit :=
  packet ← ipv4_packet PAYLOAD; packet ← slice_to packet 16;
  refused (frame 0x0800 packet) (EthernetError.Ipv4Err Ipv4Error.LengthOutOfRange).

Definition test_ethernet_rejects_truncated_frame : outcome unit :=
  packet ← ipv4_packet PAYLOAD;
  for_each [0; 12; 13] (λ n,
    bs ← slice_to (frame 0x0800 packet) n;
    r ← EthernetFrame.new bs; assert_eq r (Err EthernetError.TooShort)).

(** The characters of 01:02:03:04:05:06. *)
Definition test_mac_addr_display : outcome unit :=
  addr ← MacAddress_new [0x01; 0x02; 0x03; 0x04; 0x05; 0x06];
  assert_eq (mac_display addr)
    [48; 49; 58; 48; 50; 58; 48; 51; 58; 48; 52; 58; 48; 53; 58; 48; 54].

Definition all : list (outcome unit) :=
  [test_ethernet_parses_arp; test_ethernet_parses_ipv4; test_ethernet_unknown_ethertype;
   test_ethernet_propagates_arp_error; test_ethernet_propagates_arp_length_error;
   test_ethernet_propagates_ipv4_error; test_ethernet_propagates_ipv4_length_error;
   test_ethernet_rejects_truncated_frame; test_mac_addr_display].
End EthernetTests.

(** ** [net/src/arp.rs] *)

Module ArpTests.
Import ArpCache.

Definition mac (last : Z) : MacAddress := Mac 0x02 0x00 0x00 0x00 0x00 last.
Definition ip (last : Z) : Ipv4Addr := Ip 192 168 1 last.
Definition frame (marker : Z) : list Z := array marker 4.

(** [assert_eq!(cache.queue_pending(ip, frame), q)] and
    [assert_eq!(cache.insert(ip, mac), frames)], with the cache they leave. *)
Definition queues (c : t) (a : Ipv4Addr) (f : list Z) (q : Queued.t) : outcome t :=
  assert_eq (queue_pending c a f).2 q;; Ret (queue_pending c a f).1.
Definition inserts (c : t) (a : Ipv4Addr) (m : MacAddress) (fs : list (list Z)) : outcome t :=
  assert_eq (insert c a m).2 fs;; Ret (insert c a m).1.

Definition test_arp_cache_resolves : outcome unit :=
  let cache := new in
  assert_eq (lookup cache (ip 1)) None;;
  assert_true (negb (contains cache (ip 1)));;
  cache ← inserts cache (ip 1) (mac 1) [];
  assert_eq (lookup cache (ip 1)) (Some (mac 1));;
  assert_true (contains cache (ip 1)).

Definition test_arp_cache_pending_address_is_not_resolved : outcome unit :=
  cache ← queues new (ip 1) (frame 0xaa) Queued.RequestNeeded;
  assert_eq (lookup cache (ip 1)) None;;
  assert_true (negb (contains cache (ip 1)));;
  assert_eq (pending_len cache (ip 1)) 1.

Definition test_arp_cache_requests_once_per_address : outcome unit :=
  cache ← queues new (ip 1) (frame 0xaa) Queued.RequestNeeded;
  cache ← queues cache (ip 1) (frame 0xbb) Queued.AlreadyPending;
  cache ← queues cache (ip 1) (frame 0xcc) Queued.AlreadyPending;
  assert_eq (pending_len cache (ip 1)) 3;;
  assert_eq (pending_addresses cache) 1.

Definition test_arp_cache_insert_drains_pending_in_order : outcome unit :=
  let cache := (queue_pending new (ip 1) (frame 0xaa)).1 in
  let cache := (queue_pending cache (ip 1) (frame 0xbb)).1 in
  cache ← inserts cache (ip 1) (mac 1) [frame 0xaa; frame 0xbb];
  assert_eq (lookup cache (ip 1)) (Some (mac 1));;
  assert_eq (pending_len cache (ip 1)) 0;;
  assert_eq (pending_addresses cache) 0.

Definition test_arp_cache_drains_only_once : outcome unit :=
  let cache := (queue_pending new (ip 1) (frame 0xaa)).1 in
  cache ← inserts cache (ip 1) (mac 1) [frame 0xaa];
  cache ← inserts cache (ip 1) (mac 2) [];
  assert_eq (lookup cache (ip 1)) (Some (mac 2)).

Definition test_arp_cache_drains_only_the_resolved_address : outcome unit :=
  let cache := (queue_pending new (ip 1) (frame 0xaa)).1 in
  let cache := (queue_pending cache (ip 2) (frame 0xbb)).1 in
  cache ← inserts cache (ip 1) (mac 1) [frame 0xaa];
  assert_eq (pending_len cache (ip 2)) 1;;
  assert_eq (lookup cache (ip 2)) None.

(** [for i in lo..hi], threading the cache. *)
Fixpoint for_range (n : nat) (i : Z) (f : Z → t → outcome t) (c : t) : outcome t :=
  match n with O => Ret c | S n => c ← f i c; for_range n (i + 1) f c end.

Definition test_arp_cache_bounds_frames_per_address : outcome unit :=
  let cache := (queue_pending new (ip 1) (frame 0)).1 in
  cache ← for_range (Z.to_nat (MAX_PENDING_PER_ADDRESS - 1)) 1
    (λ marker c, queues c (ip 1) (frame marker) Queued.AlreadyPending) cache;
  assert_eq (pending_len cache (ip 1)) MAX_PENDING_PER_ADDRESS;;
  cache ← queues cache (ip 1) (frame 0xff) Queued.Dropped;
  assert_eq (pending_len cache (ip 1)) MAX_PENDING_PER_ADDRESS.

Definition test_arp_cache_bounds_pending_addresses : outcome unit :=
  cache ← for_range (Z.to_nat MAX_PENDING_ADDRESSES) 0
    (λ last c, queues c (ip last) (frame last) Queued.RequestNeeded) new;
  assert_eq (pending_addresses cache) MAX_PENDING_ADDRESSES;;
  let overflow := ip (wrap 8 MAX_PENDING_ADDRESSES) in
  cache ← queues cache overflow (frame 0xff) Queued.Dropped;
  assert_eq (pending_addresses cache) MAX_PENDING_ADDRESSES;;
  assert_eq (pending_len cache overflow) 0.

Definition test_arp_cache_resolved_entries_do_not_fill_the_table : outcome unit :=
  cache ← for_range (Z.to_nat (MAX_PENDING_ADDRESSES * 2)) 0
    (λ last c, inserts c (ip last) (mac last) []) new;
  assert_eq (pending_addresses cache) 0;;
  _ ← queues cache (ip 0xff) (frame 0xaa) Queued.RequestNeeded; Ret tt.

Definition test_arp_cache_queue_on_resolved_address_is_dropped : outcome unit :=
  cache ← inserts new (ip 1) (mac 1) [];
  cache ← queues cache (ip 1) (frame 0xaa) Queued.Dropped;
  assert_eq (lookup cache (ip 1)) (Some (mac 1)).

Definition test_arp_cache_remove_discards_pending : outcome unit :=
  let cache := (queue_pending new (ip 1) (frame 0xaa)).1 in
  let cache := remove cache (ip 1) in
  assert_eq (pending_addresses cache) 0;;
  assert_eq (pending_len cache (ip 1)) 0;;
  _ ← queues cache (ip 1) (frame 0xbb) Queued.RequestNeeded; Ret tt.

Definition test_arp_operation_from : outcome unit :=
  assert_eq (ArpOperation.try_from 1) (Ok ArpOperation.Request);;
  assert_eq (ArpOperation.try_from 2) (Ok ArpOperation.Reply);;
  assert_eq (ArpOperation.try_from 0) (Err tt);;
  assert_eq (ArpOperation.try_from 5) (Err tt).

Definition VALID_ARP_REQUEST : list Z :=
  [0x00; 0x01; 0x08; 0x00; 0x06; 0x04; 0x00; 0x01; 0x11; 0x22; 0x33; 0x44; 0x55; 0x66;
   192; 168; 1; 10; 0x00; 0x00; 0x00; 0x00; 0x00; 0x00; 192; 168; 1; 20].

Definition test_arp_serialization : outcome unit :=
  operation ← expect_ok (ArpOperation.try_from 1);
  sender_mac ← MacAddress_new [0x11; 0x22; 0x33; 0x44; 0x55; 0x66];
  target_mac ← MacAddress_new [0x00; 0x00; 0x00; 0x00; 0x00; 0x00];
  let packet := {|
    ArpPacket.hardware_type := 1; ArpPacket.protocol_type := 0x0800;
    ArpPacket.hardware_len := 6; ArpPacket.proto_len := 4; ArpPacket.operation := operation;
    ArpPacket.sender_mac := sender_mac; ArpPacket.sender_addr := Ip 192 168 1 10;
    ArpPacket.target_mac := target_mac; ArpPacket.target_addr := Ip 192 168 1 20 |} in
  wire ← ArpPacket.serialize packet;
  assert_eq wire VALID_ARP_REQUEST;;
  r ← ArpPacket.from_slice wire; assert_eq r (Ok packet).

Definition test_arp_deserialization_success : outcome unit :=
  r ← ArpPacket.from_slice VALID_ARP_REQUEST; packet ← expect_ok r;
  assert_eq (ArpPacket.hardware_type packet) 1;;
  assert_eq (ArpPacket.protocol_type packet) 0x0800;;
  assert_eq (ArpPacket.hardware_len packet) 6;;
  assert_eq (ArpPacket.proto_len packet) 4;;
  assert_eq (mac_addr (ArpPacket.sender_mac packet)) [0x11; 0x22; 0x33; 0x44; 0x55; 0x66];;
  assert_eq (octets (ArpPacket.sender_addr packet)) [192; 168; 1; 10];;
  assert_eq (mac_addr (ArpPacket.target_mac packet)) [0x00; 0x00; 0x00; 0x00; 0x00; 0x00];;
  assert_eq (octets (ArpPacket.target_addr packet)) [192; 168; 1; 20];;
  wire ← ArpPacket.serialize packet; assert_eq wire VALID_ARP_REQUEST.

(** [assert_eq!(ArpPacket::from_slice(&bytes), Err(e))] *)
Definition refused (bs : list Z) (e : ArpError.t) : outcome unit :=
  r ← ArpPacket.from_slice bs; assert_eq r (Err e).

Definition test_arp_deserialization_rejects_unsupported_hardware_type : outcome unit :=
  malformed ← set_index VALID_ARP_REQUEST 1 0x02;
  refused malformed ArpError.IncorrectFormat.

Definition test_arp_deserialization_rejects_unsupported_protocol : outcome unit :=
  malformed ← set_index VALID_ARP_REQUEST 2 0x86;
  malformed ← set_index malformed 3 0xDD;
  refused malformed ArpError.IncorrectFormat.

Definition test_arp_deserialization_rejects_invalid_lengths : outcome unit :=
  malformed_hw_len ← set_index VALID_ARP_REQUEST 4 8;
  refused malformed_hw_len ArpError.IncorrectFormat;;
  malformed_proto_len ← set_index VALID_ARP_REQUEST 5 6;
  refused malformed_proto_len ArpError.IncorrectFormat.

Definition test_arp_deserialization_rejects_unknown_operation : outcome unit :=
  for_each [0; 3; 4; 0xffff] (λ opcode,
    malformed ← copy_range VALID_ARP_REQUEST 6 8 (to_be_bytes 2 opcode);
    refused malformed ArpError.BadOperation).

Definition test_arp_deserialization_short_buffer : outcome unit :=
  for_each [0; 8; 20; 27] (λ n,
    short ← slice_to VALID_ARP_REQUEST n;
    refused short ArpError.LengthOutOfRange).

Definition test_arp_deserialization_ignores_trailing_bytes : outcome unit :=
  padded ← copy_range (array 0 60) 0 28 VALID_ARP_REQUEST;
  r ← ArpPacket.from_slice padded; packet ← expect_ok r;
  wire ← ArpPacket.serialize packet; assert_eq wire VALID_ARP_REQUEST.

Definition all : list (outcome unit) :=
  [test_arp_cache_resolves; test_arp_cache_pending_address_is_not_resolved;
   test_arp_cache_requests_once_per_address; test_arp_cache_insert_drains_pending_in_order;
   test_arp_cache_drains_only_once; test_arp_cache_drains_only_the_resolved_address;
   test_arp_cache_bounds_frames_per_address; test_arp_cache_bounds_pending_addresses;
   test_arp_cache_resolved_entries_do_not_fill_the_table;
   test_arp_cache_queue_on_resolved_address_is_dropped; test_arp_cache_remove_discards_pending;
   test_arp_operation_from; test_arp_serialization; test_arp_deserialization_success;
   test_arp_deserialization_rejects_unsupported_hardware_type;
   test_arp_deserialization_rejects_unsupported_protocol;
   test_arp_deserialization_rejects_invalid_lengths;
   test_arp_deserialization_rejects_unknown_operation; test_arp_deserialization_short_buffer;
   test_arp_deserialization_ignores_trailing_bytes].
End ArpTests.

(** ** They pass *)

Lemma link_tests_pass :
  forallb passes (UtilsTests.all ++ Ipv4Tests.all ++ EthernetTests.all ++ ArpTests.all) = true.
Proof. vm_compute. reflexivity. Qed.
