(* ===== verification/TestTransport.v ===== *)
(** * The crate's own tests, on the definitions: [udp] and [dhcp]

    As in [TestLink.v]. *)

From S2P Require Import Prelude Utils Addr Checksum Ipv4 Arp Udp Dhcp Ethernet TestLink.
Local Open Scope Z_scope.

(** ** [net/src/udp.rs] *)

Module UdpTests.
Import UDPPacket.

Definition SRC : Ipv4Addr := Ip 192 168 1 1.
Definition DST : Ipv4Addr := Ip 10 0 0 1.
Definition PAYLOAD : list Z := [0xde; 0xad; 0xbe; 0xef].
Definition VALID_UDP : list Z :=
  [0x12; 0x34; 0x56; 0x78; 0x00; 0x0c; 0x2d; 0xe2; 0xde; 0xad; 0xbe; 0xef].
Definition VALID_UDP_EMPTY : list Z := [0x12; 0x34; 0x56; 0x78; 0x00; 0x08; 0xcb; 0x87].

Definition ipv4_wrap_with_options (source dest : Ipv4Addr) (options udp : list Z) :
    outcome (list Z) :=
  let header_len := 20 + len options in
  Ipv4Packet.serialize {|
    Ipv4Packet.version_ihl := Z.lor 0x40 (wrap 8 (header_len / 4)); Ipv4Packet.dscp_ecn := 0x00;
    Ipv4Packet.total_length := wrap 16 (header_len + len udp); Ipv4Packet.id := 0x1234;
    Ipv4Packet.frag_offset := 0; Ipv4Packet.dont_fragment := true;
    Ipv4Packet.more_fragments := false; Ipv4Packet.ttl := 64;
    Ipv4Packet.protocol := IPProtocol.UDP; Ipv4Packet.checksum := 0;
    Ipv4Packet.source := source; Ipv4Packet.dest := dest;
    Ipv4Packet.options := options; Ipv4Packet.data := udp |}.

Definition ipv4_wrap (source dest : Ipv4Addr) (udp : list Z) : outcome (list Z) :=
  ipv4_wrap_with_options source dest [] udp.

Definition fill_checksum (datagram : list Z) (source dest : Ipv4Addr) : outcome (list Z) :=
  datagram ← copy_range datagram 6 8 [0x0; 0x0];
  declared_len ← read U16 datagram 4 6;
  checksum ← internet_checksum
    [octets source; octets dest; [0x0; 0x11]; to_be_bytes 2 declared_len; datagram];
  copy_range datagram 6 8 (to_be_bytes 2 checksum).

Definition build_udp (source dest : Ipv4Addr) (source_port dest_port : Z) (payload : list Z) :
    outcome (list Z) :=
  let datagram := [] ++ to_be_bytes 2 source_port in
  let datagram := datagram ++ to_be_bytes 2 dest_port in
  let datagram := datagram ++ to_be_bytes 2 (wrap 16 (8 + len payload)) in
  let datagram := datagram ++ [0x0; 0x0] in
  let datagram := datagram ++ payload in
  fill_checksum datagram source dest.

(** The wrapped datagram, parsed: [Ipv4Packet::from_packet(&bytes).expect(..)] and then
    [UDPPacket::from_packet(&ip)], as every test of the parser does. *)
Definition receive (bs : outcome (list Z)) : outcome (result t UDPError.t) :=
  bs ← bs; r ← Ipv4Packet.from_packet bs; ip ← expect_ok r; from_packet ip.
Definition refused (bs : outcome (list Z)) (e : UDPError.t) : outcome unit :=
  r ← receive bs; assert_eq (err r) (Some e).

Definition test_udp_builder_matches_capture : outcome unit :=
  d ← build_udp SRC DST 0x1234 0x5678 PAYLOAD; assert_eq d VALID_UDP;;
  d ← build_udp SRC DST 0x1234 0x5678 []; assert_eq d VALID_UDP_EMPTY.

Definition test_udp_parse_valid : outcome unit :=
  r ← receive (ipv4_wrap SRC DST VALID_UDP); packet ← expect_ok r;
  assert_eq (source_port packet) 0x1234;; assert_eq (dest_port packet) 0x5678;;
  assert_eq (datagram_length packet) 12;; assert_eq (checksum packet) 0x2de2;;
  assert_eq (data packet) PAYLOAD.

Definition test_udp_parse_empty_payload : outcome unit :=
  r ← receive (ipv4_wrap SRC DST VALID_UDP_EMPTY); packet ← expect_ok r;
  assert_eq (datagram_length packet) 8;; assert_eq (data packet) [].

Definition test_udp_parse_ignores_ipv4_options : outcome unit :=
  r ← receive (ipv4_wrap_with_options SRC DST [0x01; 0x01; 0x01; 0x01] VALID_UDP);
  packet ← expect_ok r;
  assert_eq (datagram_length packet) 12;; assert_eq (data packet) PAYLOAD.

Definition test_udp_parse_accepts_zero_checksum : outcome unit :=
  datagram ← build_udp SRC DST 0x1234 0x5678 PAYLOAD;
  datagram ← copy_range datagram 6 8 [0x0; 0x0];
  r ← receive (ipv4_wrap SRC DST datagram); packet ← expect_ok r;
  assert_eq (checksum packet) 0;; assert_eq (data packet) PAYLOAD.

Definition test_udp_parse_rejects_corrupt_payload : outcome unit :=
  datagram ← build_udp SRC DST 0x1234 0x5678 PAYLOAD;
  datagram ← xor_index datagram 8 0xff;
  refused (ipv4_wrap SRC DST datagram) UDPError.IncorrectChecksum.

Definition test_udp_parse_rejects_corrupt_checksum_field : outcome unit :=
  datagram ← build_udp SRC DST 0x1234 0x5678 PAYLOAD;
  datagram ← xor_index datagram 7 0x01;
  refused (ipv4_wrap SRC DST datagram) UDPError.IncorrectChecksum.

Definition test_udp_parse_rejects_wrong_pseudo_header : outcome unit :=
  datagram ← build_udp SRC (Ip 10 0 0 2) 0x1234 0x5678 PAYLOAD;
  refused (ipv4_wrap SRC DST datagram) UDPError.IncorrectChecksum.

Definition test_udp_parse_rejects_length_over_datagram : outcome unit :=
  datagram ← build_udp SRC DST 0x1234 0x5678 PAYLOAD;
  datagram ← copy_range datagram 4 6 (to_be_bytes 2 20);
  datagram ← fill_checksum datagram SRC DST;
  refused (ipv4_wrap SRC DST datagram) UDPError.LengthMismatch.

Definition test_udp_parse_rejects_length_under_datagram : outcome unit :=
  datagram ← build_udp SRC DST 0x1234 0x5678 PAYLOAD;
  datagram ← copy_range datagram 4 6 (to_be_bytes 2 10);
  datagram ← fill_checksum datagram SRC DST;
  refused (ipv4_wrap SRC DST datagram) UDPError.LengthMismatch.

Definition test_udp_parse_rejects_length_below_header : outcome unit :=
  datagram ← build_udp SRC DST 0x1234 0x5678 PAYLOAD;
  datagram ← copy_range datagram 4 6 (to_be_bytes 2 4);
  datagram ← fill_checksum datagram SRC DST;
  refused (ipv4_wrap SRC DST datagram) UDPError.LengthMismatch.

Definition test_udp_parse_checks_length_before_checksum : outcome unit :=
  datagram ← build_udp SRC DST 0x1234 0x5678 PAYLOAD;
  datagram ← copy_range datagram 4 6 (to_be_bytes 2 20);
  datagram ← xor_index datagram 8 0xff;
  refused (ipv4_wrap SRC DST datagram) UDPError.LengthMismatch.

Definition test_udp_parse_rejects_truncated_header : outcome unit :=
  for_each [1; 4; 7] (λ n,
    short ← slice_to VALID_UDP n;
    refused (ipv4_wrap SRC DST short) UDPError.LengthOutOfRange).

Definition test_udp_parse_rejects_truncated_header_with_ipv4_options : outcome unit :=
  for_each [1; 4; 7] (λ n,
    short ← slice_to VALID_UDP n;
    refused (ipv4_wrap_with_options SRC DST (array 0x01 4) short) UDPError.LengthOutOfRange).

Definition test_udp_parse_rejects_empty_ip_payload : outcome unit :=
  refused (ipv4_wrap SRC DST []) UDPError.LengthOutOfRange.

Definition test_udp_new_sets_header_fields : outcome unit :=
  packet ← expect_ok (new 0x1234 0x5678 PAYLOAD);
  assert_eq (source_port packet) 0x1234;; assert_eq (dest_port packet) 0x5678;;
  assert_eq (data packet) PAYLOAD;; assert_eq (datagram_length packet) 12;;
  assert_eq (checksum packet) 0.

Definition test_udp_new_empty_payload : outcome unit :=
  packet ← expect_ok (new 0x1234 0x5678 []);
  assert_eq (datagram_length packet) 8;; assert_eq (data packet) [].

Definition test_udp_new_max_payload : outcome unit :=
  let payload := array 0x41 MAX_UDP_PAYLOAD in
  packet ← expect_ok (new 0x1234 0x5678 payload);
  assert_eq (datagram_length packet) (2 ^ 16 - 1).

Definition test_udp_new_rejects_oversized_payload : outcome unit :=
  let payload := array 0x41 (MAX_UDP_PAYLOAD + 1) in
  assert_eq (err (new 0x1234 0x5678 payload)) (Some UDPError.LengthOutOfRange).

Definition test_udp_new_rejects_payload_overflowing_length_field : outcome unit :=
  let payload := array 0x41 (2 ^ 16 - 1 + 1) in
  assert_eq (err (new 0x1234 0x5678 payload)) (Some UDPError.LengthOutOfRange).

Definition test_udp_new_serializes_to_capture : outcome unit :=
  packet ← expect_ok (new 0x1234 0x5678 PAYLOAD);
  r ← serialize_ipv4 packet SRC DST; d ← expect_ok r; assert_eq d VALID_UDP;;
  empty ← expect_ok (new 0x1234 0x5678 []);
  r ← serialize_ipv4 empty SRC DST; d ← expect_ok r; assert_eq d VALID_UDP_EMPTY.

Definition test_udp_new_round_trip : outcome unit :=
  packet ← expect_ok (new 0xabcd 0x0035 PAYLOAD);
  r ← serialize_ipv4 packet SRC DST; datagram ← expect_ok r;
  r ← receive (ipv4_wrap SRC DST datagram); parsed ← expect_ok r;
  assert_eq (source_port parsed) 0xabcd;; assert_eq (dest_port parsed) 0x0035;;
  assert_eq (data parsed) PAYLOAD;;
  assert_eq (datagram_length parsed) (datagram_length packet).

Definition test_udp_serialize_matches_capture : outcome unit :=
  let packet := {| source_port := 0x1234; dest_port := 0x5678; datagram_length := 12;
                   checksum := 0x2de2; data := PAYLOAD |} in
  r ← serialize_ipv4 packet SRC DST; serialized ← expect_ok r; assert_eq serialized VALID_UDP.

Definition test_udp_serialize_empty_payload : outcome unit :=
  let packet := {| source_port := 0x1234; dest_port := 0x5678; datagram_length := 8;
                   checksum := 0xcb87; data := [] |} in
  r ← serialize_ipv4 packet SRC DST; serialized ← expect_ok r;
  assert_eq serialized VALID_UDP_EMPTY.

Definition test_udp_serialize_checksum_verifies : outcome unit :=
  let packet := {| source_port := 0xabcd; dest_port := 0x0035; datagram_length := 0;
                   checksum := 0; data := PAYLOAD |} in
  r ← serialize_ipv4 packet SRC DST; serialized ← expect_ok r;
  declared_len ← read U16 serialized 4 6;
  assert_eq declared_len (len serialized);;
  sum ← internet_checksum
    [octets SRC; octets DST; [0x0; 0x11]; to_be_bytes 2 declared_len; serialized];
  assert_eq sum 0.

Definition test_udp_serialize_zero_checksum_sent_as_all_ones : outcome unit :=
  let packet := {| source_port := 0x1234; dest_port := 0x5678; datagram_length := 10;
                   checksum := 0; data := [0xcb; 0x83] |} in
  r ← serialize_ipv4 packet SRC DST; serialized ← expect_ok r;
  s ← slice serialized 6 8; assert_eq s [0xff; 0xff].

Definition test_udp_serialize_round_trip : outcome unit :=
  let packet := {| source_port := 0xabcd; dest_port := 0x0035; datagram_length := 0;
                   checksum := 0; data := PAYLOAD |} in
  r ← serialize_ipv4 packet SRC DST; datagram ← expect_ok r;
  r ← receive (ipv4_wrap SRC DST datagram); parsed ← expect_ok r;
  assert_eq (source_port parsed) 0xabcd;; assert_eq (dest_port parsed) 0x0035;;
  assert_eq (data parsed) PAYLOAD.

(** The packet of the last three tests. *)
Definition large (payload : list Z) : t :=
  {| source_port := 0x1234; dest_port := 0x5678; datagram_length := 0; checksum := 0;
     data := payload |}.

Definition test_udp_serialize_max_payload : outcome unit :=
  r ← serialize_ipv4 (large (array 0x41 MAX_UDP_PAYLOAD)) SRC DST; serialized ← expect_ok r;
  assert_eq (len serialized) (2 ^ 16 - 1);;
  declared ← read U16 serialized 4 6; assert_eq declared (2 ^ 16 - 1).

Definition test_udp_serialize_rejects_oversized_payload : outcome unit :=
  r ← serialize_ipv4 (large (array 0x41 (MAX_UDP_PAYLOAD + 1))) SRC DST;
  assert_eq (err r) (Some UDPError.LengthOutOfRange).

Definition test_udp_serialize_rejects_payload_overflowing_length_field : outcome unit :=
  r ← serialize_ipv4 (large (array 0x41 (2 ^ 16 - 1 + 1))) SRC DST;
  assert_eq (err r) (Some UDPError.LengthOutOfRange).

Definition all : list (outcome unit) :=
  [test_udp_builder_matches_capture; test_udp_parse_valid; test_udp_parse_empty_payload;
   test_udp_parse_ignores_ipv4_options; test_udp_parse_accepts_zero_checksum;
   test_udp_parse_rejects_corrupt_payload; test_udp_parse_rejects_corrupt_checksum_field;
   test_udp_parse_rejects_wrong_pseudo_header; test_udp_parse_rejects_length_over_datagram;
   test_udp_parse_rejects_length_under_datagram; test_udp_parse_rejects_length_below_header;
   test_udp_parse_checks_length_before_checksum; test_udp_parse_rejects_truncated_header;
   test_udp_parse_rejects_truncated_header_with_ipv4_options;
   test_udp_parse_rejects_empty_ip_payload; test_udp_new_sets_header_fields;
   test_udp_new_empty_payload; test_udp_new_max_payload; test_udp_new_rejects_oversized_payload;
   test_udp_new_rejects_payload_overflowing_length_field; test_udp_new_serializes_to_capture;
   test_udp_new_round_trip; test_udp_serialize_matches_capture; test_udp_serialize_empty_payload;
   test_udp_serialize_checksum_verifies; test_udp_serialize_zero_checksum_sent_as_all_ones;
   test_udp_serialize_round_trip; test_udp_serialize_max_payload;
   test_udp_serialize_rejects_oversized_payload;
   test_udp_serialize_rejects_payload_overflowing_length_field].
End UdpTests.

(** ** [net/src/dhcp.rs] *)

Module DhcpTests.
Definition CLIENT_MAC : MacAddress := Mac 0x52 0x54 0x00 0x12 0x34 0x56.
Definition CAPTURE_XID : Z := 0xbcb0ed7d.
Definition DISCOVER : list Z :=
  [0x01; 0x01; 0x06; 0x00; 0xbc; 0xb0; 0xed; 0x7d; 0x00; 0x00; 0x80] ++
  array 0x00 17 ++
  [0x52; 0x54; 0x00; 0x12; 0x34; 0x56] ++
  array 0x00 202 ++
  [0x63; 0x82; 0x53; 0x63; 0x35; 0x01; 0x01; 0x37; 0x02; 0x01; 0x03; 0xff] ++
  array 0x00 52.
Definition OFFER : list Z :=
  [0x02; 0x01; 0x06; 0x00; 0xbc; 0xb0; 0xed; 0x7d] ++
  array 0x00 8 ++
  [0x0a; 0x00; 0x02; 0x0f; 0x0a; 0x00; 0x02; 0x02; 0x00; 0x00; 0x00; 0x00; 0x52; 0x54; 0x00;
   0x12; 0x34; 0x56] ++
  array 0x00 202 ++
  [0x63; 0x82; 0x53; 0x63; 0x35; 0x01; 0x02; 0x36; 0x04; 0x0a; 0x00; 0x02; 0x02; 0x01; 0x04;
   0xff; 0xff; 0xff; 0x00; 0x03; 0x04; 0x0a; 0x00; 0x02; 0x02; 0x06; 0x04; 0x0a; 0x00; 0x02;
   0x03; 0x33; 0x04; 0x00; 0x01; 0x51; 0x80; 0xff].
Definition OFFER_OPTIONS : list Z :=
  [53; 1; 2] ++ [54; 4; 10; 0; 2; 2] ++ [1; 4; 255; 255; 255; 0] ++ [3; 4; 10; 0; 2; 2] ++
  [6; 4; 10; 0; 2; 3] ++ [51; 4; 0; 1; 0x51; 0x80] ++ [255].
Definition CAPTURE_BINDING : DHCPBinding.t := {|
  DHCPBinding.client_addr := Ip 10 0 2 15; DHCPBinding.subnet_mask := Ip 255 255 255 0;
  DHCPBinding.gateway := Ip 10 0 2 2; DHCPBinding.server_id := Ip 10 0 2 2 |}.

Definition offer_with (options : list Z) : outcome (list Z) :=
  msg ← slice_to OFFER FIXED_LEN; Ret (msg ++ options).
Definition ack_from_capture : outcome (list Z) :=
  set_index OFFER (FIXED_LEN + 2) (DHCPMessageType.as_u8 DHCPMessageType.Ack).
Definition parse (msg : list Z) : outcome (result DHCPBinding.t DHCPError.t) :=
  from_offer msg CAPTURE_XID CLIENT_MAC.
Definition parse_ack (msg : list Z) : outcome (result DHCPBinding.t DHCPError.t) :=
  from_ack msg CAPTURE_XID CLIENT_MAC.

(** [assert_eq!(parse(&msg), r)]; the same for the options [offer_with] wraps; and
    [assert_eq!(parse(&msg), parse(&OFFER))]. *)
Definition parses (msg : list Z) (r : result DHCPBinding.t DHCPError.t) : outcome unit :=
  r' ← parse msg; assert_eq r' r.
Definition refused (options : list Z) (e : DHCPError.t) : outcome unit :=
  msg ← offer_with options; parses msg (Err e).
Definition like_offer (msg : list Z) : outcome unit := r ← parse OFFER; parses msg r.

Definition test_build_discover_matches_capture : outcome unit :=
  msg ← build_discover CLIENT_MAC CAPTURE_XID; assert_eq msg DISCOVER.

Definition test_build_discover_is_padded_to_bootp_minimum : outcome unit :=
  msg ← build_discover CLIENT_MAC CAPTURE_XID;
  assert_eq (len msg) MESSAGE_LEN;;
  b ← index msg (FIXED_LEN + 7); assert_eq b OPT_END;;
  rest ← slice_from msg (FIXED_LEN + 8); assert_true (forallb (λ b, b =? 0) rest).

Definition test_build_discover_carries_xid_and_mac : outcome unit :=
  msg ← build_discover CLIENT_MAC 0x01234567;
  xid ← read U32 msg XID.1 XID.2; assert_eq xid 0x01234567;;
  s ← slice msg 28 34; assert_eq s (mac_addr CLIENT_MAC);;
  s ← slice msg 34 44; assert_eq s (array 0 10).

Definition test_build_discover_requests_broadcast_reply : outcome unit :=
  msg ← build_discover CLIENT_MAC CAPTURE_XID;
  flags ← read U16 msg FLAGS.1 FLAGS.2; assert_eq flags FLAG_BROADCAST.

Definition test_build_request_options : outcome unit :=
  msg ← build_request CLIENT_MAC CAPTURE_XID CAPTURE_BINDING;
  s ← slice msg FIXED_LEN (FIXED_LEN + 20);
  assert_eq s ([53; 1; 3] ++ [50; 4; 10; 0; 2; 15] ++ [54; 4; 10; 0; 2; 2] ++ [55; 2; 1; 3] ++ [255]);;
  rest ← slice_from msg (FIXED_LEN + 20); assert_true (forallb (λ b, b =? 0) rest).

Definition test_build_request_shares_the_discover_header : outcome unit :=
  request ← build_request CLIENT_MAC CAPTURE_XID CAPTURE_BINDING;
  a ← slice_to request FIXED_LEN; b ← slice_to DISCOVER FIXED_LEN; assert_eq a b.

Definition test_build_request_leaves_ciaddr_unset : outcome unit :=
  msg ← build_request CLIENT_MAC CAPTURE_XID CAPTURE_BINDING;
  s ← slice msg 12 16; assert_eq s (array 0 4);;
  s ← slice msg YIADDR.1 YIADDR.2; assert_eq s (array 0 4).

(** The address and the server a request names. *)
Definition names (msg : list Z) (b : DHCPBinding.t) : outcome unit :=
  s ← slice msg (FIXED_LEN + 5) (FIXED_LEN + 9); assert_eq s (octets (DHCPBinding.client_addr b));;
  s ← slice msg (FIXED_LEN + 11) (FIXED_LEN + 15); assert_eq s (octets (DHCPBinding.server_id b)).

Definition test_build_request_names_the_offer_it_accepts : outcome unit :=
  let other := {|
    DHCPBinding.client_addr := Ip 192 168 1 50; DHCPBinding.subnet_mask := Ip 255 255 0 0;
    DHCPBinding.gateway := Ip 192 168 1 1; DHCPBinding.server_id := Ip 192 168 1 254 |} in
  msg ← build_request CLIENT_MAC CAPTURE_XID other;
  s ← slice msg (FIXED_LEN + 3) (FIXED_LEN + 5); assert_eq s [OPT_REQUESTED_ADDR; 4];;
  s ← slice msg (FIXED_LEN + 9) (FIXED_LEN + 11); assert_eq s [OPT_SERVER_ID; 4];;
  names msg other.

Definition test_build_request_is_not_a_reply : outcome unit :=
  msg ← build_request CLIENT_MAC CAPTURE_XID CAPTURE_BINDING;
  r ← parse_ack msg; assert_eq r (Err DHCPError.NotAReply).

Definition test_parse_offer_from_capture : outcome unit :=
  r ← parse OFFER; offer ← expect_ok r; assert_eq offer CAPTURE_BINDING.

Definition test_parse_ack : outcome unit :=
  msg ← ack_from_capture; r ← parse_ack msg; ack ← expect_ok r; assert_eq ack CAPTURE_BINDING.

Definition test_ack_and_offer_are_not_interchangeable : outcome unit :=
  r ← parse_ack OFFER; assert_eq r (Err DHCPError.WrongMessageType);;
  msg ← ack_from_capture; parses msg (Err DHCPError.WrongMessageType).

Definition test_ack_is_checked_like_an_offer : outcome unit :=
  msg ← ack_from_capture; msg ← xor_index msg (XID.1 + 0) 0xff;
  r ← parse_ack msg; assert_eq r (Err DHCPError.XidMismatch);;
  msg ← ack_from_capture; msg ← xor_index msg (CHADDR.1 + 5) 0xff;
  r ← parse_ack msg; assert_eq r (Err DHCPError.ClientMacMismatch).

Definition test_binding_round_trips_through_a_request : outcome unit :=
  r ← parse OFFER; offer ← expect_ok r;
  request ← build_request CLIENT_MAC CAPTURE_XID offer;
  xid ← read U32 request XID.1 XID.2; assert_eq xid CAPTURE_XID;;
  names request offer.

Definition test_offer_ignores_padding_after_end : outcome unit :=
  like_offer (OFFER ++ array 0 (548 - len OFFER)).

Definition test_offer_ignores_junk_after_end : outcome unit :=
  like_offer (OFFER ++ [3; 4; 192; 168]).

Definition test_offer_accepts_end_as_last_byte : outcome unit :=
  msg ← offer_with OFFER_OPTIONS;
  b ← expect (last msg); assert_eq b OPT_END;; like_offer msg.

Definition test_offer_skips_pad_options : outcome unit :=
  let options := [OPT_PAD; OPT_PAD] in
  let options := options ++ [53; 1; 2; OPT_PAD] in
  let options := options ++ [54; 4; 10; 0; 2; 2; OPT_PAD] in
  let options := options ++ [1; 4; 255; 255; 255; 0; OPT_PAD] in
  let options := options ++ [3; 4; 10; 0; 2; 2; 255] in
  msg ← offer_with options; like_offer msg.

Definition test_offer_skips_unknown_options : outcome unit :=
  msg ← offer_with [53; 1; 2; 54; 4; 10; 0; 2; 2; 1; 4; 255; 255; 255; 0; 3; 4; 10; 0; 2; 2; 255];
  like_offer msg.

Definition test_offer_skips_zero_length_option : outcome unit :=
  msg ← offer_with ([116; 0] ++ OFFER_OPTIONS); like_offer msg.

Definition test_offer_takes_first_router : outcome unit :=
  msg ← offer_with ([53; 1; 2] ++ [54; 4; 10; 0; 2; 2] ++ [1; 4; 255; 255; 255; 0] ++
    [3; 8; 10; 0; 2; 2; 10; 0; 2; 9] ++ [255]);
  r ← parse msg; offer ← expect_ok r; assert_eq (DHCPBinding.gateway offer) (Ip 10 0 2 2).

Definition test_offer_rejects_short_message : outcome unit :=
  msg ← slice_to OFFER (FIXED_LEN - 1); parses msg (Err DHCPError.TooShort);;
  parses [] (Err DHCPError.TooShort).

Definition test_offer_rejects_header_without_options : outcome unit :=
  msg ← slice_to OFFER FIXED_LEN; parses msg (Err DHCPError.InvalidTLV).

Definition test_offer_rejects_request_op : outcome unit :=
  msg ← set_index OFFER 0 OP_BOOT_REQUEST; parses msg (Err DHCPError.NotAReply).

Definition test_offer_rejects_non_ethernet_hardware : outcome unit :=
  for_each [(1, 6); (2, 16)] (λ '(i, byte),
    msg ← set_index OFFER i byte; parses msg (Err DHCPError.NotAReply)).

Definition test_offer_rejects_bad_magic_cookie : outcome unit :=
  msg ← xor_index OFFER (COOKIE.1 + 3) 0xff; parses msg (Err DHCPError.BadMagicCookie).

Definition test_offer_rejects_other_exchange : outcome unit :=
  msg ← xor_index OFFER (XID.1 + 0) 0xff; parses msg (Err DHCPError.XidMismatch).

Definition test_offer_rejects_other_client : outcome unit :=
  msg ← xor_index OFFER (CHADDR.1 + 5) 0xff; parses msg (Err DHCPError.ClientMacMismatch).

Definition test_offer_rejects_dirty_hardware_address_padding : outcome unit :=
  msg ← set_index OFFER (CHADDR.1 + 6) 0x01; parses msg (Err DHCPError.ClientMacMismatch).

Definition test_offer_rejects_wrong_message_type : outcome unit :=
  for_each [DHCPMessageType.Discover; DHCPMessageType.Request; DHCPMessageType.Ack;
            DHCPMessageType.Nak] (λ message_type,
    options ← set_index OFFER_OPTIONS 2 (DHCPMessageType.as_u8 message_type);
    refused options DHCPError.WrongMessageType).

Definition test_offer_rejects_missing_message_type : outcome unit :=
  refused [1; 4; 255; 255; 255; 0; 3; 4; 10; 0; 2; 2; 255] DHCPError.WrongMessageType.

Definition test_offer_rejects_unknown_message_type : outcome unit :=
  options ← set_index OFFER_OPTIONS 2 9; refused options DHCPError.InvalidTLV.

Definition test_offer_rejects_missing_subnet_mask : outcome unit :=
  refused [53; 1; 2; 54; 4; 10; 0; 2; 2; 3; 4; 10; 0; 2; 2; 255] DHCPError.MissingData.

Definition test_offer_rejects_missing_router : outcome unit :=
  refused [53; 1; 2; 54; 4; 10; 0; 2; 2; 1; 4; 255; 255; 255; 0; 255] DHCPError.MissingData.

Definition test_offer_rejects_missing_server_id : outcome unit :=
  refused [53; 1; 2; 1; 4; 255; 255; 255; 0; 3; 4; 10; 0; 2; 2; 255] DHCPError.MissingData.

Definition test_offer_rejects_bad_server_id_length : outcome unit :=
  refused [53; 1; 2; 54; 3; 10; 0; 2; 1; 4; 255; 255; 255; 0; 3; 4; 10; 0; 2; 2; 255]
    DHCPError.InvalidTLV.

Definition test_offer_rejects_unspecified_address : outcome unit :=
  msg ← copy_range OFFER YIADDR.1 YIADDR.2 (octets UNSPECIFIED);
  parses msg (Err DHCPError.MissingData).

(** [Vec::pop] *)
Definition pop (l : list Z) : list Z := take (length l - 1) l.

Definition test_offer_rejects_missing_end : outcome unit :=
  refused (pop OFFER_OPTIONS) DHCPError.InvalidTLV.

Definition test_offer_rejects_option_running_past_the_message : outcome unit :=
  refused [53; 1; 2; 1; 4; 255; 255; 255; 0; 3; 8; 10; 0; 2; 2; 255] DHCPError.InvalidTLV.

Definition test_offer_rejects_tag_without_length : outcome unit :=
  refused (pop OFFER_OPTIONS ++ [3]) DHCPError.InvalidTLV.

Definition test_offer_rejects_bad_option_lengths : outcome unit :=
  for_each
    [[53; 0; 1; 4; 255; 255; 255; 0; 3; 4; 10; 0; 2; 2; 255];
     [53; 2; 2; 2; 1; 4; 255; 255; 255; 0; 3; 4; 10; 0; 2; 2; 255];
     [53; 1; 2; 1; 0; 3; 4; 10; 0; 2; 2; 255];
     [53; 1; 2; 1; 3; 255; 255; 255; 3; 4; 10; 0; 2; 2; 255];
     [53; 1; 2; 1; 4; 255; 255; 255; 0; 3; 0; 255];
     [53; 1; 2; 1; 4; 255; 255; 255; 0; 3; 6; 10; 0; 2; 2; 10; 0; 255]]
    (λ options, refused options DHCPError.InvalidTLV).

Definition test_offer_checks_identity_before_contents : outcome unit :=
  msg ← xor_index OFFER (XID.1 + 0) 0xff;
  msg ← set_index msg FIXED_LEN 3;
  parses msg (Err DHCPError.XidMismatch).

Definition test_discover_parses_as_its_own_message_type : outcome unit :=
  msg ← build_discover CLIENT_MAC CAPTURE_XID; parses msg (Err DHCPError.NotAReply).

Definition test_message_type_round_trip : outcome unit :=
  for_each [DHCPMessageType.Discover; DHCPMessageType.Offer; DHCPMessageType.Request;
            DHCPMessageType.Decline; DHCPMessageType.Ack; DHCPMessageType.Nak;
            DHCPMessageType.Release; DHCPMessageType.Inform] (λ message_type,
    assert_eq (DHCPMessageType.try_from (DHCPMessageType.as_u8 message_type)) (Ok message_type));;
  assert_eq (DHCPMessageType.try_from 0) (Err tt);;
  assert_eq (DHCPMessageType.try_from 9) (Err tt).

Definition all : list (outcome unit) :=
  [test_build_discover_matches_capture; test_build_discover_is_padded_to_bootp_minimum;
   test_build_discover_carries_xid_and_mac; test_build_discover_requests_broadcast_reply;
   test_build_request_options; test_build_request_shares_the_discover_header;
   test_build_request_leaves_ciaddr_unset; test_build_request_names_the_offer_it_accepts;
   test_build_request_is_not_a_reply; test_parse_offer_from_capture; test_parse_ack;
   test_ack_and_offer_are_not_interchangeable; test_ack_is_checked_like_an_offer;
   test_binding_round_trips_through_a_request; test_offer_ignores_padding_after_end;
   test_offer_ignores_junk_after_end; test_offer_accepts_end_as_last_byte;
   test_offer_skips_pad_options; test_offer_skips_unknown_options;
   test_offer_skips_zero_length_option; test_offer_takes_first_router;
   test_offer_rejects_short_message; test_offer_rejects_header_without_options;
   test_offer_rejects_request_op; test_offer_rejects_non_ethernet_hardware;
   test_offer_rejects_bad_magic_cookie; test_offer_rejects_other_exchange;
   test_offer_rejects_other_client; test_offer_rejects_dirty_hardware_address_padding;
   test_offer_rejects_wrong_message_type; test_offer_rejects_missing_message_type;
   test_offer_rejects_unknown_message_type; test_offer_rejects_missing_subnet_mask;
   test_offer_rejects_missing_router; test_offer_rejects_missing_server_id;
   test_offer_rejects_bad_server_id_length; test_offer_rejects_unspecified_address;
   test_offer_rejects_missing_end; test_offer_rejects_option_running_past_the_message;
   test_offer_rejects_tag_without_length; test_offer_rejects_bad_option_lengths;
   test_offer_checks_identity_before_contents; test_discover_parses_as_its_own_message_type;
   test_message_type_round_trip].
End DhcpTests.

(** ** They pass *)

Lemma transport_tests_pass : forallb passes (UdpTests.all ++ DhcpTests.all) = true.
Proof. vm_compute. reflexivity. Qed.
